(** * SharePoint modular menu: a shallow embedding of the data pipeline and
      of the menu controller, with the properties of its specification.

    Sources embedded here:
    - [core/scripts/data-retrieval.js]: [DataCache], [DataRetrieval]
      ([getData] and its sources, [transformSharePointData],
      [normalizeData], [normalizeItem]);
    - [core/scripts/menu-config.js]: [DEFAULT_CONFIG], [MenuConfig]
      ([mergeConfig], [validateConfig], [set], [getAll]);
    - [core/scripts/menu-engine.js]: [MenuEngine] (initialisation, the
      elements of [render()], submenu handlers, global listeners,
      [updateConfig], teardown).

    Conventions.  The numbers of menu data, of the clock and of the
    typed configuration are modelled by [Z] (no fractions, no NaN); the
    constructor of [MenuConfig] is also modelled on options of any type,
    with NaN, the infinities and fractions ([Untyped]). The wall clock
    [Date.now()] and the window width are explicit arguments; mutable
    objects live in explicit stores that the functions pass along; a
    thrown exception is the [Throw] case of [result]. *)

From Stdlib Require Import ZArith Lia.
From stdpp Require Import base option list gmap strings sorting.

Set Warnings "-register-all".

Local Open Scope string_scope.
Local Open Scope Z_scope.

(** ** JavaScript values, as far as the menu data uses them *)

Module Js.

(** A JSON-like value, plus [undefined]. An object is the function from
    property names to its own properties, [undefined] where it has none.
    [Fn name] is a function of that name: menu data holds none, but a
    string inherits one, [String.prototype.link], under a name that
    [normalizeItem] reads. *)
Inductive value : Type :=
| Undefined
| Null
| Bool (b : bool)
| Num (n : Z)
| Str (s : string)
| Arr (elems : list value)
| Obj (fields : string -> value)
| Fn (name : string).

(** ToBoolean. *)
Definition truthy (v : value) : bool :=
  match v with
  | Undefined | Null => false
  | Bool b => b
  | Num n => negb (n =? 0)
  | Str s => negb (String.eqb s "")
  | Arr _ | Obj _ | Fn _ => true
  end.

(** [a || b]. *)
Definition or (a b : value) : value := if truthy a then a else b.

(** [Array.isArray]. *)
Definition isArray (v : value) : bool :=
  match v with Arr _ => true | _ => false end.

(** [typeof v]. *)
Definition typeof (v : value) : string :=
  match v with
  | Undefined => "undefined"
  | Null | Arr _ | Obj _ => "object"
  | Bool _ => "boolean"
  | Num _ => "number"
  | Str _ => "string"
  | Fn _ => "function"
  end.

(** The object literal [{k1: v1, ..., kn: vn}]. *)
Fixpoint own (fields : list (string * value)) (k : string) : value :=
  match fields with
  | [] => Undefined
  | (k', v) :: rest => if String.eqb k' k then v else own rest k
  end.

Definition obj (fields : list (string * value)) : value := Obj (own fields).

(** What JavaScript throws. *)
Inductive error : Type :=
| TypeError (msg : string)
| Error (msg : string)
| SyntaxError (msg : string).

Inductive result (A : Type) : Type :=
| Ok (a : A)
| Throw (e : error).
Arguments Ok {A} a.
Arguments Throw {A} e.

(** [a === b] against a string literal. *)
Definition strictEqStr (v : value) (s : string) : bool :=
  match v with Str s' => String.eqb s' s | _ => false end.

End Js.

(** ** [DataCache]: the time-bounded cache of [data-retrieval.js] *)

Module DataCache.
Section Cache.

(** The cached payload is any JavaScript value; [null] is the value the
    miss path returns. *)
Variable V : Type.
Variable null : V.

Record Entry : Type := mkEntry { data : V; expiry : Z }.

(** [this.cache] (a [Map]) and [this.duration]. *)
Record t : Type := mk { cache : gmap string Entry; duration : Z }.

(** [constructor(duration = 300000)]: the default applies when the argument
    is [undefined]. *)
Definition new (duration : option Z) : t :=
  {| cache := ∅; duration := default 300000 duration |}.

(** [get(key)], at clock value [now]: the returned value and the cache
    afterwards. *)
Definition get (now : Z) (key : string) (c : t) : V * t :=
  match cache c !! key with
  | None => (null, c)
  | Some item =>
      if expiry item <? now
      then (null, {| cache := delete key (cache c); duration := duration c |})
      else (data item, c)
  end.

(** [duration || this.duration]: an omitted and a zero [duration] both
    fall back to the cache's own. *)
Definition effectiveDuration (d : option Z) (c : t) : Z :=
  match d with
  | Some n => if n =? 0 then duration c else n
  | None => duration c
  end.

(** [set(key, data, duration)], at clock value [now]. *)
Definition set (now : Z) (key : string) (d : V) (dur : option Z) (c : t) : t :=
  {| cache := <[key := {| data := d; expiry := now + effectiveDuration dur c |}]> (cache c);
     duration := duration c |}.

Definition clear (c : t) : t := {| cache := ∅; duration := duration c |}.

Definition delete (key : string) (c : t) : t :=
  {| cache := base.delete key (cache c); duration := duration c |}.

End Cache.
End DataCache.

(** ** [DataRetrieval]: normalisation and flat-to-tree reconstruction *)

Module DataRetrieval.

Import Js.

(** A normalised menu item, the object literal built by [normalizeItem]. *)
Inductive MenuItem : Type :=
  mkMenuItem {
    id : value;
    title : value;
    url : value;
    openInNewTab : value;
    icon : value;
    cssClass : value;
    level : Z;
    children : list MenuItem }.

(** What the retrieval code does besides returning: it draws random
    numbers for generated ids and writes to the console. *)
Record Env : Type := mkEnv { drawn : nat; console : list string }.

Definition M (A : Type) : Type := Env -> result A * Env.

Definition ret {A} (a : A) : M A := fun e => (Ok a, e).

Definition throw {A} (err : error) : M A := fun e => (Throw err, e).

Definition bind {A B} (c : M A) (k : A -> M B) : M B :=
  fun e =>
    match c e with
    | (Ok a, e') => k a e'
    | (Throw err, e') => (Throw err, e')
    end.

Notation "'let*' x ':=' c 'in' k" := (bind c (fun x => k))
  (at level 10, x name, c at level 100, k at level 200, only parsing).

(** [array.map(f)] for a callback that may throw. *)
Definition mapM {A B} (f : A -> M B) : list A -> M (list B) :=
  fix go (l : list A) : M (list B) :=
    match l with
    | [] => ret []
    | x :: rest =>
        let* y := f x in
        let* ys := go rest in
        ret (y :: ys)
    end.

Definition warn (msg : string) : M unit :=
  fun e => (Ok tt, {| drawn := drawn e; console := console e ++ [msg] |}).

Section Normalize.

(** The n-th value of [Math.random().toString(36).substr(2, 9)]. *)
Variable random_suffix : nat -> string.

(** [this.config.get('layers')]. *)
Variable maxLayers : Z.

(** [generateId()]. *)
Definition generateId : M value :=
  fun e => (Ok (Str ("menu_" +:+ random_suffix (drawn e))),
            {| drawn := S (drawn e); console := console e |}).

(** The body of [normalizeItem] for an item whose properties are read
    through [read]; [kids] is the recursive
    [item.children.map(child => this.normalizeItem(child, level + 1))]. *)
Definition normalizeFields (read : string -> value) (level : Z)
    (kids : M (list MenuItem)) : M MenuItem :=
  let* theId :=
    (if truthy (read "id") then ret (read "id") else generateId) in
  let normalized :=
    {| id := theId;
       title := or (or (or (read "title") (read "label")) (read "name")) (Str "Untitled");
       url := or (or (or (read "url") (read "href")) (read "link")) (Str "#");
       openInNewTab :=
         or (or (read "openInNewTab") (Bool (strictEqStr (read "target") "_blank")))
            (Bool false);
       icon := or (read "icon") Null;
       cssClass := or (or (read "cssClass") (read "className")) (Str "");
       level := level;
       children := [] |} in
  if (level <? maxLayers) && truthy (read "children") && isArray (read "children")
  then
    let* cs := kids in
    ret {| id := id normalized; title := title normalized; url := url normalized;
           openInNewTab := openInNewTab normalized; icon := icon normalized;
           cssClass := cssClass normalized; level := level; children := cs |}
  else ret normalized.

(** [item[key]] for a primitive value or a function, for the keys that
    [normalizeItem] reads: a string inherits [String.prototype.link], a
    function has its [name], and there is nothing else under these keys. *)
Definition inherited (item : value) (key : string) : value :=
  match item with
  | Str _ => if String.eqb key "link" then Fn "link" else Undefined
  | Fn name => if String.eqb key "name" then Str name else Undefined
  | _ => Undefined
  end.

(** [normalizeItem(item, level)]. Reading a property of [null] or of
    [undefined] throws; an object gives its own property; any other value
    gives what it inherits under the key. *)
Fixpoint normalizeItem (item : value) (level : Z) {struct item} : M MenuItem :=
  match item with
  | Undefined => throw (TypeError "Cannot read properties of undefined")
  | Null => throw (TypeError "Cannot read properties of null")
  | Obj fields =>
      normalizeFields fields level
        (match fields "children" with
         | Arr elems => mapM (fun child => normalizeItem child (level + 1)) elems
         | _ => ret []
         end)
  | _ => normalizeFields (inherited item) level (ret [])
  end.

(** [normalizeData(data)]. *)
Definition normalizeData (data : value) : M (list MenuItem) :=
  match data with
  | Arr elems => mapM (fun item => normalizeItem item 1) elems
  | _ =>
      let* _ := warn ("Menu data should be an array, received: " +:+ typeof data) in
      ret []
  end.

End Normalize.

End DataRetrieval.

(** ** [MenuConfig]: defaults, merge and validation of [menu-config.js] *)

Module MenuConfig.

Import Js.

(** The options the models below read. The animation, accessibility and
    callback slots of [DEFAULT_CONFIG] carry no behaviour that is modelled
    and are left out. *)
Record SharePointConfig : Type := mkSharePoint {
  enabled : bool;
  listName : string;
  siteUrl : string;
  selectFields : list string;
  orderBy : string;
  ascending : bool }.

Record DataSourceConfig : Type := mkDataSource {
  type : string;
  url : string;
  data : value }.

Record Config : Type := mkConfig {
  layers : Z;
  triggerType : string;
  closeOnOutsideClick : bool;
  closeOnEscape : bool;
  hoverDelay : Z;
  closeDelay : Z;
  enableKeyboardNavigation : bool;
  mobileBreakpoint : Z;
  cacheData : bool;
  cacheDuration : Z;
  sharePoint : SharePointConfig;
  dataSource : DataSourceConfig }.

Definition DEFAULT_CONFIG : Config :=
  {| layers := 3;
     triggerType := "hover";
     closeOnOutsideClick := true;
     closeOnEscape := true;
     hoverDelay := 150;
     closeDelay := 300;
     enableKeyboardNavigation := true;
     mobileBreakpoint := 768;
     cacheData := true;
     cacheDuration := 300000;
     sharePoint :=
       {| enabled := false; listName := ""; siteUrl := "";
          selectFields := ["Title"; "Url"; "ParentId"; "Order"; "OpenInNewTab"];
          orderBy := "Order"; ascending := true |};
     dataSource := {| type := "static"; url := ""; data := Undefined |} |}.

(** The [options] argument: each property is given ([Some]) or not. *)
Record SharePointOptions : Type := mkSharePointOptions {
  o_enabled : option bool;
  o_listName : option string;
  o_siteUrl : option string;
  o_selectFields : option (list string);
  o_orderBy : option string;
  o_ascending : option bool }.

Record DataSourceOptions : Type := mkDataSourceOptions {
  o_type : option string;
  o_url : option string;
  o_data : option value }.

Record Options : Type := mkOptions {
  o_layers : option Z;
  o_triggerType : option string;
  o_closeOnOutsideClick : option bool;
  o_closeOnEscape : option bool;
  o_hoverDelay : option Z;
  o_closeDelay : option Z;
  o_enableKeyboardNavigation : option bool;
  o_mobileBreakpoint : option Z;
  o_cacheData : option bool;
  o_cacheDuration : option Z;
  o_sharePoint : option SharePointOptions;
  o_dataSource : option DataSourceOptions }.

(** [{}]. *)
Definition no_options : Options :=
  {| o_layers := None; o_triggerType := None; o_closeOnOutsideClick := None;
     o_closeOnEscape := None; o_hoverDelay := None; o_closeDelay := None;
     o_enableKeyboardNavigation := None; o_mobileBreakpoint := None;
     o_cacheData := None; o_cacheDuration := None; o_sharePoint := None;
     o_dataSource := None |}.

(** [mergeConfig(defaults, overrides)]: an override replaces the default,
    and the two nested objects are merged property by property. *)
Definition mergeSharePoint (d : SharePointConfig) (o : SharePointOptions) : SharePointConfig :=
  {| enabled := default (enabled d) (o_enabled o);
     listName := default (listName d) (o_listName o);
     siteUrl := default (siteUrl d) (o_siteUrl o);
     selectFields := default (selectFields d) (o_selectFields o);
     orderBy := default (orderBy d) (o_orderBy o);
     ascending := default (ascending d) (o_ascending o) |}.

Definition mergeDataSource (d : DataSourceConfig) (o : DataSourceOptions) : DataSourceConfig :=
  {| type := default (type d) (o_type o);
     url := default (url d) (o_url o);
     data := default (data d) (o_data o) |}.

Definition mergeConfig (defaults : Config) (overrides : Options) : Config :=
  {| layers := default (layers defaults) (o_layers overrides);
     triggerType := default (triggerType defaults) (o_triggerType overrides);
     closeOnOutsideClick :=
       default (closeOnOutsideClick defaults) (o_closeOnOutsideClick overrides);
     closeOnEscape := default (closeOnEscape defaults) (o_closeOnEscape overrides);
     hoverDelay := default (hoverDelay defaults) (o_hoverDelay overrides);
     closeDelay := default (closeDelay defaults) (o_closeDelay overrides);
     enableKeyboardNavigation :=
       default (enableKeyboardNavigation defaults) (o_enableKeyboardNavigation overrides);
     mobileBreakpoint := default (mobileBreakpoint defaults) (o_mobileBreakpoint overrides);
     cacheData := default (cacheData defaults) (o_cacheData overrides);
     cacheDuration := default (cacheDuration defaults) (o_cacheDuration overrides);
     sharePoint :=
       match o_sharePoint overrides with
       | Some o => mergeSharePoint (sharePoint defaults) o
       | None => sharePoint defaults
       end;
     dataSource :=
       match o_dataSource overrides with
       | Some o => mergeDataSource (dataSource defaults) o
       | None => dataSource defaults
       end |}.

(** [array.includes(s)] on strings. *)
Definition includes (l : list string) (s : string) : bool :=
  existsb (String.eqb s) l.

(** The double quote character. *)
Definition dq : string := String (Ascii.ascii_of_nat 34) "".

Definition validDataTypes : list string := ["static"; "json"; "sharepoint"; "api"].

(** [array.join(sep)]. *)
Fixpoint join (sep : string) (l : list string) : string :=
  match l with
  | [] => ""
  | [x] => x
  | x :: rest => x +:+ sep +:+ join sep rest
  end.

(** The [errors] array that [validateConfig] has collected when it reaches
    its final test. *)
Definition validationErrors (config : Config) : list string :=
  (if (layers config <? 1) || (3 <? layers config)
   then ["layers must be between 1 and 3"] else []) ++
  (if negb (includes ["hover"; "click"] (triggerType config))
   then ["triggerType must be " +:+ dq +:+ "hover" +:+ dq +:+ " or " +:+ dq +:+ "click" +:+ dq]
   else []) ++
  (if negb (includes validDataTypes (type (dataSource config)))
   then ["dataSource.type must be one of: " +:+ join ", " validDataTypes] else []) ++
  (if hoverDelay config <? 0
   then ["hoverDelay must be a positive number"] else []) ++
  (if closeDelay config <? 0
   then ["closeDelay must be a positive number"] else []).

(** [validateConfig()]: returns normally or throws (after writing the
    errors to the console, which is not modelled here). *)
Definition validateConfig (config : Config) : result unit :=
  let errors := validationErrors config in
  if (0 <? Z.of_nat (length errors))
  then Throw (Error ("Invalid menu configuration: " +:+ join "; " errors))
  else Ok tt.

(** [new MenuConfig(options)]: the instance, or the exception that leaves
    the caller without one. *)
Definition new (options : Options) : result Config :=
  let config := mergeConfig DEFAULT_CONFIG options in
  match validateConfig config with
  | Ok _ => Ok config
  | Throw e => Throw e
  end.

(** [set(key, value)] for a key of the top level and a value of the type
    that the key has in [DEFAULT_CONFIG]. A path into [sharePoint] or
    [dataSource] writes to an object that a configuration built without
    that option has in common with [DEFAULT_CONFIG], and is left out. *)
Inductive Assignment : Type :=
| Layers (v : Z)
| TriggerType (v : string)
| CloseOnOutsideClick (v : bool)
| CloseOnEscape (v : bool)
| HoverDelay (v : Z)
| CloseDelay (v : Z)
| EnableKeyboardNavigation (v : bool)
| MobileBreakpoint (v : Z)
| CacheData (v : bool)
| CacheDuration (v : Z).

(** The property is written; nothing is validated. *)
Definition set (a : Assignment) (c : Config) : Config :=
  {| layers := match a with Layers v => v | _ => layers c end;
     triggerType := match a with TriggerType v => v | _ => triggerType c end;
     closeOnOutsideClick :=
       match a with CloseOnOutsideClick v => v | _ => closeOnOutsideClick c end;
     closeOnEscape := match a with CloseOnEscape v => v | _ => closeOnEscape c end;
     hoverDelay := match a with HoverDelay v => v | _ => hoverDelay c end;
     closeDelay := match a with CloseDelay v => v | _ => closeDelay c end;
     enableKeyboardNavigation :=
       match a with EnableKeyboardNavigation v => v | _ => enableKeyboardNavigation c end;
     mobileBreakpoint := match a with MobileBreakpoint v => v | _ => mobileBreakpoint c end;
     cacheData := match a with CacheData v => v | _ => cacheData c end;
     cacheDuration := match a with CacheDuration v => v | _ => cacheDuration c end;
     sharePoint := sharePoint c;
     dataSource := dataSource c |}.

End MenuConfig.

(** ** [MenuConfig]: [getAll], [isSharePointEnabled]; [MenuEngine.updateConfig] *)

Module MenuConfigMethods.

Import Js MenuConfig.

(** The five rules of [validateConfig]. *)
Definition rulesHold (config : Config) : Prop :=
  1 <= layers config <= 3 /\
  (triggerType config = "hover" \/ triggerType config = "click") /\
  type (dataSource config) ∈ validDataTypes /\
  0 <= hoverDelay config /\ 0 <= closeDelay config.

(** [getAll()], [{ ...this.config }]: an object with every property of the
    configuration; the two nested objects are the configuration's own. *)
Definition getAll (c : Config) : Options :=
  {| o_layers := Some (layers c);
     o_triggerType := Some (triggerType c);
     o_closeOnOutsideClick := Some (closeOnOutsideClick c);
     o_closeOnEscape := Some (closeOnEscape c);
     o_hoverDelay := Some (hoverDelay c);
     o_closeDelay := Some (closeDelay c);
     o_enableKeyboardNavigation := Some (enableKeyboardNavigation c);
     o_mobileBreakpoint := Some (mobileBreakpoint c);
     o_cacheData := Some (cacheData c);
     o_cacheDuration := Some (cacheDuration c);
     o_sharePoint :=
       Some {| o_enabled := Some (enabled (sharePoint c));
               o_listName := Some (listName (sharePoint c));
               o_siteUrl := Some (siteUrl (sharePoint c));
               o_selectFields := Some (selectFields (sharePoint c));
               o_orderBy := Some (orderBy (sharePoint c));
               o_ascending := Some (ascending (sharePoint c)) |};
     o_dataSource :=
       Some {| o_type := Some (type (dataSource c));
               o_url := Some (url (dataSource c));
               o_data := Some (data (dataSource c)) |} |}.

(** A property of [{ ...a, ...b }]: that of [b] when [b] has it, that of
    [a] otherwise. *)
Definition pick {A} (a b : option A) : option A :=
  match b with
  | Some v => Some v
  | None => a
  end.

(** [{ ...a, ...b }]. The spread copies properties one level deep: a
    nested object of [b] replaces that of [a] as a whole. *)
Definition spread (a b : Options) : Options :=
  {| o_layers := pick (o_layers a) (o_layers b);
     o_triggerType := pick (o_triggerType a) (o_triggerType b);
     o_closeOnOutsideClick := pick (o_closeOnOutsideClick a) (o_closeOnOutsideClick b);
     o_closeOnEscape := pick (o_closeOnEscape a) (o_closeOnEscape b);
     o_hoverDelay := pick (o_hoverDelay a) (o_hoverDelay b);
     o_closeDelay := pick (o_closeDelay a) (o_closeDelay b);
     o_enableKeyboardNavigation :=
       pick (o_enableKeyboardNavigation a) (o_enableKeyboardNavigation b);
     o_mobileBreakpoint := pick (o_mobileBreakpoint a) (o_mobileBreakpoint b);
     o_cacheData := pick (o_cacheData a) (o_cacheData b);
     o_cacheDuration := pick (o_cacheDuration a) (o_cacheDuration b);
     o_sharePoint := pick (o_sharePoint a) (o_sharePoint b);
     o_dataSource := pick (o_dataSource a) (o_dataSource b) |}.

(** [isSharePointEnabled()]:
    [enabled && listName && siteUrl], the first of the three that is falsy
    or else the last. *)
Definition isSharePointEnabled (c : Config) : value :=
  let sp := sharePoint c in
  if enabled sp
  then if truthy (Str (listName sp)) then Str (siteUrl sp) else Str (listName sp)
  else Bool false.

(** The configuration that [updateConfig(options)] hands to
    [validateConfig]. *)
Definition updated (current : Config) (options : Options) : Config :=
  {| layers := default (layers current) (o_layers options);
     triggerType := default (triggerType current) (o_triggerType options);
     closeOnOutsideClick :=
       default (closeOnOutsideClick current) (o_closeOnOutsideClick options);
     closeOnEscape := default (closeOnEscape current) (o_closeOnEscape options);
     hoverDelay := default (hoverDelay current) (o_hoverDelay options);
     closeDelay := default (closeDelay current) (o_closeDelay options);
     enableKeyboardNavigation :=
       default (enableKeyboardNavigation current) (o_enableKeyboardNavigation options);
     mobileBreakpoint := default (mobileBreakpoint current) (o_mobileBreakpoint options);
     cacheData := default (cacheData current) (o_cacheData options);
     cacheDuration := default (cacheDuration current) (o_cacheDuration options);
     sharePoint :=
       match o_sharePoint options with
       | Some o => mergeSharePoint (sharePoint DEFAULT_CONFIG) o
       | None => sharePoint current
       end;
     dataSource :=
       match o_dataSource options with
       | Some o => mergeDataSource (dataSource DEFAULT_CONFIG) o
       | None => dataSource current
       end |}.

(** [MenuEngine.updateConfig(options)], for an instance whose configuration
    is [current]: the configuration that the instance holds when the call
    returns, or the exception of [new MenuConfig], which leaves the
    instance with [current]. *)
Definition updateConfig (current : Config) (options : Options) : result Config :=
  MenuConfig.new (spread (getAll current) options).

End MenuConfigMethods.

(** ** [MenuConfig] on the options as JavaScript passes them *)

(** The constructor of [MenuConfig] takes whatever its caller passes. The
    model of this module keeps the options as they come: objects with
    their own properties in order, numbers with NaN, the infinities and
    fractions, and values of any type under any key. The typed
    [MenuConfig.Config] of the other modules is what the constructor
    returns for options of the documented types. *)
Module Untyped.

(** A number: NaN, an infinity, or the fraction [num / den]. *)
Inductive number : Type :=
| NaN
| Infinity (negative : bool)
| Ratio (num : Z) (den : positive).

(** A value. An object has its own enumerable properties in the order of
    [for ... in], no key twice; a function is known by its name only. *)
Inductive value : Type :=
| Undefined
| Null
| Bool (b : bool)
| Number (n : number)
| Str (s : string)
| Arr (elems : list value)
| Obj (props : list (string * value))
| Fn (name : string).

(** The number [k]. *)
Definition int (k : Z) : value := Number (Ratio k 1).

(** What a call does: it returns, it throws, or it does something that
    this model has no account of: it runs a function of the options, or
    it meets [__proto__] as a key. *)
Inductive outcome (A : Type) : Type :=
| Returns (a : A)
| Throws (e : Js.error)
| Unmodelled.
Arguments Returns {A} a.
Arguments Throws {A} e.
Arguments Unmodelled {A}.

Definition bind {A B} (c : outcome A) (k : A -> outcome B) : outcome B :=
  match c with
  | Returns a => k a
  | Throws e => Throws e
  | Unmodelled => Unmodelled
  end.

Notation "'run*' x ':=' c 'in' k" := (bind c (fun x => k))
  (at level 10, x name, c at level 100, k at level 200, only parsing).

(** *** Objects *)

(** The own property [key] of an object, if it has one. *)
Fixpoint lookup (props : list (string * value)) (key : string) : option value :=
  match props with
  | [] => None
  | (k, v) :: rest => if String.eqb k key then Some v else lookup rest key
  end.

(** [object[key] = v]: an own property keeps its place. *)
Fixpoint assign (key : string) (v : value) (props : list (string * value))
    : list (string * value) :=
  match props with
  | [] => [(key, v)]
  | (k, old) :: rest =>
      if String.eqb k key then (k, v) :: rest else (k, old) :: assign key v rest
  end.

(** [config.key] for a key that no prototype has: the own property, or
    [undefined]. *)
Definition get (props : list (string * value)) (key : string) : value :=
  default Undefined (lookup props key).

(** [typeof v === 'object']. *)
Definition typeofObject (v : value) : bool :=
  match v with
  | Null | Arr _ | Obj _ => true
  | _ => false
  end.

(** [{ ...defaults }] for a value with [typeof defaults === 'object']:
    the own properties of an object, the elements of an array under their
    indices, nothing of [null]. *)
Definition spread (defaults : value) : list (string * value) :=
  match defaults with
  | Obj props => props
  | Arr elems => imap (fun i x => (pretty.pretty i, x)) elems
  | _ => []
  end.

(** [typeof defaults[key] === 'object'] for a value with
    [typeof defaults === 'object'] and a key other than [__proto__].
    Reading a property of [null] throws; what an object or an array
    inherits under a key is a function or nothing. *)
Definition memberIsObject (defaults : value) (key : string) : outcome bool :=
  match defaults with
  | Null => Throws (Js.TypeError "Cannot read properties of null")
  | _ => Returns (typeofObject (get (spread defaults) key))
  end.

(** *** [DEFAULT_CONFIG] *)

Definition DEFAULT_CONFIG : value :=
  Obj [ ("layers", int 3);
        ("triggerType", Str "hover");
        ("closeOnOutsideClick", Bool true);
        ("closeOnEscape", Bool true);
        ("keepOpenOnHover", Bool true);
        ("hoverDelay", int 150);
        ("closeDelay", int 300);
        ("animated", Bool true);
        ("animationDuration", int 200);
        ("enableKeyboardNavigation", Bool true);
        ("enableAriaAttributes", Bool true);
        ("focusTrap", Bool false);
        ("mobileBreakpoint", int 768);
        ("mobileToggleSelector", Str ".sp-menu__toggle");
        ("cacheData", Bool true);
        ("cacheDuration", int 300000);
        ("sharePoint",
         Obj [ ("enabled", Bool false);
               ("listName", Str "");
               ("siteUrl", Str "");
               ("camlQuery", Str "");
               ("selectFields",
                Arr [Str "Title"; Str "Url"; Str "ParentId"; Str "Order";
                     Str "OpenInNewTab"]);
               ("orderBy", Str "Order");
               ("ascending", Bool true) ]);
        ("dataSource",
         Obj [ ("type", Str "static");
               ("url", Str "");
               ("method", Str "GET");
               ("headers", Obj []);
               ("transformResponse", Null) ]);
        ("onMenuInit", Null);
        ("onMenuOpen", Null);
        ("onMenuClose", Null);
        ("onItemClick", Null);
        ("onDataLoad", Null);
        ("onError", Null) ].

(** *** [mergeConfig] *)

(** [overrides.hasOwnProperty(key)] is the method of [Object.prototype]
    unless the object has a property of that name itself: a function,
    which the call runs, or something that cannot be called. *)
Definition hasOwnProperty (props : list (string * value)) : outcome unit :=
  match lookup props "hasOwnProperty" with
  | None => Returns tt
  | Some (Fn _) => Unmodelled
  | Some _ => Throws (Js.TypeError "overrides.hasOwnProperty is not a function")
  end.

(** [mergeConfig(defaults, overrides)]. The loop visits the own
    properties of an object; a number, a boolean, a function, [null] and
    [undefined] have none that it would visit, and the result is the copy
    of the defaults. A string and an array, with their indices as keys,
    are left out. The function calls itself with a [defaults] that has
    [typeof defaults === 'object']. *)
Fixpoint mergeConfig (defaults : value) (overrides : value) {struct overrides}
    : outcome (list (string * value)) :=
  match overrides with
  | Obj props =>
      (fix loop (rest result : list (string * value)) {struct rest}
           : outcome (list (string * value)) :=
         match rest with
         | [] => Returns result
         | (key, v) :: rest' =>
             run* _ := hasOwnProperty props in
             if String.eqb key "__proto__" then Unmodelled
             else
               match v with
               | Obj _ =>
                   run* nested := memberIsObject defaults key in
                   if nested
                   then
                     run* merged := mergeConfig (get (spread defaults) key) v in
                     loop rest' (assign key (Obj merged) result)
                   else loop rest' (assign key v result)
               | _ => loop rest' (assign key v result)
               end
         end) props (spread defaults)
  | Str _ | Arr _ => Unmodelled
  | _ => Returns (spread defaults)
  end.

(** *** [validateConfig] *)

Section Validation.

(** The number that a string stands for, NaN when it stands for none. *)
Variable StringToNumber : string -> number.

(** The number that a comparison makes of a value. For an object it runs
    the object's own conversion. *)
Definition toNumber (v : value) : outcome number :=
  match v with
  | Undefined => Returns NaN
  | Null => Returns (Ratio 0 1)
  | Bool b => Returns (Ratio (if b then 1 else 0) 1)
  | Number n => Returns n
  | Str s => Returns (StringToNumber s)
  | Arr _ | Obj _ | Fn _ => Unmodelled
  end.

(** [n < k] and [n > k] for numbers: false whenever [n] is NaN. *)
Definition below (n : number) (k : Z) : bool :=
  match n with
  | NaN => false
  | Infinity negative => negative
  | Ratio num den => num <? k * Z.pos den
  end.

Definition above (n : number) (k : Z) : bool :=
  match n with
  | NaN => false
  | Infinity negative => negb negative
  | Ratio num den => k * Z.pos den <? num
  end.

(** [v < k] and [v > k]. *)
Definition lessThan (v : value) (k : Z) : outcome bool :=
  run* n := toNumber v in Returns (below n k).

Definition greaterThan (v : value) (k : Z) : outcome bool :=
  run* n := toNumber v in Returns (above n k).

(** [array.includes(v)] for an array of strings. *)
Definition includes (l : list string) (v : value) : bool :=
  match v with
  | Str s => MenuConfig.includes l s
  | _ => false
  end.

(** [this.config.dataSource.type]: reading a property of [null] or of
    [undefined] throws; an object has the property or not, and no other
    value has one of that name. *)
Definition dataSourceType (config : list (string * value)) : outcome value :=
  match get config "dataSource" with
  | Undefined => Throws (Js.TypeError "Cannot read properties of undefined")
  | Null => Throws (Js.TypeError "Cannot read properties of null")
  | Obj props => Returns (get props "type")
  | _ => Returns Undefined
  end.

Definition push (failed : bool) (message : string) (errors : list string) : list string :=
  if failed then errors ++ [message] else errors.

(** The [errors] array that [validateConfig] has collected when it reaches
    its final test. *)
Definition validationErrors (config : list (string * value)) : outcome (list string) :=
  let errors := [] in
  run* low := lessThan (get config "layers") 1 in
  run* high := (if low then Returns true else greaterThan (get config "layers") 3) in
  let errors := push high "layers must be between 1 and 3" errors in
  let errors :=
    push (negb (includes ["hover"; "click"] (get config "triggerType")))
      ("triggerType must be " +:+ MenuConfig.dq +:+ "hover" +:+ MenuConfig.dq +:+
       " or " +:+ MenuConfig.dq +:+ "click" +:+ MenuConfig.dq) errors in
  run* type := dataSourceType config in
  let errors :=
    push (negb (includes MenuConfig.validDataTypes type))
      ("dataSource.type must be one of: " +:+
       MenuConfig.join ", " MenuConfig.validDataTypes) errors in
  run* hover := lessThan (get config "hoverDelay") 0 in
  let errors := push hover "hoverDelay must be a positive number" errors in
  run* close := lessThan (get config "closeDelay") 0 in
  let errors := push close "closeDelay must be a positive number" errors in
  Returns errors.

(** [validateConfig()]; what it writes to the console is left out. *)
Definition validateConfig (config : list (string * value)) : outcome unit :=
  run* errors := validationErrors config in
  if (0 <? Z.of_nat (length errors))
  then Throws (Js.Error ("Invalid menu configuration: " +:+ MenuConfig.join "; " errors))
  else Returns tt.

(** [new MenuConfig(options)], with [options = {}] for [undefined]: the
    configuration object of the instance, or the exception that leaves
    the caller without an instance. *)
Definition new (options : value) : outcome (list (string * value)) :=
  let options := match options with Undefined => Obj [] | _ => options end in
  run* config := mergeConfig DEFAULT_CONFIG options in
  run* _ := validateConfig config in
  Returns config.

End Validation.

(** *** Vocabulary *)

(** A value that a comparison turns into a number without running code
    of the options. *)
Definition primitive (v : value) : bool :=
  match v with
  | Arr _ | Obj _ | Fn _ => false
  | _ => true
  end.

(** The options other than [layers] pass [validateConfig]: the trigger
    type is one of the two strings, the data source is an object whose
    type is one of the four strings, and neither delay is below zero as a
    number. *)
Definition othersValid (StringToNumber : string -> number)
    (config : list (string * value)) : Prop :=
  (get config "triggerType" = Str "hover" \/ get config "triggerType" = Str "click") /\
  (exists props t,
      get config "dataSource" = Obj props /\ get props "type" = Str t /\
      t ∈ MenuConfig.validDataTypes) /\
  (exists n, toNumber StringToNumber (get config "hoverDelay") = Returns n /\
             below n 0 = false) /\
  (exists n, toNumber StringToNumber (get config "closeDelay") = Returns n /\
             below n 0 = false).

(** [layers] as a number lies outside 1..3. *)
Definition outside (n : number) : Prop := below n 1 = true \/ above n 3 = true.

(** *** Options of the documented types *)

(** A property of an object literal that is there or not. *)
Definition optional {A} (key : string) (f : A -> value) (o : option A)
    : list (string * value) :=
  match o with
  | Some a => [(key, f a)]
  | None => []
  end.

Definition strings (l : list string) : value := Arr (map Str l).

(** The options of [MenuConfig.Options] as the object that is passed to
    the constructor. The menu data of a static source, which neither the
    merge nor the validation looks into, are left aside. *)
Definition ofSharePointOptions (o : MenuConfig.SharePointOptions) : value :=
  Obj (optional "enabled" Bool (MenuConfig.o_enabled o) ++
       optional "listName" Str (MenuConfig.o_listName o) ++
       optional "siteUrl" Str (MenuConfig.o_siteUrl o) ++
       optional "selectFields" strings (MenuConfig.o_selectFields o) ++
       optional "orderBy" Str (MenuConfig.o_orderBy o) ++
       optional "ascending" Bool (MenuConfig.o_ascending o)).

Definition ofDataSourceOptions (o : MenuConfig.DataSourceOptions) : value :=
  Obj (optional "type" Str (MenuConfig.o_type o) ++
       optional "url" Str (MenuConfig.o_url o)).

Definition ofOptions (o : MenuConfig.Options) : value :=
  Obj (optional "layers" int (MenuConfig.o_layers o) ++
       optional "triggerType" Str (MenuConfig.o_triggerType o) ++
       optional "closeOnOutsideClick" Bool (MenuConfig.o_closeOnOutsideClick o) ++
       optional "closeOnEscape" Bool (MenuConfig.o_closeOnEscape o) ++
       optional "hoverDelay" int (MenuConfig.o_hoverDelay o) ++
       optional "closeDelay" int (MenuConfig.o_closeDelay o) ++
       optional "enableKeyboardNavigation" Bool (MenuConfig.o_enableKeyboardNavigation o) ++
       optional "mobileBreakpoint" int (MenuConfig.o_mobileBreakpoint o) ++
       optional "cacheData" Bool (MenuConfig.o_cacheData o) ++
       optional "cacheDuration" int (MenuConfig.o_cacheDuration o) ++
       optional "sharePoint" ofSharePointOptions (MenuConfig.o_sharePoint o) ++
       optional "dataSource" ofDataSourceOptions (MenuConfig.o_dataSource o)).

(** The configuration object for a [MenuConfig.Config]: the options that
    the record has, and the defaults of the others. *)
Definition ofConfig (c : MenuConfig.Config) : list (string * value) :=
  [ ("layers", int (MenuConfig.layers c));
    ("triggerType", Str (MenuConfig.triggerType c));
    ("closeOnOutsideClick", Bool (MenuConfig.closeOnOutsideClick c));
    ("closeOnEscape", Bool (MenuConfig.closeOnEscape c));
    ("keepOpenOnHover", Bool true);
    ("hoverDelay", int (MenuConfig.hoverDelay c));
    ("closeDelay", int (MenuConfig.closeDelay c));
    ("animated", Bool true);
    ("animationDuration", int 200);
    ("enableKeyboardNavigation", Bool (MenuConfig.enableKeyboardNavigation c));
    ("enableAriaAttributes", Bool true);
    ("focusTrap", Bool false);
    ("mobileBreakpoint", int (MenuConfig.mobileBreakpoint c));
    ("mobileToggleSelector", Str ".sp-menu__toggle");
    ("cacheData", Bool (MenuConfig.cacheData c));
    ("cacheDuration", int (MenuConfig.cacheDuration c));
    ("sharePoint",
     Obj [ ("enabled", Bool (MenuConfig.enabled (MenuConfig.sharePoint c)));
           ("listName", Str (MenuConfig.listName (MenuConfig.sharePoint c)));
           ("siteUrl", Str (MenuConfig.siteUrl (MenuConfig.sharePoint c)));
           ("camlQuery", Str "");
           ("selectFields", strings (MenuConfig.selectFields (MenuConfig.sharePoint c)));
           ("orderBy", Str (MenuConfig.orderBy (MenuConfig.sharePoint c)));
           ("ascending", Bool (MenuConfig.ascending (MenuConfig.sharePoint c))) ]);
    ("dataSource",
     Obj [ ("type", Str (MenuConfig.type (MenuConfig.dataSource c)));
           ("url", Str (MenuConfig.url (MenuConfig.dataSource c)));
           ("method", Str "GET");
           ("headers", Obj []);
           ("transformResponse", Null) ]);
    ("onMenuInit", Null);
    ("onMenuOpen", Null);
    ("onMenuClose", Null);
    ("onItemClick", Null);
    ("onDataLoad", Null);
    ("onError", Null) ].

(** What the loop of [mergeConfig] does with one property, given what it
    has done with those before. *)
Definition mergeProperty (defaults : value) (props : list (string * value))
    (done : outcome (list (string * value))) (property : string * value)
    : outcome (list (string * value)) :=
  run* result := done in
  run* _ := hasOwnProperty props in
  if String.eqb property.1 "__proto__" then Unmodelled
  else
    match property.2 with
    | Obj _ =>
        run* nested := memberIsObject defaults property.1 in
        if nested
        then
          run* merged := mergeConfig (get (spread defaults) property.1) property.2 in
          Returns (assign property.1 (Obj merged) result)
        else Returns (assign property.1 property.2 result)
    | _ => Returns (assign property.1 property.2 result)
    end.

(** The rules of [validateConfig] that a configuration breaks, each with
    its message, in the order of the function: given [layers] and the two
    delays as numbers and the type of the data source. *)
Definition broken (config : list (string * value)) (layers hover close : number)
    (type : value) : list string :=
  (if below layers 1 || above layers 3 then ["layers must be between 1 and 3"] else []) ++
  (if includes ["hover"; "click"] (get config "triggerType") then []
   else ["triggerType must be " +:+ MenuConfig.dq +:+ "hover" +:+ MenuConfig.dq +:+
         " or " +:+ MenuConfig.dq +:+ "click" +:+ MenuConfig.dq]) ++
  (if includes MenuConfig.validDataTypes type then []
   else ["dataSource.type must be one of: " +:+
         MenuConfig.join ", " MenuConfig.validDataTypes]) ++
  (if below hover 0 then ["hoverDelay must be a positive number"] else []) ++
  (if below close 0 then ["closeDelay must be a positive number"] else []).

(** [options = {}]: the default of the parameter. *)
Definition orEmpty (options : value) : value :=
  match options with Undefined => Obj [] | _ => options end.

(** A stand-in for the conversion of strings to numbers in the examples:
    it knows the strings "2" and "7" and takes every other string, as the
    examples have them, for no number. *)
Definition sampleNumbers (s : string) : number :=
  if String.eqb s "2" then Ratio 2 1
  else if String.eqb s "7" then Ratio 7 1
  else NaN.

End Untyped.

(** ** [transformSharePointData]: flat list items to a tree *)

Module SharePointData.

(** An item of [result.d.results]. A property that the list does not
    deliver is [None]. *)
Record SPItem : Type := mkSPItem {
  Id : Z;
  Title : string;
  Url : option string;
  ParentId : option Z;
  Order : option Z;
  OpenInNewTab : option bool }.

(** The object that [transformSharePointData] builds for an item. Its
    [children] array holds references to other such objects; an object is
    referred to by the key under which [itemMap] holds it. *)
Record MenuObj : Type := mkMenuObj {
  id : Z;
  title : string;
  url : string;
  parentId : option Z;
  order : Z;
  openInNewTab : bool;
  children : list Z }.

(** [itemMap], a [Map]: its keys in insertion order and its entries. *)
Record ItemMap : Type := mkItemMap {
  keys : list Z;
  objs : gmap Z MenuObj }.

Definition emptyMap : ItemMap := {| keys := []; objs := ∅ |}.

(** [itemMap.has(k)]. *)
Definition has (m : ItemMap) (k : Z) : bool :=
  match objs m !! k with Some _ => true | None => false end.

(** [itemMap.set(k, v)]: a key that is already present keeps its place in
    the iteration order. *)
Definition map_set (k : Z) (v : MenuObj) (m : ItemMap) : ItemMap :=
  {| keys := if has m k then keys m else keys m ++ [k];
     objs := <[k := v]> (objs m) |}.

(** The object literal of the first loop; [x || d] takes [d] for a missing
    property, for [0], for the empty string and for [false]. *)
Definition newObj (item : SPItem) : MenuObj :=
  {| id := Id item;
     title := Title item;
     url := match Url item with
            | Some u => if String.eqb u "" then "#" else u
            | None => "#"
            end;
     parentId := match ParentId item with
                 | Some p => if p =? 0 then None else Some p
                 | None => None
                 end;
     order := default 0 (Order item);
     openInNewTab := default false (OpenInNewTab item);
     children := [] |}.

(** The first loop: [items.forEach(item => itemMap.set(item.Id, {...}))]. *)
Definition buildMap (items : list SPItem) : ItemMap :=
  foldl (fun m item => map_set (Id item) (newObj item) m) emptyMap items.

(** The objects of [itemMap] together with the local array [rootItems]. *)
Record Store : Type := mkStore {
  itemMap : ItemMap;
  rootItems : list Z }.

(** [obj.children.push(child)] on the object under key [p]. *)
Definition pushChild (p child : Z) (m : ItemMap) : ItemMap :=
  {| keys := keys m;
     objs := alter (fun o =>
                      {| id := id o; title := title o; url := url o;
                         parentId := parentId o; order := order o;
                         openInNewTab := openInNewTab o;
                         children := children o ++ [child] |}) p (objs m) |}.

(** The callback of the second loop, for the entry under key [k]:
    [if (item.parentId && itemMap.has(item.parentId))] the item is pushed
    onto its parent's [children], otherwise onto [rootItems]. *)
Definition attach (st : Store) (k : Z) : Store :=
  match objs (itemMap st) !! k with
  | None => st
  | Some item =>
      match parentId item with
      | Some p =>
          if negb (p =? 0) && has (itemMap st) p
          then {| itemMap := pushChild p k (itemMap st); rootItems := rootItems st |}
          else {| itemMap := itemMap st; rootItems := rootItems st ++ [k] |}
      | None => {| itemMap := itemMap st; rootItems := rootItems st ++ [k] |}
      end
  end.

(** The second loop: [itemMap.forEach(...)], over the entries in insertion
    order. The callback adds and removes no entry. *)
Definition buildTree (m : ItemMap) : Store :=
  foldl attach {| itemMap := m; rootItems := [] |} (keys m).

(** The arrays that [sortChildren] is called on. *)
Inductive ArrayRef : Type :=
| RootItems
| ChildrenOf (key : Z).

Global Instance ArrayRef_eq_dec : EqDecision ArrayRef.
Proof. solve_decision. Defined.

Definition readArr (st : Store) (a : ArrayRef) : list Z :=
  match a with
  | RootItems => rootItems st
  | ChildrenOf k =>
      match objs (itemMap st) !! k with
      | Some o => children o
      | None => []
      end
  end.

Definition setChildren (cs : list Z) (o : MenuObj) : MenuObj :=
  {| id := id o; title := title o; url := url o; parentId := parentId o;
     order := order o; openInNewTab := openInNewTab o; children := cs |}.

Definition writeArr (st : Store) (a : ArrayRef) (l : list Z) : Store :=
  match a with
  | RootItems => {| itemMap := itemMap st; rootItems := l |}
  | ChildrenOf k =>
      {| itemMap := {| keys := keys (itemMap st);
                       objs := alter (setChildren l) k (objs (itemMap st)) |};
         rootItems := rootItems st |}
  end.

(** [a.order] for a reference [a]. *)
Definition orderOf (st : Store) (a : Z) : Z :=
  match objs (itemMap st) !! a with
  | Some o => order o
  | None => 0
  end.

(** [sortByOrder = (a, b) => a.order - b.order]. *)
Definition sortByOrder (st : Store) (a b : Z) : Z := orderOf st a - orderOf st b.

(** [Array.prototype.sort(comparefn)]: the sort is stable, so for a
    comparison that orders by a key it is the insertion sort that puts each
    element before the first later element it does not exceed. *)
Fixpoint insertSorted (cmp : Z -> Z -> Z) (x : Z) (l : list Z) : list Z :=
  match l with
  | [] => [x]
  | y :: rest =>
      if cmp x y <=? 0 then x :: y :: rest else y :: insertSorted cmp x rest
  end.

Fixpoint sort (cmp : Z -> Z -> Z) (l : list Z) : list Z :=
  match l with
  | [] => []
  | x :: rest => insertSorted cmp x (sort cmp rest)
  end.

(** [array.forEach(callback)]: the length is read once, the elements are
    read from the array as it is when their turn comes. [None] when the
    callback does not return. *)
Definition forEach (callback : Z -> Store -> option Store) (a : ArrayRef)
    (st : Store) : option Store :=
  foldl (fun acc i =>
           match acc with
           | None => None
           | Some s =>
               match readArr s a !! i with
               | Some item => callback item s
               | None => Some s
               end
           end)
        (Some st) (seq 0 (length (readArr st a))).

(** [sortChildren(items)]: sort the array in place, then descend into the
    children of each of its elements. [fuel] bounds the depth of the
    recursion; [None] when it does not suffice. *)
Fixpoint sortChildren (fuel : nat) (items : ArrayRef) (st : Store) : option Store :=
  match fuel with
  | O => None
  | S fuel' =>
      let st1 := writeArr st items (sort (sortByOrder st) (readArr st items)) in
      forEach (fun item s =>
                 if (0 <? length (readArr s (ChildrenOf item)))%nat
                 then sortChildren fuel' (ChildrenOf item) s
                 else Some s)
              items st1
  end.

(** [transformSharePointData(items)]: the store when the function returns;
    the returned array is its [rootItems]. *)
Definition transformSharePointData (fuel : nat) (items : list SPItem) : option Store :=
  sortChildren fuel RootItems (buildTree (buildMap items)).

(** The part of [getSharePointData] that follows the response: it hands
    [result.d.results] to [transformSharePointData] and returns what that
    returns. Neither function throws or writes to the console, and the
    [ascending] option of the configuration was only used for the query
    string. *)
Definition getSharePointData_results (spConfig : MenuConfig.SharePointConfig)
    (fuel : nat) (results : list SPItem) : DataRetrieval.M (option Store) :=
  DataRetrieval.ret (transformSharePointData fuel results).

(** The [$orderby] part of the query string of [getSharePointData]. *)
Definition orderByQuery (spConfig : MenuConfig.SharePointConfig) : string :=
  if String.eqb (MenuConfig.orderBy spConfig) "" then ""
  else "&$orderby=" +:+ MenuConfig.orderBy spConfig +:+ " " +:+
       (if MenuConfig.ascending spConfig then "asc" else "desc").

End SharePointData.

(** ** [MenuEngine.escapeHtml] and [renderError]: the markup *)

Module Html.

Import Stdlib.Strings.Ascii.

(** A character of a string stands for the code unit of the same number;
    160 is the no-break space. *)
Definition nbsp : Ascii.ascii := Ascii.ascii_of_nat 160.

(** The serialisation of one character of a text node, as [innerHTML]
    returns it. *)
Definition escapeChar (c : Ascii.ascii) : string :=
  if Ascii.eqb c "&"%char then "&amp;"
  else if Ascii.eqb c "<"%char then "&lt;"
  else if Ascii.eqb c ">"%char then "&gt;"
  else if Ascii.eqb c nbsp then "&nbsp;"
  else String c "".

(** [escapeHtml(text)]: [div.textContent = text; return div.innerHTML]. *)
Fixpoint escapeHtml (text : string) : string :=
  match text with
  | EmptyString => ""
  | String c rest => escapeChar c +:+ escapeHtml rest
  end.

Definition newline : string := String (Ascii.ascii_of_nat 10) "".

Fixpoint spaces (n : nat) : string :=
  match n with
  | O => ""
  | S n' => String " "%char (spaces n')
  end.

(** The string that [renderError(message)] assigns to
    [container.innerHTML]. *)
Definition renderError (message : string) : string :=
  newline +:+ spaces 16 +:+
  "<div class=" +:+ MenuConfig.dq +:+ "sp-menu__error" +:+ MenuConfig.dq +:+
  " role=" +:+ MenuConfig.dq +:+ "alert" +:+ MenuConfig.dq +:+ ">" +:+
  newline +:+ spaces 20 +:+
  "<strong>Menu Error:</strong> " +:+ escapeHtml message +:+
  newline +:+ spaces 16 +:+ "</div>" +:+
  newline +:+ spaces 12.

(** The number of occurrences of a character in a string. *)
Fixpoint occurrences (c : Ascii.ascii) (s : string) : nat :=
  match s with
  | EmptyString => 0
  | String c' rest => (if Ascii.eqb c' c then 1 else 0) + occurrences c rest
  end.

End Html.

(** ** The sources of [getData()]: from the response of [fetch] to the
    data *)

Module Sources.

Import Js.

(** The response of [fetch], as far as the sources look at it. [json] is
    what [response.json()] gives: the parsed body, or the [SyntaxError]
    of a body that is not JSON. *)
Record HttpResponse : Type := mkHttpResponse {
  ok : bool;
  status : Z;
  statusText : string;
  json : result value }.

(** [`${response.status} ${response.statusText}`]. *)
Definition statusLine (response : HttpResponse) : string :=
  pretty.pretty (status response) +:+ " " +:+ statusText response.

(** [getJsonData(config)] from the response on. *)
Definition getJsonData (response : HttpResponse) : result value :=
  if ok response then json response
  else Throw (Error ("Failed to fetch JSON: " +:+ statusLine response)).

(** [getApiData(config)] from the response on. *)
Definition getApiData (response : HttpResponse) : result value :=
  if ok response then json response
  else Throw (Error ("API request failed: " +:+ statusLine response)).

(** [v.key] for the keys [d] and [results], which nothing but an object
    of a parsed body has: reading a property of [null] or of [undefined]
    throws. *)
Definition read (v : value) (key : string) : result value :=
  match v with
  | Undefined => Throw (TypeError "Cannot read properties of undefined")
  | Null => Throw (TypeError "Cannot read properties of null")
  | Obj fields => Ok (fields key)
  | _ => Ok Undefined
  end.

(** [result.d.results]. *)
Definition results (body : value) : result value :=
  match read body "d" with
  | Ok d => read d "results"
  | Throw e => Throw e
  end.

(** [items.forEach(...)], the first statement of
    [transformSharePointData] that looks at [items]: the elements that the
    loop visits. Of the values of a parsed body only an array has a
    [forEach]. *)
Definition forEach (items : value) : result (list value) :=
  match items with
  | Arr elems => Ok elems
  | Undefined => Throw (TypeError "Cannot read properties of undefined")
  | Null => Throw (TypeError "Cannot read properties of null")
  | _ => Throw (TypeError "items.forEach is not a function")
  end.

(** [getSharePointData()] from the response on, up to the first loop of
    [transformSharePointData]: the list items that the reconstruction
    starts from. *)
Definition sharePointItems (response : HttpResponse) : result (list value) :=
  if ok response then
    match json response with
    | Ok body =>
        match results body with
        | Ok items => forEach items
        | Throw e => Throw e
        end
    | Throw e => Throw e
    end
  else Throw (Error ("SharePoint request failed: " +:+ statusLine response)).

End Sources.

(** ** The elements that [render()] builds *)

Module Dom.

Import Js.

(** What the calls of [render()] throw: an error of JavaScript, or a
    [DOMException] of the given name. *)
Inductive Exception : Type :=
| JsError (e : error)
| DOMException (name : string).

Inductive outcome (A : Type) : Type :=
| Done (a : A)
| Raise (e : Exception).
Arguments Done {A} a.
Arguments Raise {A} e.

Definition andThen {A B} (c : outcome A) (k : A -> outcome B) : outcome B :=
  match c with
  | Done a => k a
  | Raise e => Raise e
  end.

Notation "'do*' x ':=' c 'in' k" := (andThen c (fun x => k))
  (at level 10, x name, c at level 100, k at level 200, only parsing).

(** A node of the document. An element has its attributes in the order
    in which they were set, the types of the events for which [render()]
    has added a listener to it, and its child nodes. [Parsed markup]
    stands for the nodes that the HTML parser makes of a string assigned
    to [innerHTML]. *)
Inductive Node : Type :=
| Element (tagName : string) (attributes : list (string * string))
          (listeners : list string) (childNodes : list Node)
| Text (data : string)
| Parsed (markup : string).

Definition tagName (node : Node) : string :=
  match node with Element t _ _ _ => t | _ => "" end.

Definition attributes (node : Node) : list (string * string) :=
  match node with Element _ attrs _ _ => attrs | _ => [] end.

Definition listeners (node : Node) : list string :=
  match node with Element _ _ ls _ => ls | _ => [] end.

Definition childNodes (node : Node) : list Node :=
  match node with Element _ _ _ cs => cs | _ => [] end.

(** *** Conversion to a string *)

(** [String(v)]. An array joins the strings of its elements with commas,
    [null] and [undefined] giving the empty string; an object without a
    [toString] of its own inherits that of [Object.prototype], and one with
    a [toString] of its own, which is no function in menu data, cannot be
    converted. A function gives its source text, which for a built-in
    one names it and shows no code. *)
Fixpoint toString (v : value) : outcome string :=
  match v with
  | Undefined => Done "undefined"
  | Null => Done "null"
  | Bool b => Done (if b then "true" else "false")
  | Num n => Done (pretty.pretty n)
  | Str s => Done s
  | Arr elems =>
      (fix join (l : list value) : outcome string :=
         match l with
         | [] => Done ""
         | x :: rest =>
             do* s := match x with
                      | Undefined | Null => Done ""
                      | _ => toString x
                      end in
             match rest with
             | [] => Done s
             | _ => do* r := join rest in Done (s +:+ "," +:+ r)
             end
         end) elems
  | Obj fields =>
      match fields "toString" with
      | Undefined => Done "[object Object]"
      | _ => Raise (JsError (TypeError "Cannot convert object to primitive value"))
      end
  | Fn name => Done ("function " +:+ name +:+ "() { [native code] }")
  end.

(** The conversion of a value assigned to [textContent]: [null] and
    [undefined] stand for the empty string. *)
Definition toText (v : value) : outcome string :=
  match v with
  | Undefined | Null => Done ""
  | _ => toString v
  end.

(** *** Elements *)

(** [document.createElement(tagName)]. *)
Definition createElement (tagName : string) : Node := Element tagName [] [] [].

Fixpoint assign (name value : string) (attrs : list (string * string))
    : list (string * string) :=
  match attrs with
  | [] => [(name, value)]
  | (n, v) :: rest =>
      if String.eqb n name then (n, value) :: rest else (n, v) :: assign name value rest
  end.

(** [node.setAttribute(name, value)]. *)
Definition setAttribute (name value : string) (node : Node) : Node :=
  match node with
  | Element t attrs ls cs => Element t (assign name value attrs) ls cs
  | other => other
  end.

(** [node.getAttribute(name)]; [None] is [null]. *)
Definition getAttribute (name : string) (node : Node) : option string :=
  snd <$> List.find (fun a => String.eqb (fst a) name) (attributes node).

(** [node.className = value], [node.id = value], [link.href = value]: the
    properties reflect the attributes [class], [id] and [href]. *)
Definition className (value : string) (node : Node) : Node :=
  setAttribute "class" value node.

Definition setId (value : string) (node : Node) : Node :=
  setAttribute "id" value node.

Definition href (value : string) (node : Node) : Node :=
  setAttribute "href" value node.

(** [node.textContent = text]. *)
Definition textContent (text : string) (node : Node) : Node :=
  match node with
  | Element t attrs ls _ =>
      Element t attrs ls (if String.eqb text "" then [] else [Text text])
  | other => other
  end.

(** [node.innerHTML = markup]. *)
Definition innerHTML (markup : string) (node : Node) : Node :=
  match node with
  | Element t attrs ls _ =>
      Element t attrs ls (if String.eqb markup "" then [] else [Parsed markup])
  | other => other
  end.

(** [parent.appendChild(child)] for a new [child]. *)
Definition appendChild (child parent : Node) : Node :=
  match parent with
  | Element t attrs ls cs => Element t attrs ls (cs ++ [child])
  | other => other
  end.

(** [parent.insertBefore(child, parent.firstChild)] for a new [child]. *)
Definition insertBeforeFirst (child parent : Node) : Node :=
  match parent with
  | Element t attrs ls cs => Element t attrs ls (child :: cs)
  | other => other
  end.

(** [node.addEventListener(type, listener)] for a new function
    [listener]. *)
Definition addEventListener (type : string) (node : Node) : Node :=
  match node with
  | Element t attrs ls cs => Element t attrs (ls ++ [type]) cs
  | other => other
  end.

(** *** Class tokens *)

(** ASCII whitespace: tab, line feed, form feed, carriage return, space. *)
Definition isWhitespace (c : Ascii.ascii) : bool :=
  let n := Ascii.nat_of_ascii c in
  Nat.eqb n 9 || Nat.eqb n 10 || Nat.eqb n 12 || Nat.eqb n 13 || Nat.eqb n 32.

Fixpoint hasWhitespace (s : string) : bool :=
  match s with
  | EmptyString => false
  | String c rest => isWhitespace c || hasWhitespace rest
  end.

(** The strings between the whitespace of [s]; [current] is the one that
    is being read. *)
Fixpoint splitOnWhitespace (s current : string) : list string :=
  match s with
  | EmptyString => if String.eqb current "" then [] else [current]
  | String c rest =>
      if isWhitespace c
      then if String.eqb current "" then splitOnWhitespace rest ""
           else current :: splitOnWhitespace rest ""
      else splitOnWhitespace rest (current +:+ String c "")
  end.

(** An ordered set of tokens, to which [token] is appended if it is not
    in it. *)
Definition appendToken (token : string) (tokens : list string) : list string :=
  if existsb (String.eqb token) tokens then tokens else tokens ++ [token].

(** The tokens of a [class] attribute. *)
Definition classList (node : Node) : list string :=
  foldl (fun tokens token => appendToken token tokens) []
    (splitOnWhitespace (default "" (getAttribute "class" node)) "").

(** [node.classList.add(token)]. *)
Definition classListAdd (token : string) (node : Node) : outcome Node :=
  if String.eqb token "" then Raise (DOMException "SyntaxError")
  else if hasWhitespace token then Raise (DOMException "InvalidCharacterError")
  else Done (setAttribute "class"
               (MenuConfig.join " " (appendToken token (classList node))) node).

(** [array.forEach((item, index) => ...)] for a callback that changes the
    element [ul] and may throw. *)
Fixpoint forEach {A} (f : A -> nat -> Node -> outcome Node) (l : list A)
    (index : nat) (ul : Node) : outcome Node :=
  match l with
  | [] => Done ul
  | x :: rest => do* ul' := f x index ul in forEach f rest (S index) ul'
  end.

(** *** [render()] and the functions it calls *)

(** [item.children && item.children.length > 0]. *)
Definition hasChildren (item : DataRetrieval.MenuItem) : bool :=
  match DataRetrieval.children item with [] => false | _ => true end.

Section Render.

(** [this.config]. *)
Variable config : MenuConfig.Config.

(** [createMobileToggle()]. *)
Definition toggleMarkup : string :=
  Html.newline +:+ Html.spaces 16 +:+
  "<span class=" +:+ MenuConfig.dq +:+ "sp-menu__sr-only" +:+ MenuConfig.dq +:+
  ">Toggle menu</span>" +:+
  Html.newline +:+ Html.spaces 16 +:+
  "<svg class=" +:+ MenuConfig.dq +:+ "sp-menu__toggle-icon" +:+ MenuConfig.dq +:+
  " viewBox=" +:+ MenuConfig.dq +:+ "0 0 24 24" +:+ MenuConfig.dq +:+
  " fill=" +:+ MenuConfig.dq +:+ "currentColor" +:+ MenuConfig.dq +:+ ">" +:+
  Html.newline +:+ Html.spaces 20 +:+
  "<path d=" +:+ MenuConfig.dq +:+
  "M3 6h18v2H3V6zm0 5h18v2H3v-2zm0 5h18v2H3v-2z" +:+ MenuConfig.dq +:+ "/>" +:+
  Html.newline +:+ Html.spaces 16 +:+ "</svg>" +:+
  Html.newline +:+ Html.spaces 12.

Definition createMobileToggle : Node :=
  let button := createElement "button" in
  let button := className "sp-menu__toggle" button in
  let button := setAttribute "aria-expanded" "false" button in
  let button := setAttribute "aria-controls" "sp-menu-primary" button in
  let button := innerHTML toggleMarkup button in
  addEventListener "click" button.

(** The lines that the three [create...Item] functions share: the link of
    an item, with the class and the [tabindex] given. *)
Definition createLink (class tabindex : string) (item : DataRetrieval.MenuItem)
    : outcome Node :=
  let link := createElement "a" in
  let link := className class link in
  do* url := toString (DataRetrieval.url item) in
  let link := href url link in
  do* title := toText (DataRetrieval.title item) in
  let link := textContent title link in
  let link := setAttribute "role" "menuitem" link in
  let link := setAttribute "tabindex" tabindex link in
  if truthy (DataRetrieval.openInNewTab item)
  then Done (setAttribute "rel" "noopener noreferrer"
               (setAttribute "target" "_blank" link))
  else Done link.

(** [if (item.cssClass) li.classList.add(item.cssClass)]. *)
Definition addCssClass (item : DataRetrieval.MenuItem) (li : Node) : outcome Node :=
  if truthy (DataRetrieval.cssClass item)
  then do* token := toString (DataRetrieval.cssClass item) in classListAdd token li
  else Done li.

(** [attachSubmenuHandlers(parentLi, trigger, submenu)]: the list item and
    the trigger with their listeners. *)
Definition attachSubmenuHandlers (parentLi trigger : Node) : Node * Node :=
  let parentLi :=
    if String.eqb (MenuConfig.triggerType config) "hover"
    then addEventListener "mouseleave" (addEventListener "mouseenter" parentLi)
    else parentLi in
  (parentLi, addEventListener "click" trigger).

(** [createTertiaryItem(item)]. *)
Definition createTertiaryItem (item : DataRetrieval.MenuItem) : outcome Node :=
  let li := createElement "li" in
  let li := className "sp-menu__tertiary-item" li in
  let li := setAttribute "role" "none" li in
  do* link := createLink "sp-menu__tertiary-link" "-1" item in
  let li := appendChild link li in
  addCssClass item li.

(** [createTertiaryNav(items, parentId)]. *)
Definition createTertiaryNav (items : list DataRetrieval.MenuItem) (parentId : value)
    : outcome Node :=
  let ul := createElement "ul" in
  let ul := className "sp-menu__tertiary" ul in
  do* parent := toString parentId in
  let ul := setId ("sp-menu-tertiary-" +:+ parent) ul in
  let ul := setAttribute "role" "menu" ul in
  let ul := setAttribute "aria-label" "Submenu" ul in
  forEach (fun item _ ul =>
             do* li := createTertiaryItem item in Done (appendChild li ul))
    items 0 ul.

(** The lines that [createPrimaryItem] and [createSecondaryItem] share
    for an item with a submenu: the trigger gets its class and its ARIA
    attributes, the submenu is created, the listeners are attached, and
    the link and the submenu are appended to the list item. In the source
    the handlers are attached after the two elements are appended, to the
    same elements. *)
Definition withSubmenu (class : string) (createNav : outcome Node) (li link : Node)
    : outcome Node :=
  do* link := classListAdd class link in
  let link := setAttribute "aria-haspopup" "true" link in
  let link := setAttribute "aria-expanded" "false" link in
  do* submenu := createNav in
  let (li, link) := attachSubmenuHandlers li link in
  Done (appendChild submenu (appendChild link li)).

(** [createSecondaryItem(item)]. *)
Definition createSecondaryItem (item : DataRetrieval.MenuItem) : outcome Node :=
  let li := createElement "li" in
  let li := className "sp-menu__secondary-item" li in
  let li := setAttribute "role" "none" li in
  let hasChildren :=
    hasChildren item && (3 <=? MenuConfig.layers config) in
  do* link := createLink "sp-menu__secondary-link" "-1" item in
  do* li :=
    (if hasChildren
     then withSubmenu "sp-menu__secondary-link--has-children"
            (createTertiaryNav (DataRetrieval.children item) (DataRetrieval.id item))
            li link
     else Done (appendChild link li)) in
  addCssClass item li.

(** [createSecondaryNav(items, parentId)]. *)
Definition createSecondaryNav (items : list DataRetrieval.MenuItem) (parentId : value)
    : outcome Node :=
  let ul := createElement "ul" in
  let ul := className "sp-menu__secondary" ul in
  do* parent := toString parentId in
  let ul := setId ("sp-menu-secondary-" +:+ parent) ul in
  let ul := setAttribute "role" "menu" ul in
  let ul := setAttribute "aria-label" "Submenu" ul in
  forEach (fun item _ ul =>
             do* li := createSecondaryItem item in Done (appendChild li ul))
    items 0 ul.

(** [createPrimaryItem(item, index)]. *)
Definition createPrimaryItem (item : DataRetrieval.MenuItem) (index : nat)
    : outcome Node :=
  let li := createElement "li" in
  let li := className "sp-menu__primary-item" li in
  let li := setAttribute "role" "none" li in
  let hasChildren := hasChildren item in
  do* link :=
    createLink "sp-menu__primary-link" (if Nat.eqb index 0 then "0" else "-1") item in
  do* link :=
    (if truthy (DataRetrieval.icon item)
     then
       let icon := createElement "span" in
       do* name := toString (DataRetrieval.icon item) in
       let icon := className ("sp-menu__icon " +:+ name) icon in
       Done (insertBeforeFirst icon link)
     else Done link) in
  do* li :=
    (if hasChildren
     then withSubmenu "sp-menu__primary-link--has-children"
            (createSecondaryNav (DataRetrieval.children item) (DataRetrieval.id item))
            li link
     else Done (appendChild link li)) in
  addCssClass item li.

(** [createPrimaryNav()] for [this.menuData]. *)
Definition createPrimaryNav (menuData : list DataRetrieval.MenuItem) : outcome Node :=
  let nav := createElement "nav" in
  let nav := className "sp-menu__primary" nav in
  let nav := setAttribute "role" "navigation" nav in
  let nav := setAttribute "aria-label" "Main navigation" nav in
  let ul := createElement "ul" in
  let ul := className "sp-menu__primary-list" ul in
  let ul := setId "sp-menu-primary" ul in
  let ul := setAttribute "role" "menubar" ul in
  do* ul :=
    forEach (fun item index ul =>
               do* li := createPrimaryItem item index in Done (appendChild li ul))
      menuData 0 ul in
  Done (appendChild ul nav).

(** [render()]: the container when the call returns or throws. *)
Definition render (menuData : list DataRetrieval.MenuItem) (container : Node)
    : Node * option Exception :=
  let container := innerHTML "" container in
  let container := className "sp-menu" container in
  let toggleButton := createMobileToggle in
  match createPrimaryNav menuData with
  | Done primaryNav =>
      (appendChild primaryNav (appendChild toggleButton container), None)
  | Raise e => (container, Some e)
  end.

End Render.

(** *** What is in a tree *)

(** A node and the nodes below it, in document order. *)
Fixpoint nodes (node : Node) : list Node :=
  node ::
  match node with
  | Element _ _ _ cs => flat_map nodes cs
  | _ => []
  end.

(** The links of a tree, in document order. *)
Definition links (node : Node) : list Node :=
  filter (fun n => tagName n = "a") (nodes node).

(** The text of a node, as [textContent] returns it for a node that was
    built without [innerHTML]; what the parser makes of markup is not
    looked into. *)
Fixpoint text (node : Node) : string :=
  match node with
  | Element _ _ _ cs => String.concat "" (map text cs)
  | Text data => data
  | Parsed _ => ""
  end.

(** The items for which [render()] makes a link, in document order: the
    primary items, each followed by its children, each of these followed,
    with three layers or more, by its own children. *)
Definition shown (layers : Z) (menuData : list DataRetrieval.MenuItem)
    : list DataRetrieval.MenuItem :=
  flat_map
    (fun item =>
       item ::
       flat_map
         (fun child =>
            child :: (if 3 <=? layers then DataRetrieval.children child else []))
         (DataRetrieval.children item))
    menuData.

(** The list item of the item at a place of [menuData], in the tree that
    [createPrimaryNav] returns: the primary list is the child of [nav], and
    a submenu is the second child of its list item. *)
Definition listItem (nav : Node) (path : list nat) : option Node :=
  match path with
  | [i] => ul ← childNodes nav !! 0%nat; childNodes ul !! i
  | [i; j] =>
      ul ← childNodes nav !! 0%nat;
      li ← childNodes ul !! i;
      submenu ← childNodes li !! 1%nat;
      childNodes submenu !! j
  | [i; j; k] =>
      ul ← childNodes nav !! 0%nat;
      li ← childNodes ul !! i;
      submenu ← childNodes li !! 1%nat;
      li' ← childNodes submenu !! j;
      submenu' ← childNodes li' !! 1%nat;
      childNodes submenu' !! k
  | _ => None
  end.

(** The link [a] is that of [item]: its [href] and its text are the
    strings of the item's [url] and [title], its role is [menuitem], and
    it has the attributes [target] and [rel] of a link that opens a new tab
    when [openInNewTab] is truthy, and neither of them when it is not. *)
Definition linkFor (item : DataRetrieval.MenuItem) (a : Node) : Prop :=
  tagName a = "a" /\
  (exists h, toString (DataRetrieval.url item) = Done h /\
             getAttribute "href" a = Some h) /\
  toText (DataRetrieval.title item) = Done (text a) /\
  getAttribute "role" a = Some "menuitem" /\
  getAttribute "target" a
  = (if truthy (DataRetrieval.openInNewTab item) then Some "_blank" else None) /\
  getAttribute "rel" a
  = (if truthy (DataRetrieval.openInNewTab item)
     then Some "noopener noreferrer" else None).

(** The list item [li] of an item with a submenu ([hasSubmenu]) or
    without: its first child is the link; with a submenu the link has the
    attributes [aria-haspopup] and [aria-expanded], the latter [false], and
    a [click] listener, the second child is the submenu, a list with the
    role [menu] that is not visible, and in hover mode the list item has
    the two pointer listeners; without a submenu there is none of these. *)
Definition triggerFor (hasSubmenu hover : bool) (li : Node) : Prop :=
  tagName li = "li" /\
  listeners li = (if hasSubmenu && hover then ["mouseenter"; "mouseleave"] else []) /\
  exists link,
    tagName link = "a" /\
    listeners link = (if hasSubmenu then ["click"] else []) /\
    getAttribute "aria-haspopup" link = (if hasSubmenu then Some "true" else None) /\
    getAttribute "aria-expanded" link = (if hasSubmenu then Some "false" else None) /\
    if hasSubmenu
    then exists submenu,
           childNodes li = [link; submenu] /\ tagName submenu = "ul" /\
           getAttribute "role" submenu = Some "menu" /\
           (classList submenu = ["sp-menu__secondary"] \/
            classList submenu = ["sp-menu__tertiary"])
    else childNodes li = [link].

(** The values that [render()] turns into strings are strings, but for an
    icon that is [null]. *)
Definition plain (item : DataRetrieval.MenuItem) : bool :=
  match DataRetrieval.id item, DataRetrieval.title item, DataRetrieval.url item,
        DataRetrieval.cssClass item with
  | Str _, Str _, Str _, Str _ =>
      match DataRetrieval.icon item with
      | Str _ | Null => true
      | _ => false
      end
  | _, _, _, _ => false
  end.

(** The class of an item is one that [classList.add] takes. *)
Definition classAccepted (item : DataRetrieval.MenuItem) : bool :=
  match DataRetrieval.cssClass item with
  | Str s => negb (hasWhitespace s)
  | _ => false
  end.

(** A call returns when [ok] holds, and throws the [DOMException] of a
    class name with whitespace when it does not. *)
Definition verdict {A} (ok : bool) (r : outcome A) : Prop :=
  match r with
  | Done _ => ok = true
  | Raise e => ok = false /\ e = DOMException "InvalidCharacterError"
  end.

End Dom.

(** ** [MenuEngine]: the menu controller of [menu-engine.js] *)

Module MenuEngine.

Import Js.

(** *** The page *)

(** A submenu element, with its trigger link and its parent list item, as
    created by a call of [render()]: the number of that call and the place
    of the item in [menuData] ([[i]] for the primary item [i], [[i; j]]
    for its child [j]). *)
Abbreviation Submenu := (nat * list nat)%type.

(** What [setTimeout] was asked to run. *)
Inductive TimerAction : Type :=
| OpenSubmenu (s : Submenu)
| CloseSubmenu (s : Submenu).

(** A pending timeout of the window. *)
Record Timer : Type := mkTimer {
  handle : nat;
  due : Z;
  action : TimerAction }.

Inductive Target : Type := Document | Window | Container.

(** The functions that the engine registers as listeners: its three bound
    methods, and the arrow function that each call of
    [attachEventListeners] creates for the Escape key. *)
Inductive Handler : Type :=
| HandleDocumentClick
| HandleKeyDown
| HandleResize
| EscapeArrow (n : nat).

Record Listener : Type := mkListener {
  target : Target;
  event : string;
  handler : Handler }.

Global Instance Target_eq_dec : EqDecision Target.
Proof. solve_decision. Defined.

Global Instance Handler_eq_dec : EqDecision Handler.
Proof. solve_decision. Defined.

Global Instance Listener_eq_dec : EqDecision Listener.
Proof. solve_decision. Defined.

(** What the container element holds: nothing, the menu, or the error
    box, with the message of an error of JavaScript or with the message
    that the browser has for the [DOMException] of a name. *)
Inductive Content : Type :=
| Blank
| MenuDom
| ErrorBox (message : string)
| ErrorBoxOf (exception : string).

(** *** Pending data loads *)

(** A call of [getData()] that has not settled: who awaits it and what it
    awaits. *)
Inductive Awaiter : Type := ByInit | ByRefresh.

Inductive Source : Type :=
| Cached (data : list DataRetrieval.MenuItem)
| StaticData
| Network
| Rejected (message : string).

Record Load : Type := mkLoad { awaiter : Awaiter; source : Source }.

(** How the method of a source that has called [fetch] settles: it
    returns a value, for a JSON or API source the parsed body of the
    response and for the SharePoint source the array that
    [transformSharePointData] has made of it, or it throws an error of the
    given message. *)
Inductive Response : Type :=
| Body (raw : value)
| Failure (message : string).

(** *** The instance and its surroundings *)

Record State : Type := mkState {
  (* [this.config], [this.dataRetrieval.config], and whether the two are
     still the one object of the construction *)
  config : MenuConfig.Config;
  retrieval : MenuConfig.Config;
  shared : bool;
  (* the other fields of the instance *)
  isInitialized : bool;
  isLoading : bool;
  menuData : list DataRetrieval.MenuItem;
  openMenus : gset Submenu;
  hoverTimeout : option nat;
  closeTimeout : option nat;
  cache : DataCache.t (option (list DataRetrieval.MenuItem));
  (* the document *)
  content : Content;
  renders : nat;
  captured : MenuConfig.Config;
  expanded : gset Submenu;
  visible : gset Submenu;
  listeners : list Listener;
  arrows : nat;
  (* the window *)
  timers : list Timer;
  nextHandle : nat;
  clock : Z;
  innerWidth : Z;
  (* the data loads in flight, the calls of [fetch] so far, and the random
     source and console *)
  loads : list Load;
  fetches : nat;
  env : DataRetrieval.Env }.

(** Record update. *)
Definition withInstance (st : State) (initialized loading : bool)
    (data : list DataRetrieval.MenuItem) (om : gset Submenu) : State :=
  {| config := config st; retrieval := retrieval st; shared := shared st;
     isInitialized := initialized; isLoading := loading;
     menuData := data; openMenus := om;
     hoverTimeout := hoverTimeout st; closeTimeout := closeTimeout st;
     cache := cache st; content := content st; renders := renders st;
     captured := captured st;
     expanded := expanded st; visible := visible st; listeners := listeners st;
     arrows := arrows st; timers := timers st; nextHandle := nextHandle st;
     clock := clock st; innerWidth := innerWidth st; loads := loads st;
     fetches := fetches st; env := env st |}.

Definition withTimers (st : State) (hover close : option nat) (ts : list Timer)
    (next : nat) : State :=
  {| config := config st; retrieval := retrieval st; shared := shared st;
     isInitialized := isInitialized st; isLoading := isLoading st;
     menuData := menuData st; openMenus := openMenus st;
     hoverTimeout := hover; closeTimeout := close;
     cache := cache st; content := content st; renders := renders st;
     captured := captured st;
     expanded := expanded st; visible := visible st; listeners := listeners st;
     arrows := arrows st; timers := ts; nextHandle := next;
     clock := clock st; innerWidth := innerWidth st; loads := loads st;
     fetches := fetches st; env := env st |}.

Definition withOpen (st : State) (om ex vis : gset Submenu) : State :=
  {| config := config st; retrieval := retrieval st; shared := shared st;
     isInitialized := isInitialized st; isLoading := isLoading st;
     menuData := menuData st; openMenus := om;
     hoverTimeout := hoverTimeout st; closeTimeout := closeTimeout st;
     cache := cache st; content := content st; renders := renders st;
     captured := captured st;
     expanded := ex; visible := vis; listeners := listeners st;
     arrows := arrows st; timers := timers st; nextHandle := nextHandle st;
     clock := clock st; innerWidth := innerWidth st; loads := loads st;
     fetches := fetches st; env := env st |}.

Definition withDocument (st : State) (c : Content) (r : nat) (ls : list Listener)
    (n : nat) : State :=
  {| config := config st; retrieval := retrieval st; shared := shared st;
     isInitialized := isInitialized st; isLoading := isLoading st;
     menuData := menuData st; openMenus := openMenus st;
     hoverTimeout := hoverTimeout st; closeTimeout := closeTimeout st;
     cache := cache st; content := c; renders := r;
     captured := captured st;
     expanded := expanded st; visible := visible st; listeners := ls;
     arrows := n; timers := timers st; nextHandle := nextHandle st;
     clock := clock st; innerWidth := innerWidth st; loads := loads st;
     fetches := fetches st; env := env st |}.

Definition withLoads (st : State)
    (c : DataCache.t (option (list DataRetrieval.MenuItem))) (ls : list Load)
    (f : nat) (e : DataRetrieval.Env) : State :=
  {| config := config st; retrieval := retrieval st; shared := shared st;
     isInitialized := isInitialized st; isLoading := isLoading st;
     menuData := menuData st; openMenus := openMenus st;
     hoverTimeout := hoverTimeout st; closeTimeout := closeTimeout st;
     cache := c; content := content st; renders := renders st;
     captured := captured st;
     expanded := expanded st; visible := visible st; listeners := listeners st;
     arrows := arrows st; timers := timers st; nextHandle := nextHandle st;
     clock := clock st; innerWidth := innerWidth st; loads := ls;
     fetches := f; env := e |}.

Definition withWindow (st : State) (now width : Z) : State :=
  {| config := config st; retrieval := retrieval st; shared := shared st;
     isInitialized := isInitialized st; isLoading := isLoading st;
     menuData := menuData st; openMenus := openMenus st;
     hoverTimeout := hoverTimeout st; closeTimeout := closeTimeout st;
     cache := cache st; content := content st; renders := renders st;
     captured := captured st;
     expanded := expanded st; visible := visible st; listeners := listeners st;
     arrows := arrows st; timers := timers st; nextHandle := nextHandle st;
     clock := now; innerWidth := width; loads := loads st;
     fetches := fetches st; env := env st |}.

Definition withConfig (st : State) (c r : MenuConfig.Config) (sh : bool) : State :=
  {| config := c; retrieval := r; shared := sh;
     isInitialized := isInitialized st; isLoading := isLoading st;
     menuData := menuData st; openMenus := openMenus st;
     hoverTimeout := hoverTimeout st; closeTimeout := closeTimeout st;
     cache := cache st; content := content st; renders := renders st;
     captured := captured st;
     expanded := expanded st; visible := visible st; listeners := listeners st;
     arrows := arrows st; timers := timers st; nextHandle := nextHandle st;
     clock := clock st; innerWidth := innerWidth st; loads := loads st;
     fetches := fetches st; env := env st |}.

Definition withCaptured (st : State) (c : MenuConfig.Config) : State :=
  {| config := config st; retrieval := retrieval st; shared := shared st;
     isInitialized := isInitialized st; isLoading := isLoading st;
     menuData := menuData st; openMenus := openMenus st;
     hoverTimeout := hoverTimeout st; closeTimeout := closeTimeout st;
     cache := cache st; content := content st; renders := renders st;
     captured := c;
     expanded := expanded st; visible := visible st; listeners := listeners st;
     arrows := arrows st; timers := timers st; nextHandle := nextHandle st;
     clock := clock st; innerWidth := innerWidth st; loads := loads st;
     fetches := fetches st; env := env st |}.

(** [new MenuEngine(container, options)], in a window with the given clock
    and width: the instance, or the exception of a missing container or of
    an invalid configuration. *)
Definition new (containerFound : bool) (options : MenuConfig.Options)
    (now width : Z) : result State :=
  if negb containerFound then Throw (Error "Menu container not found")
  else
    match MenuConfig.new options with
    | Throw e => Throw e
    | Ok cfg =>
        Ok {| config := cfg; retrieval := cfg; shared := true;
              isInitialized := false; isLoading := false;
              menuData := []; openMenus := ∅;
              hoverTimeout := None; closeTimeout := None;
              cache := DataCache.new _ (Some (MenuConfig.cacheDuration cfg));
              content := Blank; renders := 0; captured := cfg;
              expanded := ∅; visible := ∅;
              listeners := []; arrows := 0; timers := []; nextHandle := 1;
              clock := now; innerWidth := width; loads := []; fetches := 0;
              env := {| DataRetrieval.drawn := 0; DataRetrieval.console := [] |} |}
    end.

(** *** Timers of the window *)

(** [setTimeout(callback, delay)]: the new timer runs after the pending
    ones that are due no later. *)
Fixpoint insertTimer (t : Timer) (ts : list Timer) : list Timer :=
  match ts with
  | [] => [t]
  | u :: rest => if due u <=? due t then u :: insertTimer t rest else t :: u :: rest
  end.

(** [clearTimeout(h)]; [null] and the handle of a timer that has run or
    was cleared change nothing. *)
Definition clearTimeout (h : option nat) (ts : list Timer) : list Timer :=
  match h with
  | Some n => filter (fun t => handle t <> n) ts
  | None => ts
  end.

(** *** Submenus *)

(** [openSubmenu(trigger, submenu)]. *)
Definition openSubmenu (s : Submenu) (st : State) : State :=
  withOpen st ({[s]} ∪ openMenus st) ({[s]} ∪ expanded st) ({[s]} ∪ visible st).

(** [closeSubmenu(trigger, submenu)]. *)
Definition closeSubmenu (s : Submenu) (st : State) : State :=
  withOpen st (openMenus st ∖ {[s]}) (expanded st ∖ {[s]}) (visible st ∖ {[s]}).

(** The elements below the container element: those of the latest render,
    while the container holds the menu. *)
Definition inContainer (st : State) (s : Submenu) : bool :=
  match content st with
  | MenuDom => Nat.eqb s.1 (renders st)
  | _ => false
  end.

(** [closeAllSubmenus()]: the two [querySelectorAll] loops reach the
    elements below the container; [openMenus] is cleared. *)
Definition closeAllSubmenus (st : State) : State :=
  withOpen st ∅
    (filter (fun s => inContainer st s = false) (expanded st))
    (filter (fun s => inContainer st s = false) (visible st)).

(** The items for which [render()] creates a submenu: a primary item with
    children, and with three layers a child of such an item that has
    children itself. *)
Definition submenuAt (layers : Z) (data : list DataRetrieval.MenuItem)
    (path : list nat) : bool :=
  match path with
  | [i] =>
      match data !! i with
      | Some item => Dom.hasChildren item
      | None => false
      end
  | [i; j] =>
      match data !! i with
      | Some item =>
          Dom.hasChildren item &&
          match DataRetrieval.children item !! j with
          | Some child => Dom.hasChildren child && (3 <=? layers)
          | None => false
          end
      | None => false
      end
  | _ => false
  end.

(** The submenu is an element of the document. The menu in the container
    was made by the latest [render()] that returned, from [menuData] as it
    still is and under the configuration of then, [captured]: the layers
    of then decide which items have a submenu, and the listeners of
    [attachSubmenuHandlers] have the trigger type and the two delays of
    then in their closures. *)
Definition attached (st : State) (s : Submenu) : bool :=
  inContainer st s && submenuAt (MenuConfig.layers (captured st)) (menuData st) s.2.

(** The [mouseenter] listener of [attachSubmenuHandlers]. *)
Definition onMouseEnter (s : Submenu) (st : State) : State :=
  let ts := clearTimeout (closeTimeout st) (timers st) in
  let h := nextHandle st in
  withTimers st (Some h) (closeTimeout st)
    (insertTimer {| handle := h;
                    due := clock st + Z.max 0 (MenuConfig.hoverDelay (captured st));
                    action := OpenSubmenu s |} ts)
    (S h).

(** The [mouseleave] listener of [attachSubmenuHandlers]. *)
Definition onMouseLeave (s : Submenu) (st : State) : State :=
  let ts := clearTimeout (hoverTimeout st) (timers st) in
  let h := nextHandle st in
  withTimers st (hoverTimeout st) (Some h)
    (insertTimer {| handle := h;
                    due := clock st + Z.max 0 (MenuConfig.closeDelay (captured st));
                    action := CloseSubmenu s |} ts)
    (S h).

(** The condition under which the [click] listener toggles the submenu:
    [triggerType === 'click' || window.innerWidth <= mobileBreakpoint],
    with the trigger type of the closure and the breakpoint that the
    configuration has at the click. *)
Definition clickToggles (st : State) : bool :=
  String.eqb (MenuConfig.triggerType (captured st)) "click"
  || (innerWidth st <=? MenuConfig.mobileBreakpoint (config st)).

(** The [click] listener of [attachSubmenuHandlers]. *)
Definition onClick (s : Submenu) (st : State) : State :=
  if clickToggles st then
    if bool_decide (s ∈ expanded st)
    then closeSubmenu s st
    else openSubmenu s (closeAllSubmenus st)
  else st.

(** A timer runs. *)
Definition runAction (a : TimerAction) (st : State) : State :=
  match a with
  | OpenSubmenu s => openSubmenu s st
  | CloseSubmenu s => closeSubmenu s st
  end.

(** The window's clock advances by [ms]: the timers that are due by then
    run, the earliest first. *)
Definition elapse (ms : Z) (st : State) : State :=
  let now := clock st + Z.max 0 ms in
  let ready := filter (fun t => due t <= now) (timers st) in
  let later := filter (fun t => ~ due t <= now) (timers st) in
  let st1 := withTimers st (hoverTimeout st) (closeTimeout st) later (nextHandle st) in
  withWindow (foldl (fun s t => runAction (action t) s) st1 ready) now (innerWidth st).

(** *** Global listeners *)

(** [target.addEventListener(type, listener)]: a listener that is already
    registered for the type on the target is not added again. *)
Definition addEventListener (l : Listener) (ls : list Listener) : list Listener :=
  if bool_decide (l ∈ ls) then ls else ls ++ [l].

(** [target.removeEventListener(type, listener)]. *)
Definition removeEventListener (l : Listener) (ls : list Listener) : list Listener :=
  filter (fun l' => l' <> l) ls.

(** [attachEventListeners()]. *)
Definition attachEventListeners (st : State) : State :=
  let ls0 := listeners st in
  let ls1 := if MenuConfig.closeOnOutsideClick (config st)
             then addEventListener (mkListener Document "click" HandleDocumentClick) ls0
             else ls0 in
  let ls2 := if MenuConfig.enableKeyboardNavigation (config st)
             then addEventListener (mkListener Container "keydown" HandleKeyDown) ls1
             else ls1 in
  let '(ls3, n) :=
    if MenuConfig.closeOnEscape (config st)
    then (addEventListener (mkListener Document "keydown" (EscapeArrow (arrows st))) ls2,
          S (arrows st))
    else (ls2, arrows st) in
  let ls4 := addEventListener (mkListener Window "resize" HandleResize) ls3 in
  withDocument st (content st) (renders st) ls4 n.

(** What [render()] throws, if it does: the exception of the first call
    that fails while the elements are made. *)
Definition renderThrows (st : State) : option Dom.Exception :=
  (Dom.render (config st) (menuData st) (Dom.createElement "div")).2.

(** [render()]: the container is emptied, and it gets the new menu when
    all its elements have been made. [renders] counts the menus that the
    container has got, and [captured] is the configuration under which
    the latest of them was made. *)
Definition render (st : State) : State :=
  match renderThrows st with
  | None =>
      withCaptured (withDocument st MenuDom (S (renders st)) (listeners st) (arrows st))
        (config st)
  | Some _ => withDocument st Blank (renders st) (listeners st) (arrows st)
  end.

(** [renderError(message)]. *)
Definition renderError (message : string) (st : State) : State :=
  withDocument st (ErrorBox message) (renders st) (listeners st) (arrows st).

(** [renderError(error.message)] for what [render()] has thrown. *)
Definition renderErrorOf (e : Dom.Exception) (st : State) : State :=
  match e with
  | Dom.JsError err =>
      renderError (match err with TypeError msg | Error msg | SyntaxError msg => msg end) st
  | Dom.DOMException name =>
      withDocument st (ErrorBoxOf name) (renders st) (listeners st) (arrows st)
  end.

(** A click somewhere in the document, outside the container or inside:
    the [click] listeners of the document run. *)
Definition documentClick (outside : bool) (st : State) : State :=
  foldl (fun s l =>
           match target l, handler l with
           | Document, HandleDocumentClick =>
               if String.eqb (event l) "click" && outside then closeAllSubmenus s else s
           | _, _ => s
           end) st (listeners st).

(** The Escape key is pressed: the [keydown] listeners of the document
    run. *)
Definition escapeKey (st : State) : State :=
  foldl (fun s l =>
           match target l, handler l with
           | Document, EscapeArrow _ =>
               if String.eqb (event l) "keydown" then closeAllSubmenus s else s
           | _, _ => s
           end) st (listeners st).

(** The window is resized. [handleResize] only resets the mobile list and
    its toggle, which are not modelled. *)
Definition resize (width : Z) (st : State) : State :=
  withWindow st (clock st) width.

(** [destroy()]. *)
Definition destroy (st : State) : State :=
  let ls :=
    removeEventListener (mkListener Window "resize" HandleResize)
      (removeEventListener (mkListener Container "keydown" HandleKeyDown)
         (removeEventListener (mkListener Document "click" HandleDocumentClick)
            (listeners st))) in
  withInstance (withDocument st Blank (renders st) ls (arrows st))
    false (isLoading st) [] ∅.

(** *** Loading data *)

Section Loading.

(** The random source of [generateId]. *)
Variable random_suffix : nat -> string.

Definition log (line : string) (st : State) : State :=
  withLoads st (cache st) (loads st) (fetches st)
    {| DataRetrieval.drawn := DataRetrieval.drawn (env st);
       DataRetrieval.console := DataRetrieval.console (env st) ++ [line] |}.

(** [setLoading(loading)]. *)
Definition setLoading (loading : bool) (st : State) : State :=
  withInstance st (isInitialized st) loading (menuData st) (openMenus st).

(** [getCacheKey(config)]; the headers of the data source are not
    modelled and count as [{}]. *)
Definition getCacheKey (cfg : MenuConfig.Config) : string :=
  let ds := MenuConfig.dataSource cfg in
  "menu_" +:+ MenuConfig.type ds +:+ "_" +:+
  (if String.eqb (MenuConfig.url ds) "" then "static" else MenuConfig.url ds) +:+ "_{}".

(** What [getData()] awaits once the cache has missed, and whether it has
    called [fetch]: the switch on the type of the data source, up to the
    first [await] of the source's method. An exception of that method
    rejects the awaited promise. *)
Definition startSource (cfg : MenuConfig.Config) : Source * bool :=
  let ds := MenuConfig.dataSource cfg in
  let sp := MenuConfig.sharePoint cfg in
  if String.eqb (MenuConfig.type ds) "static" then (StaticData, false)
  else if String.eqb (MenuConfig.type ds) "json" then
    if String.eqb (MenuConfig.url ds) ""
    then (Rejected "JSON data source requires a URL", false)
    else (Network, true)
  else if String.eqb (MenuConfig.type ds) "api" then
    if String.eqb (MenuConfig.url ds) ""
    then (Rejected "API data source requires a URL", false)
    else (Network, true)
  else if String.eqb (MenuConfig.type ds) "sharepoint" then
    if negb (MenuConfig.enabled sp) || String.eqb (MenuConfig.siteUrl sp) ""
       || String.eqb (MenuConfig.listName sp) ""
    then (Rejected "SharePoint configuration is incomplete", false)
    else (Network, true)
  else (Rejected ("Unknown data source type: " +:+ MenuConfig.type ds), false).

(** [getData()] up to its first [await]: the cache is asked first; a hit
    settles the call with the cached data, a miss starts the source. The
    call then waits in [loads] for its continuation. *)
Definition getData (who : Awaiter) (st : State) : State :=
  let cfg := retrieval st in
  let '(hit, c) :=
    if MenuConfig.cacheData cfg
    then DataCache.get _ None (clock st) (getCacheKey cfg) (cache st)
    else (None, cache st) in
  match hit with
  | Some data =>
      withLoads st c (loads st ++ [mkLoad who (Cached data)]) (fetches st) (env st)
  | None =>
      let '(src, fetched) := startSource cfg in
      withLoads st c (loads st ++ [mkLoad who src])
        (if fetched then S (fetches st) else fetches st) (env st)
  end.

(** [init()] up to its first [await]. *)
Definition init (st : State) : State :=
  if isInitialized st then log "Menu is already initialized" st
  else getData ByInit (setLoading true st).

(** [refresh()] up to its first [await]: [clearCache()], then
    [getData()]. *)
Definition refresh (st : State) : State :=
  getData ByRefresh
    (withLoads st (DataCache.clear _ (cache st)) (loads st) (fetches st) (env st)).

(** [error.message]. *)
Definition message (e : error) : string :=
  match e with TypeError msg | Error msg | SyntaxError msg => msg end.

(** The rest of [getData()] once the source has delivered [raw]:
    normalise, cache, return; an exception is logged and thrown on. The
    [transformResponse] hook and the callbacks are not modelled. *)
Definition finishGetData (raw : value) (st : State)
    : result (list DataRetrieval.MenuItem) * State :=
  match DataRetrieval.normalizeData random_suffix (MenuConfig.layers (retrieval st)) raw
          (env st) with
  | (Ok data, e) =>
      let c := if MenuConfig.cacheData (retrieval st)
               then DataCache.set _ (clock st) (getCacheKey (retrieval st)) (Some data) None
                      (cache st)
               else cache st in
      (Ok data, withLoads st c (loads st) (fetches st) e)
  | (Throw err, e) =>
      (Throw err,
       log ("Data Retrieval Error: " +:+ message err)
         (withLoads st (cache st) (loads st) (fetches st) e))
  end.

(** The source of [getData()] failed. *)
Definition failGetData (msg : string) (st : State)
    : result (list DataRetrieval.MenuItem) * State :=
  (Throw (Error msg), log ("Data Retrieval Error: " +:+ msg) st).

(** The rest of [init()] after [await this.dataRetrieval.getData()]. An
    exception of [render()] is caught like one of [getData()]: the error
    box is shown, no listener is attached and the instance is not marked
    as initialised. *)
Definition initContinue (outcome : result (list DataRetrieval.MenuItem)) (st : State)
    : State :=
  match outcome with
  | Ok data =>
      let st1 := withInstance st (isInitialized st) (isLoading st) data (openMenus st) in
      match renderThrows st1 with
      | None =>
          let st2 := attachEventListeners (render st1) in
          setLoading false
            (withInstance st2 true (isLoading st2) (menuData st2) (openMenus st2))
      | Some e => setLoading false (renderErrorOf e (render st1))
      end
  | Throw err => setLoading false (renderError (message err) st)
  end.

(** The rest of [refresh()] after its [await]; a rejection, and an
    exception of [render()], leave the function at once. *)
Definition refreshContinue (outcome : result (list DataRetrieval.MenuItem)) (st : State)
    : State :=
  match outcome with
  | Ok data =>
      let st1 := withInstance st (isInitialized st) (isLoading st) data (openMenus st) in
      match renderThrows st1 with
      | None => attachEventListeners (render st1)
      | Some _ => render st1
      end
  | Throw _ => st
  end.

(** The pending load number [i] settles, a network call with the given
    response, and the function that awaits it continues. *)
Definition settle (i : nat) (resp : Response) (st : State) : State :=
  match loads st !! i with
  | None => st
  | Some ld =>
      let st1 := withLoads st (cache st) (delete i (loads st)) (fetches st) (env st) in
      let '(outcome, st2) :=
        match source ld with
        | Cached data => (Ok data, st1)
        | StaticData =>
            finishGetData
              (Js.or (MenuConfig.data (MenuConfig.dataSource (retrieval st))) (Arr [])) st1
        | Network =>
            match resp with
            | Body raw => finishGetData raw st1
            | Failure msg => failGetData msg st1
            end
        | Rejected msg => failGetData msg st1
        end in
      match awaiter ld with
      | ByInit => initContinue outcome st2
      | ByRefresh => refreshContinue outcome st2
      end
  end.

(** *** The configuration after the construction *)

(** [updateConfig(options)]: the instance gets a new configuration
    object, and [this.dataRetrieval] keeps the one of the construction.
    An invalid configuration is written to the console by
    [validateConfig] and leaves the instance as it was. *)
Definition updateConfig (options : MenuConfig.Options) (st : State) : State :=
  match MenuConfigMethods.updateConfig (config st) options with
  | Ok c => withConfig st c (retrieval st) false
  | Throw _ =>
      log ("Menu Configuration Errors: " +:+
           MenuConfig.join ","
             (MenuConfig.validationErrors
                (MenuConfig.mergeConfig MenuConfig.DEFAULT_CONFIG
                   (MenuConfigMethods.spread (MenuConfigMethods.getAll (config st))
                      options))))
        st
  end.

(** [this.config.set(key, value)]: the configuration object of the
    instance is written to, which is that of [this.dataRetrieval] as long
    as no [updateConfig()] has replaced it. *)
Definition assign (a : MenuConfig.Assignment) (st : State) : State :=
  withConfig st (MenuConfig.set a (config st))
    (if shared st then MenuConfig.set a (retrieval st) else retrieval st)
    (shared st).

(** *** The controller as a transition system *)

Inductive Event : Type :=
| Init
| Refresh
| Settle (i : nat) (resp : Response)
| Destroy
| MouseEnter (s : Submenu)
| MouseLeave (s : Submenu)
| Click (s : Submenu)
| Elapse (ms : Z)
| DocumentClick (outside : bool)
| EscapeKey
| Resize (width : Z)
| CloseAll
| UpdateConfig (options : MenuConfig.Options)
| Assign (a : MenuConfig.Assignment).

(** The events of the page, the public operations [Init], [Refresh],
    [Destroy], [CloseAll] and [UpdateConfig], and [Assign], a write to the
    configuration object. The pointer listeners exist on the elements of
    the document; the [mouseenter] and [mouseleave] listeners only when
    the menu was rendered under [triggerType === 'hover']. *)
Definition step (st : State) (ev : Event) : State :=
  match ev with
  | Init => init st
  | Refresh => refresh st
  | Settle i resp => settle i resp st
  | Destroy => destroy st
  | MouseEnter s =>
      if attached st s && String.eqb (MenuConfig.triggerType (captured st)) "hover"
      then onMouseEnter s st else st
  | MouseLeave s =>
      if attached st s && String.eqb (MenuConfig.triggerType (captured st)) "hover"
      then onMouseLeave s st else st
  | Click s => if attached st s then onClick s st else st
  | Elapse ms => elapse ms st
  | DocumentClick outside => documentClick outside st
  | EscapeKey => escapeKey st
  | Resize width => resize width st
  | CloseAll => closeAllSubmenus st
  | UpdateConfig options => updateConfig options st
  | Assign a => assign a st
  end.

Definition run (st : State) (evs : list Event) : State := foldl step st evs.

End Loading.

End MenuEngine.

(** ** Vocabulary of the statements *)

Module Shape.

Import Js DataRetrieval.

(** A value whose properties can be read: anything but [null] and
    [undefined]. *)
Definition readable (item : value) : bool :=
  match item with
  | Undefined | Null => false
  | _ => true
  end.

(** The elements of [item.children] when that is an array. *)
Definition childArray (item : value) : list value :=
  match item with
  | Obj fields => match fields "children" with Arr elems => elems | _ => [] end
  | _ => []
  end.

(** A record whose own properties and whose children's properties can be
    read; nothing is asked of what lies below the children. *)
Definition readable2 (item : value) : bool :=
  readable item && forallb readable (childArray item).

(** [item[key]] for a readable item and a key that [normalizeItem] reads. *)
Definition property (item : value) (key : string) : value :=
  match item with
  | Obj fields => fields key
  | _ => inherited item key
  end.

(** The first truthy value of a list of alternatives, [default] when there
    is none: [a || b || default]. *)
Definition firstTruthy (alternatives : list value) (default : value) : value :=
  match head (filter (fun v => truthy v = true) alternatives) with
  | Some v => v
  | None => default
  end.

(** The fields of [m] other than [level] and [children] are those of the
    normalised record of [item]: [id] is the item's when that is truthy
    and a generated one otherwise; [title] is the first truthy of [title],
    [label], [name], or "Untitled"; [url] the first truthy of [url],
    [href], [link], or "#"; [openInNewTab] is the item's when truthy and
    otherwise whether [target] is "_blank"; [icon] is the item's or
    [null]; [cssClass] the first truthy of [cssClass], [className], or
    the empty string. *)
Definition fieldsOf (random_suffix : nat -> string) (item : value) (m : MenuItem) : Prop :=
  (if truthy (property item "id")
   then id m = property item "id"
   else exists n, id m = Str ("menu_" +:+ random_suffix n)) /\
  title m = firstTruthy [property item "title"; property item "label";
                         property item "name"] (Str "Untitled") /\
  url m = firstTruthy [property item "url"; property item "href";
                       property item "link"] (Str "#") /\
  openInNewTab m
  = (if truthy (property item "openInNewTab") then property item "openInNewTab"
     else Bool (strictEqStr (property item "target") "_blank")) /\
  icon m = firstTruthy [property item "icon"] Null /\
  cssClass m = firstTruthy [property item "cssClass"; property item "className"] (Str "").

End Shape.

(** ** Sample data *)

Module Sample.

Import Js.

Definition leaf (name : string) : value :=
  obj [("id", Str name); ("title", Str name)].

Definition node (name : string) (kids : list value) : value :=
  obj [("id", Str name); ("title", Str name); ("children", Arr kids)].

(** Two roots, three children each, one grandchild under every child; the
    last grandchild is [null]. *)
Definition threeLevels : list value :=
  [ node "a" [ node "a1" [leaf "a1x"]; node "a2" [leaf "a2x"]; node "a3" [leaf "a3x"] ];
    node "b" [ node "b1" [leaf "b1x"]; node "b2" [leaf "b2x"]; node "b3" [Null] ] ].

Definition noRandom : nat -> string := fun _ => "000000000".

Definition freshEnv : DataRetrieval.Env :=
  {| DataRetrieval.drawn := 0; DataRetrieval.console := [] |}.

End Sample.

(** The options other than [layers] pass [validateConfig]. *)
Definition othersValid (c : MenuConfig.Config) : bool :=
  MenuConfig.includes ["hover"; "click"] (MenuConfig.triggerType c)
  && MenuConfig.includes MenuConfig.validDataTypes
       (MenuConfig.type (MenuConfig.dataSource c))
  && (0 <=? MenuConfig.hoverDelay c)
  && (0 <=? MenuConfig.closeDelay c).

(** ** Orders on sibling sequences *)

Module Order.

(** Order by a key, and within equal keys by a relation [R] on the
    elements (their place in the input). *)
Definition keyThen (key : Z -> Z) (R : Z -> Z -> Prop) (a b : Z) : Prop :=
  key a < key b \/ (key a = key b /\ R a b).

End Order.

(** ** The object graph of the reconstruction *)

Module Forest.

Import SharePointData.

(** [obj.children] of the object under key [k]. *)
Definition kids (st : Store) (k : Z) : list Z := readArr st (ChildrenOf k).

(** A map without its [children] arrays. *)
Definition skel (m : ItemMap) : list Z * gmap Z MenuObj :=
  (keys m, setChildren [] <$> objs m).

(** [array.sort(sortByOrder)] in a store. *)
Definition srt (st : Store) (l : list Z) : list Z := sort (sortByOrder st) l.

(** The parent under which the second loop puts the entry of key [k]: the
    parent reference when it is set, not zero, and the key of an entry. *)
Definition parentOf (m : ItemMap) (k : Z) : option Z :=
  match objs m !! k with
  | Some o =>
      match parentId o with
      | Some p => if negb (p =? 0) && has m p then Some p else None
      | None => None
      end
  | None => None
  end.

(** [below st a b]: the array [b] is [a] or the [children] array of an
    object that is reached from [a] through [children] arrays. *)
Inductive below (st : Store) : ArrayRef -> ArrayRef -> Prop :=
| below_refl a : below st a a
| below_step a c b :
    c ∈ readArr st a -> below st (ChildrenOf c) b -> below st a b.

(** The object under key [k] is in the tree that hangs from [rootItems]. *)
Definition inTree (st : Store) (k : Z) : Prop :=
  exists a, below st RootItems a /\ k ∈ readArr st a.

(** The number of [children] arrays between [rootItems] and an array. *)
Inductive level (st : Store) : ArrayRef -> nat -> Prop :=
| level_root : level st RootItems 0
| level_child a d c :
    level st a d -> c ∈ readArr st a -> level st (ChildrenOf c) (S d).

(** The number of entries on the parent chain of an entry, itself
    included, when the chain ends at an entry without parent. *)
Inductive updepth (m : ItemMap) : Z -> nat -> Prop :=
| updepth_root k :
    k ∈ keys m -> parentOf m k = None -> updepth m k 1
| updepth_child k p d :
    k ∈ keys m -> parentOf m k = Some p -> updepth m p d -> updepth m k (S d).

(** [st'] is [st] with the arrays of [S] sorted (and possibly others, for
    which that changes nothing). *)
Record sortedOn (S : ArrayRef -> Prop) (st st' : Store) : Prop := mkSortedOn {
  so_skel : skel (itemMap st') = skel (itemMap st);
  so_any : forall a, readArr st' a = readArr st a \/ readArr st' a = srt st (readArr st a);
  so_in : forall a, S a -> readArr st' a = srt st (readArr st a);
  so_out : forall a, ~ S a -> readArr st' a = readArr st a }.

(** Same objects, same members of every array. *)
Definition similar (st st' : Store) : Prop :=
  skel (itemMap st') = skel (itemMap st) /\
  forall a, readArr st' a ≡ₚ readArr st a.

(** What the first loop guarantees of [itemMap]: no key twice, an entry
    under each key and under nothing else, each object with its own key as
    [id] and an empty [children] array. *)
Record indexed (m : ItemMap) : Prop := mkIndexed {
  ix_nodup : NoDup (keys m);
  ix_dom : forall k, k ∈ keys m <-> is_Some (objs m !! k);
  ix_obj : forall k o, objs m !! k = Some o -> id o = k /\ children o = [] }.

(** The parent chain of [k], followed for at most [fuel] entries, ends at
    an entry without parent. *)
Fixpoint reachesRoot (m : ItemMap) (fuel : nat) (k : Z) : bool :=
  match fuel with
  | O => false
  | S fuel' =>
      match objs m !! k with
      | None => false
      | Some _ =>
          match parentOf m k with
          | None => true
          | Some p => reachesRoot m fuel' p
          end
      end
  end.

(** The entry reached from [k] by [n] parent steps. *)
Fixpoint ancestor (m : ItemMap) (n : nat) (k : Z) : option Z :=
  match n with
  | O => Some k
  | S n' =>
      match parentOf m k with
      | Some p => ancestor m n' p
      | None => None
      end
  end.

End Forest.

(** ** Records, their parents and their order in the input *)

Module Records.

Import SharePointData.

(** The parent named by the parent reference of a record: none when the
    reference is missing (or zero) or when no record has that id. *)
Definition namedParent (items : list SPItem) (x : SPItem) : option Z :=
  match ParentId x with
  | Some p =>
      if negb (p =? 0) && bool_decide (p ∈ Id <$> items) then Some p else None
  | None => None
  end.

(** The same for the record with id [k]. *)
Definition parentIn (items : list SPItem) (k : Z) : option Z :=
  match find (fun x => Id x =? k) items with
  | Some x => namedParent items x
  | None => None
  end.

(** The parent chain of the record with id [k] ends, within [fuel]
    records, at a record without parent. *)
Fixpoint chainEnds (items : list SPItem) (fuel : nat) (k : Z) : bool :=
  match fuel with
  | O => false
  | S fuel' =>
      match find (fun x => Id x =? k) items with
      | None => false
      | Some _ =>
          match parentIn items k with
          | None => true
          | Some p => chainEnds items fuel' p
          end
      end
  end.

(** No record is on a cycle of parent references or leads into one. *)
Definition acyclic (items : list SPItem) : bool :=
  forallb (fun x => chainEnds items (length items) (Id x)) items.

(** The id reached from [k] by [n] parent steps. *)
Fixpoint ancestorIn (items : list SPItem) (n : nat) (k : Z) : option Z :=
  match n with
  | O => Some k
  | S n' =>
      match parentIn items k with
      | Some p => ancestorIn items n' p
      | None => None
      end
  end.

(** The record with id [k] lies on a cycle of parent references. *)
Definition onCycle (items : list SPItem) (k : Z) : Prop :=
  exists n, (0 < n)%nat /\ ancestorIn items n k = Some k.

(** [a] stands before [b] in the list [l]. *)
Definition before (l : list Z) (a b : Z) : Prop :=
  exists i j, l !! i = Some a /\ l !! j = Some b /\ (i < j)%nat.

(** The [order] that the reconstruction gives the record with id [k]. *)
Definition orderIn (items : list SPItem) (k : Z) : Z :=
  match find (fun x => Id x =? k) items with
  | Some x => default 0 (Order x)
  | None => 0
  end.

(** A sibling sequence is in ascending order of [order], records of equal
    [order] in input order. *)
Definition siblingsSorted (items : list SPItem) (s : list Z) : Prop :=
  StronglySorted (Order.keyThen (orderIn items) (before (Id <$> items))) s.

(** The outcome of a call reports an error: it is an exception, or the
    console has a new line. *)
Definition reportsError {A} (e : DataRetrieval.Env)
    (out : Js.result A * DataRetrieval.Env) : Prop :=
  (exists err, out.1 = Js.Throw err) \/
  DataRetrieval.console out.2 <> DataRetrieval.console e.

End Records.

(** ** Sample list items *)

Module SampleList.

Import SharePointData.

Definition record (i : Z) (parent : option Z) (o : Z) : SPItem :=
  {| Id := i; Title := "item"; Url := None; ParentId := parent;
     Order := Some o; OpenInNewTab := None |}.

(** [{id:1, parentId:null, order:2}, {id:2, parentId:null, order:1},
     {id:3, parentId:1, order:1}]. *)
Definition threeRecords : list SPItem :=
  [record 1 None 2; record 2 None 1; record 3 (Some 1) 1].

(** Records 1 and 2 name each other as parent, record 4 hangs below
    record 1, and records 3 and 5 form a tree of their own. *)
Definition withCycle : list SPItem :=
  [record 1 (Some 2) 1; record 2 (Some 1) 2; record 3 None 3;
   record 4 (Some 1) 4; record 5 (Some 3) 5].

(** Two root records as a list store returns them for a descending query. *)
Definition descendingAnswer : list SPItem :=
  [record 1 None 2; record 2 None 1].

(** Two records with the same id. *)
Definition sameId : list SPItem :=
  [ {| Id := 1; Title := "first"; Url := None; ParentId := None;
       Order := Some 1; OpenInNewTab := None |};
    {| Id := 1; Title := "second"; Url := None; ParentId := None;
       Order := Some 2; OpenInNewTab := None |} ].

(** A record with the id 0 and a record that names it as parent. *)
Definition zeroId : list SPItem := [record 0 None 1; record 5 (Some 0) 2].

(** The SharePoint options with [ascending: false]. *)
Definition descending : MenuConfig.SharePointConfig :=
  MenuConfig.mergeSharePoint (MenuConfig.sharePoint MenuConfig.DEFAULT_CONFIG)
    {| MenuConfig.o_enabled := Some true; MenuConfig.o_listName := Some "Menu";
       MenuConfig.o_siteUrl := Some "https://site"; MenuConfig.o_selectFields := None;
       MenuConfig.o_orderBy := None; MenuConfig.o_ascending := Some false |}.

End SampleList.

(** ** Sample menus for the controller *)

Module SampleMenu.

Import MenuEngine.

(** Three primary items with a submenu each (the first with a third
    layer below its child) and a fourth without. *)
Definition data : Js.value :=
  Js.Arr [ Sample.node "a" [Sample.node "a1" [Sample.leaf "a1x"]];
           Sample.node "b" [Sample.leaf "b1"];
           Sample.node "c" [Sample.leaf "c1"];
           Sample.leaf "d" ].

(** [{triggerType, dataSource: {type, url, data}}]. *)
Definition options (trigger type url : string) : MenuConfig.Options :=
  {| MenuConfig.o_layers := None; MenuConfig.o_triggerType := Some trigger;
     MenuConfig.o_closeOnOutsideClick := None; MenuConfig.o_closeOnEscape := None;
     MenuConfig.o_hoverDelay := None; MenuConfig.o_closeDelay := None;
     MenuConfig.o_enableKeyboardNavigation := None;
     MenuConfig.o_mobileBreakpoint := None; MenuConfig.o_cacheData := None;
     MenuConfig.o_cacheDuration := None; MenuConfig.o_sharePoint := None;
     MenuConfig.o_dataSource :=
       Some {| MenuConfig.o_type := Some type; MenuConfig.o_url := Some url;
               MenuConfig.o_data := Some data |} |}.

(** [{triggerType}], [{closeOnEscape}] and [{closeOnOutsideClick}] as
    the argument of [updateConfig]. *)
Definition triggerOnly (trigger : string) : MenuConfig.Options :=
  {| MenuConfig.o_layers := None; MenuConfig.o_triggerType := Some trigger;
     MenuConfig.o_closeOnOutsideClick := None; MenuConfig.o_closeOnEscape := None;
     MenuConfig.o_hoverDelay := None; MenuConfig.o_closeDelay := None;
     MenuConfig.o_enableKeyboardNavigation := None;
     MenuConfig.o_mobileBreakpoint := None; MenuConfig.o_cacheData := None;
     MenuConfig.o_cacheDuration := None; MenuConfig.o_sharePoint := None;
     MenuConfig.o_dataSource := None |}.

Definition escapeOnly (closeOnEscape : bool) : MenuConfig.Options :=
  {| MenuConfig.o_layers := None; MenuConfig.o_triggerType := None;
     MenuConfig.o_closeOnOutsideClick := None;
     MenuConfig.o_closeOnEscape := Some closeOnEscape;
     MenuConfig.o_hoverDelay := None; MenuConfig.o_closeDelay := None;
     MenuConfig.o_enableKeyboardNavigation := None;
     MenuConfig.o_mobileBreakpoint := None; MenuConfig.o_cacheData := None;
     MenuConfig.o_cacheDuration := None; MenuConfig.o_sharePoint := None;
     MenuConfig.o_dataSource := None |}.

Definition outsideOnly (closeOnOutsideClick : bool) : MenuConfig.Options :=
  {| MenuConfig.o_layers := None; MenuConfig.o_triggerType := None;
     MenuConfig.o_closeOnOutsideClick := Some closeOnOutsideClick;
     MenuConfig.o_closeOnEscape := None;
     MenuConfig.o_hoverDelay := None; MenuConfig.o_closeDelay := None;
     MenuConfig.o_enableKeyboardNavigation := None;
     MenuConfig.o_mobileBreakpoint := None; MenuConfig.o_cacheData := None;
     MenuConfig.o_cacheDuration := None; MenuConfig.o_sharePoint := None;
     MenuConfig.o_dataSource := None |}.

(** A menu of one item whose class holds a space, which [classList.add]
    does not take. *)
Definition twoClasses : Js.value :=
  Js.Arr [ Js.obj [("id", Js.Str "x"); ("title", Js.Str "X");
                   ("cssClass", Js.Str "highlight featured")] ].

(** The events of [init()] and of the settling of its data load. *)
Definition initialised : list Event := [Init; Settle 0 (Failure "")].

(** The submenus of the first render: of the primary items, and of the
    child of the first. *)
Definition A : Submenu := (1%nat, [0%nat]).
Definition B : Submenu := (1%nat, [1%nat]).
Definition C : Submenu := (1%nat, [2%nat]).
Definition A1 : Submenu := (1%nat, [0%nat; 0%nat]).

(** The submenus of the document, in document order. *)
Definition rendered (st : State) : list Submenu :=
  filter (fun s => attached st s = true)
    (mjoin (imap (fun i item =>
                    (renders st, [i]) ::
                    imap (fun j _ => (renders st, [i; j])) (DataRetrieval.children item))
                 (menuData st))).

(** The open submenus of the document, in document order. *)
Definition openNow (st : State) : list Submenu :=
  filter (fun s => s ∈ expanded st) (rendered st).

Definition isEscapeArrow (h : Handler) : bool :=
  match h with EscapeArrow _ => true | _ => false end.

Definition escapeListeners (st : State) : list Listener :=
  filter (fun l => isEscapeArrow (handler l) = true) (listeners st).

(** The engine built from options in a window of the given width, and the
    state after a list of events; an invalid configuration gives [None]. *)
Definition after (opts : MenuConfig.Options) (width : Z) (evs : list Event)
    : option State :=
  match MenuEngine.new true opts 0 width with
  | Js.Ok st => Some (run Sample.noRandom st evs)
  | Js.Throw _ => None
  end.

End SampleMenu.

(** ** The invariant of the click mode *)

(** The submenu that a pending timer opens or closes. *)
Definition subject (t : MenuEngine.Timer) : MenuEngine.Submenu :=
  match MenuEngine.action t with
  | MenuEngine.OpenSubmenu s | MenuEngine.CloseSubmenu s => s
  end.

(** No element of a later menu than the one in the container is open or
    has a timer pending; and when the menu in the container was rendered
    with the trigger type click, no timer is pending for an element of
    it, and at most one of its submenus is open. *)
Record clickInv (st : MenuEngine.State) : Prop := mkClickInv {
  ci_old : forall s, s ∈ MenuEngine.expanded st -> (fst s <= MenuEngine.renders st)%nat;
  ci_timers : forall t, t ∈ MenuEngine.timers st ->
                        (fst (subject t) <= MenuEngine.renders st)%nat;
  ci_idle :
    MenuConfig.triggerType (MenuEngine.captured st) = "click" ->
    forall t, t ∈ MenuEngine.timers st -> (fst (subject t) < MenuEngine.renders st)%nat;
  ci_one :
    MenuConfig.triggerType (MenuEngine.captured st) = "click" ->
    forall s1 s2,
      s1 ∈ MenuEngine.expanded st -> s2 ∈ MenuEngine.expanded st ->
      fst s1 = MenuEngine.renders st -> fst s2 = MenuEngine.renders st -> s1 = s2 }.

(** ** Normalised menu items *)

Module Normal.

Import Js DataRetrieval.

(** The exceptions of [normalizeItem]. *)
Definition readError (err : error) : Prop :=
  err = TypeError "Cannot read properties of undefined" \/
  err = TypeError "Cannot read properties of null".

(** A record that can be read down to [n] levels below it: the record
    itself, and for [n > 0] the elements of its [children] array down to
    [n - 1] levels. *)
Fixpoint readableWithin (n : nat) (item : value) : bool :=
  Shape.readable item &&
  match n with
  | O => true
  | S n' => forallb (readableWithin n') (Shape.childArray item)
  end.

(** The levels that [normalizeItem] reads below an item of level [level]
    under the layer limit [maxLayers]. *)
Definition levelsBelow (maxLayers level : Z) : nat := Z.to_nat (maxLayers - level).

(** What an item that [normalizeItem] builds at level [d] looks like, with
    all that hangs below it: its [level] is [d]; [id], [title] and [url]
    are truthy; [openInNewTab] is truthy or [false], [icon] truthy or
    [null], [cssClass] truthy or the empty string; below the layer limit
    its children look like that at level [d + 1], and at the limit or
    beyond it has no children. *)
Fixpoint normalised (maxLayers d : Z) (m : MenuItem) {struct m} : bool :=
  (level m =? d)
  && truthy (id m) && truthy (title m) && truthy (url m)
  && (truthy (openInNewTab m) ||
      match openInNewTab m with Bool false => true | _ => false end)
  && (truthy (icon m) || match icon m with Null => true | _ => false end)
  && (truthy (cssClass m) || match cssClass m with Str "" => true | _ => false end)
  && (if d <? maxLayers
      then forallb (normalised maxLayers (d + 1)) (children m)
      else match children m with [] => true | _ => false end).

(** A normalised item as a JavaScript value: the object literal of
    [normalizeItem] with its eight properties. *)
Fixpoint toValue (m : MenuItem) : value :=
  obj [ ("id", id m); ("title", title m); ("url", url m);
        ("openInNewTab", openInNewTab m); ("icon", icon m);
        ("cssClass", cssClass m); ("level", Num (level m));
        ("children", Arr (map toValue (children m))) ].

(** The number of items of a tree of normalised items. *)
Fixpoint size (m : MenuItem) : nat :=
  S (sum_list (map size (children m))).

(** The number of records down to [n] levels below a record, itself
    included. *)
Fixpoint recordsWithin (n : nat) (item : value) : nat :=
  S (match n with
     | O => 0
     | S n' => sum_list (map (recordsWithin n') (Shape.childArray item))
     end).

(** The number of records of a collection of any depth. *)
Fixpoint records (item : value) : nat :=
  match item with
  | Obj fields =>
      match fields "children" with
      | Arr elems => S (sum_list (map records elems))
      | _ => 1
      end
  | _ => 1
  end.

(** The number of records down to [n] levels below a record, itself
    included, that have no truthy [id]. *)
Fixpoint withoutId (n : nat) (item : value) : nat :=
  (match item with
   | Obj fields => if truthy (fields "id") then 0 else 1
   | _ => 1
   end +
   match n with
   | O => 0
   | S n' => sum_list (map (withoutId n') (Shape.childArray item))
   end)%nat.

End Normal.
(** ** The arrow keys *)

Module Keyboard.

Section Items.

Context {A : Type} `{EqDecision A}.

(** [items.indexOf(x)]. *)
Definition indexOf (items : list A) (x : A) : Z :=
  match list_find (fun y => y = x) items with
  | Some (i, _) => Z.of_nat i
  | None => -1
  end.

(** [a % b]: the remainder has the sign of [a]; [None] stands for NaN. *)
Definition remainder (a b : Z) : option Z :=
  if b =? 0 then None else Some (Z.rem a b).

(** [items[i]] for a number [i]. *)
Definition item (items : list A) (i : option Z) : option A :=
  match i with
  | Some n => if n <? 0 then None else items !! Z.to_nat n
  | None => None
  end.

(** [focusNextItem(current)]: the element on which [focus()] is called, if
    any; [items] is [getFocusableItems(current.closest('ul'))]. *)
Definition focusNextItem (items : list A) (current : A) : option A :=
  let currentIndex := indexOf items current in
  let nextIndex := remainder (currentIndex + 1) (Z.of_nat (length items)) in
  item items nextIndex.

(** [focusPreviousItem(current)], likewise. *)
Definition focusPreviousItem (items : list A) (current : A) : option A :=
  let currentIndex := indexOf items current in
  let prevIndex :=
    remainder (currentIndex - 1 + Z.of_nat (length items)) (Z.of_nat (length items)) in
  item items prevIndex.

End Items.

End Keyboard.

(** ** Records with repeated ids *)

Module Repeated.

Import SharePointData.

(** The ids of the records, each once, in the order of their first
    occurrences. *)
Definition firstIds (items : list SPItem) : list Z :=
  reverse (remove_dups (reverse (Id <$> items))).

(** The last record with the id [k]. *)
Definition lastWith (items : list SPItem) (k : Z) : option SPItem :=
  last (filter (fun x => Id x = k) items).

(** For each id the last record that has it, at the place of the first
    record that has it. *)
Definition effective (items : list SPItem) : list SPItem :=
  omap (lastWith items) (firstIds items).

End Repeated.

(** ** Loads and listeners of the controller *)

Module Loads.

Import Js MenuEngine.

(** The data that the source of a load hands to [getData()], if it hands
    any: [config.data || []] for static data, the body of the response for
    a network call. *)
Definition delivers (cfg : MenuConfig.Config) (src : Source) (resp : Response)
    : option value :=
  match src, resp with
  | StaticData, _ => Some (Js.or (MenuConfig.data (MenuConfig.dataSource cfg)) (Arr []))
  | Network, Body raw => Some raw
  | _, _ => None
  end.

(** The message of the error with which the source of a load fails, if it
    fails. *)
Definition failsWith (src : Source) (resp : Response) : option string :=
  match src, resp with
  | Rejected msg, _ => Some msg
  | Network, Failure msg => Some msg
  | _, _ => None
  end.

(** How the method of a JSON or API source settles, given what it makes
    of the response. *)
Definition settles (r : result value) : Response :=
  match r with
  | Ok raw => Body raw
  | Throw e => Failure (message e)
  end.

End Loads.

Module Listeners.

Import MenuEngine.

Definition documentClick : Listener := mkListener Document "click" HandleDocumentClick.
Definition containerKeydown : Listener := mkListener Container "keydown" HandleKeyDown.
Definition windowResize : Listener := mkListener Window "resize" HandleResize.
Definition escape (n : nat) : Listener := mkListener Document "keydown" (EscapeArrow n).

(** The listeners that run on a click in the document and on a press of
    the Escape key. *)
Definition onDocumentClick (l : Listener) : bool :=
  match target l, handler l with
  | Document, HandleDocumentClick => String.eqb (event l) "click"
  | _, _ => false
  end.

Definition onEscape (l : Listener) : bool :=
  match target l, handler l with
  | Document, EscapeArrow _ => String.eqb (event l) "keydown"
  | _, _ => false
  end.

(** The listeners that [attachEventListeners] registers under a
    configuration. *)
Definition enabled (cfg : MenuConfig.Config) (l : Listener) : Prop :=
  (l = documentClick /\ MenuConfig.closeOnOutsideClick cfg = true) \/
  (l = containerKeydown /\ MenuConfig.enableKeyboardNavigation cfg = true) \/
  l = windowResize \/
  (exists n, l = escape n /\ MenuConfig.closeOnEscape cfg = true).

(** No listener is registered twice, and the arrow functions for Escape
    are numbered below the count of those created so far, of which there
    is at most one per menu that the container has got. *)
Record registered (st : State) : Prop := mkRegistered {
  reg_once : NoDup (listeners st);
  reg_arrows : forall n, escape n ∈ listeners st -> (n < arrows st)%nat;
  reg_renders : (arrows st <= renders st)%nat }.

(** Two states with the same listeners and count of renders. *)
Definition same (st st' : State) : Prop :=
  listeners st' = listeners st /\ arrows st' = arrows st /\ renders st' = renders st.

(** The state [st'] has the listeners that [attachEventListeners()]
    leaves in [st], after one more render. *)
Definition attachedIn (st st' : State) : Prop :=
  listeners st' = listeners (attachEventListeners st) /\
  arrows st' = arrows (attachEventListeners st) /\
  renders st' = S (renders st).

(** The events that change the configuration. *)
Definition reconfigures (ev : Event) : bool :=
  match ev with
  | UpdateConfig _ | Assign _ => true
  | _ => false
  end.

End Listeners.

(** ** Sample controllers *)

Module SampleStates.

Import MenuEngine.

(** A controller with the default configuration before [init()], at clock
    0 in a window without width. *)
Definition blank : State :=
  {| config := MenuConfig.DEFAULT_CONFIG; retrieval := MenuConfig.DEFAULT_CONFIG;
     shared := true; isInitialized := false; isLoading := false;
     menuData := []; openMenus := ∅; hoverTimeout := None; closeTimeout := None;
     cache := DataCache.new _ (Some 300000);
     content := Blank; renders := 0; captured := MenuConfig.DEFAULT_CONFIG;
     expanded := ∅; visible := ∅;
     listeners := []; arrows := 0; timers := []; nextHandle := 1;
     clock := 0; innerWidth := 0; loads := []; fetches := 0;
     env := Sample.freshEnv |}.

(** The controller built from options in a window of the given width,
    after a list of events ([blank] for options that are not valid). *)
Definition after (opts : MenuConfig.Options) (width : Z) (evs : list Event) : State :=
  default blank (SampleMenu.after opts width evs).

(** The sample menu in hover mode: after [init()], and with the submenu A
    opened by the pointer. *)
Definition ready : State :=
  after (SampleMenu.options "hover" "static" "") 1200 SampleMenu.initialised.

Definition hovering : State :=
  after (SampleMenu.options "hover" "static" "") 1200
    (SampleMenu.initialised ++ [MouseEnter SampleMenu.A; Elapse 150]).

(** A controller with a JSON source, with and without URL, whose [init()]
    waits for its data. *)
Definition loading : State :=
  after (SampleMenu.options "hover" "json" "/menu.json") 1200 [Init].

Definition loadingNoUrl : State :=
  after (SampleMenu.options "hover" "json" "") 1200 [Init].

(** A controller with the SharePoint source whose [init()] waits for its
    data. *)
Definition sharePointOptions : MenuConfig.Options :=
  {| MenuConfig.o_layers := None; MenuConfig.o_triggerType := None;
     MenuConfig.o_closeOnOutsideClick := None; MenuConfig.o_closeOnEscape := None;
     MenuConfig.o_hoverDelay := None; MenuConfig.o_closeDelay := None;
     MenuConfig.o_enableKeyboardNavigation := None;
     MenuConfig.o_mobileBreakpoint := None; MenuConfig.o_cacheData := None;
     MenuConfig.o_cacheDuration := None;
     MenuConfig.o_sharePoint :=
       Some {| MenuConfig.o_enabled := Some true; MenuConfig.o_listName := Some "Menu";
               MenuConfig.o_siteUrl := Some "https://site";
               MenuConfig.o_selectFields := None; MenuConfig.o_orderBy := None;
               MenuConfig.o_ascending := None |};
     MenuConfig.o_dataSource :=
       Some {| MenuConfig.o_type := Some "sharepoint"; MenuConfig.o_url := None;
               MenuConfig.o_data := None |} |}.

Definition loadingSharePoint : State := after sharePointOptions 1200 [Init].

(** Responses with the status 200: with a body that is JSON, and with one
    that is not. *)
Definition answer (body : Js.value) : Sources.HttpResponse :=
  {| Sources.ok := true; Sources.status := 200; Sources.statusText := "OK";
     Sources.json := Js.Ok body |}.

Definition notJson : Sources.HttpResponse :=
  {| Sources.ok := true; Sources.status := 200; Sources.statusText := "OK";
     Sources.json := Js.Throw (Js.SyntaxError "Unexpected token < in JSON at position 0") |}.

End SampleStates.

(** ** The main menu of [menus/main-menu-config.js] *)

Module MainMenu.

Import Js.

(** [{ id, title, url }]. *)
Definition link (id title url : string) : value :=
  obj [("id", Str id); ("title", Str title); ("url", Str url)].

(** [{ id, title, url, children }]. *)
Definition group (id title url : string) (children : list value) : value :=
  obj [("id", Str id); ("title", Str title); ("url", Str url);
       ("children", Arr children)].

(** [MAIN_MENU_CONFIG.dataSource.data]. *)
Definition data : list value :=
  [ obj [("id", Str "home"); ("title", Str "Home"); ("url", Str "/");
         ("icon", Null); ("children", Arr [])];
    group "departments" "Departments" "#"
      [ group "hr" "Human Resources" "/departments/hr"
          [ link "hr-policies" "Policies" "/departments/hr/policies";
            link "hr-benefits" "Benefits" "/departments/hr/benefits";
            link "hr-training" "Training" "/departments/hr/training" ];
        group "it" "Information Technology" "/departments/it"
          [ link "it-helpdesk" "Help Desk" "/departments/it/helpdesk";
            link "it-software" "Software Catalog" "/departments/it/software";
            link "it-security" "Security" "/departments/it/security" ];
        group "finance" "Finance" "/departments/finance"
          [ link "fin-reports" "Reports" "/departments/finance/reports";
            link "fin-budget" "Budget" "/departments/finance/budget" ];
        group "marketing" "Marketing" "/departments/marketing" [] ];
    group "resources" "Resources" "#"
      [ group "documents" "Document Library" "/resources/documents"
          [ link "doc-forms" "Forms" "/resources/documents/forms";
            link "doc-templates" "Templates" "/resources/documents/templates";
            link "doc-policies" "Policies" "/resources/documents/policies" ];
        group "tools" "Tools & Apps" "/resources/tools"
          [ obj [("id", Str "tools-office"); ("title", Str "Office 365");
                 ("url", Str "https://office.com"); ("openInNewTab", Bool true)];
            link "tools-sharepoint" "SharePoint" "/resources/tools/sharepoint" ];
        group "calendar" "Company Calendar" "/resources/calendar" [] ];
    group "news" "News" "/news"
      [ link "news-announcements" "Announcements" "/news/announcements";
        link "news-events" "Events" "/news/events";
        link "news-blog" "Company Blog" "/news/blog" ];
    group "contact" "Contact Us" "/contact" [] ].

(** [MAIN_MENU_CONFIG], without its callbacks. *)
Definition MAIN_MENU_CONFIG : MenuConfig.Options :=
  {| MenuConfig.o_layers := Some 3;
     MenuConfig.o_triggerType := Some "hover";
     MenuConfig.o_closeOnOutsideClick := None;
     MenuConfig.o_closeOnEscape := None;
     MenuConfig.o_hoverDelay := Some 100;
     MenuConfig.o_closeDelay := Some 250;
     MenuConfig.o_enableKeyboardNavigation := None;
     MenuConfig.o_mobileBreakpoint := None;
     MenuConfig.o_cacheData := Some true;
     MenuConfig.o_cacheDuration := Some 300000;
     MenuConfig.o_sharePoint :=
       Some {| MenuConfig.o_enabled := Some false;
               MenuConfig.o_listName := Some "MainMenu";
               MenuConfig.o_siteUrl := Some "";
               MenuConfig.o_selectFields :=
                 Some ["Title"; "Url"; "ParentId"; "Order"; "OpenInNewTab"];
               MenuConfig.o_orderBy := Some "Order";
               MenuConfig.o_ascending := Some true |};
     MenuConfig.o_dataSource :=
       Some {| MenuConfig.o_type := Some "static";
               MenuConfig.o_url := None;
               MenuConfig.o_data := Some (Arr data) |} |}.

(** The configuration that [new MenuConfig(MAIN_MENU_CONFIG)] holds. *)
Definition config : MenuConfig.Config :=
  MenuConfig.mergeConfig MenuConfig.DEFAULT_CONFIG MAIN_MENU_CONFIG.

(** The items that [normalizeData] makes of an array under the layer
    limit of the main menu, when no id has to be drawn. *)
Definition itemsOf (elems : list value) : list DataRetrieval.MenuItem :=
  match DataRetrieval.normalizeData Sample.noRandom (MenuConfig.layers config)
          (Arr elems) Sample.freshEnv with
  | (Ok out, _) => out
  | (Throw _, _) => []
  end.

(** The menu data of the main menu. *)
Definition menuData : list DataRetrieval.MenuItem := itemsOf data.

(** A menu of one item, with two class names. *)
Definition featured : list value :=
  [ obj [("id", Str "news"); ("title", Str "News"); ("url", Str "/news");
         ("cssClass", Str "highlight featured")] ].

(** The container of the page: [<div id="main-menu"></div>]. *)
Definition container : Dom.Node :=
  Dom.Element "div" [("id", "main-menu")] [] [].

End MainMenu.

(** * Properties *)

(** ** The cache *)

Section CacheFacts.

Context {V : Type} (null : V).

Implicit Types (c : DataCache.t V) (key : string) (d : V) (ttl : option Z).

(** The entry that [set] leaves under its key. *)
Lemma set_lookup now key d ttl c :
  DataCache.cache V (DataCache.set V now key d ttl c) !! key
  = Some (DataCache.mkEntry V d (now + DataCache.effectiveDuration V ttl c)).
Proof. unfold DataCache.set; simpl. apply lookup_insert_eq. Qed.

(** A lookup of a key that is not cached is a miss and changes nothing. *)
Lemma get_absent now key c :
  DataCache.cache V c !! key = None ->
  DataCache.get V null now key c = (null, c).
Proof. intros H. unfold DataCache.get. now rewrite H. Qed.

(** A zero duration is not honoured: [duration || this.duration] takes the
    cache's own duration for it. *)
Lemma set_zero_duration_is_default now key d c :
  DataCache.set V now key d (Some 0) c = DataCache.set V now key d None c.
Proof. reflexivity. Qed.

(** C6. For every cache, key, payload and duration argument, the entry
    that [set] stores expires at the clock at [set] plus the duration
    argument when that is given and not zero, and plus the cache's own
    duration when it is omitted or zero. A [get] that follows returns the
    payload while the clock is not past that expiry and leaves the cache
    as it is; strictly after the expiry it returns [null], deletes the
    entry, and every later [get] of the key is a miss as well. *)
Theorem cache_get_after_set tset tget key d ttl c :
  let c' := DataCache.set V tset key d ttl c in
  let expiry :=
    tset + match ttl with
           | Some n => if decide (n = 0) then DataCache.duration V c else n
           | None => DataCache.duration V c
           end in
  (tget <= expiry -> DataCache.get V null tget key c' = (d, c')) /\
  (expiry < tget ->
     DataCache.get V null tget key c' = (null, DataCache.delete V key c') /\
     DataCache.cache V (DataCache.get V null tget key c').2 !! key = None /\
     forall later,
       DataCache.get V null later key (DataCache.get V null tget key c').2
       = (null, DataCache.delete V key c')).
Proof.
  intros c' expiry.
  assert (Hl : DataCache.cache V c' !! key = Some (DataCache.mkEntry V d expiry)).
  { unfold c', expiry. rewrite set_lookup. do 3 f_equal.
    destruct ttl as [n|]; [| reflexivity]. simpl.
    destruct (Z.eqb_spec n 0), (decide (n = 0)); congruence. }
  split; intros Ht.
  - unfold DataCache.get. rewrite Hl. simpl.
    destruct (Z.ltb_spec expiry tget); [lia | reflexivity].
  - assert (Hg : DataCache.get V null tget key c' = (null, DataCache.delete V key c')).
    { unfold DataCache.get. rewrite Hl. simpl.
      destruct (Z.ltb_spec expiry tget); [reflexivity | lia]. }
    rewrite Hg. simpl. split; [reflexivity |].
    split; [apply lookup_delete_eq |].
    intros later. apply get_absent. simpl. apply lookup_delete_eq.
Qed.

End CacheFacts.

(** The property at a concrete cache: an entry set at clock 1000 for 50 ms
    is served at 1050 and gone at 1051. *)
Lemma cache_get_after_set_witness :
  let c := DataCache.set Z 1000 "menu_static_static_{}" 7 (Some 50) (DataCache.new Z None) in
  DataCache.get Z 0 1050 "menu_static_static_{}" c = (7, c) /\
  DataCache.get Z 0 1051 "menu_static_static_{}" c
  = (0, DataCache.delete Z "menu_static_static_{}" c).
Proof.
  pose proof (cache_get_after_set (V := Z) 0 1000 1050 "menu_static_static_{}" 7 (Some 50)
                (DataCache.new Z None)) as [H1 _].
  pose proof (cache_get_after_set (V := Z) 0 1000 1051 "menu_static_static_{}" 7 (Some 50)
                (DataCache.new Z None)) as [_ H2].
  split.
  - apply H1. vm_compute. discriminate.
  - apply H2. vm_compute. reflexivity.
Defined.

(** C6, as stated, fails for a duration of zero. An entry set at clock
    1000 with duration 0, in a cache with the default duration of five
    minutes, is still served at 1001 and at 301000, after the instant
    1000 + 0; it is gone at 301001. *)
Lemma cache_zero_ttl_counterexample :
  let c := DataCache.set Z 1000 "menu_static_static_{}" 7 (Some 0) (DataCache.new Z None) in
  1000 + 0 < 1001 /\
  DataCache.get Z 0 1001 "menu_static_static_{}" c = (7, c) /\
  DataCache.get Z 0 301000 "menu_static_static_{}" c = (7, c) /\
  DataCache.get Z 0 301001 "menu_static_static_{}" c
  = (0, DataCache.delete Z "menu_static_static_{}" c).
Proof. vm_compute. repeat split; reflexivity. Qed.

(** ** Normalisation *)

Section NormalizeFacts.

Import Js DataRetrieval Shape.

Variable random_suffix : nat -> string.
Variable maxLayers : Z.

Abbreviation normalizeFields := (normalizeFields random_suffix maxLayers).
Abbreviation normalizeItem := (normalizeItem random_suffix maxLayers).
Abbreviation normalizeData := (normalizeData random_suffix maxLayers).

(** [map] with a callback that succeeds on every element, relates each
    element to its image through [P] and writes nothing to the console. *)
Lemma mapM_ok {A B} (f : A -> M B) (P : A -> B -> Prop) (l : list A) :
  (forall x, In x l -> forall e, exists y e',
       f x e = (Ok y, e') /\ P x y /\ console e' = console e) ->
  forall e, exists ys e',
    mapM f l e = (Ok ys, e') /\ Forall2 P l ys /\ console e' = console e.
Proof.
  induction l as [|x l IH]; intros Hf e.
  - exists [], e. repeat split. constructor.
  - destruct (Hf x (or_introl eq_refl) e) as (y & e1 & Hy & HP & Hc1).
    destruct (IH (fun x' Hx' => Hf x' (or_intror Hx')) e1) as (ys & e2 & Hys & HPs & Hc2).
    exists (y :: ys), e2. simpl. unfold bind at 1. rewrite Hy.
    unfold bind at 1. rewrite Hys. unfold ret. repeat split.
    + now constructor.
    + congruence.
Qed.

(** The id step of [normalizeFields] never throws and never logs. *)
Lemma theId_ok (read : string -> value) e :
  exists v e',
    (if truthy (read "id") then ret (read "id") else generateId random_suffix) e = (Ok v, e')
    /\ console e' = console e.
Proof.
  destruct (truthy (read "id")); eexists _, _; split; reflexivity.
Qed.

(** At or beyond the layer limit the children are not looked at: the item
    is produced with an empty child sequence, whatever [kids] would do. *)
Lemma normalizeFields_cut read level kids e :
  maxLayers <= level ->
  exists m e',
    normalizeFields read level kids e = (Ok m, e') /\
    children m = [] /\ DataRetrieval.level m = level /\ console e' = console e.
Proof.
  intros Hle. unfold DataRetrieval.normalizeFields, bind.
  destruct (theId_ok read e) as (v & e1 & -> & Hc).
  replace (level <? maxLayers) with false by (symmetry; apply Z.ltb_ge; lia).
  simpl. eexists _, _. split; [reflexivity |]. auto.
Qed.

(** Within the limit, the children of the result are what [kids] returns
    when [item.children] is an array, and none otherwise. *)
Lemma normalizeFields_within read level kids e :
  level < maxLayers ->
  (forall e1, console e1 = console e -> exists cs e2,
       kids e1 = (Ok cs, e2) /\ console e2 = console e) ->
  exists m e',
    normalizeFields read level kids e = (Ok m, e') /\
    DataRetrieval.level m = level /\ console e' = console e /\
    (if isArray (read "children")
     then exists e1, kids e1 = (Ok (children m), e')
     else children m = []).
Proof.
  intros Hlt Hkids. unfold DataRetrieval.normalizeFields, bind.
  destruct (theId_ok read e) as (v & e1 & -> & Hc).
  replace (level <? maxLayers) with true by (symmetry; apply Z.ltb_lt; lia).
  destruct (isArray (read "children")) eqn:Harr.
  - assert (Ht : truthy (read "children") = true)
      by (destruct (read "children"); try discriminate; reflexivity).
    rewrite Ht. simpl.
    destruct (Hkids e1 Hc) as (cs & e2 & Hk & Hc2).
    rewrite Hk. unfold ret. eexists _, _. split; [reflexivity |].
    simpl. repeat split; eauto.
  - rewrite andb_false_r. unfold ret. eexists _, _. split; [reflexivity |].
    simpl. auto.
Qed.

(** [a || b || c] is [a || (b || c)]. *)
Lemma or_assoc a b c : or (or a b) c = or a (or b c).
Proof. unfold or. destruct (truthy a) eqn:E; [rewrite E |]; reflexivity. Qed.

Lemma firstTruthy_cons a l d : firstTruthy (a :: l) d = or a (firstTruthy l d).
Proof.
  unfold firstTruthy, or. rewrite filter_cons.
  destruct (truthy a); destruct decide; try congruence; reflexivity.
Qed.

(** The fields that [normalizeFields] writes, whatever the level and the
    children. *)
Lemma normalizeFields_fields read level kids e m e' :
  normalizeFields read level kids e = (Ok m, e') ->
  DataRetrieval.level m = level /\
  (if truthy (read "id") then id m = read "id"
   else exists n, id m = Str ("menu_" +:+ random_suffix n)) /\
  title m = firstTruthy [read "title"; read "label"; read "name"] (Str "Untitled") /\
  url m = firstTruthy [read "url"; read "href"; read "link"] (Str "#") /\
  openInNewTab m
  = (if truthy (read "openInNewTab") then read "openInNewTab"
     else Bool (strictEqStr (read "target") "_blank")) /\
  icon m = firstTruthy [read "icon"] Null /\
  cssClass m = firstTruthy [read "cssClass"; read "className"] (Str "").
Proof.
  intros H. unfold DataRetrieval.normalizeFields, bind in H.
  assert (Hid : exists v e1,
             (if truthy (read "id") then ret (read "id") else generateId random_suffix) e
             = (Ok v, e1) /\
             (if truthy (read "id") then v = read "id"
              else exists n, v = Str ("menu_" +:+ random_suffix n))).
  { destruct (truthy (read "id")); eexists _, _; split; try reflexivity. now eexists. }
  destruct Hid as (v & e1 & Hv & Hid). rewrite Hv in H.
  assert (Hm : DataRetrieval.level m = level /\ id m = v /\
               title m = or (or (or (read "title") (read "label")) (read "name"))
                            (Str "Untitled") /\
               url m = or (or (or (read "url") (read "href")) (read "link")) (Str "#") /\
               openInNewTab m
               = or (or (read "openInNewTab") (Bool (strictEqStr (read "target") "_blank")))
                    (Bool false) /\
               icon m = or (read "icon") Null /\
               cssClass m = or (or (read "cssClass") (read "className")) (Str "")).
  { destruct ((level <? maxLayers) && truthy (read "children") && isArray (read "children")).
    - destruct (kids e1) as [[cs|err] e2]; [|discriminate].
      unfold ret in H. injection H as <- _. repeat split.
    - unfold ret in H. injection H as <- _. repeat split. }
  destruct Hm as (Hl & Hi & Ht & Hu & Ho & Hic & Hcs).
  split; [exact Hl |]. split; [rewrite Hi; exact Hid |].
  rewrite Ht, Hu, Ho, Hic, Hcs, !or_assoc, !firstTruthy_cons.
  repeat split. unfold or.
  destruct (truthy (read "openInNewTab")); [reflexivity |].
  destruct (strictEqStr (read "target") "_blank"); reflexivity.
Qed.

(** [normalizeItem] on a readable item is the record body on the item's
    properties, the recursion going to the elements of its child array. *)
Lemma normalizeItem_unfold item level :
  readable item = true ->
  normalizeItem item level
  = normalizeFields (property item) level
      (mapM (fun child => normalizeItem child (level + 1)) (childArray item)).
Proof.
  intros Hr. unfold DataRetrieval.normalizeFields.
  destruct item as [| |b|n|s|l|fields|f]; try discriminate; simpl;
    unfold DataRetrieval.normalizeFields; try (rewrite !andb_false_r; reflexivity).
  destruct (fields "children") as [| |b|n|s|cs|g|f] eqn:Hch; simpl;
    rewrite ?andb_false_r; reflexivity.
Qed.

(** The fields of a normalised item are those of its record, whatever the
    layer limit. *)
Lemma normalizeItem_fields item level e m e' :
  normalizeItem item level e = (Ok m, e') ->
  fieldsOf random_suffix item m /\ DataRetrieval.level m = level.
Proof.
  intros H. destruct (readable item) eqn:Hr.
  - rewrite normalizeItem_unfold in H by assumption.
    apply normalizeFields_fields in H as (Hl & Hf). split; [exact Hf | exact Hl].
  - destruct item; discriminate.
Qed.

(** An item at or beyond the limit: its record's fields, and no children. *)
Lemma normalizeItem_cut item level e :
  maxLayers <= level -> readable item = true ->
  exists m e',
    normalizeItem item level e = (Ok m, e') /\
    fieldsOf random_suffix item m /\ DataRetrieval.level m = level /\
    children m = [] /\ console e' = console e.
Proof.
  intros Hle Hr.
  destruct (normalizeFields_cut (property item) level
              (mapM (fun child => normalizeItem child (level + 1)) (childArray item)) e Hle)
    as (m & e' & Hm & Hk & _ & Hc).
  rewrite <- normalizeItem_unfold in Hm by assumption.
  exists m, e'. destruct (normalizeItem_fields _ _ _ _ _ Hm). auto.
Qed.

(** [map] returns one result per element. *)
Lemma mapM_length {A B} (f : A -> M B) (l : list A) e ys e' :
  mapM f l e = (Ok ys, e') -> length ys = length l.
Proof.
  revert e ys e'. induction l as [|x l IH]; intros e ys e' H; simpl in H.
  - injection H as <- _. reflexivity.
  - unfold bind at 1 in H. destruct (f x e) as [[y|err] e1]; [|discriminate].
    unfold bind at 1 in H. destruct (mapM f l e1) as [[zs|err] e2] eqn:Hl; [|discriminate].
    injection H as <- _. simpl. f_equal. eauto.
Qed.

(** Below the limit the recursion does happen: the children of a result
    are the results of [normalizeItem], one level down, on the elements of
    the child array, in their order. *)
Lemma normalizeItem_within item level e m e' :
  level < maxLayers ->
  normalizeItem item level e = (Ok m, e') ->
  exists e1,
    mapM (fun child => normalizeItem child (level + 1)) (childArray item) e1
    = (Ok (children m), e').
Proof.
  intros Hlt H. destruct (readable item) eqn:Hr; [| destruct item; discriminate].
  rewrite normalizeItem_unfold in H by assumption.
  unfold DataRetrieval.normalizeFields, bind in H.
  destruct (theId_ok (property item) e) as (v & e1 & Hid & _). rewrite Hid in H.
  replace (level <? maxLayers) with true in H by (symmetry; apply Z.ltb_lt; lia).
  destruct (isArray (property item "children")) eqn:Harr.
  - assert (Ht : truthy (property item "children") = true)
      by (destruct (property item "children"); try discriminate; reflexivity).
    rewrite Ht in H. simpl in H.
    destruct (mapM _ (childArray item) e1) as [[cs|err] e2] eqn:Hm; [|discriminate].
    injection H as <- <-. exists e1. exact Hm.
  - rewrite andb_false_r in H. injection H as <- <-. exists e1. simpl.
    assert (Hno : childArray item = []).
    { destruct item as [| |b|n|s|l|fields|f]; try reflexivity. simpl in *.
      destruct (fields "children"); try reflexivity. discriminate. }
    rewrite Hno. reflexivity.
Qed.

Lemma normalizeItem_within_length fields elems level e m e' :
  level < maxLayers -> fields "children" = Arr elems ->
  normalizeItem (Obj fields) level e = (Ok m, e') ->
  length (children m) = length elems.
Proof.
  intros Hlt Harr H. destruct (normalizeItem_within _ _ _ _ _ Hlt H) as [e1 Hm].
  apply mapM_length in Hm. rewrite Hm. simpl. now rewrite Harr.
Qed.

(** Below the limit an item whose children normalise without error does
    so too, and its children are related to the elements of its child
    array as their normalisations are. *)
Lemma normalizeItem_within_ok (P : value -> MenuItem -> Prop) item level e :
  level < maxLayers -> readable item = true ->
  (forall c, In c (childArray item) -> forall e1, exists m1 e2,
       normalizeItem c (level + 1) e1 = (Ok m1, e2) /\ P c m1 /\ console e2 = console e1) ->
  exists m e',
    normalizeItem item level e = (Ok m, e') /\
    fieldsOf random_suffix item m /\ DataRetrieval.level m = level /\
    Forall2 P (childArray item) (children m) /\ console e' = console e.
Proof.
  intros Hlt Hr Hkids.
  pose proof (mapM_ok (fun child => normalizeItem child (level + 1)) P
                (childArray item) Hkids) as Hmap.
  destruct (normalizeFields_within (property item) level
              (mapM (fun child => normalizeItem child (level + 1)) (childArray item)) e Hlt)
    as (m & e' & Hm & _ & Hc & _).
  { intros e1 He1. destruct (Hmap e1) as (cs & e2 & Hcs & _ & Hc2).
    exists cs, e2. split; [exact Hcs | congruence]. }
  rewrite <- normalizeItem_unfold in Hm by assumption.
  exists m, e'. destruct (normalizeItem_fields _ _ _ _ _ Hm) as [Hf Hl].
  destruct (normalizeItem_within _ _ _ _ _ Hlt Hm) as [e1 Hk].
  destruct (Hmap e1) as (cs & e2 & Hcs & HF & _).
  rewrite Hk in Hcs. injection Hcs as <- _. auto.
Qed.

(** For every value that is not an array, and from every state of the
    random source and the console, [normalizeData] returns the empty array:
    it does not throw and draws nothing; it only warns on the console. *)
Lemma normalizeData_not_array data e :
  isArray data = false ->
  normalizeData data e
  = (Ok [],
     {| drawn := drawn e;
        console := console e ++
          ["Menu data should be an array, received: " +:+ typeof data] |}).
Proof.
  intros Hna. destruct data; try discriminate; reflexivity.
Qed.

End NormalizeFacts.

(** With two layers: every root is its record, with one child per element
    of its child array, and every such child is its record with no
    children, whatever the input holds below it. *)
Lemma normalizeData_two_layers random_suffix elems e :
  forallb Shape.readable2 elems = true ->
  exists out e',
    DataRetrieval.normalizeData random_suffix 2 (Js.Arr elems) e = (Js.Ok out, e') /\
    DataRetrieval.console e' = DataRetrieval.console e /\
    Forall2 (fun item root =>
               Shape.fieldsOf random_suffix item root /\
               DataRetrieval.level root = 1 /\
               Forall2 (fun record child =>
                          Shape.fieldsOf random_suffix record child /\
                          DataRetrieval.level child = 2 /\
                          DataRetrieval.children child = [])
                       (Shape.childArray item) (DataRetrieval.children root))
            elems out.
Proof.
  intros Hwf. simpl.
  destruct (mapM_ok
              (fun item => DataRetrieval.normalizeItem random_suffix 2 item 1)
              (fun item root =>
                 Shape.fieldsOf random_suffix item root /\
                 DataRetrieval.level root = 1 /\
                 Forall2 (fun record child =>
                            Shape.fieldsOf random_suffix record child /\
                            DataRetrieval.level child = 2 /\
                            DataRetrieval.children child = [])
                         (Shape.childArray item) (DataRetrieval.children root))
              elems) with (e := e) as (out & e' & H & HF & Hc).
  2: { exists out, e'. auto. }
  intros item Hin e0.
  rewrite forallb_forall in Hwf. specialize (Hwf item Hin).
  apply andb_prop in Hwf as [Hr Hkids]. rewrite forallb_forall in Hkids.
  destruct (normalizeItem_within_ok random_suffix 2
              (fun record child =>
                 Shape.fieldsOf random_suffix record child /\
                 DataRetrieval.level child = 2 /\
                 DataRetrieval.children child = [])
              item 1 e0) as (m & e1 & Hm & Hf & Hl & HF & Hcon); [lia | exact Hr | |].
  - intros c Hc e1.
    destruct (normalizeItem_cut random_suffix 2 c (1 + 1) e1) as (m & e2 & Hm & Hf & Hl & Hk & Hcon);
      [lia | auto |].
    exists m, e2. auto.
  - exists m, e1. auto.
Qed.

(** C7. Normalisation recurses into the children of a node only while the
    node's level is strictly below the layer limit, and the limit touches
    nothing but the children. At or beyond the limit every readable item
    is normalised, without an error and without console output, to a node
    of that level with the fields of its record and an empty child
    sequence. Below the limit a normalised node has the fields of its
    record, and its children are the results of normalising the elements
    of its [children] array one level down, in their order. With a limit
    of two, every collection whose roots and whose children are readable
    is normalised without error: each root has the fields of its record
    and one level-2 child per element of its [children] array, and each of
    those children has the fields of its record and an empty child
    sequence, so that whatever is nested at depth 3 is dropped. *)
Theorem normalize_depth_limit random_suffix :
  (forall maxLayers item level e,
      maxLayers <= level -> Shape.readable item = true ->
      exists m e',
        DataRetrieval.normalizeItem random_suffix maxLayers item level e = (Js.Ok m, e') /\
        Shape.fieldsOf random_suffix item m /\
        DataRetrieval.level m = level /\
        DataRetrieval.children m = [] /\
        DataRetrieval.console e' = DataRetrieval.console e) /\
  (forall maxLayers item level e m e',
      level < maxLayers ->
      DataRetrieval.normalizeItem random_suffix maxLayers item level e = (Js.Ok m, e') ->
      Shape.fieldsOf random_suffix item m /\
      DataRetrieval.level m = level /\
      length (DataRetrieval.children m) = length (Shape.childArray item) /\
      exists e1,
        DataRetrieval.mapM
          (fun child => DataRetrieval.normalizeItem random_suffix maxLayers child (level + 1))
          (Shape.childArray item) e1
        = (Js.Ok (DataRetrieval.children m), e')) /\
  (forall elems e,
      forallb Shape.readable2 elems = true ->
      exists out e',
        DataRetrieval.normalizeData random_suffix 2 (Js.Arr elems) e = (Js.Ok out, e') /\
        DataRetrieval.console e' = DataRetrieval.console e /\
        Forall2 (fun item root =>
                   Shape.fieldsOf random_suffix item root /\
                   DataRetrieval.level root = 1 /\
                   Forall2 (fun record child =>
                              Shape.fieldsOf random_suffix record child /\
                              DataRetrieval.level child = 2 /\
                              DataRetrieval.children child = [])
                           (Shape.childArray item) (DataRetrieval.children root))
                elems out).
Proof.
  split; [| split].
  - intros maxLayers item level e Hle Hr.
    apply normalizeItem_cut; assumption.
  - intros maxLayers item level e m e' Hlt H.
    destruct (normalizeItem_fields _ _ _ _ _ _ _ H) as [Hf Hl].
    destruct (normalizeItem_within _ _ _ _ _ _ _ Hlt H) as [e1 Hk].
    split; [exact Hf |]. split; [exact Hl |]. split.
    + eapply mapM_length, Hk.
    + exists e1. exact Hk.
  - apply normalizeData_two_layers.
Qed.

(** The property on two roots with three children and a grandchild each. *)
Lemma normalize_depth_limit_witness :
  exists out e',
    DataRetrieval.normalizeData Sample.noRandom 2 (Js.Arr Sample.threeLevels) Sample.freshEnv
    = (Js.Ok out, e') /\
    DataRetrieval.console e' = [] /\
    Forall2 (fun item root =>
               Shape.fieldsOf Sample.noRandom item root /\
               DataRetrieval.level root = 1 /\
               Forall2 (fun record child =>
                          Shape.fieldsOf Sample.noRandom record child /\
                          DataRetrieval.level child = 2 /\
                          DataRetrieval.children child = [])
                       (Shape.childArray item) (DataRetrieval.children root))
            Sample.threeLevels out.
Proof.
  destruct (normalize_depth_limit Sample.noRandom) as (_ & _ & H).
  apply (H Sample.threeLevels Sample.freshEnv). vm_compute. reflexivity.
Defined.

(** The same collection evaluated: ids of the roots and of their children,
    and the number of grandchildren kept, with two and with three layers.
    With three layers the [null] grandchild makes normalisation throw. *)
Example normalize_two_layers_run :
  match DataRetrieval.normalizeData Sample.noRandom 2 (Js.Arr Sample.threeLevels)
          Sample.freshEnv with
  | (Js.Ok out, _) =>
      map (fun r => (DataRetrieval.id r,
                     map (fun c => (DataRetrieval.id c,
                                    length (DataRetrieval.children c)))
                         (DataRetrieval.children r))) out
      = [ (Js.Str "a", [(Js.Str "a1", 0%nat); (Js.Str "a2", 0%nat); (Js.Str "a3", 0%nat)]);
          (Js.Str "b", [(Js.Str "b1", 0%nat); (Js.Str "b2", 0%nat); (Js.Str "b3", 0%nat)]) ]
  | (Js.Throw _, _) => False
  end.
Proof. vm_compute. reflexivity. Qed.

Example normalize_three_layers_run :
  (DataRetrieval.normalizeData Sample.noRandom 3 (Js.Arr Sample.threeLevels)
     Sample.freshEnv).1
  = Js.Throw (Js.TypeError "Cannot read properties of null").
Proof. vm_compute. reflexivity. Qed.

(** An element that is a string has no property that [normalizeItem]
    reads but [link], which it inherits: the record is untitled, gets a
    generated id, and its [url] is that function. *)
Example normalize_string_element :
  (DataRetrieval.normalizeData Sample.noRandom 3 (Js.Arr [Js.Str "home"]) Sample.freshEnv).1
  = Js.Ok [ {| DataRetrieval.id := Js.Str "menu_000000000";
               DataRetrieval.title := Js.Str "Untitled";
               DataRetrieval.url := Js.Fn "link";
               DataRetrieval.openInNewTab := Js.Bool false;
               DataRetrieval.icon := Js.Null;
               DataRetrieval.cssClass := Js.Str "";
               DataRetrieval.level := 1;
               DataRetrieval.children := [] |} ].
Proof. vm_compute. reflexivity. Qed.
(** ** Configuration *)

Section ConfigFacts.

Import Untyped.

Variable StringToNumber : string -> number.

Abbreviation toNumber := (toNumber StringToNumber).
Abbreviation validationErrors := (validationErrors StringToNumber).
Abbreviation validateConfig := (validateConfig StringToNumber).
Abbreviation new := (Untyped.new StringToNumber).

Lemma push_app failed message errors :
  push failed message errors = (errors ++ (if failed then [message] else []))%list.
Proof. destruct failed; [reflexivity | now rewrite app_nil_r]. Qed.

(** The errors that [validateConfig] collects are the broken rules, when
    [layers] and the delays are turned into numbers without running code
    and the type of the data source can be read. *)
Lemma validationErrors_broken config layers hover close type :
  toNumber (get config "layers") = Returns layers ->
  dataSourceType config = Returns type ->
  toNumber (get config "hoverDelay") = Returns hover ->
  toNumber (get config "closeDelay") = Returns close ->
  validationErrors config = Returns (broken config layers hover close type).
Proof.
  intros Hl Ht Hh Hc. unfold Untyped.validationErrors, lessThan, greaterThan.
  rewrite Hl, Ht, Hh, Hc. cbn [bind].
  assert (Hhigh : (if below layers 1 then Returns true else Returns (above layers 3))
                  = Returns (below layers 1 || above layers 3))
    by now destruct (below layers 1).
  rewrite Hhigh. cbn [bind]. rewrite !push_app. unfold broken.
  destruct (includes ["hover"; "click"] (get config "triggerType")),
    (includes MenuConfig.validDataTypes type); simpl;
    rewrite <- ?app_assoc; reflexivity.
Qed.

Lemma join_cons_neq sep x l : l <> [] -> MenuConfig.join sep (x :: l) = x +:+ sep +:+ MenuConfig.join sep l.
Proof. destruct l; [congruence | reflexivity]. Qed.

(** What the constructor does once the merge has returned. *)
Lemma new_merged options config :
  mergeConfig DEFAULT_CONFIG (orEmpty options) = Returns config ->
  new options
  = match validationErrors config with
    | Returns [] => Returns config
    | Returns errors =>
        Throws (Js.Error ("Invalid menu configuration: " +:+ MenuConfig.join "; " errors))
    | Throws e => Throws e
    | Unmodelled => Unmodelled
    end.
Proof.
  intros Hm. unfold Untyped.new. fold (orEmpty options). rewrite Hm. simpl.
  unfold Untyped.validateConfig.
  destruct (validationErrors config) as [[|e es]|e|]; reflexivity.
Qed.

(** With the other options valid, the broken rules are the layers rule or
    none. *)
Lemma broken_others config layers :
  othersValid StringToNumber config ->
  exists hover close type,
    dataSourceType config = Returns type /\
    toNumber (get config "hoverDelay") = Returns hover /\
    toNumber (get config "closeDelay") = Returns close /\
    broken config layers hover close type
    = if below layers 1 || above layers 3 then ["layers must be between 1 and 3"] else [].
Proof.
  intros (Htrig & (props & t & Hds & Hty & Hin) & (hover & Hh & Hh0) & (close & Hc & Hc0)).
  exists hover, close, (Str t). unfold dataSourceType. rewrite Hds, Hty.
  split; [reflexivity |]. split; [exact Hh |]. split; [exact Hc |].
  unfold broken. rewrite Hh0, Hc0.
  assert (H1 : includes ["hover"; "click"] (get config "triggerType") = true)
    by (destruct Htrig as [-> | ->]; reflexivity).
  assert (H2 : includes MenuConfig.validDataTypes (Str t) = true).
  { cbn [includes]. unfold MenuConfig.includes. apply existsb_exists. exists t.
    split; [now apply list_elem_of_In | apply String.eqb_refl]. }
  rewrite H1, H2. now rewrite !app_nil_r.
Qed.

Lemma outside_bool layers : outside layers <-> below layers 1 || above layers 3 = true.
Proof. unfold outside. now rewrite orb_true_iff. Qed.

(** C8 (amended). Let the merge of the options with the defaults return,
    and let [layers] be a value that a comparison turns into a number
    without running code of the options: a number, a string, a boolean,
    [null] or [undefined]. With the other options valid, the constructor
    throws the validation error, with the layers message, exactly when
    that number is below 1 or above 3, and returns the merged
    configuration otherwise: it returns for 1, 2 and 3, and also when the
    value is no number at all (NaN, [undefined], a string that spells no
    number), for which both comparisons are false. Whatever the other
    options, a number below 1 or above 3 makes the constructor throw, the
    validation error whose message starts with the layers message when
    the data source can be read, and a [TypeError] when the data source
    is [null]; and the constructor never returns anything but the merged
    configuration: either the caller has a validated instance or it has
    an exception. *)
Theorem config_layers_validation options config layers :
  mergeConfig DEFAULT_CONFIG (orEmpty options) = Returns config ->
  toNumber (get config "layers") = Returns layers ->
  (othersValid StringToNumber config ->
     (outside layers ->
        new options
        = Throws (Js.Error "Invalid menu configuration: layers must be between 1 and 3")) /\
     (~ outside layers -> new options = Returns config) /\
     ((exists e, new options = Throws e) <-> outside layers)) /\
  (layers = NaN -> ~ outside layers) /\
  (forall k, 1 <= k <= 3 -> layers = Ratio k 1 -> ~ outside layers) /\
  (forall hover close type,
     outside layers ->
     dataSourceType config = Returns type ->
     toNumber (get config "hoverDelay") = Returns hover ->
     toNumber (get config "closeDelay") = Returns close ->
     exists rest,
       new options
       = Throws (Js.Error ("Invalid menu configuration: " +:+
                           MenuConfig.join "; " ("layers must be between 1 and 3" :: rest)))) /\
  (get config "dataSource" = Null ->
     new options = Throws (Js.TypeError "Cannot read properties of null")) /\
  (forall c, new options = Returns c ->
     c = config /\ validationErrors config = Returns []).
Proof.
  intros Hm Hl. rewrite (new_merged options config Hm).
  split; [| split; [| split; [| split; [| split]]]].
  - intros Hv. destruct (broken_others config layers Hv) as (hover & close & type & Ht & Hh & Hc & Hb).
    rewrite (validationErrors_broken config layers hover close type Hl Ht Hh Hc), Hb.
    rewrite outside_bool. destruct (below layers 1 || above layers 3).
    + split; [reflexivity |]. split; [congruence |]. split; eauto.
    + split; [discriminate |]. split; [reflexivity |].
      split; [intros [e He]; discriminate | discriminate].
  - intros -> [H|H]; discriminate.
  - intros k Hk -> [H|H]; simpl in H; [apply Z.ltb_lt in H | apply Z.ltb_lt in H]; lia.
  - intros hover close type Hout Ht Hh Hc.
    rewrite (validationErrors_broken config layers hover close type Hl Ht Hh Hc).
    unfold broken. apply outside_bool in Hout. rewrite Hout. simpl. eexists. reflexivity.
  - intros Hds. unfold Untyped.validationErrors, lessThan, greaterThan, dataSourceType.
    rewrite Hl, Hds. cbn [bind].
    destruct (below layers 1); reflexivity.
  - intros c Hc. destruct (validationErrors config) as [[|e es]|e|]; try discriminate.
    injection Hc as <-. auto.
Qed.

Lemma includes_types type :
  includes MenuConfig.validDataTypes type = true <->
  exists t, type = Str t /\ t ∈ MenuConfig.validDataTypes.
Proof.
  destruct type; cbn [includes];
    try (split; [discriminate | intros (t & H & _); discriminate]).
  unfold MenuConfig.includes. rewrite existsb_exists. split.
  - intros (x & Hx & Heq). apply String.eqb_eq in Heq. subst x.
    eexists. split; [reflexivity | now apply list_elem_of_In].
  - intros (t & [= ->] & Hin). exists t.
    split; [now apply list_elem_of_In | apply String.eqb_refl].
Qed.

Lemma includes_triggers v :
  includes ["hover"; "click"] v = true <-> v = Str "hover" \/ v = Str "click".
Proof.
  destruct v; cbn [includes]; try (split; [discriminate | intros [H|H]; discriminate]).
  unfold MenuConfig.includes. cbn [existsb]. rewrite !orb_true_iff, !String.eqb_eq.
  split.
  - intros [-> | [-> | H]]; [now left | now right | discriminate].
  - intros [[= ->] | [= ->]]; auto.
Qed.

Lemma broken_nil config layers hover close type :
  broken config layers hover close type = [] <->
  ~ outside layers /\
  (get config "triggerType" = Str "hover" \/ get config "triggerType" = Str "click") /\
  (exists t, type = Str t /\ t ∈ MenuConfig.validDataTypes) /\
  below hover 0 = false /\ below close 0 = false.
Proof.
  rewrite <- includes_types, <- includes_triggers, outside_bool. unfold broken.
  destruct (below layers 1 || above layers 3),
    (includes ["hover"; "click"] (get config "triggerType")),
    (includes MenuConfig.validDataTypes type), (below hover 0), (below close 0);
    simpl; split; try discriminate; try tauto; intuition congruence.
Qed.

(** X3. Let the merge of the options with the defaults return, let
    [layers] and the two delays be values that a comparison turns into
    numbers without running code of the options, and let the data source
    be a value whose [type] can be read. The constructor returns the
    merged configuration exactly when all five rules hold for it:
    [layers] as a number neither below 1 nor above 3, [triggerType] the
    string hover or click, the type of the data source one of the four
    known strings, and neither delay below zero as a number (zero passes,
    and so does what is no number); otherwise it throws an error whose
    message lists the broken rules in the order of the function. It never
    returns another configuration. *)
Theorem config_validation_complete options config layers hover close type :
  mergeConfig DEFAULT_CONFIG (orEmpty options) = Returns config ->
  toNumber (get config "layers") = Returns layers ->
  dataSourceType config = Returns type ->
  toNumber (get config "hoverDelay") = Returns hover ->
  toNumber (get config "closeDelay") = Returns close ->
  (new options = Returns config <->
     ~ outside layers /\
     (get config "triggerType" = Str "hover" \/ get config "triggerType" = Str "click") /\
     (exists t, type = Str t /\ t ∈ MenuConfig.validDataTypes) /\
     below hover 0 = false /\ below close 0 = false) /\
  (new options = Returns config \/
   new options
   = Throws (Js.Error ("Invalid menu configuration: " +:+
                       MenuConfig.join "; " (broken config layers hover close type)))) /\
  (forall c, new options = Returns c <->
             c = config /\ broken config layers hover close type = []).
Proof.
  intros Hm Hl Ht Hh Hc. rewrite <- broken_nil.
  rewrite (new_merged options config Hm),
    (validationErrors_broken config layers hover close type Hl Ht Hh Hc).
  destruct (broken config layers hover close type) as [|e es].
  - split; [tauto |]. split; [now left |]. intros c. split.
    + intros [= <-]. auto.
    + intros [-> _]. reflexivity.
  - split; [split; discriminate |]. split; [now right |].
    intros c. split; [discriminate | intros [_ H]; discriminate].
Qed.

End ConfigFacts.

(** X3 at options that break three rules. *)
Lemma config_validation_complete_witness :
  Untyped.new Untyped.sampleNumbers
    (Untyped.Obj [ ("layers", Untyped.Str "7"); ("triggerType", Untyped.Str "focus");
                   ("closeDelay", Untyped.Number (Untyped.Ratio (-1) 2)) ])
  = Untyped.Throws
      (Js.Error ("Invalid menu configuration: layers must be between 1 and 3; " +:+
                 "triggerType must be " +:+ MenuConfig.dq +:+ "hover" +:+ MenuConfig.dq +:+
                 " or " +:+ MenuConfig.dq +:+ "click" +:+ MenuConfig.dq +:+
                 "; closeDelay must be a positive number")).
Proof.
  destruct (config_validation_complete Untyped.sampleNumbers
              (Untyped.Obj [ ("layers", Untyped.Str "7"); ("triggerType", Untyped.Str "focus");
                             ("closeDelay", Untyped.Number (Untyped.Ratio (-1) 2)) ])
              _ (Untyped.Ratio 7 1) (Untyped.Ratio 150 1) (Untyped.Ratio (-1) 2)
              (Untyped.Str "static") eq_refl eq_refl eq_refl eq_refl eq_refl)
    as (_ & [H|H] & _).
  - discriminate H.
  - exact H.
Defined.

(** The amended C8 at the defaults with [layers] 0, 1, 2, 3, 4 and 2.5,
    with the strings "2" and "7", and with NaN. *)
Lemma config_layers_validation_witness :
  let with_layers v := Untyped.new Untyped.sampleNumbers (Untyped.Obj [("layers", v)]) in
  let refused :=
    Untyped.Throws (Js.Error "Invalid menu configuration: layers must be between 1 and 3") in
  with_layers (Untyped.int 0) = refused /\
  (exists c, with_layers (Untyped.int 1) = Untyped.Returns c) /\
  (exists c, with_layers (Untyped.int 2) = Untyped.Returns c) /\
  (exists c, with_layers (Untyped.int 3) = Untyped.Returns c) /\
  with_layers (Untyped.int 4) = refused /\
  (exists c, with_layers (Untyped.Number (Untyped.Ratio 5 2)) = Untyped.Returns c) /\
  (exists c, with_layers (Untyped.Str "2") = Untyped.Returns c) /\
  with_layers (Untyped.Str "7") = refused /\
  (exists c, with_layers (Untyped.Number Untyped.NaN) = Untyped.Returns c).
Proof.
  intros with_layers refused.
  assert (Hvalid : forall v, Untyped.primitive v = true ->
            exists config n,
              Untyped.mergeConfig Untyped.DEFAULT_CONFIG
                (Untyped.orEmpty (Untyped.Obj [("layers", v)])) = Untyped.Returns config /\
              Untyped.toNumber Untyped.sampleNumbers (Untyped.get config "layers")
              = Untyped.toNumber Untyped.sampleNumbers v /\
              Untyped.toNumber Untyped.sampleNumbers v = Untyped.Returns n /\
              Untyped.othersValid Untyped.sampleNumbers config).
  { intros v Hv. destruct v; try discriminate; eexists _, _;
      (split; [reflexivity |]); (split; [reflexivity |]); (split; [reflexivity |]);
      (split; [now left |]); (split; [eexists _, "static"; repeat split; apply list_elem_of_here |]);
      split; eexists; split; reflexivity. }
  assert (Hno : forall v n,
            Untyped.primitive v = true ->
            Untyped.toNumber Untyped.sampleNumbers v = Untyped.Returns n ->
            Untyped.below n 1 || Untyped.above n 3 = true -> with_layers v = refused).
  { intros v n Hp Hn Hout. destruct (Hvalid v Hp) as (config & n' & Hm & Hg & Hn' & Hov).
    rewrite Hn in Hn'. injection Hn' as <-. rewrite <- Hg in Hn.
    apply (proj1 (config_layers_validation Untyped.sampleNumbers _ config n Hm Hn) Hov).
    now apply orb_true_iff. }
  assert (Hyes : forall v n,
            Untyped.primitive v = true ->
            Untyped.toNumber Untyped.sampleNumbers v = Untyped.Returns n ->
            Untyped.below n 1 || Untyped.above n 3 = false ->
            exists c, with_layers v = Untyped.Returns c).
  { intros v n Hp Hn Hin. destruct (Hvalid v Hp) as (config & n' & Hm & Hg & Hn' & Hov).
    rewrite Hn in Hn'. injection Hn' as <-. rewrite <- Hg in Hn. exists config.
    apply (proj1 (config_layers_validation Untyped.sampleNumbers _ config n Hm Hn) Hov).
    intros Hout%orb_true_iff. congruence. }
  repeat split;
    first [ eapply Hno; reflexivity | eapply Hyes; reflexivity ].
Defined.

(** C8, as stated, fails. The value NaN lies outside 1..3, and so does
    [undefined], and so does a string that spells no number; the
    constructor returns a configuration with each of them as [layers].
    With [layers] 5 and a data source that is [null] the constructor
    throws, but a [TypeError] and not the validation error. *)
Lemma layers_not_a_number_counterexample :
  let with_layers v := Untyped.new Untyped.sampleNumbers (Untyped.Obj [("layers", v)]) in
  (exists c, with_layers (Untyped.Number Untyped.NaN) = Untyped.Returns c /\
             Untyped.get c "layers" = Untyped.Number Untyped.NaN) /\
  (exists c, with_layers Untyped.Undefined = Untyped.Returns c /\
             Untyped.get c "layers" = Untyped.Undefined) /\
  (exists c, with_layers (Untyped.Str "many") = Untyped.Returns c /\
             Untyped.get c "layers" = Untyped.Str "many") /\
  Untyped.new Untyped.sampleNumbers
    (Untyped.Obj [("layers", Untyped.int 5); ("dataSource", Untyped.Null)])
  = Untyped.Throws (Js.TypeError "Cannot read properties of null").
Proof. repeat split; eexists; split; reflexivity. Qed.
(** ** The typed configuration and the constructor *)

Section TypedConfig.

Import Untyped.

Variable StringToNumber : string -> number.

(** [mergeConfig] on an object, property by property. *)
Lemma mergeConfig_Obj defaults props :
  mergeConfig defaults (Obj props)
  = foldl (mergeProperty defaults props) (Returns (spread defaults)) props.
Proof.
  assert (Hfail : forall (rest : list (string * value)) e,
            foldl (mergeProperty defaults props) (Throws e) rest = Throws e)
    by (induction rest as [|kv rest IH]; intros e; [reflexivity | apply IH]).
  assert (Hout : forall rest : list (string * value),
            foldl (mergeProperty defaults props) Unmodelled rest = Unmodelled)
    by (induction rest as [|kv rest IH]; [reflexivity | apply IH]).
  cbn [mergeConfig].
  match goal with
  | |- ?loop props (spread defaults) = _ =>
      enough (H : forall rest result,
                 loop rest result
                 = foldl (mergeProperty defaults props) (Returns result) rest)
        by apply H
  end.
  induction rest as [|[key v] rest IH]; intros result; [reflexivity |].
  cbn [foldl]. unfold mergeProperty at 2. cbn [bind fst snd].
  destruct (hasOwnProperty props) as [[]|e|]; cbn [bind]; [| now rewrite Hfail | now rewrite Hout].
  destruct (String.eqb key "__proto__"); [now rewrite Hout |].
  destruct v; try apply IH.
  destruct (memberIsObject defaults key) as [[|]|e|]; cbn [bind];
    [| apply IH | now rewrite Hfail | now rewrite Hout].
  destruct (mergeConfig _ _) as [merged|e|]; cbn [bind];
    [apply IH | now rewrite Hfail | now rewrite Hout].
Qed.

Lemma lookup_optional {A} key k (f : A -> value) o rest :
  String.eqb k key = false -> lookup (optional k f o ++ rest) key = lookup rest key.
Proof. intros Hk. destruct o; simpl; [now rewrite Hk | reflexivity]. Qed.

Lemma lookup_optional_last {A} key k (f : A -> value) o :
  String.eqb k key = false -> lookup (optional k f o) key = None.
Proof. intros Hk. destruct o; simpl; [now rewrite Hk | reflexivity]. Qed.

(** Writing to a property the value that it has changes nothing. *)
Lemma assign_same key v r : lookup r key = Some v -> assign key v r = r.
Proof.
  induction r as [|[k w] r IH]; simpl; [discriminate |].
  destruct (String.eqb k key); [now intros [= ->] |]. intros H. now rewrite IH.
Qed.

(** A property that is given replaces the default, and one that is not
    given leaves it. *)
Lemma mergeProperty_optional {A} defaults props key (f : A -> value) dflt o r :
  hasOwnProperty props = Returns tt ->
  String.eqb key "__proto__" = false ->
  (forall a, match f a with Obj _ => False | _ => True end) ->
  lookup r key = Some (f dflt) ->
  foldl (mergeProperty defaults props) (Returns r) (optional key f o)
  = Returns (assign key (f (default dflt o)) r).
Proof.
  intros Hh Hk Hf Hl. destruct o as [a|]; simpl.
  - unfold mergeProperty. cbn [bind fst snd]. rewrite Hh, Hk. cbn [bind].
    specialize (Hf a). destruct (f a); try contradiction; reflexivity.
  - now rewrite assign_same.
Qed.

Ltac merge_optional Hh dflt :=
  erewrite (mergeProperty_optional _ _ _ _ dflt);
    [| exact Hh | reflexivity | intros; exact I | reflexivity];
    cbn [assign String.eqb Ascii.eqb Bool.eqb].

Lemma merge_sharePoint sp :
  mergeConfig (get (spread DEFAULT_CONFIG) "sharePoint") (ofSharePointOptions sp)
  = Returns
      [ ("enabled", Bool (default false (MenuConfig.o_enabled sp)));
        ("listName", Str (default "" (MenuConfig.o_listName sp)));
        ("siteUrl", Str (default "" (MenuConfig.o_siteUrl sp)));
        ("camlQuery", Str "");
        ("selectFields",
         strings (default ["Title"; "Url"; "ParentId"; "Order"; "OpenInNewTab"]
                    (MenuConfig.o_selectFields sp)));
        ("orderBy", Str (default "Order" (MenuConfig.o_orderBy sp)));
        ("ascending", Bool (default true (MenuConfig.o_ascending sp))) ].
Proof.
  unfold ofSharePointOptions. rewrite mergeConfig_Obj.
  match goal with
  | |- foldl (mergeProperty _ ?props) _ _ = _ =>
      assert (Hh : hasOwnProperty props = Returns tt)
  end.
  { unfold hasOwnProperty.
    rewrite !lookup_optional, lookup_optional_last by reflexivity. reflexivity. }
  rewrite !foldl_app.
  change (spread (get (spread DEFAULT_CONFIG) "sharePoint"))
    with [ ("enabled", Bool false); ("listName", Str ""); ("siteUrl", Str "");
           ("camlQuery", Str "");
           ("selectFields",
            strings ["Title"; "Url"; "ParentId"; "Order"; "OpenInNewTab"]);
           ("orderBy", Str "Order"); ("ascending", Bool true) ].
  merge_optional Hh false. merge_optional Hh "". merge_optional Hh "".
  merge_optional Hh ["Title"; "Url"; "ParentId"; "Order"; "OpenInNewTab"].
  merge_optional Hh "Order". merge_optional Hh true.
  reflexivity.
Qed.

Lemma merge_dataSource ds :
  mergeConfig (get (spread DEFAULT_CONFIG) "dataSource") (ofDataSourceOptions ds)
  = Returns
      [ ("type", Str (default "static" (MenuConfig.o_type ds)));
        ("url", Str (default "" (MenuConfig.o_url ds)));
        ("method", Str "GET"); ("headers", Obj []); ("transformResponse", Null) ].
Proof.
  unfold ofDataSourceOptions. rewrite mergeConfig_Obj.
  match goal with
  | |- foldl (mergeProperty _ ?props) _ _ = _ =>
      assert (Hh : hasOwnProperty props = Returns tt)
  end.
  { unfold hasOwnProperty.
    rewrite !lookup_optional, lookup_optional_last by reflexivity. reflexivity. }
  rewrite !foldl_app.
  change (spread (get (spread DEFAULT_CONFIG) "dataSource"))
    with [ ("type", Str "static"); ("url", Str ""); ("method", Str "GET");
           ("headers", Obj []); ("transformResponse", Null) ].
  merge_optional Hh "static". merge_optional Hh "".
  reflexivity.
Qed.

(** A nested object that is given is merged with the nested object of the
    defaults. *)
Lemma mergeProperty_nested {A} defaults props key (f : A -> value) o r dflt merged :
  hasOwnProperty props = Returns tt ->
  String.eqb key "__proto__" = false ->
  memberIsObject defaults key = Returns true ->
  (forall a, exists ps, f a = Obj ps) ->
  (forall a, mergeConfig (get (spread defaults) key) (f a) = Returns (merged (Some a))) ->
  lookup r key = Some (Obj (merged None)) ->
  (forall a, assign key (Obj (merged a)) r = dflt a) ->
  foldl (mergeProperty defaults props) (Returns r) (optional key f o)
  = Returns (dflt o).
Proof.
  intros Hh Hk Hm Hf Hmerge Hl Hd. destruct o as [a|]; simpl.
  - unfold mergeProperty. cbn [bind fst snd]. rewrite Hh, Hk. cbn [bind].
    destruct (Hf a) as [ps Hps]. specialize (Hmerge a). rewrite Hps in *.
    rewrite Hm. cbn [bind]. rewrite Hmerge. cbn [bind]. now rewrite Hd.
  - rewrite <- Hd. now rewrite assign_same.
Qed.

(** The merge of options of the documented types gives the object of the
    typed merge. *)
Lemma mergeConfig_typed o :
  mergeConfig DEFAULT_CONFIG (ofOptions o)
  = Returns (ofConfig (MenuConfig.mergeConfig MenuConfig.DEFAULT_CONFIG o)).
Proof.
  unfold ofOptions. rewrite mergeConfig_Obj.
  match goal with
  | |- foldl (mergeProperty _ ?props) _ _ = _ =>
      assert (Hh : hasOwnProperty props = Returns tt)
  end.
  { unfold hasOwnProperty.
    rewrite !lookup_optional, lookup_optional_last by reflexivity. reflexivity. }
  rewrite !foldl_app.
  change (spread DEFAULT_CONFIG) with (ofConfig MenuConfig.DEFAULT_CONFIG).
  unfold ofConfig at 1. cbn [MenuConfig.layers MenuConfig.triggerType
    MenuConfig.closeOnOutsideClick MenuConfig.closeOnEscape MenuConfig.hoverDelay
    MenuConfig.closeDelay MenuConfig.enableKeyboardNavigation MenuConfig.mobileBreakpoint
    MenuConfig.cacheData MenuConfig.cacheDuration MenuConfig.sharePoint
    MenuConfig.dataSource MenuConfig.enabled MenuConfig.listName MenuConfig.siteUrl
    MenuConfig.selectFields MenuConfig.orderBy MenuConfig.ascending MenuConfig.type
    MenuConfig.url MenuConfig.DEFAULT_CONFIG].
  merge_optional Hh 3. merge_optional Hh "hover". merge_optional Hh true.
  merge_optional Hh true. merge_optional Hh 150. merge_optional Hh 300.
  merge_optional Hh true. merge_optional Hh 768. merge_optional Hh true.
  merge_optional Hh 300000.
  erewrite (mergeProperty_nested DEFAULT_CONFIG _ "sharePoint" ofSharePointOptions
              (MenuConfig.o_sharePoint o) _ _
              (fun sp => match sp with
                         | Some sp => _
                         | None => _
                         end));
    [| exact Hh | reflexivity | reflexivity | intros a; eexists; reflexivity
     | intros a; apply merge_sharePoint | reflexivity | intros a; reflexivity].
  erewrite (mergeProperty_nested DEFAULT_CONFIG _ "dataSource" ofDataSourceOptions
              (MenuConfig.o_dataSource o) _ _
              (fun ds => match ds with
                         | Some ds => _
                         | None => _
                         end));
    [| exact Hh | reflexivity | reflexivity | intros a; eexists; reflexivity
     | intros a; apply merge_dataSource | reflexivity | intros a; reflexivity].
  f_equal. cbn [assign String.eqb Ascii.eqb Bool.eqb].
  destruct o as [? ? ? ? ? ? ? ? ? ? [sp|] [ds|]]; reflexivity.
Qed.

(** The validation of the object of a typed configuration collects the
    errors of the typed validation. *)
Lemma validationErrors_typed c :
  validationErrors StringToNumber (ofConfig c) = Returns (MenuConfig.validationErrors c).
Proof.
  unfold validationErrors, MenuConfig.validationErrors, lessThan, greaterThan,
    dataSourceType.
  change (get (ofConfig c) "layers") with (int (MenuConfig.layers c)).
  change (get (ofConfig c) "triggerType") with (Str (MenuConfig.triggerType c)).
  change (get (ofConfig c) "hoverDelay") with (int (MenuConfig.hoverDelay c)).
  change (get (ofConfig c) "closeDelay") with (int (MenuConfig.closeDelay c)).
  change (get (ofConfig c) "dataSource")
    with (Obj [ ("type", Str (MenuConfig.type (MenuConfig.dataSource c)));
                ("url", Str (MenuConfig.url (MenuConfig.dataSource c)));
                ("method", Str "GET"); ("headers", Obj []);
                ("transformResponse", Null) ]).
  cbn [toNumber int bind below above includes].
  change (get _ "type") with (Str (MenuConfig.type (MenuConfig.dataSource c))).
  cbn [includes]. rewrite !Z.mul_1_r.
  change (0 * 1) with 0.
  destruct (MenuConfig.layers c <? 1); cbn [bind orb];
    destruct (3 <? MenuConfig.layers c),
      (MenuConfig.includes ["hover"; "click"] (MenuConfig.triggerType c)),
      (MenuConfig.includes MenuConfig.validDataTypes
         (MenuConfig.type (MenuConfig.dataSource c))),
      (MenuConfig.hoverDelay c <? 0), (MenuConfig.closeDelay c <? 0);
    reflexivity.
Qed.

(** X25. For options of the documented types, the constructor on the
    options as an object does what the typed constructor does: it throws
    the same error, or it returns the object of the configuration that
    the typed constructor returns; and the constructor of the controller
    throws exactly when that of the configuration does, provided that
    the container is found. *)
Theorem typed_options_agree o :
  Untyped.new StringToNumber (ofOptions o)
  = match MenuConfig.new o with
    | Js.Ok c => Returns (ofConfig c)
    | Js.Throw e => Throws e
    end /\
  (forall now width e,
      MenuEngine.new true o now width = Js.Throw e <->
      Untyped.new StringToNumber (ofOptions o) = Throws e) /\
  (forall now width st,
      MenuEngine.new true o now width = Js.Ok st ->
      Untyped.new StringToNumber (ofOptions o) = Returns (ofConfig (MenuEngine.config st))).
Proof.
  assert (H : Untyped.new StringToNumber (ofOptions o)
              = match MenuConfig.new o with
                | Js.Ok c => Returns (ofConfig c)
                | Js.Throw e => Throws e
                end).
  { unfold Untyped.new, MenuConfig.new. cbn [ofOptions]. fold (ofOptions o).
    rewrite mergeConfig_typed. cbn [bind].
    unfold validateConfig, MenuConfig.validateConfig. rewrite validationErrors_typed.
    cbn [bind]. destruct (0 <? _); reflexivity. }
  split; [exact H |]. rewrite H. unfold MenuEngine.new. cbn [negb].
  destruct (MenuConfig.new o) as [c|err]; split.
  - intros now width e. split; discriminate.
  - intros now width st [= <-]. reflexivity.
  - intros now width e. split; intros [= <-]; reflexivity.
  - intros now width st. discriminate.
Qed.

End TypedConfig.

(** X25 at the options of the main menu. *)
Lemma typed_options_agree_witness :
  Untyped.new Untyped.sampleNumbers (Untyped.ofOptions MainMenu.MAIN_MENU_CONFIG)
  = Untyped.Returns (Untyped.ofConfig MainMenu.config).
Proof.
  rewrite (proj1 (typed_options_agree Untyped.sampleNumbers MainMenu.MAIN_MENU_CONFIG)).
  reflexivity.
Defined.

(** ** Reconstruction: the sort *)

Section SortFacts.

Import SharePointData.

(** The comparison of [sortChildren] compares a key of the two elements. *)
Variable key : Z -> Z.

Abbreviation cmp := (fun a b : Z => key a - key b).

Abbreviation keyThen := (Order.keyThen key).

Lemma insertSorted_perm x l : insertSorted cmp x l ≡ₚ x :: l.
Proof.
  induction l as [|y l IH]; simpl; [reflexivity |].
  destruct (cmp x y <=? 0); [reflexivity |].
  rewrite IH. apply Permutation_swap.
Qed.

Lemma sort_perm l : sort cmp l ≡ₚ l.
Proof.
  induction l as [|x l IH]; simpl; [reflexivity |].
  rewrite insertSorted_perm. now rewrite IH.
Qed.

Lemma insertSorted_keyThen (R : Z -> Z -> Prop) x l :
  Forall (R x) l ->
  StronglySorted (keyThen R) l ->
  StronglySorted (keyThen R) (insertSorted cmp x l).
Proof.
  intros HR Hs. induction l as [|y l IH]; simpl.
  - repeat constructor.
  - apply StronglySorted_cons in Hs as [Hy Hl].
    apply Forall_cons in HR as [HRy HRl].
    destruct (Z.leb_spec (cmp x y) 0) as [Hle|Hgt];
      [cbn beta in Hle | cbn beta in Hgt].
    + apply StronglySorted_cons. split.
      * constructor.
        -- unfold Order.keyThen. destruct (Z.eq_dec (key x) (key y)); [right | left]; auto; lia.
        -- rewrite Forall_forall in Hy, HRl |- *. intros z Hz.
           specialize (Hy z Hz). specialize (HRl z Hz). unfold Order.keyThen in *.
           destruct Hy as [?|[? ?]];
             destruct (Z.eq_dec (key x) (key z)); [right | left | right | left]; auto; lia.
      * apply StronglySorted_cons. auto.
    + apply StronglySorted_cons. split; [| auto].
      rewrite Forall_forall. intros z Hz.
      rewrite insertSorted_perm in Hz. apply elem_of_cons in Hz as [->|Hz].
      * left. lia.
      * rewrite Forall_forall in Hy. auto.
Qed.

(** Stability: sorting an array whose elements stand in the order [R]
    yields the array ordered by key and, within a key, by [R]. *)
Lemma sort_keyThen (R : Z -> Z -> Prop) l :
  StronglySorted R l -> StronglySorted (keyThen R) (sort cmp l).
Proof.
  induction 1 as [|x l Hl IH Hx]; simpl; [constructor |].
  apply insertSorted_keyThen; [| exact IH].
  rewrite Forall_forall in Hx |- *. intros z Hz. rewrite sort_perm in Hz. auto.
Qed.

Lemma StronglySorted_weaken (R1 R2 : Z -> Z -> Prop) l :
  (forall a b, R1 a b -> R2 a b) -> StronglySorted R1 l -> StronglySorted R2 l.
Proof.
  intros HR. induction 1 as [|x l Hl IH Hx]; constructor; [exact IH |].
  eapply Forall_impl; [exact Hx | auto].
Qed.

Lemma sort_sorted l : StronglySorted (fun a b => key a <= key b) (sort cmp l).
Proof.
  assert (H : StronglySorted (fun _ _ : Z => True) l).
  { induction l; constructor; auto. rewrite Forall_forall. auto. }
  apply (sort_keyThen _ l) in H.
  eapply StronglySorted_weaken; [| exact H].
  intros a b [?|[? _]]; lia.
Qed.

(** Sorting a sorted array changes nothing. *)
Lemma sort_of_sorted l :
  StronglySorted (fun a b => key a <= key b) l -> sort cmp l = l.
Proof.
  induction 1 as [|x l Hl IH Hx]; simpl; [reflexivity |].
  rewrite IH. destruct l as [|y l]; simpl; [reflexivity |].
  apply Forall_cons in Hx as [Hxy _].
  destruct (Z.leb_spec (cmp x y) 0) as [|Hgt]; [reflexivity | cbn beta in Hgt; lia].
Qed.

Lemma sort_idem l : sort cmp (sort cmp l) = sort cmp l.
Proof. apply sort_of_sorted, sort_sorted. Qed.

Lemma before_cons x l a b : Records.before l a b -> Records.before (x :: l) a b.
Proof. intros (i & j & Hi & Hj & Hlt). exists (S i), (S j). repeat split; auto; lia. Qed.

(** Every list stands in its own order. *)
Lemma before_sorted l : StronglySorted (Records.before l) l.
Proof.
  induction l as [|x l IH]; constructor.
  - eapply StronglySorted_weaken; [| exact IH]. intros a b. apply before_cons.
  - rewrite Forall_forall. intros y [j Hj]%list_elem_of_lookup.
    exists 0%nat, (S j). repeat split; auto; lia.
Qed.

(** The sorted array does not depend on the sorting algorithm: for an
    array without repetitions, every rearrangement that is ordered by key
    and keeps elements of equal key in their order is the one of [sort]. *)
Lemma sort_unique l l' :
  NoDup l -> l' ≡ₚ l ->
  StronglySorted (keyThen (Records.before l)) l' ->
  l' = sort cmp l.
Proof.
  intros Hnd Hperm Hs.
  apply (StronglySorted_unique_strong (keyThen (Records.before l))).
  - intros a b _ _ [Hab|[Hk Hab]] [Hba|[Hk' Hba]]; try lia.
    destruct Hab as (i & j & Hi & Hj & Hij), Hba as (i' & j' & Hi' & Hj' & Hij').
    pose proof (NoDup_lookup l i j' a Hnd Hi Hj').
    pose proof (NoDup_lookup l j i' b Hnd Hj Hi'). lia.
  - exact Hs.
  - apply sort_keyThen, before_sorted.
  - now rewrite sort_perm.
Qed.

End SortFacts.

(** ** Reconstruction: the store *)

Section StoreFacts.

Import SharePointData Forest.

Lemma skel_lookup m m' k :
  skel m' = skel m ->
  setChildren [] <$> objs m' !! k = setChildren [] <$> objs m !! k.
Proof.
  unfold skel. intros [= _ H]. rewrite <- !lookup_fmap. now rewrite H.
Qed.

Lemma skel_orderOf st st' a :
  skel (itemMap st') = skel (itemMap st) -> orderOf st' a = orderOf st a.
Proof.
  intros H. apply skel_lookup with (k := a) in H. unfold orderOf.
  destruct (objs (itemMap st') !! a) as [o'|], (objs (itemMap st) !! a) as [o|];
    simpl in H; try discriminate; [| reflexivity].
  injection H as _ _ _ _ Ho _. exact Ho.
Qed.

Lemma sort_ext cmp cmp' l :
  (forall a b, cmp a b = cmp' a b) -> sort cmp l = sort cmp' l.
Proof.
  intros H. induction l as [|x l IH]; simpl; [reflexivity |].
  rewrite IH. generalize (sort cmp' l). intros s.
  induction s as [|y s IHs]; simpl; [reflexivity |].
  now rewrite H, IHs.
Qed.

Lemma skel_srt st st' l :
  skel (itemMap st') = skel (itemMap st) -> srt st' l = srt st l.
Proof.
  intros H. apply sort_ext. intros a b. unfold sortByOrder.
  now rewrite !(skel_orderOf st st') by exact H.
Qed.

Lemma srt_perm st l : srt st l ≡ₚ l.
Proof. apply (sort_perm (orderOf st)). Qed.

Lemma srt_idem st l : srt st (srt st l) = srt st l.
Proof. apply (sort_idem (orderOf st)). Qed.

Lemma srt_nil st : srt st [] = [].
Proof. reflexivity. Qed.

(** *** Writing an array *)

Lemma skel_writeArr st a l : skel (itemMap (writeArr st a l)) = skel (itemMap st).
Proof.
  destruct a as [|k]; [reflexivity |]. unfold skel; simpl. f_equal.
  apply map_eq. intros i. rewrite !lookup_fmap, lookup_alter.
  case_decide; [subst i | reflexivity].
  destruct (objs (itemMap st) !! k); reflexivity.
Qed.

Lemma readArr_writeArr_ne st a b l : a <> b -> readArr (writeArr st a l) b = readArr st b.
Proof.
  intros Hne. destruct a as [|k], b as [|j]; try reflexivity; [congruence |].
  simpl. rewrite lookup_alter_ne by congruence. reflexivity.
Qed.

Lemma readArr_writeArr_srt st a :
  readArr (writeArr st a (srt st (readArr st a))) a = srt st (readArr st a).
Proof.
  destruct a as [|k]; [reflexivity |]. simpl. rewrite lookup_alter_eq.
  destruct (objs (itemMap st) !! k); reflexivity.
Qed.

(** *** Composing sorts *)

Lemma sortedOn_refl (S : ArrayRef -> Prop) st :
  (forall a, S a -> readArr st a = srt st (readArr st a)) -> sortedOn S st st.
Proof. intros H. split; auto. Qed.

Lemma sortedOn_ext (S S' : ArrayRef -> Prop) st st' :
  (forall a, S a <-> S' a) -> sortedOn S st st' -> sortedOn S' st st'.
Proof.
  intros H [H1 H2 H3 H4]. split; auto.
  - intros a Ha. apply H3, H, Ha.
  - intros a Ha. apply H4. rewrite H. exact Ha.
Qed.

Lemma sortedOn_trans (S1 S2 : ArrayRef -> Prop) st1 st2 st3 :
  sortedOn S1 st1 st2 -> sortedOn S2 st2 st3 ->
  sortedOn (fun a => S1 a \/ S2 a) st1 st3.
Proof.
  intros [A1 A2 A3 A4] [B1 B2 B3 B4].
  assert (Hs : forall l, srt st2 l = srt st1 l) by (intros; now apply skel_srt).
  assert (Hany : forall a,
             readArr st3 a = readArr st1 a \/ readArr st3 a = srt st1 (readArr st1 a)).
  { intros a. destruct (B2 a) as [->| ->], (A2 a) as [->| ->]; rewrite ?Hs, ?srt_idem; auto. }
  split.
  - congruence.
  - exact Hany.
  - intros a [Ha|Ha].
    + destruct (B2 a) as [->| ->]; rewrite (A3 a Ha), ?Hs, ?srt_idem; reflexivity.
    + rewrite (B3 a Ha), Hs. destruct (A2 a) as [->| ->]; rewrite ?srt_idem; reflexivity.
  - intros a Ha. rewrite B4, A4; tauto.
Qed.

Lemma sortedOn_writeArr st a :
  sortedOn (eq a) st (writeArr st a (srt st (readArr st a))).
Proof.
  split.
  - apply skel_writeArr.
  - intros b. destruct (decide (a = b)) as [<-|Hne].
    + right. apply readArr_writeArr_srt.
    + left. now apply readArr_writeArr_ne.
  - intros b <-. apply readArr_writeArr_srt.
  - intros b Hne. now apply readArr_writeArr_ne.
Qed.

Lemma sortedOn_similar (S : ArrayRef -> Prop) st0 st st' :
  similar st0 st -> sortedOn S st st' -> similar st0 st'.
Proof.
  intros [H1 H2] [A1 A2 _ _]. split; [congruence |].
  intros a. destruct (A2 a) as [->| ->]; rewrite ?srt_perm; apply H2.
Qed.

Lemma similar_refl st : similar st st.
Proof. split; reflexivity. Qed.

(** *** The loop of [sortChildren] *)

Lemma below_unfold st a b :
  below st a b <-> a = b \/ exists c, c ∈ readArr st a /\ below st (ChildrenOf c) b.
Proof.
  split.
  - intros [|a' c b' Hc Hb]; [now left | right; eauto].
  - intros [<-|(c & Hc & Hb)]; [constructor | econstructor; eauto].
Qed.

Lemma below_leaf st c b :
  readArr st (ChildrenOf c) = [] -> below st (ChildrenOf c) b -> b = ChildrenOf c.
Proof.
  intros Hnil Hb. apply below_unfold in Hb as [<-|(c' & Hc' & _)]; [reflexivity |].
  rewrite Hnil in Hc'. now apply elem_of_nil in Hc'.
Qed.

Lemma forEach_sorted (callback : Z -> Store -> option Store) a st1
    (D : Z -> ArrayRef -> Prop) :
  readArr st1 a = srt st1 (readArr st1 a) ->
  (forall s (S : ArrayRef -> Prop) c,
      sortedOn S st1 s -> c ∈ readArr st1 a ->
      exists s', callback c s = Some s' /\ sortedOn (D c) s s') ->
  exists st',
    forEach callback a st1 = Some st' /\
    sortedOn (fun b => exists c, c ∈ readArr st1 a /\ D c b) st1 st'.
Proof.
  intros Hsorted Hcb. unfold forEach.
  set (l := readArr st1 a) in *.
  set (body := fun acc i => match acc with
                            | Some s => match readArr s a !! i with
                                        | Some item => callback item s
                                        | None => Some s
                                        end
                            | None => None
                            end).
  assert (Hloop : forall n i s,
             (i + n = length l)%nat ->
             sortedOn (fun b => exists j c, (j < i)%nat /\ l !! j = Some c /\ D c b) st1 s ->
             exists st',
               foldl body (Some s) (seq i n) = Some st' /\
               sortedOn (fun b => exists c, c ∈ l /\ D c b) st1 st').
  { induction n as [|n IH]; intros i s Hlen Hs.
    - exists s. split; [reflexivity |].
      eapply sortedOn_ext; [| exact Hs]. intros b. split.
      + intros (j & c & _ & Hj & Hd). exists c. split; [| exact Hd].
        apply list_elem_of_lookup. eauto.
      + intros (c & Hc & Hd). apply list_elem_of_lookup in Hc as [j Hj].
        exists j, c. repeat split; auto.
        apply lookup_lt_Some in Hj. lia.
    - simpl.
      assert (Hread : readArr s a = l).
      { destruct (so_any _ _ _ Hs a) as [->| ->]; [reflexivity |].
        symmetry. exact Hsorted. }
      rewrite Hread.
      destruct (lookup_lt_is_Some_2 l i) as [c Hc]; [lia |]. rewrite Hc.
      destruct (Hcb s _ c Hs) as (s' & Hs' & Hsort).
      { apply list_elem_of_lookup. eauto. }
      rewrite Hs'. apply IH; [lia |].
      eapply sortedOn_ext; [| exact (sortedOn_trans _ _ _ _ _ Hs Hsort)].
      intros b. split.
      + intros [(j & c' & Hj & Hl & Hd)|Hd].
        * exists j, c'. repeat split; auto; lia.
        * exists i, c. repeat split; auto.
      + intros (j & c' & Hj & Hl & Hd).
        destruct (decide (j = i)) as [->|Hne].
        * right. congruence.
        * left. exists j, c'. repeat split; auto; lia. }
  apply (Hloop (length l) 0%nat st1); [lia |].
  apply sortedOn_refl. intros b (j & _ & Hj & _). lia.
Qed.

(** *** [sortChildren] on a store whose arrays have bounded depth *)

Section Bounded.

Variable st0 : Store.
Variable n : nat.
Hypothesis level_bound : forall a d, level st0 a d -> (d <= n)%nat.

Lemma sortChildren_sorted fuel : forall a d s,
  similar st0 s -> level st0 a d -> (n < fuel + d)%nat ->
  exists s', sortChildren fuel a s = Some s' /\ sortedOn (below st0 a) s s'.
Proof.
  induction fuel as [|fuel IH]; intros a d s Hsim Hlev Hfuel.
  - apply level_bound in Hlev. lia.
  - simpl. change (sort (sortByOrder s) (readArr s a)) with (srt s (readArr s a)).
    set (s1 := writeArr s a (srt s (readArr s a))).
    assert (H1 : sortedOn (eq a) s s1) by apply sortedOn_writeArr.
    assert (Hsim1 : similar st0 s1) by (eapply sortedOn_similar; eauto).
    assert (Hmem : forall c, c ∈ readArr s1 a <-> c ∈ readArr st0 a).
    { intros c. destruct Hsim1 as [_ Hp]. now rewrite (Hp a). }
    destruct (forEach_sorted
                (fun item s2 =>
                   if (0 <? length (readArr s2 (ChildrenOf item)))%nat
                   then sortChildren fuel (ChildrenOf item) s2
                   else Some s2)
                a s1 (fun c => below st0 (ChildrenOf c))) as (s' & Hs' & Hsort).
    + rewrite (skel_srt s s1) by apply (so_skel _ _ _ H1).
      rewrite (so_in _ _ _ H1 a eq_refl). now rewrite srt_idem.
    + intros s2 X c Hs2 Hc.
      assert (Hsim2 : similar st0 s2) by (eapply sortedOn_similar; eauto).
      destruct (Nat.ltb_spec 0 (length (readArr s2 (ChildrenOf c)))) as [Hpos|Hzero].
      * apply (IH (ChildrenOf c) (S d)); [assumption | | lia].
        econstructor; [exact Hlev |]. now apply Hmem.
      * exists s2. split; [reflexivity |].
        assert (Hnil2 : readArr s2 (ChildrenOf c) = []).
        { destruct (readArr s2 (ChildrenOf c)); [reflexivity | simpl in Hzero; lia]. }
        assert (Hnil0 : readArr st0 (ChildrenOf c) = []).
        { destruct Hsim2 as [_ Hp]. specialize (Hp (ChildrenOf c)).
          rewrite Hnil2 in Hp. symmetry in Hp. now apply Permutation_nil_r in Hp. }
        apply sortedOn_refl. intros b Hb.
        apply (below_leaf _ _ _ Hnil0) in Hb. subst b. now rewrite Hnil2.
    + exists s'. split; [exact Hs' |].
      eapply sortedOn_ext; [| exact (sortedOn_trans _ _ _ _ _ H1 Hsort)].
      intros b. rewrite (below_unfold st0 a b). split.
      * intros [->|(c & Hc & Hb)]; [now left | right]. exists c. split; [now apply Hmem | exact Hb].
      * intros [->|(c & Hc & Hb)]; [now left | right]. exists c. split; [now apply Hmem | exact Hb].
Qed.

End Bounded.

End StoreFacts.

(** ** Reconstruction: indexing and attaching *)

Section BuildFacts.

Import SharePointData Forest.

Local Open Scope list_scope.

Lemma has_true m k : has m k = true <-> is_Some (objs m !! k).
Proof.
  unfold has. destruct (objs m !! k) eqn:E; split; intros H; eauto;
    try discriminate; destruct H; discriminate.
Qed.

Lemma indexed_empty : indexed emptyMap.
Proof.
  split; simpl.
  - constructor.
  - intros k. rewrite lookup_empty. split; [intros H%elem_of_nil | intros [? ?]]; done.
  - intros k o. now rewrite lookup_empty.
Qed.

Lemma indexed_set m item : indexed m -> indexed (map_set (Id item) (newObj item) m).
Proof.
  intros [Hnd Hdom Hobj]. split; simpl.
  - destruct (has m (Id item)) eqn:Hh; [exact Hnd |].
    apply NoDup_app. split; [exact Hnd |]. split; [| apply NoDup_singleton].
    intros k Hk ->%list_elem_of_singleton.
    apply Hdom, has_true in Hk. congruence.
  - intros k. destruct (decide (k = Id item)) as [->|Hne].
    + rewrite lookup_insert_eq. split; [eauto |]. intros _.
      destruct (has m (Id item)) eqn:Hh.
      * apply Hdom, has_true, Hh.
      * apply elem_of_app. right. now apply list_elem_of_singleton.
    + rewrite lookup_insert_ne by congruence. rewrite <- Hdom.
      destruct (has m (Id item)); [reflexivity |].
      rewrite elem_of_app, list_elem_of_singleton. tauto.
  - intros k o. destruct (decide (k = Id item)) as [->|Hne].
    + rewrite lookup_insert_eq. intros [= <-]. auto.
    + rewrite lookup_insert_ne by congruence. apply Hobj.
Qed.

Lemma buildMap_snoc items item :
  buildMap (items ++ [item]) = map_set (Id item) (newObj item) (buildMap items).
Proof. unfold buildMap. now rewrite foldl_snoc. Qed.

Lemma indexed_buildMap items : indexed (buildMap items).
Proof.
  induction items as [|item items IH] using rev_ind.
  - apply indexed_empty.
  - rewrite buildMap_snoc. now apply indexed_set.
Qed.

Lemma buildMap_keys_length items : (length (keys (buildMap items)) <= length items)%nat.
Proof.
  induction items as [|item items IH] using rev_ind; [simpl; lia |].
  rewrite buildMap_snoc, length_app. simpl.
  destruct (has _ _); rewrite ?length_app; simpl; lia.
Qed.

(** With pairwise distinct ids, the map holds the records in input order,
    each under its id. *)
Lemma buildMap_distinct items :
  NoDup (Id <$> items) ->
  keys (buildMap items) = Id <$> items /\
  forall item, item ∈ items -> objs (buildMap items) !! Id item = Some (newObj item).
Proof.
  induction items as [|item items IH] using rev_ind; intros Hnd.
  - split; [reflexivity |]. intros item H. now apply elem_of_nil in H.
  - rewrite fmap_app in Hnd. simpl in Hnd.
    apply NoDup_app in Hnd as (Hnd & Hfresh & _).
    destruct (IH Hnd) as [Hk Ho]. rewrite buildMap_snoc. simpl.
    assert (Hh : has (buildMap items) (Id item) = false).
    { destruct (has (buildMap items) (Id item)) eqn:Hh; [| reflexivity].
      apply has_true, (ix_dom _ (indexed_buildMap items)) in Hh.
      rewrite Hk in Hh. exfalso. apply (Hfresh _ Hh). now apply list_elem_of_singleton. }
    rewrite Hh, Hk, fmap_app. split; [reflexivity |].
    intros x [Hx| ->%list_elem_of_singleton]%elem_of_app.
    + rewrite lookup_insert_ne; [now apply Ho |].
      intros Heq. apply (Hfresh (Id x)); [| rewrite Heq; now apply list_elem_of_singleton].
      apply list_elem_of_fmap. eauto.
    + apply lookup_insert_eq.
Qed.

(** *** The second loop *)

Lemma skel_parentOf m m' k : skel m' = skel m -> parentOf m' k = parentOf m k.
Proof.
  intros H. unfold parentOf.
  assert (Hhas : forall p, has m' p = has m p).
  { intros p. pose proof (skel_lookup _ _ p H) as Hp. unfold has.
    destruct (objs m' !! p), (objs m !! p); simpl in Hp; congruence. }
  pose proof (skel_lookup _ _ k H) as Hk.
  destruct (objs m' !! k) as [o'|], (objs m !! k) as [o|]; simpl in Hk; try discriminate;
    [| reflexivity].
  injection Hk as _ _ _ Hp _ _. rewrite Hp. destruct (parentId o); [| reflexivity].
  now rewrite Hhas.
Qed.

Lemma skel_pushChild p c m : skel (pushChild p c m) = skel m.
Proof.
  unfold skel; simpl. f_equal. apply map_eq. intros i.
  rewrite !lookup_fmap, lookup_alter. case_decide; [subst i | reflexivity].
  destruct (objs m !! p); reflexivity.
Qed.

Lemma kids_pushChild st p c q :
  is_Some (objs (itemMap st) !! p) ->
  kids {| itemMap := pushChild p c (itemMap st); rootItems := rootItems st |} q
  = if decide (q = p) then kids st q ++ [c] else kids st q.
Proof.
  intros [o Ho]. unfold kids; simpl. rewrite lookup_alter.
  case_decide as Hd; destruct (decide (q = p)) as [->|Hne]; try congruence.
  now rewrite Ho.
Qed.

(** One turn of the second loop. *)
Lemma attach_step m st k :
  skel (itemMap st) = skel m -> is_Some (objs m !! k) ->
  skel (itemMap (attach st k)) = skel m /\
  rootItems (attach st k)
  = rootItems st ++ (if decide (parentOf m k = None) then [k] else []) /\
  forall p, kids (attach st k) p
            = kids st p ++ (if decide (parentOf m k = Some p) then [k] else []).
Proof.
  intros Hsk Hk.
  assert (Hk' : is_Some (objs (itemMap st) !! k)).
  { pose proof (skel_lookup _ _ k Hsk) as H. destruct Hk as [o Ho]. rewrite Ho in H.
    destruct (objs (itemMap st) !! k); [eauto | discriminate]. }
  pose proof (skel_parentOf _ _ k Hsk) as Hpar.
  unfold attach. unfold parentOf at 1 in Hpar.
  destruct Hk' as [item Hitem]. rewrite Hitem in Hpar |- *.
  destruct (parentId item) as [p|].
  - destruct (negb (p =? 0) && has (itemMap st) p) eqn:Hc.
    + rewrite <- Hpar. simpl. split; [now rewrite skel_pushChild |].
      split; [now rewrite app_nil_r |].
      intros q. rewrite kids_pushChild.
      * destruct (decide (q = p)) as [->|Hne].
        -- now rewrite decide_True.
        -- rewrite decide_False by congruence. now rewrite app_nil_r.
      * apply andb_prop in Hc as [_ Hh]. now apply has_true.
    + rewrite <- Hpar. simpl. split; [exact Hsk |]. split; [reflexivity |].
      intros q. now rewrite app_nil_r.
  - rewrite <- Hpar. simpl. split; [exact Hsk |]. split; [reflexivity |].
    intros q. now rewrite app_nil_r.
Qed.

Lemma attach_loop m l : forall st,
  skel (itemMap st) = skel m -> (forall k, k ∈ l -> is_Some (objs m !! k)) ->
  skel (itemMap (foldl attach st l)) = skel m /\
  rootItems (foldl attach st l)
  = rootItems st ++ filter (fun k => parentOf m k = None) l /\
  forall p, kids (foldl attach st l) p
            = kids st p ++ filter (fun k => parentOf m k = Some p) l.
Proof.
  induction l as [|k l IH]; intros st Hsk Hl; simpl.
  - split; [exact Hsk |]. split; [now rewrite app_nil_r |].
    intros p. now rewrite app_nil_r.
  - destruct (attach_step m st k Hsk) as (Hsk1 & Hr1 & Hk1).
    { apply Hl. now left. }
    destruct (IH (attach st k) Hsk1) as (Hsk2 & Hr2 & Hk2).
    { intros k' Hk'. apply Hl. now right. }
    split; [exact Hsk2 |]. split.
    + rewrite Hr2, Hr1, filter_cons, <- app_assoc. f_equal.
      destruct (decide (parentOf m k = None)); reflexivity.
    + intros p. rewrite Hk2, Hk1, filter_cons, <- app_assoc. f_equal.
      destruct (decide (parentOf m k = Some p)); reflexivity.
Qed.

(** The store after the second loop: the keys without parent at the root,
    every other key in the [children] of its parent, in map order. *)
Lemma buildTree_spec m :
  indexed m ->
  skel (itemMap (buildTree m)) = skel m /\
  rootItems (buildTree m) = filter (fun k => parentOf m k = None) (keys m) /\
  forall p, kids (buildTree m) p = filter (fun k => parentOf m k = Some p) (keys m).
Proof.
  intros Hix. unfold buildTree.
  destruct (attach_loop m (keys m) {| itemMap := m; rootItems := [] |})
    as (H1 & H2 & H3); [reflexivity | intros k; apply (ix_dom _ Hix) |].
  split; [exact H1 |]. split; [exact H2 |].
  intros p. rewrite H3. unfold kids at 1; simpl.
  destruct (objs m !! p) as [o|] eqn:Ho; [| reflexivity].
  now rewrite (proj2 (ix_obj _ Hix p o Ho)).
Qed.

End BuildFacts.

(** ** Reconstruction: the forest and its depth *)

Section ForestFacts.

Import SharePointData Forest.

Local Open Scope list_scope.

Variable m : ItemMap.
Hypothesis Hix : indexed m.

Abbreviation st0 := (buildTree m).

Lemma root_member c :
  c ∈ rootItems st0 <-> c ∈ keys m /\ parentOf m c = None.
Proof.
  rewrite (proj1 (proj2 (buildTree_spec m Hix))), list_elem_of_filter. tauto.
Qed.

Lemma kids_member p c :
  c ∈ kids st0 p <-> c ∈ keys m /\ parentOf m c = Some p.
Proof.
  rewrite (proj2 (proj2 (buildTree_spec m Hix)) p), list_elem_of_filter. tauto.
Qed.

Lemma parentOf_key k p : parentOf m k = Some p -> k ∈ keys m /\ p ∈ keys m.
Proof.
  unfold parentOf. destruct (objs m !! k) as [o|] eqn:Ho; [| discriminate].
  destruct (parentId o) as [q|]; [| discriminate].
  destruct (negb (q =? 0) && has m q) eqn:Hc; [| discriminate].
  intros [= <-]. apply andb_prop in Hc as [_ Hh].
  split; apply (ix_dom _ Hix); [eauto | now apply has_true].
Qed.

(** *** Depth along the parent chain *)

Lemma updepth_fun k d : updepth m k d -> forall d', updepth m k d' -> d = d'.
Proof.
  induction 1 as [k Hk Hp|k p d Hk Hp Hd IH]; intros d' H'; inversion H'; subst;
    try congruence.
  f_equal. apply IH. congruence.
Qed.

Lemma updepth_key k d : updepth m k d -> k ∈ keys m.
Proof. now destruct 1. Qed.

Lemma updepth_chain k d :
  updepth m k d ->
  exists l : list Z,
    length l = d /\ NoDup l /\
    forall x, x ∈ l -> x ∈ keys m /\ exists d', updepth m x d' /\ (d' <= d)%nat.
Proof.
  induction 1 as [k Hk Hp|k p d Hk Hp Hd (l & Hlen & Hnd & Hl)].
  - exists [k]. split; [reflexivity |]. split; [apply NoDup_singleton |].
    intros x ->%list_elem_of_singleton. split; [exact Hk |].
    exists 1%nat. split; [now constructor | lia].
  - exists (k :: l). split; [simpl; lia |]. split.
    + apply NoDup_cons. split; [| exact Hnd].
      intros Hin. destruct (Hl k Hin) as (_ & d' & Hd' & Hle).
      assert (d' = S d) by (eapply updepth_fun; [exact Hd' | econstructor; eauto]).
      lia.
    + intros x [->|Hx]%elem_of_cons.
      * split; [exact Hk |]. exists (S d). split; [econstructor; eauto | lia].
      * destruct (Hl x Hx) as (Hxk & d' & Hd' & Hle). split; [exact Hxk |].
        exists d'. split; [exact Hd' | lia].
Qed.

Lemma updepth_bound k d : updepth m k d -> (d <= length (keys m))%nat.
Proof.
  intros (l & <- & Hnd & Hl)%updepth_chain.
  apply submseteq_length, NoDup_submseteq; [exact Hnd |].
  intros x Hx. now apply Hl.
Qed.

Lemma level_updepth a d :
  level st0 a d ->
  match a with
  | RootItems => d = 0%nat
  | ChildrenOf c => updepth m c d
  end.
Proof.
  induction 1 as [|a d c Hlev IH Hc]; [reflexivity |].
  destruct a as [|p].
  - subst d. apply root_member in Hc as [Hk Hp]. now constructor.
  - apply kids_member in Hc as [Hk Hp]. econstructor; eauto.
Qed.

Lemma level_bound a d : level st0 a d -> (d <= length (keys m))%nat.
Proof.
  intros H%level_updepth. destruct a; [lia | now apply updepth_bound in H].
Qed.

(** *** Termination, and what the returned store is *)

Lemma sortChildren_buildTree fuel :
  (length (keys m) < fuel)%nat ->
  exists st',
    sortChildren fuel RootItems st0 = Some st' /\
    sortedOn (below st0 RootItems) st0 st'.
Proof.
  intros Hfuel.
  apply (sortChildren_sorted st0 (length (keys m)) level_bound fuel RootItems 0%nat st0).
  - apply similar_refl.
  - constructor.
  - lia.
Qed.

(** *** The objects of the tree *)

Lemma below_snoc st a b c :
  below st a b -> c ∈ readArr st b -> below st a (ChildrenOf c).
Proof.
  induction 1 as [a|a c' b Hc' Hb IH]; intros Hc.
  - econstructor; [exact Hc | constructor].
  - econstructor; [exact Hc' | now apply IH].
Qed.

Lemma below_level st a b d :
  level st a d -> below st a b -> exists d', level st b d'.
Proof.
  intros Hlev Hb. revert d Hlev.
  induction Hb as [a|a c b Hc Hb IH]; intros d Hlev; [eauto |].
  apply (IH (S d)). econstructor; eauto.
Qed.

Lemma inTree_updepth k : inTree st0 k <-> exists d, updepth m k d.
Proof.
  split.
  - intros (a & Ha & Hk).
    destruct (below_level st0 RootItems a 0%nat (level_root st0) Ha) as [d Hd].
    exists (S d). apply (level_updepth (ChildrenOf k) (S d)). econstructor; eauto.
  - intros [d Hd]. induction Hd as [k Hk Hp|k p d Hk Hp Hd IH].
    + exists RootItems. split; [constructor | now apply root_member].
    + destruct IH as (a & Ha & Hpa). exists (ChildrenOf p).
      split; [eapply below_snoc; eauto | now apply kids_member].
Qed.

Lemma below_root_inTree k : below st0 RootItems (ChildrenOf k) -> inTree st0 k.
Proof.
  intros H.
  assert (Hgen : forall a b, below st0 a b -> b = ChildrenOf k ->
                   a = ChildrenOf k \/ exists a', below st0 a a' /\ k ∈ readArr st0 a').
  { induction 1 as [a|a c b Hc Hb IH]; intros ->; [now left | right].
    destruct (IH eq_refl) as [[= ->]|(a' & Ha' & Hk)].
    - exists a. split; [constructor | exact Hc].
    - exists a'. split; [econstructor; eauto | exact Hk]. }
  destruct (Hgen _ _ H eq_refl) as [[=]|(a' & Ha' & Hk)]. now exists a'.
Qed.

(** The parent chain as a function. *)
Lemma reachesRoot_updepth fuel k :
  reachesRoot m fuel k = true <-> exists d, (d <= fuel)%nat /\ updepth m k d.
Proof.
  revert k. induction fuel as [|fuel IH]; intros k; simpl.
  - split; [discriminate |]. intros (d & Hle & Hd). inversion Hd; subst; lia.
  - destruct (objs m !! k) as [o|] eqn:Ho.
    + assert (Hk : k ∈ keys m) by (apply (ix_dom _ Hix); eauto).
      destruct (parentOf m k) as [p|] eqn:Hp.
      * rewrite IH. split.
        -- intros (d & Hle & Hd). exists (S d). split; [lia | econstructor; eauto].
        -- intros (d & Hle & Hd). inversion Hd; subst; [congruence |].
           exists d0. split; [lia | congruence].
      * split; [intros _ | reflexivity].
        exists 1%nat. split; [lia | now constructor].
    + split; [discriminate |]. intros (d & _ & Hd).
      apply updepth_key in Hd. apply (ix_dom _ Hix) in Hd.
      rewrite Ho in Hd. now destruct Hd.
Qed.

Lemma reachesRoot_inTree k :
  reachesRoot m (length (keys m)) k = true <-> inTree st0 k.
Proof.
  rewrite reachesRoot_updepth, inTree_updepth. split.
  - intros (d & _ & Hd). eauto.
  - intros [d Hd]. exists d. split; [exact (updepth_bound k d Hd) | exact Hd].
Qed.

(** An entry on a cycle of parent references has no depth. *)
Lemma updepth_ancestor j : forall k k' d,
  updepth m k d -> ancestor m j k = Some k' -> (j < d)%nat /\ updepth m k' (d - j).
Proof.
  induction j as [|j IH]; intros k k' d Hd Ha; simpl in Ha.
  - injection Ha as <-. inversion Hd; subst; split; try lia; rewrite Nat.sub_0_r; assumption.
  - destruct (parentOf m k) as [p|] eqn:Hp; [| discriminate].
    inversion Hd; subst; [congruence |].
    assert (p0 = p) by congruence. subst p0.
    destruct (IH p k' d0) as [Hlt Hk']; [assumption | assumption |].
    split; [lia | exact Hk'].
Qed.

Lemma cycle_not_inTree j k :
  (0 < j)%nat -> ancestor m j k = Some k -> ~ inTree st0 k.
Proof.
  intros Hj Ha [d Hd]%inTree_updepth.
  destruct (updepth_ancestor j k k d Hd Ha) as [Hlt Hd'].
  pose proof (updepth_fun _ _ Hd _ Hd'). lia.
Qed.

End ForestFacts.

(** ** Reconstruction: the returned tree *)

Section FinalStore.

Import SharePointData Forest.

Local Open Scope list_scope.

Lemma foldl_forEach_none (body : option Store -> nat -> option Store) l :
  (forall i, body None i = None) -> foldl body None l = None.
Proof. intros H. induction l as [|i l IH]; simpl; [reflexivity | now rewrite H]. Qed.

(** More fuel does not change a result. *)
Lemma forEach_mono (cb cb' : Z -> Store -> option Store) a st r :
  (forall c s r', cb c s = Some r' -> cb' c s = Some r') ->
  forEach cb a st = Some r -> forEach cb' a st = Some r.
Proof.
  intros Hcb. unfold forEach. generalize (seq 0 (length (readArr st a))). intros l.
  generalize (Some st). induction l as [|i l IH]; intros acc; simpl; [auto |].
  destruct acc as [s|].
  - destruct (readArr s a !! i) as [c|]; [| apply IH].
    destruct (cb c s) as [r'|] eqn:Hc.
    + rewrite (Hcb _ _ _ Hc). apply IH.
    + rewrite foldl_forEach_none by reflexivity. discriminate.
  - rewrite foldl_forEach_none by reflexivity. discriminate.
Qed.

Lemma sortChildren_mono fuel : forall a st r,
  sortChildren fuel a st = Some r -> sortChildren (S fuel) a st = Some r.
Proof.
  induction fuel as [|fuel IH]; intros a st r H; [discriminate |].
  cbn [sortChildren] in H. cbn [sortChildren]. eapply forEach_mono; [| exact H].
  intros c s r'. cbn beta. destruct (0 <? length (readArr s (ChildrenOf c)))%nat; [| auto].
  apply IH.
Qed.

Lemma sortChildren_more fuel fuel' a st r :
  (fuel <= fuel')%nat ->
  sortChildren fuel a st = Some r -> sortChildren fuel' a st = Some r.
Proof.
  induction 1 as [|fuel' Hle IH]; [auto |]. intros H. now apply sortChildren_mono, IH.
Qed.

(** Arrays with the same members span the same tree. *)
Lemma below_similar st st' a b : similar st st' -> below st a b -> below st' a b.
Proof.
  intros [_ Hp]. induction 1 as [a|a c b Hc Hb IH]; [constructor |].
  econstructor; [| exact IH]. now rewrite (Hp a).
Qed.

Lemma similar_sym st st' : similar st st' -> similar st' st.
Proof. intros [H1 H2]. split; [congruence | intros a; now rewrite (H2 a)]. Qed.

Lemma inTree_similar st st' k : similar st st' -> inTree st k <-> inTree st' k.
Proof.
  intros Hs. split; intros (a & Ha & Hk).
  - exists a. split; [eapply below_similar; eauto |]. destruct Hs as [_ Hp]. now rewrite (Hp a).
  - exists a. split; [eapply below_similar; eauto using similar_sym |].
    destruct Hs as [_ Hp]. now rewrite <- (Hp a).
Qed.

Lemma StronglySorted_filter (R : Z -> Z -> Prop) (P : Z -> Prop)
    `{!forall x, Decision (P x)} l :
  StronglySorted R l -> StronglySorted R (filter P l).
Proof.
  induction 1 as [|x l Hl IH Hx]; [constructor |].
  rewrite filter_cons. destruct (decide (P x)); [| exact IH].
  constructor; [exact IH |].
  rewrite Forall_forall in Hx |- *. intros y [_ Hy]%list_elem_of_filter. auto.
Qed.

(** The store that [sortChildren] returns for an indexed map: it returns
    with any fuel beyond the number of keys, and then the root array and
    the [children] of every object of the tree are sorted, with members as
    the second loop put them. *)
Lemma sortChildren_final m :
  indexed m ->
  exists st,
    (forall fuel, (length (keys m) < fuel)%nat ->
                  sortChildren fuel RootItems (buildTree m) = Some st) /\
    skel (itemMap st) = skel m /\
    (forall c, c ∈ rootItems st <-> c ∈ keys m /\ parentOf m c = None) /\
    (forall p c, c ∈ kids st p <-> c ∈ keys m /\ parentOf m c = Some p) /\
    NoDup (rootItems st) /\
    (forall p, NoDup (kids st p)) /\
    (forall k, inTree st k <-> reachesRoot m (length (keys m)) k = true) /\
    StronglySorted (Order.keyThen (orderOf st) (Records.before (keys m))) (rootItems st) /\
    (forall p, inTree st p ->
               StronglySorted (Order.keyThen (orderOf st) (Records.before (keys m)))
                              (kids st p)).
Proof.
  intros Hix.
  destruct (sortChildren_buildTree m Hix (S (length (keys m)))) as (st & Hst & Hso); [lia |].
  destruct (buildTree_spec m Hix) as (Hsk0 & Hroot0 & Hkids0).
  assert (Hsim : similar (buildTree m) st).
  { eapply sortedOn_similar; [apply similar_refl | exact Hso]. }
  assert (Hsk : skel (itemMap st) = skel m).
  { rewrite <- Hsk0. apply (so_skel _ _ _ Hso). }
  assert (Hord : forall a, orderOf st a = orderOf (buildTree m) a).
  { intros a. apply skel_orderOf, (so_skel _ _ _ Hso). }
  assert (Hsorted : forall a,
             below (buildTree m) RootItems a ->
             StronglySorted (Order.keyThen (orderOf st) (Records.before (keys m)))
                            (readArr st a)).
  { intros a Ha. rewrite (so_in _ _ _ Hso a Ha).
    eapply StronglySorted_weaken;
      [| apply (sort_keyThen (orderOf (buildTree m)) (Records.before (keys m)))].
    - intros x y [H|[H1 H2]]; [left | right]; rewrite !Hord; auto.
    - destruct a as [|p].
      + simpl. rewrite Hroot0. apply StronglySorted_filter, before_sorted.
      + change (readArr (buildTree m) (ChildrenOf p)) with (kids (buildTree m) p).
        rewrite Hkids0. apply StronglySorted_filter, before_sorted. }
  exists st. split; [| split; [exact Hsk | split; [| split; [| split; [| split; [| split; [| split]]]]]]].
  - intros fuel Hfuel. eapply sortChildren_more; [| exact Hst]. lia.
  - intros c. destruct Hsim as [_ Hp]. specialize (Hp RootItems). simpl in Hp.
    rewrite Hp. apply (root_member m Hix).
  - intros p c. destruct Hsim as [_ Hp]. unfold kids. rewrite (Hp (ChildrenOf p)).
    apply (kids_member m Hix).
  - destruct Hsim as [_ Hp]. specialize (Hp RootItems). simpl in Hp.
    rewrite Hp, Hroot0. apply NoDup_filter, (ix_nodup _ Hix).
  - intros p. destruct Hsim as [_ Hp]. unfold kids. rewrite (Hp (ChildrenOf p)).
    change (readArr (buildTree m) (ChildrenOf p)) with (kids (buildTree m) p).
    rewrite Hkids0. apply NoDup_filter, (ix_nodup _ Hix).
  - intros k. rewrite <- (inTree_similar _ _ k Hsim). symmetry.
    apply (reachesRoot_inTree m Hix).
  - apply (Hsorted RootItems). constructor.
  - intros p Hp. apply (Hsorted (ChildrenOf p)).
    apply (inTree_similar _ _ p Hsim) in Hp. destruct Hp as (a & Ha & Hpa).
    eapply below_snoc; eauto.
Qed.

End FinalStore.

(** ** Reconstruction: records with pairwise distinct ids *)

Section Distinct.

Import SharePointData Forest Records.

Local Open Scope list_scope.

Variable items : list SPItem.
Hypothesis Hdistinct : NoDup (Id <$> items).

Abbreviation m := (buildMap items).

Lemma find_record x : x ∈ items -> find (fun y => Id y =? Id x) items = Some x.
Proof.
  induction items as [|y l IH]; intros Hx; [now apply elem_of_nil in Hx |].
  simpl in Hdistinct. apply NoDup_cons in Hdistinct as [Hy Hl].
  apply elem_of_cons in Hx as [->|Hx]; simpl.
  - now rewrite Z.eqb_refl.
  - destruct (Z.eqb_spec (Id y) (Id x)) as [Heq|_]; [| now apply IH].
    exfalso. apply Hy. rewrite Heq. now apply list_elem_of_fmap_2.
Qed.

Lemma find_some k x :
  find (fun y => Id y =? k) items = Some x -> x ∈ items /\ Id x = k.
Proof.
  intros H. apply find_some in H as [Hin Heq].
  split; [now apply list_elem_of_In | now apply Z.eqb_eq].
Qed.

Lemma find_none k : find (fun y => Id y =? k) items = None -> k ∉ Id <$> items.
Proof.
  intros H (x & -> & Hx)%list_elem_of_fmap.
  now rewrite (find_record x Hx) in H.
Qed.

Lemma objs_find k :
  objs m !! k = newObj <$> find (fun y => Id y =? k) items.
Proof.
  destruct (buildMap_distinct items Hdistinct) as [Hk Ho].
  destruct (find (fun y => Id y =? k) items) as [x|] eqn:Hf; simpl.
  - apply find_some in Hf as [Hx <-]. now apply Ho.
  - apply find_none in Hf. destruct (objs m !! k) as [o|] eqn:Hl; [| reflexivity].
    exfalso. apply Hf. rewrite <- Hk.
    apply (ix_dom _ (indexed_buildMap items)). eauto.
Qed.

Lemma has_member p : has m p = bool_decide (p ∈ Id <$> items).
Proof.
  unfold has. rewrite objs_find.
  destruct (find (fun y => Id y =? p) items) as [x|] eqn:Hf; simpl.
  - apply find_some in Hf as [Hx <-]. symmetry. apply bool_decide_eq_true.
    now apply list_elem_of_fmap_2.
  - apply find_none in Hf. symmetry. now apply bool_decide_eq_false.
Qed.

Lemma parentOf_parentIn k : parentOf m k = parentIn items k.
Proof.
  unfold parentOf, parentIn, namedParent. rewrite objs_find.
  destruct (find (fun y => Id y =? k) items) as [x|]; simpl; [| reflexivity].
  destruct (ParentId x) as [p|]; [| reflexivity].
  destruct (p =? 0) eqn:Hp; simpl; [reflexivity |].
  rewrite Hp. simpl. now rewrite has_member.
Qed.

Lemma parentIn_record x : x ∈ items -> parentIn items (Id x) = namedParent items x.
Proof. intros Hx. unfold parentIn. now rewrite (find_record x Hx). Qed.

Lemma reachesRoot_chainEnds fuel k : reachesRoot m fuel k = chainEnds items fuel k.
Proof.
  revert k. induction fuel as [|fuel IH]; intros k; simpl; [reflexivity |].
  rewrite objs_find, parentOf_parentIn.
  destruct (find (fun y => Id y =? k) items); simpl; [| reflexivity].
  destruct (parentIn items k); [apply IH | reflexivity].
Qed.

Lemma ancestor_ancestorIn n k : ancestor m n k = ancestorIn items n k.
Proof.
  revert k. induction n as [|n IH]; intros k; simpl; [reflexivity |].
  rewrite parentOf_parentIn. destruct (parentIn items k); [apply IH | reflexivity].
Qed.

Lemma orderOf_orderIn st k :
  skel (itemMap st) = skel m -> orderOf st k = orderIn items k.
Proof.
  intros Hsk. pose proof (skel_lookup _ _ k Hsk) as H. rewrite objs_find in H.
  unfold orderOf, orderIn.
  destruct (find (fun y => Id y =? k) items) as [x|]; simpl in H;
    destruct (objs (itemMap st) !! k) as [o|]; simpl in H; try discriminate; [| reflexivity].
  injection H as _ _ _ _ Ho _. exact Ho.
Qed.

Lemma keys_ids : keys m = Id <$> items.
Proof. apply (buildMap_distinct items Hdistinct). Qed.

(** The returned store in terms of the records. *)
Lemma transform_distinct :
  exists st,
    (forall fuel, (length items < fuel)%nat ->
                  transformSharePointData fuel items = Some st) /\
    (forall x, x ∈ items ->
       objs (itemMap st) !! Id x = Some (setChildren (kids st (Id x)) (newObj x)) /\
       (forall p, Id x ∈ kids st p <-> namedParent items x = Some p) /\
       (Id x ∈ rootItems st <-> namedParent items x = None) /\
       (inTree st (Id x) <-> chainEnds items (length items) (Id x) = true) /\
       (onCycle items (Id x) -> ~ inTree st (Id x))) /\
    (NoDup (rootItems st) /\ (forall c, c ∈ rootItems st -> c ∈ Id <$> items) /\
     siblingsSorted items (rootItems st)) /\
    (forall p, NoDup (kids st p) /\ (forall c, c ∈ kids st p -> c ∈ Id <$> items) /\
               (inTree st p -> siblingsSorted items (kids st p))).
Proof.
  destruct (sortChildren_final m (indexed_buildMap items))
    as (st & Hrun & Hsk & Hroot & Hkids & Hnd1 & Hnd2 & Htree & Hs1 & Hs2).
  assert (Hlen : length (keys m) = length items) by (rewrite keys_ids; apply length_fmap).
  assert (Hsorted : forall s,
             StronglySorted (Order.keyThen (orderOf st) (before (keys m))) s ->
             siblingsSorted items s).
  { intros s Hs. unfold siblingsSorted. rewrite <- keys_ids.
    eapply StronglySorted_weaken; [| exact Hs].
    intros a b [H|[H1 H2]]; [left | right]; rewrite <- !(orderOf_orderIn st) by exact Hsk; auto. }
  exists st. split; [| split; [| split]].
  - intros fuel Hfuel. apply Hrun. lia.
  - intros x Hx.
    assert (Hkx : Id x ∈ keys m) by (rewrite keys_ids; now apply list_elem_of_fmap_2).
    split; [| split; [| split; [| split]]].
    + pose proof (skel_lookup _ _ (Id x) Hsk) as H.
      rewrite objs_find, (find_record x Hx) in H. simpl in H.
      unfold kids; simpl.
      destruct (objs (itemMap st) !! Id x) as [o|]; [| discriminate].
      simpl in H. injection H as H1 H2 H3 H4 H5 H6.
      destruct o; simpl in *. unfold setChildren, newObj; simpl. now subst.
    + intros p. rewrite Hkids, parentOf_parentIn, (parentIn_record x Hx). tauto.
    + rewrite Hroot, parentOf_parentIn, (parentIn_record x Hx). tauto.
    + rewrite Htree, Hlen. now rewrite reachesRoot_chainEnds.
    + intros (n & Hn & Hc) Hin.
      apply Htree, (reachesRoot_inTree m (indexed_buildMap items)) in Hin.
      rewrite <- ancestor_ancestorIn in Hc.
      exact (cycle_not_inTree m (indexed_buildMap items) n (Id x) Hn Hc Hin).
  - split; [exact Hnd1 |]. split; [| now apply Hsorted].
    intros c [Hc _]%Hroot. now rewrite <- keys_ids.
  - intros p. split; [apply Hnd2 |]. split; [| intros Hp; now apply Hsorted, Hs2].
    intros c [Hc _]%Hkids. now rewrite <- keys_ids.
Qed.

End Distinct.

(** ** Reconstruction: placement, order and cycles *)

Section ReconstructionProperties.

Import SharePointData Forest Records.

Local Open Scope list_scope.

(** C1 (amended). For every list of records with pairwise distinct ids in
    which every parent chain ends at a record without parent,
    [transformSharePointData] returns, with any recursion depth beyond the
    number of records, a tree in which every record is present with its
    fields, in exactly one sibling sequence and once in it: the [children]
    of the record that its parent reference names, or the root sequence
    when the reference is missing, zero or names no record. Every sibling
    sequence holds ids of records only, no id twice, in ascending order of
    [order], with records of equal [order] in input order. *)
Theorem reconstruction_acyclic (items : list SPItem) :
  NoDup (Id <$> items) ->
  acyclic items = true ->
  exists st,
    (forall fuel, (length items < fuel)%nat ->
                  transformSharePointData fuel items = Some st) /\
    (forall x, x ∈ items ->
       inTree st (Id x) /\
       objs (itemMap st) !! Id x = Some (setChildren (kids st (Id x)) (newObj x)) /\
       (forall p, Id x ∈ kids st p <-> namedParent items x = Some p) /\
       (Id x ∈ rootItems st <-> namedParent items x = None)) /\
    (forall s, s = rootItems st \/ (exists p, s = kids st p) ->
       NoDup s /\ (forall c, c ∈ s -> c ∈ Id <$> items) /\ siblingsSorted items s).
Proof.
  intros Hnd Hacyc.
  destruct (transform_distinct items Hnd) as (st & Hrun & Hrec & Hroot & Hkids).
  assert (Hin : forall x, x ∈ items -> inTree st (Id x)).
  { intros x Hx. apply (Hrec x Hx).
    unfold acyclic in Hacyc. rewrite forallb_forall in Hacyc.
    apply Hacyc. now apply list_elem_of_In. }
  exists st. split; [exact Hrun |]. split.
  - intros x Hx. destruct (Hrec x Hx) as (Ho & Hk & Hr & _).
    repeat split; auto; try apply Hk; try apply Hr.
  - intros s [->|[p ->]]; [exact Hroot |].
    destruct (Hkids p) as (Hn & Hids & Hsorted). split; [exact Hn |]. split; [exact Hids |].
    destruct (decide (p ∈ Id <$> items)) as [Hp|Hp].
    + apply list_elem_of_fmap in Hp as (x & -> & Hx). apply Hsorted, Hin, Hx.
    + assert (Hnil : kids st p = []).
      { remember (kids st p) as ks eqn:Hl. destruct ks as [|c l]; [reflexivity |]. exfalso.
        assert (Hc : c ∈ kids st p) by (rewrite <- Hl; now left).
        assert (Hc' : c ∈ c :: l) by now left.
        pose proof (Hids c Hc') as (y & -> & Hy)%list_elem_of_fmap.
        apply (Hrec y Hy) in Hc. unfold namedParent in Hc.
        destruct (ParentId y) as [q|]; [| discriminate].
        destruct (negb (q =? 0)); simpl in Hc; [| discriminate].
        destruct (bool_decide (q ∈ Id <$> items)) eqn:Hq; [| discriminate].
        injection Hc as ->. now apply bool_decide_eq_true in Hq. }
      rewrite Hnil. constructor.
Qed.

(** C2 (amended). [transformSharePointData] returns for every list of
    records, cyclic parent references or not, with any recursion depth
    beyond the number of records. For records with pairwise distinct ids
    the call neither throws nor writes to the console; a record is in the
    returned tree exactly when its parent chain ends at a record without
    parent, so no record on a cycle is in the tree; and every record, in
    the tree or not, is in the sibling sequence of its parent (or in the
    root sequence), the sequences of the tree being sorted. *)
Theorem reconstruction_cyclic :
  (forall (items : list SPItem) fuel,
      (length items < fuel)%nat -> is_Some (transformSharePointData fuel items)) /\
  (forall items : list SPItem,
      NoDup (Id <$> items) ->
      exists st,
        (forall fuel spConfig e,
            (length items < fuel)%nat ->
            getSharePointData_results spConfig fuel items e = (Js.Ok (Some st), e)) /\
        (forall x, x ∈ items ->
           (inTree st (Id x) <-> chainEnds items (length items) (Id x) = true) /\
           (onCycle items (Id x) -> ~ inTree st (Id x)) /\
           (forall p, Id x ∈ kids st p <-> namedParent items x = Some p) /\
           (Id x ∈ rootItems st <-> namedParent items x = None)) /\
        siblingsSorted items (rootItems st) /\
        (forall p, inTree st p -> siblingsSorted items (kids st p))).
Proof.
  split.
  - intros items fuel Hfuel.
    destruct (sortChildren_final (buildMap items) (indexed_buildMap items))
      as (st & Hrun & _).
    exists st. apply Hrun. pose proof (buildMap_keys_length items). lia.
  - intros items Hnd.
    destruct (transform_distinct items Hnd) as (st & Hrun & Hrec & Hroot & Hkids).
    exists st. split; [| split; [| split]].
    + intros fuel spConfig e Hfuel. unfold getSharePointData_results, DataRetrieval.ret.
      now rewrite (Hrun fuel Hfuel).
    + intros x Hx. destruct (Hrec x Hx) as (_ & Hk & Hr & Ht & Hc). auto.
    + apply Hroot.
    + intros p. apply (Hkids p).
Qed.

End ReconstructionProperties.

(** The three records of the specification's example: the root sequence
    is record 2, record 1, and record 3 is the child of record 1. *)
Example reconstruction_example :
  match SharePointData.transformSharePointData 4 SampleList.threeRecords with
  | Some st =>
      SharePointData.rootItems st = [2; 1] /\
      Forest.kids st 1 = [3] /\ Forest.kids st 2 = [] /\ Forest.kids st 3 = []
  | None => False
  end.
Proof. vm_compute. auto. Qed.

Lemma threeRecords_distinct : NoDup (SharePointData.Id <$> SampleList.threeRecords).
Proof. apply NoDup_ListNoDup. vm_compute. repeat constructor; simpl; intuition discriminate. Qed.

Lemma withCycle_distinct : NoDup (SharePointData.Id <$> SampleList.withCycle).
Proof. apply NoDup_ListNoDup. vm_compute. repeat constructor; simpl; intuition discriminate. Qed.

(** The amended C1 at the three records of the example. *)
Lemma reconstruction_acyclic_witness :
  exists st,
    (forall fuel, (length SampleList.threeRecords < fuel)%nat ->
        SharePointData.transformSharePointData fuel SampleList.threeRecords = Some st) /\
    (forall x, x ∈ SampleList.threeRecords ->
       Forest.inTree st (SharePointData.Id x) /\
       SharePointData.objs (SharePointData.itemMap st) !! SharePointData.Id x
       = Some (SharePointData.setChildren (Forest.kids st (SharePointData.Id x))
                 (SharePointData.newObj x)) /\
       (forall p, SharePointData.Id x ∈ Forest.kids st p
                  <-> Records.namedParent SampleList.threeRecords x = Some p) /\
       (SharePointData.Id x ∈ SharePointData.rootItems st
        <-> Records.namedParent SampleList.threeRecords x = None)) /\
    (forall s, s = SharePointData.rootItems st \/ (exists p, s = Forest.kids st p) ->
       NoDup s /\
       (forall c, c ∈ s -> c ∈ SharePointData.Id <$> SampleList.threeRecords) /\
       Records.siblingsSorted SampleList.threeRecords s).
Proof.
  apply (reconstruction_acyclic SampleList.threeRecords).
  - exact threeRecords_distinct.
  - vm_compute. reflexivity.
Defined.

(** The amended C2 at a list with a cycle. *)
Lemma reconstruction_cyclic_witness :
  is_Some (SharePointData.transformSharePointData 6 SampleList.withCycle) /\
  exists st,
    (forall fuel spConfig e,
        (length SampleList.withCycle < fuel)%nat ->
        SharePointData.getSharePointData_results spConfig fuel SampleList.withCycle e
        = (Js.Ok (Some st), e)) /\
    (forall x, x ∈ SampleList.withCycle ->
       (Forest.inTree st (SharePointData.Id x)
        <-> Records.chainEnds SampleList.withCycle (length SampleList.withCycle)
              (SharePointData.Id x) = true) /\
       (Records.onCycle SampleList.withCycle (SharePointData.Id x) ->
        ~ Forest.inTree st (SharePointData.Id x)) /\
       (forall p, SharePointData.Id x ∈ Forest.kids st p
                  <-> Records.namedParent SampleList.withCycle x = Some p) /\
       (SharePointData.Id x ∈ SharePointData.rootItems st
        <-> Records.namedParent SampleList.withCycle x = None)) /\
    Records.siblingsSorted SampleList.withCycle (SharePointData.rootItems st) /\
    (forall p, Forest.inTree st p ->
               Records.siblingsSorted SampleList.withCycle (Forest.kids st p)).
Proof.
  split.
  - apply (proj1 reconstruction_cyclic SampleList.withCycle 6%nat). simpl. lia.
  - apply (proj2 reconstruction_cyclic SampleList.withCycle). exact withCycle_distinct.
Defined.

(** C1, as stated, fails. With [ascending: false] the query asks the list
    store for descending order, but the records that it returns in that
    order, [order] 2 before [order] 1, leave the reconstruction with the
    root sequence in ascending order. Of two records with one id only the
    second is placed, at the place of the first. And a record whose parent
    reference is 0 is placed at the root although a record has the id 0. *)
Lemma reconstruction_counterexample :
  (MenuConfig.ascending SampleList.descending = false /\
   SharePointData.orderByQuery SampleList.descending = "&$orderby=Order desc" /\
   match (SharePointData.getSharePointData_results SampleList.descending 3
            SampleList.descendingAnswer Sample.freshEnv).1 with
   | Js.Ok (Some st) =>
       SharePointData.rootItems st = [2; 1] /\
       SharePointData.orderOf st <$> SharePointData.rootItems st = [1; 2] /\
       ~ StronglySorted (fun a b => SharePointData.orderOf st b <= SharePointData.orderOf st a)
           (SharePointData.rootItems st)
   | _ => False
   end) /\
  match SharePointData.transformSharePointData 3 SampleList.sameId with
  | Some st =>
      SharePointData.rootItems st = [1] /\
      SharePointData.keys (SharePointData.itemMap st) = [1] /\
      SharePointData.title <$> SharePointData.objs (SharePointData.itemMap st) !! 1
      = Some "second"
  | None => False
  end /\
  match SharePointData.transformSharePointData 3 SampleList.zeroId with
  | Some st => SharePointData.rootItems st = [0; 5] /\ Forest.kids st 0 = []
  | None => False
  end.
Proof.
  split; [split; [reflexivity | split; [reflexivity |]] | split].
  - vm_compute. split; [reflexivity | split; [reflexivity |]].
    intros H. apply StronglySorted_cons in H as [H _].
    apply Forall_cons in H as [H _]. vm_compute in H. apply H. reflexivity.
  - vm_compute. auto.
  - vm_compute. auto.
Qed.

(** C2, as stated, fails. Records 1 and 2 name each other as parent. The
    call returns normally with the console as it was: both records, and
    record 4 below them, are missing from the tree, and no error has been
    reported for any of them. *)
Lemma cycle_not_reported :
  Records.onCycle SampleList.withCycle 1 /\
  Records.onCycle SampleList.withCycle 2 /\
  ~ Records.reportsError Sample.freshEnv
      (SharePointData.getSharePointData_results
         (MenuConfig.sharePoint MenuConfig.DEFAULT_CONFIG) 6 SampleList.withCycle
         Sample.freshEnv) /\
  match (SharePointData.getSharePointData_results
           (MenuConfig.sharePoint MenuConfig.DEFAULT_CONFIG) 6 SampleList.withCycle
           Sample.freshEnv).1 with
  | Js.Ok (Some st) =>
      SharePointData.rootItems st = [3] /\ Forest.kids st 3 = [5] /\ Forest.kids st 5 = [] /\
      ~ Forest.inTree st 1 /\ ~ Forest.inTree st 2 /\ ~ Forest.inTree st 4
  | _ => False
  end.
Proof.
  split; [exists 2%nat; split; [lia | reflexivity] |].
  split; [exists 2%nat; split; [lia | reflexivity] |].
  split.
  - intros [[err H]|H]; [discriminate H | apply H; reflexivity].
  - destruct (transform_distinct SampleList.withCycle withCycle_distinct)
      as (st & Hrun & Hrec & _).
    assert (Heq : SharePointData.transformSharePointData 6 SampleList.withCycle = Some st)
      by (apply Hrun; simpl; lia).
    unfold SharePointData.getSharePointData_results, DataRetrieval.ret. rewrite Heq. simpl.
    assert (Hno : forall x, x ∈ SampleList.withCycle ->
                Records.chainEnds SampleList.withCycle (length SampleList.withCycle)
                  (SharePointData.Id x) = false ->
                ~ Forest.inTree st (SharePointData.Id x)).
    { intros x Hx Hc Hin. destruct (Hrec x Hx) as (_ & _ & _ & Ht & _).
      apply Ht in Hin. congruence. }
    assert (Hvals : SharePointData.rootItems st = [3] /\ Forest.kids st 3 = [5] /\
                    Forest.kids st 5 = []).
    { revert Heq. vm_compute. intros [= <-]. vm_compute. auto. }
    destruct Hvals as (H1 & H2 & H3).
    repeat split; auto.
    + apply (Hno (SampleList.record 1 (Some 2) 1)); [| reflexivity].
      apply list_elem_of_In. simpl. tauto.
    + apply (Hno (SampleList.record 2 (Some 1) 2)); [| reflexivity].
      apply list_elem_of_In. simpl. tauto.
    + apply (Hno (SampleList.record 4 (Some 1) 4)); [| reflexivity].
      apply list_elem_of_In. simpl. tauto.
Qed.

(** ** The controller *)

Section EngineFacts.

Import MenuEngine.

Variable random_suffix : nat -> string.

Abbreviation step := (step random_suffix).
Abbreviation run := (run random_suffix).

(** *** Open and closed submenus *)

Lemma closeAllSubmenus_expanded st s :
  s ∈ expanded (closeAllSubmenus st) <-> s ∈ expanded st /\ inContainer st s = false.
Proof. unfold closeAllSubmenus; simpl. rewrite elem_of_filter. tauto. Qed.

Lemma closeAllSubmenus_visible st s :
  s ∈ visible (closeAllSubmenus st) <-> s ∈ visible st /\ inContainer st s = false.
Proof. unfold closeAllSubmenus; simpl. rewrite elem_of_filter. tauto. Qed.

Lemma inContainer_closeAll st s : inContainer (closeAllSubmenus st) s = inContainer st s.
Proof. reflexivity. Qed.

(** After [closeAllSubmenus()] no submenu of the document is open. *)
Lemma closeAllSubmenus_closes st s :
  inContainer st s = true -> s ∉ expanded (closeAllSubmenus st).
Proof. rewrite closeAllSubmenus_expanded. intros H [_ H']. congruence. Qed.

(** The click listener when it toggles: a submenu that is not open is
    opened after all others of the document have been closed, an open one
    is closed and the others are left as they are. *)
Lemma onClick_toggles st s :
  clickToggles st = true ->
  inContainer st s = true ->
  (s ∉ expanded st ->
     onClick s st = openSubmenu s (closeAllSubmenus st) /\
     (forall s', inContainer st s' = true -> s' ∉ expanded (closeAllSubmenus st)) /\
     (forall s', inContainer st s' = true ->
                 (s' ∈ expanded (onClick s st) <-> s' = s)) /\
     openMenus (onClick s st) = {[s]}) /\
  (s ∈ expanded st ->
     onClick s st = closeSubmenu s st /\
     (s ∉ expanded (onClick s st)) /\
     (forall s', s' <> s -> (s' ∈ expanded (onClick s st) <-> s' ∈ expanded st))).
Proof.
  intros Htog Hin. unfold onClick. rewrite Htog. split; intros Hs.
  - rewrite bool_decide_eq_false_2 by exact Hs.
    split; [reflexivity |]. split; [intros s'; apply closeAllSubmenus_closes |].
    split.
    + intros s' Hs'. unfold openSubmenu; simpl. rewrite elem_of_union, elem_of_singleton.
      rewrite elem_of_filter. split; [| now left].
      intros [->|[Hf _]]; [reflexivity | congruence].
    + unfold openSubmenu; simpl. apply union_empty_r_L.
  - rewrite bool_decide_eq_true_2 by exact Hs.
    split; [reflexivity |]. unfold closeSubmenu; simpl. split.
    + rewrite elem_of_difference, elem_of_singleton. tauto.
    + intros s' Hne. rewrite elem_of_difference, elem_of_singleton. tauto.
Qed.

(** *** The click mode: at most one open submenu *)

Lemma foldl_preserves {A} (P : State -> Prop) (f : State -> A -> State) l : forall st,
  (forall s x, P s -> P (f s x)) -> P st -> P (foldl f st l).
Proof. induction l as [|x l IH]; intros st Hf Hst; simpl; auto. Qed.

Lemma clickInv_subset st st' :
  (forall t, t ∈ timers st' -> t ∈ timers st) ->
  renders st' = renders st -> captured st' = captured st ->
  (forall s, s ∈ expanded st' -> s ∈ expanded st) ->
  clickInv st -> clickInv st'.
Proof.
  intros Ht Hr Hc He [H1 H2 H3 H4]. split; rewrite ?Hr, ?Hc; eauto.
Qed.

Lemma clickInv_eq st st' :
  timers st' = timers st -> renders st' = renders st -> captured st' = captured st ->
  expanded st' = expanded st ->
  clickInv st -> clickInv st'.
Proof.
  intros Ht Hr Hc He. apply clickInv_subset; try assumption.
  - intros t. now rewrite Ht.
  - intros s. now rewrite He.
Qed.

Lemma clickInv_closeAll st : clickInv st -> clickInv (closeAllSubmenus st).
Proof.
  apply clickInv_subset; try reflexivity; [auto |].
  intros s Hs. now apply closeAllSubmenus_expanded in Hs.
Qed.

(** A new menu in the container makes every open submenu and every
    pending timer one of an earlier menu; a [render()] that throws leaves
    the container empty. *)
Lemma clickInv_render st : clickInv st -> clickInv (render st).
Proof.
  intros Hinv. unfold render. destruct (renderThrows st).
  - revert Hinv. apply clickInv_eq; reflexivity.
  - destruct Hinv as [H1 H2 H3 H4]. split; simpl.
    + intros s Hs. specialize (H1 s Hs). lia.
    + intros t Ht. specialize (H2 t Ht). lia.
    + intros _ t Ht. specialize (H2 t Ht). lia.
    + intros _ s1 s2 Hs1 _ Heq. specialize (H1 s1 Hs1). lia.
Qed.

Lemma clickInv_attach st : clickInv st -> clickInv (attachEventListeners st).
Proof.
  apply clickInv_eq; unfold attachEventListeners;
    destruct (MenuConfig.closeOnEscape (config st)); reflexivity.
Qed.

Lemma attached_renders st s : attached st s = true -> fst s = renders st.
Proof.
  intros [Hc _]%andb_prop. unfold inContainer in Hc.
  destruct (content st); try discriminate. now apply Nat.eqb_eq.
Qed.

Lemma clickInv_onClick st s :
  attached st s = true -> clickInv st -> clickInv (onClick s st).
Proof.
  intros Hatt Hinv. unfold onClick.
  destruct (clickToggles st); [| exact Hinv].
  destruct (bool_decide (s ∈ expanded st)).
  - revert Hinv. apply clickInv_subset; try reflexivity; [auto |].
    unfold closeSubmenu; simpl. intros s'. rewrite elem_of_difference. tauto.
  - pose proof (attached_renders _ _ Hatt) as Hgen.
    apply andb_prop in Hatt as [Hc _].
    pose proof (clickInv_closeAll st Hinv) as [H1 H2 H3 H4].
    split; simpl.
    + intros s'. rewrite elem_of_union, elem_of_singleton.
      intros [->|Hs']; [lia | now apply (H1 s')].
    + exact H2.
    + exact H3.
    + intros Hclick s1 s2. rewrite !elem_of_union, !elem_of_singleton.
      intros [->|Hs1] [->|Hs2] Hg1 Hg2; try reflexivity; exfalso.
      * apply elem_of_filter in Hs2 as [Hf _]. unfold inContainer in Hf, Hc.
        destruct (content st); try discriminate. apply Nat.eqb_neq in Hf. auto.
      * apply elem_of_filter in Hs1 as [Hf _]. unfold inContainer in Hf, Hc.
        destruct (content st); try discriminate. apply Nat.eqb_neq in Hf. auto.
      * apply elem_of_filter in Hs1 as [Hf _]. unfold inContainer in Hf, Hc.
        destruct (content st); try discriminate. apply Nat.eqb_neq in Hf. auto.
Qed.

Lemma clickInv_listeners (f : State -> Listener -> State) st :
  (forall s l, f s l = s \/ f s l = closeAllSubmenus s) ->
  clickInv st -> clickInv (foldl f st (listeners st)).
Proof.
  intros Hf. generalize (listeners st). intros ls Hinv.
  apply foldl_preserves; [| exact Hinv].
  intros s l Hs. destruct (Hf s l) as [->| ->]; [exact Hs | now apply clickInv_closeAll].
Qed.

(** *** Timers *)

Lemma insertTimer_elem t ts x : x ∈ insertTimer t ts <-> x = t \/ x ∈ ts.
Proof.
  induction ts as [|u ts IH]; simpl.
  - rewrite list_elem_of_singleton, elem_of_nil. tauto.
  - destruct (due u <=? due t).
    + rewrite !elem_of_cons, IH. tauto.
    + rewrite !elem_of_cons. tauto.
Qed.

Lemma clearTimeout_elem h ts x : x ∈ clearTimeout h ts -> x ∈ ts.
Proof. destruct h; simpl; [| auto]. now intros [_ H]%list_elem_of_filter. Qed.

(** A pointer listener of the hover mode arms a timer for its own
    submenu, an element of the menu in the container. *)
Lemma clickInv_pointer st s (ts : list Timer) t hover close next :
  attached st s = true ->
  MenuConfig.triggerType (captured st) = "hover" ->
  (forall x, x ∈ ts -> x = t \/ x ∈ timers st) ->
  subject t = s ->
  clickInv st -> clickInv (withTimers st hover close ts next).
Proof.
  intros Hatt Hhover Hts Hsub [H1 H2 H3 H4].
  pose proof (attached_renders _ _ Hatt) as Hgen.
  split; simpl.
  - exact H1.
  - intros x Hx. destruct (Hts x Hx) as [->|Hin]; [rewrite Hsub; lia | auto].
  - intros Hclick. rewrite Hhover in Hclick. discriminate.
  - exact H4.
Qed.

Lemma clickInv_runAction st t :
  (fst (subject t) <= renders st)%nat ->
  (MenuConfig.triggerType (captured st) = "click" -> (fst (subject t) < renders st)%nat) ->
  clickInv st -> clickInv (runAction (action t) st).
Proof.
  intros Hle Hlt [H1 H2 H3 H4]. unfold subject in Hle, Hlt.
  destruct (action t) as [s|s]; simpl.
  - split; simpl; [| exact H2 | exact H3 |].
    + intros s'. rewrite elem_of_union, elem_of_singleton.
      intros [->|Hs']; [exact Hle | auto].
    + intros Hclick s1 s2. rewrite !elem_of_union, !elem_of_singleton.
      specialize (Hlt Hclick).
      intros [->|Hs1] [->|Hs2] Hg1 Hg2; try reflexivity; try lia. now apply H4.
  - split; simpl; [| exact H2 | exact H3 |].
    + intros s'. rewrite elem_of_difference. intros [Hs' _]. auto.
    + intros Hclick s1 s2. rewrite !elem_of_difference.
      intros [Hs1 _] [Hs2 _]. now apply H4.
Qed.

Lemma runAction_fields a st :
  renders (runAction a st) = renders st /\ captured (runAction a st) = captured st /\
  timers (runAction a st) = timers st.
Proof. destruct a; repeat split. Qed.

Lemma clickInv_runActions ready : forall st,
  (forall t, t ∈ ready ->
     (fst (subject t) <= renders st)%nat /\
     (MenuConfig.triggerType (captured st) = "click" ->
      (fst (subject t) < renders st)%nat)) ->
  clickInv st -> clickInv (foldl (fun s t => runAction (action t) s) st ready).
Proof.
  induction ready as [|t ready IH]; intros st Hall Hinv; [exact Hinv |].
  simpl. destruct (runAction_fields (action t) st) as (Hr & Hc & _). apply IH.
  - intros t' Ht'. rewrite Hr, Hc. apply Hall. now right.
  - destruct (Hall t) as [Hle Hlt]; [now left |]. now apply clickInv_runAction.
Qed.

Lemma clickInv_elapse ms st : clickInv st -> clickInv (elapse ms st).
Proof.
  intros Hinv. unfold elapse.
  match goal with
  | |- clickInv (withWindow (foldl ?f ?s0 ?l) _ _) =>
      assert (H : clickInv (foldl f s0 l))
  end.
  - apply clickInv_runActions.
    + intros t [_ Ht]%list_elem_of_filter. simpl. destruct Hinv as [_ H2 H3 _]. auto.
    + revert Hinv. apply clickInv_subset; try reflexivity; [| auto].
      simpl. now intros t [_ Ht]%list_elem_of_filter.
  - revert H. apply clickInv_eq; reflexivity.
Qed.

(** *** Data loads *)

Lemma clickInv_settle i resp st : clickInv st -> clickInv (settle random_suffix i resp st).
Proof.
  intros Hinv. unfold settle. destruct (loads st !! i) as [ld|]; [| exact Hinv].
  set (st1 := withLoads st (cache st) (delete i (loads st)) (fetches st) (env st)).
  assert (H1 : clickInv st1) by (revert Hinv; apply clickInv_eq; reflexivity).
  assert (Hfin : forall raw, clickInv (finishGetData random_suffix raw st1).2).
  { intros raw. unfold finishGetData.
    destruct (DataRetrieval.normalizeData _ _ _ _) as [[data|err] e]; simpl;
      revert H1; apply clickInv_eq; reflexivity. }
  assert (Hfail : forall msg, clickInv (failGetData msg st1).2).
  { intros msg. unfold failGetData; simpl. revert H1. apply clickInv_eq; reflexivity. }
  assert (Hout : forall (out : Js.result (list DataRetrieval.MenuItem) * State),
             clickInv out.2 ->
             clickInv (let '(outcome, st2) := out in
                       match awaiter ld with
                       | ByInit => initContinue outcome st2
                       | ByRefresh => refreshContinue outcome st2
                       end)).
  { intros [outcome st2] H2. simpl in H2.
    assert (H3 : forall data, clickInv (render (withInstance st2 (isInitialized st2)
                                          (isLoading st2) data (openMenus st2)))).
    { intros data. apply clickInv_render. revert H2. apply clickInv_eq; reflexivity. }
    destruct (awaiter ld), outcome as [data|err]; simpl.
    - destruct (renderThrows _) as [e|] eqn:Hthrows.
      + destruct e as [err|name]; simpl;
          (eapply clickInv_eq; [| | | | apply (H3 data)]; reflexivity).
      + unfold setLoading.
        eapply clickInv_eq; [| | | | apply clickInv_attach, (H3 data)]; reflexivity.
    - revert H2. apply clickInv_eq; reflexivity.
    - destruct (renderThrows _); [apply H3 | apply clickInv_attach, H3].
    - exact H2. }
  destruct (source ld) as [data| | |msg].
  - apply (Hout (Js.Ok data, st1)). exact H1.
  - apply Hout, Hfin.
  - destruct resp as [raw|msg]; apply Hout; [apply Hfin | apply Hfail].
  - apply Hout, Hfail.
Qed.

Lemma getData_fields who st :
  timers (getData who st) = timers st /\ renders (getData who st) = renders st /\
  expanded (getData who st) = expanded st /\ config (getData who st) = config st /\
  captured (getData who st) = captured st.
Proof.
  unfold getData.
  destruct (if MenuConfig.cacheData (retrieval st) then _ else _) as [[data|] c];
    [| destruct (startSource (retrieval st))]; repeat split; reflexivity.
Qed.

Lemma updateConfig_fields options st :
  timers (updateConfig options st) = timers st /\
  renders (updateConfig options st) = renders st /\
  captured (updateConfig options st) = captured st /\
  expanded (updateConfig options st) = expanded st /\
  listeners (updateConfig options st) = listeners st /\
  arrows (updateConfig options st) = arrows st.
Proof.
  unfold updateConfig. destruct (MenuConfigMethods.updateConfig _ _); repeat split.
Qed.

Lemma clickInv_step st ev : clickInv st -> clickInv (step st ev).
Proof.
  intros Hinv. destruct ev as [| |i resp| |s|s|s|ms|outside| |w| |options|a]; simpl.
  - unfold init. destruct (isInitialized st).
    + revert Hinv. apply clickInv_eq; reflexivity.
    + destruct (getData_fields ByInit (setLoading true st)) as (H1 & H2 & H3 & _ & H4).
      revert Hinv. apply clickInv_eq; assumption.
  - unfold refresh.
    destruct (getData_fields ByRefresh
                (withLoads st (DataCache.clear _ (cache st)) (loads st) (fetches st) (env st)))
      as (H1 & H2 & H3 & _ & H4).
    revert Hinv. apply clickInv_eq; assumption.
  - now apply clickInv_settle.
  - revert Hinv. apply clickInv_eq; reflexivity.
  - destruct (attached st s) eqn:Hatt; [| exact Hinv].
    destruct (String.eqb_spec (MenuConfig.triggerType (captured st)) "hover") as [Hh|];
      [| exact Hinv].
    simpl. unfold onMouseEnter.
    eapply clickInv_pointer;
      [exact Hatt | exact Hh
       | intros x [->|Hx]%insertTimer_elem;
         [now left | right; eapply clearTimeout_elem, Hx]
       | reflexivity | exact Hinv].
  - destruct (attached st s) eqn:Hatt; [| exact Hinv].
    destruct (String.eqb_spec (MenuConfig.triggerType (captured st)) "hover") as [Hh|];
      [| exact Hinv].
    simpl. unfold onMouseLeave.
    eapply clickInv_pointer;
      [exact Hatt | exact Hh
       | intros x [->|Hx]%insertTimer_elem;
         [now left | right; eapply clearTimeout_elem, Hx]
       | reflexivity | exact Hinv].
  - destruct (attached st s) eqn:Hatt; [now apply clickInv_onClick | exact Hinv].
  - now apply clickInv_elapse.
  - apply clickInv_listeners; [| exact Hinv]. intros s0 l.
    destruct (target l), (handler l); auto.
    destruct (String.eqb (event l) "click" && outside); auto.
  - apply clickInv_listeners; [| exact Hinv]. intros s0 l.
    destruct (target l), (handler l); auto.
    destruct (String.eqb (event l) "keydown"); auto.
  - revert Hinv. apply clickInv_eq; reflexivity.
  - now apply clickInv_closeAll.
  - destruct (updateConfig_fields options st) as (H1 & H2 & H3 & H4 & _).
    revert Hinv. apply clickInv_eq; assumption.
  - revert Hinv. apply clickInv_eq; reflexivity.
Qed.

Lemma clickInv_run evs : forall st, clickInv st -> clickInv (run st evs).
Proof.
  induction evs as [|ev evs IH]; intros st Hinv; [exact Hinv |].
  simpl. apply IH. now apply clickInv_step.
Qed.

Lemma clickInv_new options now width st :
  MenuEngine.new true options now width = Js.Ok st -> clickInv st.
Proof.
  unfold MenuEngine.new; simpl. destruct (MenuConfig.new options) as [cfg|e]; [| discriminate].
  intros [= <-]. split; simpl.
  - intros s Hs. now apply elem_of_empty in Hs.
  - intros t Ht. now apply elem_of_nil in Ht.
  - intros _ t Ht. now apply elem_of_nil in Ht.
  - intros _ s1 s2 Hs. now apply elem_of_empty in Hs.
Qed.

(** *** The configuration along a run *)

Lemma config_settle i resp st : config (settle random_suffix i resp st) = config st.
Proof.
  unfold settle. destruct (loads st !! i) as [ld|]; [| reflexivity].
  assert (Hout : forall (out : Js.result (list DataRetrieval.MenuItem) * State),
             config out.2 = config st ->
             config (let '(outcome, st2) := out in
                     match awaiter ld with
                     | ByInit => initContinue outcome st2
                     | ByRefresh => refreshContinue outcome st2
                     end) = config st).
  { intros [outcome st2] H2. simpl in H2.
    destruct (awaiter ld), outcome as [data|err]; simpl; try exact H2.
    - destruct (renderThrows _) as [e|] eqn:Hthrows.
      + unfold render. rewrite Hthrows. destruct e; exact H2.
      + unfold render. rewrite Hthrows. unfold attachEventListeners. simpl.
        destruct (MenuConfig.closeOnEscape _); exact H2.
    - destruct (renderThrows _) as [e|] eqn:Hthrows; unfold render; rewrite Hthrows;
        [exact H2 |].
      unfold attachEventListeners. simpl. destruct (MenuConfig.closeOnEscape _); exact H2. }
  destruct (source ld) as [data| | |msg].
  - apply (Hout (Js.Ok data, _)). reflexivity.
  - apply Hout. unfold finishGetData.
    destruct (DataRetrieval.normalizeData _ _ _ _) as [[data|err] e]; reflexivity.
  - destruct resp as [raw|msg]; apply Hout; [| reflexivity]. unfold finishGetData.
    destruct (DataRetrieval.normalizeData _ _ _ _) as [[data|err] e]; reflexivity.
  - apply Hout. reflexivity.
Qed.

(** But for [updateConfig()] and a write to the configuration object, no
    event changes the configuration. *)
Lemma config_step st ev :
  Listeners.reconfigures ev = false -> config (step st ev) = config st.
Proof.
  destruct ev as [| |i resp| |s|s|s|ms|outside| |w| |options|a]; simpl;
    intros Hev; try discriminate.
  - unfold init. destruct (isInitialized st); [reflexivity |].
    now destruct (getData_fields ByInit (setLoading true st)) as (_ & _ & _ & -> & _).
  - unfold refresh.
    now destruct (getData_fields ByRefresh
                (withLoads st (DataCache.clear _ (cache st)) (loads st) (fetches st) (env st)))
      as (_ & _ & _ & -> & _).
  - apply config_settle.
  - reflexivity.
  - destruct (_ && _); reflexivity.
  - destruct (_ && _); reflexivity.
  - destruct (attached st s); [| reflexivity]. unfold onClick.
    destruct (clickToggles st); [| reflexivity].
    destruct (bool_decide _); reflexivity.
  - unfold elapse. simpl.
    apply (foldl_preserves (fun s => config s = config st)); [| reflexivity].
    intros s0 t <-. destruct (action t); reflexivity.
  - unfold documentClick.
    apply (foldl_preserves (fun s => config s = config st)); [| reflexivity].
    intros s0 l <-. destruct (target l), (handler l); try reflexivity.
    destruct (_ && _); reflexivity.
  - unfold escapeKey.
    apply (foldl_preserves (fun s => config s = config st)); [| reflexivity].
    intros s0 l <-. destruct (target l), (handler l); try reflexivity.
    destruct (String.eqb _ _); reflexivity.
  - reflexivity.
  - reflexivity.
Qed.

(** C5 (amended). In every state of the controller, a click on a trigger
    of the document that toggles (the menu was rendered with the trigger
    type click, or the window is no wider than the mobile breakpoint) acts
    as follows. If the submenu of the trigger is not open, every open
    submenu of the document is closed first and the target is opened then:
    afterwards the target is the only open submenu of the document and
    the only member of [openMenus]. If the submenu is open, it is closed
    and every other submenu is left as it was. Whatever happens to a
    controller after its construction, changes of its configuration
    included, whenever the menu in its container was rendered with the
    trigger type click, at most one submenu of the document is open. *)
Theorem activation_policy :
  (forall st s,
      clickToggles st = true ->
      inContainer st s = true ->
      (s ∉ expanded st ->
         onClick s st = openSubmenu s (closeAllSubmenus st) /\
         (forall s', inContainer st s' = true -> s' ∉ expanded (closeAllSubmenus st)) /\
         (forall s', inContainer st s' = true ->
                     (s' ∈ expanded (onClick s st) <-> s' = s)) /\
         openMenus (onClick s st) = {[s]}) /\
      (s ∈ expanded st ->
         onClick s st = closeSubmenu s st /\
         (s ∉ expanded (onClick s st)) /\
         (forall s', s' <> s -> (s' ∈ expanded (onClick s st) <-> s' ∈ expanded st)))) /\
  (forall options now width st0 evs s1 s2,
      MenuEngine.new true options now width = Js.Ok st0 ->
      MenuConfig.triggerType (captured (run st0 evs)) = "click" ->
      inContainer (run st0 evs) s1 = true -> s1 ∈ expanded (run st0 evs) ->
      inContainer (run st0 evs) s2 = true -> s2 ∈ expanded (run st0 evs) ->
      s1 = s2).
Proof.
  split; [exact onClick_toggles |].
  intros options now width st0 evs s1 s2 Hnew Hclick Hc1 Hs1 Hc2 Hs2.
  pose proof (clickInv_run evs st0 (clickInv_new _ _ _ _ Hnew)) as Hinv.
  assert (Hgen : forall s, inContainer (run st0 evs) s = true -> fst s = renders (run st0 evs)).
  { intros s Hc. unfold inContainer in Hc. destruct (content _); try discriminate.
    now apply Nat.eqb_eq. }
  apply (ci_one _ Hinv); auto.
Qed.

End EngineFacts.

(** ** The controller: initialisation, hover timers, teardown *)

Local Open Scope list_scope.

Section EngineProperties.

Import MenuEngine.

Variable random_suffix : nat -> string.

(** C9 (amended). [init()] is guarded by [isInitialized] alone. On an
    initialised controller it is a logged no-op: a line on the console, no
    fetch, no render and no other change of state. On a controller that is
    not initialised, whether or not an earlier [init()] is still waiting
    for its data, it sets the loading flag and starts a data load of its
    own. *)
Theorem init_guard st :
  (isInitialized st = true ->
     init st = log "Menu is already initialized" st /\
     fetches (init st) = fetches st /\ loads (init st) = loads st /\
     renders (init st) = renders st /\ content (init st) = content st /\
     listeners (init st) = listeners st /\ menuData (init st) = menuData st /\
     isLoading (init st) = isLoading st /\
     DataRetrieval.console (env (init st))
     = (DataRetrieval.console (env st) ++ ["Menu is already initialized"])%list) /\
  (isInitialized st = false ->
     isLoading (init st) = true /\
     exists src, loads (init st) = (loads st ++ [mkLoad ByInit src])%list).
Proof.
  unfold init. split; intros ->.
  - repeat split; reflexivity.
  - unfold getData.
    destruct (if MenuConfig.cacheData _ then _ else _) as [[data|] c].
    + split; [reflexivity | eexists; reflexivity].
    + destruct (startSource _) as [src fetched]. split; [reflexivity | eexists; reflexivity].
Qed.

(** The timer that [mouseenter] arms is cancelled by the [mouseleave]
    that follows it directly. *)
Lemma leave_cancels_own_enter s st :
  Forall (fun t => handle t <> nextHandle st)
         (timers (onMouseLeave s (onMouseEnter s st))).
Proof.
  unfold onMouseLeave, onMouseEnter; simpl.
  assert (Hins : forall t ts, Forall (fun u => handle u <> nextHandle st) ts ->
                   handle t <> nextHandle st ->
                   Forall (fun u => handle u <> nextHandle st) (insertTimer t ts)).
  { intros t ts Hts Ht. induction Hts as [|u ts Hu Hts IH]; simpl.
    - now constructor.
    - destruct (due u <=? due t); repeat constructor; auto. }
  apply Hins; [| simpl; lia].
  rewrite Forall_forall. intros t Ht. now apply list_elem_of_filter in Ht as [Hne _].
Qed.

(** [destroy()] removes the three bound listeners, and nothing else: the
    timers stay as they are, and so does every listener for Escape. *)
Lemma destroy_effect st :
  timers (destroy st) = timers st /\
  hoverTimeout (destroy st) = hoverTimeout st /\
  closeTimeout (destroy st) = closeTimeout st /\
  forall l, l ∈ listeners (destroy st) <->
            l ∈ listeners st /\
            l <> mkListener Document "click" HandleDocumentClick /\
            l <> mkListener Container "keydown" HandleKeyDown /\
            l <> mkListener Window "resize" HandleResize.
Proof.
  repeat split; try reflexivity.
  - unfold destroy, removeEventListener in H; simpl in H.
    repeat apply list_elem_of_filter in H as [_ H]. exact H.
  - unfold destroy, removeEventListener in H; simpl in H.
    apply list_elem_of_filter in H as [_ H]. apply list_elem_of_filter in H as [_ H].
    now apply list_elem_of_filter in H as [H _].
  - unfold destroy, removeEventListener in H; simpl in H.
    apply list_elem_of_filter in H as [_ H]. now apply list_elem_of_filter in H as [H _].
  - unfold destroy, removeEventListener in H; simpl in H.
    now apply list_elem_of_filter in H as [H _].
  - intros (H & H1 & H2 & H3). unfold destroy, removeEventListener; simpl.
    rewrite !list_elem_of_filter. tauto.
Qed.

End EngineProperties.

(** The amended C9 at a controller whose first [init()] has completed:
    the second [init()] only writes the console line. *)
Lemma init_guard_witness :
  exists st,
    SampleMenu.after (SampleMenu.options "hover" "static" "") 1200 SampleMenu.initialised
    = Some st /\
    MenuEngine.init st = MenuEngine.log "Menu is already initialized" st /\
    MenuEngine.fetches (MenuEngine.init st) = MenuEngine.fetches st /\
    MenuEngine.renders (MenuEngine.init st) = MenuEngine.renders st.
Proof.
  eexists. split; [vm_compute; reflexivity |].
  match goal with
  | |- MenuEngine.init ?s = _ /\ _ =>
      destruct (proj1 (init_guard s) eq_refl) as (H1 & H2 & _ & H3 & _)
  end.
  repeat split; assumption.
Defined.

(** C9, as stated, fails. With a JSON data source, a second [init()]
    while the first is still waiting for its data calls [fetch] again and
    waits as well; when the two loads have settled, the menu has been
    rendered twice and two listeners for Escape are registered. Nothing
    was logged. *)
Lemma init_reentrant_counterexample :
  match SampleMenu.after (SampleMenu.options "hover" "json" "/menu.json") 1200
          [MenuEngine.Init; MenuEngine.Init] with
  | Some st =>
      MenuEngine.fetches st = 2%nat /\ length (MenuEngine.loads st) = 2%nat /\
      MenuEngine.isInitialized st = false /\
      DataRetrieval.console (MenuEngine.env st) = []
  | None => False
  end /\
  match SampleMenu.after (SampleMenu.options "hover" "json" "/menu.json") 1200
          [MenuEngine.Init; MenuEngine.Init;
           MenuEngine.Settle 0 (MenuEngine.Body SampleMenu.data);
           MenuEngine.Settle 0 (MenuEngine.Body SampleMenu.data)] with
  | Some st =>
      MenuEngine.renders st = 2%nat /\ length (SampleMenu.escapeListeners st) = 2%nat /\
      MenuEngine.isInitialized st = true /\
      DataRetrieval.console (MenuEngine.env st) = []
  | None => False
  end.
Proof. split; vm_compute; auto. Qed.

(** C3 at a failing input. After [init()] and [destroy()] the listener for
    Escape is still registered on the document. After a [mouseenter] and a
    [destroy()] that follows within the hover delay, the hover timer is
    still pending, and when it runs it opens the submenu of the removed
    menu. *)
Theorem destroy_leaves_listener_and_timer :
  match SampleMenu.after (SampleMenu.options "hover" "static" "") 1200
          (SampleMenu.initialised ++ [MenuEngine.Destroy]) with
  | Some st =>
      MenuEngine.listeners st
      = [MenuEngine.mkListener MenuEngine.Document "keydown" (MenuEngine.EscapeArrow 0)]
  | None => False
  end /\
  match SampleMenu.after (SampleMenu.options "hover" "static" "") 1200
          (SampleMenu.initialised ++
           [MenuEngine.MouseEnter SampleMenu.A; MenuEngine.Destroy]) with
  | Some st =>
      MenuEngine.timers st
      = [MenuEngine.mkTimer 1 150 (MenuEngine.OpenSubmenu SampleMenu.A)] /\
      MenuEngine.hoverTimeout st = Some 1%nat
  | None => False
  end /\
  match SampleMenu.after (SampleMenu.options "hover" "static" "") 1200
          (SampleMenu.initialised ++
           [MenuEngine.MouseEnter SampleMenu.A; MenuEngine.Destroy;
            MenuEngine.Elapse 150]) with
  | Some st =>
      elements (MenuEngine.openMenus st) = [SampleMenu.A] /\
      elements (MenuEngine.expanded st) = [SampleMenu.A]
  | None => False
  end.
Proof. repeat split; vm_compute; auto. Qed.

(** C4 at a failing input. The submenu A is open and the pointer has left
    it. At 250 ms the pointer enters A again, at 260 ms it enters the item
    A1 inside A, the Escape key closes the submenus, and at 265 ms, well
    within the hover delay of 150 ms, the pointer leaves A1 and A. The
    [mouseleave] of A clears the timer of A1, which is what [hoverTimeout]
    holds, so the timer that the [mouseenter] of A armed stays pending and
    opens A at 400 ms with the pointer gone. *)
Theorem hover_leave_still_opens :
  let leaving :=
    SampleMenu.initialised ++
    [MenuEngine.MouseEnter SampleMenu.A; MenuEngine.Elapse 150;
     MenuEngine.MouseLeave SampleMenu.A; MenuEngine.Elapse 100;
     MenuEngine.MouseEnter SampleMenu.A; MenuEngine.Elapse 10;
     MenuEngine.MouseEnter SampleMenu.A1; MenuEngine.EscapeKey; MenuEngine.Elapse 5;
     MenuEngine.MouseLeave SampleMenu.A1; MenuEngine.MouseLeave SampleMenu.A] in
  match SampleMenu.after (SampleMenu.options "hover" "static" "") 1200 leaving with
  | Some st =>
      MenuEngine.clock st = 265 /\ SampleMenu.openNow st = [] /\
      MenuEngine.action <$> MenuEngine.timers st
      = [MenuEngine.OpenSubmenu SampleMenu.A; MenuEngine.CloseSubmenu SampleMenu.A1;
         MenuEngine.CloseSubmenu SampleMenu.A]
  | None => False
  end /\
  match SampleMenu.after (SampleMenu.options "hover" "static" "") 1200
          (leaving ++ [MenuEngine.Elapse 135]) with
  | Some st => MenuEngine.clock st = 400 /\ SampleMenu.openNow st = [SampleMenu.A]
  | None => False
  end.
Proof. split; vm_compute; auto. Qed.

(** C5, as stated, fails. With the trigger type hover, the pointer visits
    the items of A, B and C one after the other, each [mouseenter]
    clearing the close timer of the item before; all three submenus are
    open. The window is narrowed below the mobile breakpoint and the
    trigger of C is clicked: C is closed, A and B are still open. *)
Lemma activation_leaves_two_open :
  let hovering :=
    SampleMenu.initialised ++
    [MenuEngine.MouseEnter SampleMenu.A; MenuEngine.Elapse 150;
     MenuEngine.MouseLeave SampleMenu.A;
     MenuEngine.MouseEnter SampleMenu.B; MenuEngine.Elapse 150;
     MenuEngine.MouseLeave SampleMenu.B;
     MenuEngine.MouseEnter SampleMenu.C; MenuEngine.Elapse 150;
     MenuEngine.Resize 500] in
  match SampleMenu.after (SampleMenu.options "hover" "static" "") 1200 hovering with
  | Some st =>
      MenuEngine.clickToggles st = true /\
      SampleMenu.openNow st = [SampleMenu.A; SampleMenu.B; SampleMenu.C]
  | None => False
  end /\
  match SampleMenu.after (SampleMenu.options "hover" "static" "") 1200
          (hovering ++ [MenuEngine.Click SampleMenu.C]) with
  | Some st => SampleMenu.openNow st = [SampleMenu.A; SampleMenu.B]
  | None => False
  end.
Proof. split; vm_compute; auto. Qed.

(** The amended C5 at a menu with the trigger type click: a click on A
    opens it alone, and after a click on B only B is open. And at a menu
    rendered in hover mode, with A opened by the pointer, that is switched
    to click mode and refreshed: of the menu then in the container at
    most one submenu is open after a click. *)
Lemma activation_policy_witness :
  (exists st,
     SampleMenu.after (SampleMenu.options "click" "static" "") 1200
       (SampleMenu.initialised ++ [MenuEngine.Click SampleMenu.A]) = Some st /\
     MenuEngine.openMenus (MenuEngine.onClick SampleMenu.B st) = {[SampleMenu.B]} /\
     forall s', MenuEngine.inContainer st s' = true ->
                (s' ∈ MenuEngine.expanded (MenuEngine.onClick SampleMenu.B st)
                 <-> s' = SampleMenu.B)) /\
  (let st := MenuEngine.run Sample.noRandom
                (SampleStates.after (SampleMenu.options "hover" "static" "") 1200 [])
                (SampleMenu.initialised ++
                 [MenuEngine.MouseEnter SampleMenu.A; MenuEngine.Elapse 150;
                  MenuEngine.UpdateConfig (SampleMenu.triggerOnly "click");
                  MenuEngine.Refresh; MenuEngine.Settle 0 (MenuEngine.Failure "");
                  MenuEngine.Click (2%nat, [1%nat])]) in
   elements (MenuEngine.expanded st) = [(2%nat, [1%nat]); SampleMenu.A] /\
   forall s, MenuEngine.inContainer st s = true -> s ∈ MenuEngine.expanded st ->
             s = (2%nat, [1%nat])).
Proof.
  split.
  - eexists. split; [vm_compute; reflexivity |].
    match goal with
    | |- MenuEngine.openMenus (MenuEngine.onClick _ ?s) = _ /\ _ =>
        destruct (proj1 (proj1 (activation_policy Sample.noRandom) s SampleMenu.B
                           eq_refl eq_refl))
          as (_ & _ & H1 & H2)
    end.
    + vm_compute. discriminate.
    + split; [exact H2 | exact H1].
  - intros st.
    assert (He : elements (MenuEngine.expanded st) = [(2%nat, [1%nat]); SampleMenu.A])
      by (vm_compute; reflexivity).
    split; [exact He |]. intros s Hc Hs.
    unfold st in Hc, Hs.
    eapply (proj2 (activation_policy Sample.noRandom)
              (SampleMenu.options "hover" "static" "") 0 1200
              (SampleStates.after (SampleMenu.options "hover" "static" "") 1200 []));
      [| | exact Hc | exact Hs | |].
    + vm_compute. reflexivity.
    + vm_compute. reflexivity.
    + vm_compute. reflexivity.
    + apply elem_of_elements. fold st. rewrite He. apply list_elem_of_here.
Defined.
(** ** Payloads that are not arrays *)

Section PayloadFacts.

Import Js MenuEngine.

Variable random_suffix : nat -> string.

(** [render()] of an empty menu returns. *)
Lemma renderThrows_empty st : menuData st = [] -> renderThrows st = None.
Proof. intros H. unfold renderThrows. now rewrite H. Qed.

Lemma render_empty st :
  menuData st = [] ->
  render st
  = withCaptured (withDocument st MenuDom (S (renders st)) (listeners st) (arrows st))
      (config st).
Proof. intros H. unfold render. now rewrite renderThrows_empty. Qed.

(** [attachEventListeners()] touches the listeners only. *)
Lemma attach_keeps st :
  menuData (attachEventListeners st) = menuData st /\
  content (attachEventListeners st) = content st /\
  renders (attachEventListeners st) = renders st /\
  isInitialized (attachEventListeners st) = isInitialized st /\
  isLoading (attachEventListeners st) = isLoading st /\
  env (attachEventListeners st) = env st /\
  cache (attachEventListeners st) = cache st.
Proof.
  unfold attachEventListeners. destruct (MenuConfig.closeOnEscape (config st)); repeat split.
Qed.

(** [getData()] with a payload that is not an array: it resolves with the
    empty array, which it has cached under [cacheData], and has warned on
    the console. *)
Lemma finishGetData_not_array raw st :
  isArray raw = false ->
  finishGetData random_suffix raw st
  = (Ok [],
     withLoads st
       (if MenuConfig.cacheData (retrieval st)
        then DataCache.set _ (clock st) (getCacheKey (retrieval st)) (Some []) None (cache st)
        else cache st)
       (loads st) (fetches st)
       {| DataRetrieval.drawn := DataRetrieval.drawn (env st);
          DataRetrieval.console :=
            DataRetrieval.console (env st) ++
            ["Menu data should be an array, received: " +:+ typeof raw] |}).
Proof.
  intros Hna. unfold finishGetData. now rewrite normalizeData_not_array.
Qed.

(** C10 (amended). For every value that is not an array, [normalizeData]
    returns the empty array: it does not throw and draws nothing, it only
    warns on the console. So when the static source or the method of a
    source that has called [fetch] hands [getData()] a value that is not
    an array, the load ends with an empty menu and not with a failure:
    the menu data are empty, the container has got a menu, [init()] has
    marked the instance as initialised, the warning is the one new line
    on the console, and under [cacheData] the empty array is cached. The
    JSON and API sources hand over the parsed body of a response with a
    good status as it is, whatever it is, and fail with the error of
    [response.json()] when the body is not JSON. The SharePoint source
    does not get that far with a body that is malformed: it reads
    [result.d.results] and calls [forEach] on it, so that it delivers the
    list items when [result.d.results] is an array and throws a
    [TypeError] when it is anything else or cannot be read. *)
Theorem normalizeData_non_array :
  (forall maxLayers data e,
      isArray data = false ->
      DataRetrieval.normalizeData random_suffix maxLayers data e
      = (Ok [],
         {| DataRetrieval.drawn := DataRetrieval.drawn e;
            DataRetrieval.console :=
              DataRetrieval.console e ++
              ["Menu data should be an array, received: " +:+ typeof data] |})) /\
  (forall st i who src resp raw,
      loads st !! i = Some (mkLoad who src) ->
      Loads.delivers (retrieval st) src resp = Some raw ->
      isArray raw = false ->
      let st' := settle random_suffix i resp st in
      menuData st' = [] /\ content st' = MenuDom /\ renders st' = S (renders st) /\
      (who = ByInit -> isInitialized st' = true /\ isLoading st' = false) /\
      DataRetrieval.console (env st')
      = DataRetrieval.console (env st) ++
        ["Menu data should be an array, received: " +:+ typeof raw] /\
      (MenuConfig.cacheData (retrieval st) = true ->
       DataCache.data _ <$> (DataCache.cache _ (cache st') !! getCacheKey (retrieval st))
       = Some (Some []))) /\
  (forall response,
      Sources.ok response = true ->
      Sources.getJsonData response = Sources.json response /\
      Sources.getApiData response = Sources.json response) /\
  (forall response body,
      Sources.ok response = true -> Sources.json response = Ok body ->
      match Sources.results body with
      | Ok (Arr elems) => Sources.sharePointItems response = Ok elems
      | _ => exists msg, Sources.sharePointItems response = Throw (TypeError msg)
      end).
Proof.
  split; [| split; [| split]].
  - intros maxLayers data e. apply normalizeData_not_array.
  - intros st i who src resp raw Hld Hdel Hna st'. subst st'.
    unfold settle. rewrite Hld. cbn [source awaiter].
    set (st1 := withLoads st (cache st) (delete i (loads st)) (fetches st) (env st)).
    assert (Hfin : (let '(outcome, st2) :=
                      match src with
                      | Cached data => (Ok data, st1)
                      | StaticData =>
                          finishGetData random_suffix
                            (Js.or (MenuConfig.data (MenuConfig.dataSource (retrieval st)))
                               (Arr [])) st1
                      | Network =>
                          match resp with
                          | Body raw0 => finishGetData random_suffix raw0 st1
                          | Failure msg => failGetData msg st1
                          end
                      | Rejected msg => failGetData msg st1
                      end in
                    match who with
                    | ByInit => initContinue outcome st2
                    | ByRefresh => refreshContinue outcome st2
                    end)
                   = match who with
                     | ByInit => initContinue (Ok []) (finishGetData random_suffix raw st1).2
                     | ByRefresh =>
                         refreshContinue (Ok []) (finishGetData random_suffix raw st1).2
                     end).
    { destruct src as [d| | |m]; simpl in Hdel; try discriminate.
      - injection Hdel as <-. rewrite finishGetData_not_array by exact Hna. reflexivity.
      - destruct resp as [raw0|m]; [| discriminate]. injection Hdel as <-.
        rewrite finishGetData_not_array by exact Hna. reflexivity. }
    rewrite Hfin, finishGetData_not_array by exact Hna. cbn [snd].
    clear Hfin.
    match goal with
    | |- context [initContinue _ ?s] => set (st2 := s)
    end.
    set (st3 := withInstance st2 (isInitialized st2) (isLoading st2) [] (openMenus st2)).
    assert (Hcache : MenuConfig.cacheData (retrieval st) = true ->
              DataCache.data _ <$> (DataCache.cache _ (cache st2) !! getCacheKey (retrieval st))
              = Some (Some [])).
    { intros Hcd. unfold st2, st1. simpl. rewrite Hcd. simpl. now rewrite lookup_insert_eq. }
    destruct who; unfold initContinue, refreshContinue; fold st3;
      rewrite (renderThrows_empty st3 eq_refl), (render_empty st3 eq_refl);
      match goal with
      | |- context [attachEventListeners ?s] =>
          destruct (attach_keeps s) as (A1 & A2 & A3 & A4 & A5 & A6 & A7)
      end.
    + unfold setLoading.
      cbn [menuData content renders isInitialized isLoading env cache withInstance].
      rewrite A1, A2, A3, A6, A7.
      repeat split; try reflexivity. exact Hcache.
    + rewrite A1, A2, A3, A6, A7.
      repeat split; try discriminate; try reflexivity. exact Hcache.
  - intros response Hok. unfold Sources.getJsonData, Sources.getApiData.
    now rewrite Hok.
  - intros response body Hok Hjson. unfold Sources.sharePointItems.
    rewrite Hok, Hjson.
    destruct (Sources.results body) as [items|err] eqn:Hres.
    + destruct items; simpl; eauto.
    + unfold Sources.results, Sources.read in Hres.
      destruct body; simpl in Hres; try discriminate; try (injection Hres as <-; eauto).
      destruct (fields "d"); simpl in Hres; try discriminate; injection Hres as <-; eauto.
Qed.

End PayloadFacts.

(** The amended C10 at [null] as the body of the response to a controller
    with a JSON source whose [init()] waits: the menu is empty, and the
    instance is initialised. *)
Lemma normalizeData_non_array_witness :
  DataRetrieval.normalizeData Sample.noRandom 3 Js.Null Sample.freshEnv
  = (Js.Ok [],
     {| DataRetrieval.drawn := 0;
        DataRetrieval.console := ["Menu data should be an array, received: object"] |}) /\
  (let st' := MenuEngine.settle Sample.noRandom 0
                (Loads.settles (Sources.getJsonData (SampleStates.answer Js.Null)))
                SampleStates.loading in
   MenuEngine.menuData st' = [] /\ MenuEngine.content st' = MenuEngine.MenuDom /\
   MenuEngine.isInitialized st' = true) /\
  Sources.sharePointItems
    (SampleStates.answer
       (Js.obj [("d", Js.obj [("results", Js.Arr [Sample.leaf "home"])])]))
  = Js.Ok [Sample.leaf "home"].
Proof.
  destruct (normalizeData_non_array Sample.noRandom) as (H1 & H2 & _ & H4).
  split; [| split].
  - apply (H1 3 Js.Null Sample.freshEnv). reflexivity.
  - destruct (H2 SampleStates.loading 0%nat MenuEngine.ByInit MenuEngine.Network
                (Loads.settles (Sources.getJsonData (SampleStates.answer Js.Null))) Js.Null)
      as (Hm & Hc & _ & Hi & _); [vm_compute; reflexivity .. |].
    split; [exact Hm |]. split; [exact Hc |]. now apply Hi.
  - apply (H4 (SampleStates.answer
                 (Js.obj [("d", Js.obj [("results", Js.Arr [Sample.leaf "home"])])]))
              (Js.obj [("d", Js.obj [("results", Js.Arr [Sample.leaf "home"])])]));
      reflexivity.
Defined.

(** C10, as stated, fails for the SharePoint source and for a body that
    is not JSON. A SharePoint response whose body is the empty object has
    no [d]: reading [result.d.results] throws, and [init()] ends with the
    error box and without a menu. The same holds when [d.results] is a
    string. A response to the JSON source whose body is not JSON makes
    [response.json()] fail, and [init()] ends in the same way. *)
Lemma malformed_payload_counterexample :
  let failure (r : Js.error) (st : MenuEngine.State) :=
    MenuEngine.settle Sample.noRandom 0 (MenuEngine.Failure (MenuEngine.message r)) st in
  match Sources.sharePointItems (SampleStates.answer (Js.obj [])) with
  | Js.Throw err =>
      err = Js.TypeError "Cannot read properties of undefined" /\
      MenuEngine.content (failure err SampleStates.loadingSharePoint)
      = MenuEngine.ErrorBox "Cannot read properties of undefined" /\
      MenuEngine.isInitialized (failure err SampleStates.loadingSharePoint) = false /\
      MenuEngine.renders (failure err SampleStates.loadingSharePoint) = 0%nat
  | Js.Ok _ => False
  end /\
  Sources.sharePointItems
    (SampleStates.answer (Js.obj [("d", Js.obj [("results", Js.Str "none")])]))
  = Js.Throw (Js.TypeError "items.forEach is not a function") /\
  match Sources.getJsonData SampleStates.notJson with
  | Js.Throw err =>
      MenuEngine.content (failure err SampleStates.loading)
      = MenuEngine.ErrorBox "Unexpected token < in JSON at position 0" /\
      MenuEngine.isInitialized (failure err SampleStates.loading) = false
  | Js.Ok _ => False
  end.
Proof. vm_compute. repeat split; reflexivity. Qed.

(** * Further properties *)

(** ** The cache as a map with expiry *)

Section CacheOperations.

Context {V : Type} (null : V).

Implicit Types (c : DataCache.t V) (key : string) (d : V) (ttl : option Z).

(** What [get] returns, in terms of the entry under the key. *)
Lemma get_value now key c :
  (DataCache.get V null now key c).1
  = match DataCache.cache V c !! key with
    | Some item =>
        if DataCache.expiry V item <? now then null else DataCache.data V item
    | None => null
    end.
Proof.
  unfold DataCache.get. destruct (DataCache.cache V c !! key) as [item|]; [| reflexivity].
  now destruct (DataCache.expiry V item <? now).
Qed.

(** The entries that [get] leaves: those of before, but for the one it
    has found expired. *)
Lemma get_entries now key key' c :
  DataCache.cache V (DataCache.get V null now key c).2 !! key'
  = match DataCache.cache V c !! key' with
    | Some item =>
        if bool_decide (key = key') && (DataCache.expiry V item <? now)
        then None else Some item
    | None => None
    end.
Proof.
  unfold DataCache.get. destruct (DataCache.cache V c !! key) as [item|] eqn:Hk.
  - destruct (DataCache.expiry V item <? now) eqn:Hexp; simpl.
    + destruct (decide (key = key')) as [<-|Hne].
      * rewrite lookup_delete_eq, Hk, Hexp. now rewrite bool_decide_eq_true_2.
      * rewrite lookup_delete_ne by exact Hne. rewrite bool_decide_eq_false_2 by exact Hne.
        now destruct (DataCache.cache V c !! key').
    + destruct (DataCache.cache V c !! key') as [item'|] eqn:Hk'; [| reflexivity].
      destruct (decide (key = key')) as [<-|Hne].
      * rewrite Hk in Hk'. injection Hk' as <-. rewrite Hexp. now rewrite andb_false_r.
      * now rewrite bool_decide_eq_false_2.
  - simpl. destruct (DataCache.cache V c !! key') as [item'|] eqn:Hk'; [| reflexivity].
    destruct (decide (key = key')) as [<-|Hne]; [congruence |].
    now rewrite bool_decide_eq_false_2.
Qed.

(** X1. The removal of expired entries by [get] cannot be observed while
    the clock does not run backwards: a [get] at a later (or the same)
    clock value returns the same, for every key, whether or not an earlier
    [get] has been made, and [get] never changes the default duration. *)
Theorem cache_eviction_unobservable now later key key' c :
  now <= later ->
  (DataCache.get V null later key' (DataCache.get V null now key c).2).1
  = (DataCache.get V null later key' c).1 /\
  DataCache.duration V (DataCache.get V null now key c).2 = DataCache.duration V c.
Proof.
  intros Hle. split.
  - rewrite !get_value, get_entries.
    destruct (DataCache.cache V c !! key') as [item|]; [| reflexivity].
    destruct (bool_decide (key = key') && (DataCache.expiry V item <? now)) eqn:Hb;
      [| reflexivity].
    apply andb_prop in Hb as [_ Hexp]. apply Z.ltb_lt in Hexp.
    destruct (Z.ltb_spec (DataCache.expiry V item) later); [reflexivity | lia].
  - unfold DataCache.get. destruct (DataCache.cache V c !! key) as [item|]; [| reflexivity].
    now destruct (DataCache.expiry V item <? now).
Qed.

(** X2. [delete] and [clear] make the next [get] a miss that changes
    nothing, and [set] and [delete] leave what [get] returns for every
    other key as it was. *)
Theorem cache_invalidation now t key key' d ttl c :
  DataCache.get V null now key (DataCache.delete V key c)
  = (null, DataCache.delete V key c) /\
  DataCache.get V null now key (DataCache.clear V c) = (null, DataCache.clear V c) /\
  (key <> key' ->
     (DataCache.get V null now key' (DataCache.delete V key c)).1
     = (DataCache.get V null now key' c).1 /\
     (DataCache.get V null now key' (DataCache.set V t key d ttl c)).1
     = (DataCache.get V null now key' c).1).
Proof.
  split; [| split].
  - apply get_absent. simpl. apply lookup_delete_eq.
  - apply get_absent. simpl. apply lookup_empty.
  - intros Hne. rewrite !get_value. simpl.
    rewrite lookup_delete_ne by exact Hne. rewrite lookup_insert_ne by exact Hne.
    split; reflexivity.
Qed.

End CacheOperations.

(** X1 at a cache whose entry has expired: the [get] at 1051 removes the
    entry, and the [get] at 1060 is a miss with or without it. *)
Lemma cache_eviction_unobservable_witness :
  let c := DataCache.set Z 1000 "k" 7 (Some 50) (DataCache.new Z None) in
  (DataCache.get Z 0 1060 "k" (DataCache.get Z 0 1051 "k" c).2).1
  = (DataCache.get Z 0 1060 "k" c).1 /\
  DataCache.duration Z (DataCache.get Z 0 1051 "k" c).2 = DataCache.duration Z c.
Proof.
  intros c.
  apply (cache_eviction_unobservable (V := Z) 0 1051 1060 "k" "k" c).
  vm_compute. discriminate.
Defined.

(** X2 at two keys of one cache. *)
Lemma cache_invalidation_witness :
  let c := DataCache.set Z 1000 "a" 7 None (DataCache.new Z None) in
  (DataCache.get Z 0 1001 "a" (DataCache.delete Z "b" c)).1 = 7 /\
  (DataCache.get Z 0 1001 "a" (DataCache.set Z 1000 "b" 8 None c)).1 = 7.
Proof.
  intros c.
  pose proof (cache_invalidation (V := Z) 0 1001 1000 "b" "a" 8 None c) as (_ & _ & H).
  destruct H as [H1 H2]; [discriminate |].
  split; [rewrite H1 | rewrite H2]; reflexivity.
Defined.

(** ** The configuration: validation, update, SharePoint switch *)

Section ConfigMore.

Import Js MenuConfig MenuConfigMethods.

Lemma includes_elem (l : list string) (s : string) : includes l s = true <-> s ∈ l.
Proof.
  unfold includes. rewrite existsb_exists. split.
  - intros (x & Hx & Heq). apply String.eqb_eq in Heq. subst x. now apply list_elem_of_In.
  - intros Hs. exists s. split; [now apply list_elem_of_In | apply String.eqb_refl].
Qed.

Lemma one_error_nil (b : bool) (m : string) :
  (if b then [m] else []) = [] <-> b = false.
Proof. destruct b; split; congruence. Qed.

Lemma validationErrors_nil config : validationErrors config = [] <-> rulesHold config.
Proof.
  unfold validationErrors, rulesHold.
  rewrite !app_nil, !one_error_nil, orb_false_iff, !negb_false_iff, !Z.ltb_ge.
  rewrite !includes_elem.
  assert (Ht : triggerType config ∈ ["hover"; "click"] <->
               triggerType config = "hover" \/ triggerType config = "click").
  { rewrite !elem_of_cons, elem_of_nil. tauto. }
  rewrite Ht. tauto.
Qed.

Lemma validateConfig_ok config : validateConfig config = Ok tt <-> rulesHold config.
Proof.
  rewrite <- validationErrors_nil. unfold validateConfig.
  destruct (validationErrors config) as [|e es]; simpl; [tauto |].
  split; discriminate.
Qed.

Lemma merge_spread current options :
  mergeConfig DEFAULT_CONFIG (spread (getAll current) options) = updated current options.
Proof.
  destruct current as [? ? ? ? ? ? ? ? ? ? [? ? ? ? ? ?] [? ? ?]].
  unfold mergeConfig, spread, updated, getAll; simpl.
  f_equal;
    match goal with
    | |- context [pick _ ?o] => destruct o; reflexivity
    end.
Qed.

(** X4. [updateConfig(options)] replaces each top-level option that
    [options] gives and keeps the others. A nested object ([sharePoint],
    [dataSource]) that [options] gives is merged with the defaults, not
    with the nested object of the current configuration, whose other
    properties are thereby reset; a nested object that [options] does not
    give is kept. The result is validated like a new configuration, and on
    a valid configuration an update without options changes nothing. *)
Theorem updateConfig_effect current options :
  updateConfig current options
  = match validateConfig (updated current options) with
    | Ok _ => Ok (updated current options)
    | Throw e => Throw e
    end /\
  (forall sp c,
      o_sharePoint options = Some sp -> updateConfig current options = Ok c ->
      sharePoint c = mergeSharePoint (sharePoint DEFAULT_CONFIG) sp) /\
  (forall c,
      o_sharePoint options = None -> updateConfig current options = Ok c ->
      sharePoint c = sharePoint current) /\
  (validateConfig current = Ok tt -> updateConfig current no_options = Ok current).
Proof.
  assert (Hu : updateConfig current options
               = match validateConfig (updated current options) with
                 | Ok _ => Ok (updated current options)
                 | Throw e => Throw e
                 end).
  { unfold updateConfig, MenuConfig.new. now rewrite merge_spread. }
  split; [exact Hu |]. split; [| split].
  - intros sp c Hsp Hc. rewrite Hu in Hc.
    destruct (validateConfig (updated current options)); [| discriminate].
    injection Hc as <-. unfold updated; simpl. now rewrite Hsp.
  - intros c Hsp Hc. rewrite Hu in Hc.
    destruct (validateConfig (updated current options)); [| discriminate].
    injection Hc as <-. unfold updated; simpl. now rewrite Hsp.
  - intros Hv. unfold updateConfig, MenuConfig.new. rewrite merge_spread.
    assert (Hid : updated current no_options = current)
      by (destruct current as [? ? ? ? ? ? ? ? ? ? [? ? ? ? ? ?] [? ? ?]]; reflexivity).
    rewrite Hid, Hv. reflexivity.
Qed.

(** X5. [isSharePointEnabled()] is truthy exactly when SharePoint is
    enabled and both the list name and the site URL are set, which is when
    [getSharePointData] gets past its completeness test and calls [fetch];
    otherwise that call fails with the message that the configuration is
    incomplete. The value returned is never [true]: it is [false], the
    empty list name, or the site URL. *)
Theorem sharePoint_enabled_agrees c :
  (truthy (isSharePointEnabled c) = true <->
     enabled (sharePoint c) = true /\ listName (sharePoint c) <> "" /\
     siteUrl (sharePoint c) <> "") /\
  (type (dataSource c) = "sharepoint" ->
     MenuEngine.startSource c
     = if truthy (isSharePointEnabled c)
       then (MenuEngine.Network, true)
       else (MenuEngine.Rejected "SharePoint configuration is incomplete", false)) /\
  (isSharePointEnabled c = Bool false \/ isSharePointEnabled c = Str "" \/
   isSharePointEnabled c = Str (siteUrl (sharePoint c))).
Proof.
  unfold isSharePointEnabled, MenuEngine.startSource. simpl.
  destruct (enabled (sharePoint c)); simpl.
  2: { split; [split; [discriminate | intros [H _]; discriminate] |].
       split; [| now left]. intros ->. reflexivity. }
  destruct (String.eqb_spec (listName (sharePoint c)) "") as [Hl|Hl]; simpl.
  - rewrite Hl. simpl.
    split; [split; [discriminate | intros (_ & H & _); congruence] |].
    split; [| right; now left]. intros ->. simpl. now rewrite orb_true_r.
  - destruct (String.eqb_spec (siteUrl (sharePoint c)) "") as [Hs|Hs]; simpl.
    + split; [split; [discriminate | intros (_ & _ & H); congruence] |].
      split; [| right; now right]. intros ->. reflexivity.
    + split; [split; [auto | reflexivity] |].
      split; [| right; now right]. intros ->. reflexivity.
Qed.

End ConfigMore.

(** X4 at the configuration of a SharePoint list [MainMenu]: an update
    that only switches SharePoint on loses the list name. *)
Lemma updateConfig_effect_witness :
  let current :=
    MenuConfig.mergeConfig MenuConfig.DEFAULT_CONFIG
      {| MenuConfig.o_layers := None; MenuConfig.o_triggerType := None;
         MenuConfig.o_closeOnOutsideClick := None; MenuConfig.o_closeOnEscape := None;
         MenuConfig.o_hoverDelay := None; MenuConfig.o_closeDelay := None;
         MenuConfig.o_enableKeyboardNavigation := None;
         MenuConfig.o_mobileBreakpoint := None; MenuConfig.o_cacheData := None;
         MenuConfig.o_cacheDuration := None;
         MenuConfig.o_sharePoint :=
           Some {| MenuConfig.o_enabled := None; MenuConfig.o_listName := Some "MainMenu";
                   MenuConfig.o_siteUrl := None; MenuConfig.o_selectFields := None;
                   MenuConfig.o_orderBy := None; MenuConfig.o_ascending := None |};
         MenuConfig.o_dataSource := None |} in
  let switchOn :=
    {| MenuConfig.o_enabled := Some true; MenuConfig.o_listName := None;
       MenuConfig.o_siteUrl := None; MenuConfig.o_selectFields := None;
       MenuConfig.o_orderBy := None; MenuConfig.o_ascending := None |} in
  let options :=
    {| MenuConfig.o_layers := None; MenuConfig.o_triggerType := None;
       MenuConfig.o_closeOnOutsideClick := None; MenuConfig.o_closeOnEscape := None;
       MenuConfig.o_hoverDelay := None; MenuConfig.o_closeDelay := None;
       MenuConfig.o_enableKeyboardNavigation := None;
       MenuConfig.o_mobileBreakpoint := None; MenuConfig.o_cacheData := None;
       MenuConfig.o_cacheDuration := None;
       MenuConfig.o_sharePoint := Some switchOn;
       MenuConfig.o_dataSource := None |} in
  MenuConfig.listName (MenuConfig.sharePoint current) = "MainMenu" /\
  (forall c, MenuConfigMethods.updateConfig current options = Js.Ok c ->
             MenuConfig.listName (MenuConfig.sharePoint c) = "") /\
  MenuConfigMethods.updateConfig current MenuConfig.no_options = Js.Ok current.
Proof.
  intros current switchOn options.
  pose proof (updateConfig_effect current options) as (_ & H1 & _ & _).
  pose proof (updateConfig_effect current MenuConfig.no_options) as (_ & _ & _ & H2).
  split; [reflexivity |]. split.
  - intros c Hc. rewrite (H1 switchOn c eq_refl Hc). reflexivity.
  - apply H2. reflexivity.
Defined.

(** X5 at the default configuration with a SharePoint source. *)
Lemma sharePoint_enabled_agrees_witness :
  let c :=
    MenuConfig.mergeConfig MenuConfig.DEFAULT_CONFIG
      {| MenuConfig.o_layers := None; MenuConfig.o_triggerType := None;
         MenuConfig.o_closeOnOutsideClick := None; MenuConfig.o_closeOnEscape := None;
         MenuConfig.o_hoverDelay := None; MenuConfig.o_closeDelay := None;
         MenuConfig.o_enableKeyboardNavigation := None;
         MenuConfig.o_mobileBreakpoint := None; MenuConfig.o_cacheData := None;
         MenuConfig.o_cacheDuration := None; MenuConfig.o_sharePoint := None;
         MenuConfig.o_dataSource :=
           Some {| MenuConfig.o_type := Some "sharepoint"; MenuConfig.o_url := None;
                   MenuConfig.o_data := None |} |} in
  MenuEngine.startSource c
  = (MenuEngine.Rejected "SharePoint configuration is incomplete", false).
Proof.
  intros c.
  pose proof (sharePoint_enabled_agrees c) as (_ & H & _).
  rewrite (H eq_refl). reflexivity.
Defined.

(** ** Normalisation at every layer limit *)

Section NormalizeMore.

Import Js DataRetrieval Shape Normal.

Variable random_suffix : nat -> string.
Variable maxLayers : Z.

Abbreviation normalizeFields := (normalizeFields random_suffix maxLayers).
Abbreviation normalizeItem := (normalizeItem random_suffix maxLayers).
Abbreviation normalizeData := (normalizeData random_suffix maxLayers).

(** *** Values *)

Lemma truthy_or a b : truthy (or a b) = truthy a || truthy b.
Proof. unfold or. destruct (truthy a) eqn:Ha; simpl; [exact Ha | reflexivity]. Qed.

Lemma or_truthy a b : truthy a = true -> or a b = a.
Proof. unfold or. now intros ->. Qed.

Lemma or_falsy a b : truthy a = false -> or a b = b.
Proof. unfold or. now intros ->. Qed.

Lemma openInNewTab_shape a b :
  let v := or (or a (Bool b)) (Bool false) in
  truthy v || match v with Bool false => true | _ => false end = true.
Proof.
  simpl. destruct (truthy a) eqn:Ha.
  - rewrite (or_truthy a _ Ha), (or_truthy a _ Ha). now rewrite Ha.
  - rewrite (or_falsy a _ Ha). now destruct b.
Qed.

Lemma icon_shape a :
  truthy (or a Null) || match or a Null with Null => true | _ => false end = true.
Proof.
  destruct (truthy a) eqn:Ha.
  - rewrite (or_truthy a _ Ha). now rewrite Ha.
  - now rewrite (or_falsy a _ Ha).
Qed.

Lemma cssClass_shape a b :
  let v := or (or a b) (Str "") in
  truthy v || match v with Str "" => true | _ => false end = true.
Proof.
  simpl. destruct (truthy (or a b)) eqn:Ha.
  - rewrite (or_truthy _ _ Ha). now rewrite Ha.
  - now rewrite (or_falsy _ _ Ha).
Qed.

(** *** The id step and the fields *)

Lemma theId_truthy (read : string -> value) e :
  exists v e',
    (if truthy (read "id") then ret (read "id") else generateId random_suffix) e = (Ok v, e')
    /\ console e' = console e /\ truthy v = true.
Proof.
  destruct (truthy (read "id")) eqn:Hid; eexists _, _; repeat split; auto.
Qed.

(** [normalizeFields] for children that are delivered. *)
Lemma normalizeFields_ok read level kids e :
  (forall e1, console e1 = console e -> exists cs e2,
       kids e1 = (Ok cs, e2) /\ console e2 = console e /\
       forallb (normalised maxLayers (level + 1)) cs = true) ->
  exists m e',
    normalizeFields read level kids e = (Ok m, e') /\ console e' = console e /\
    normalised maxLayers level m = true.
Proof.
  intros Hkids. unfold DataRetrieval.normalizeFields, bind.
  destruct (theId_truthy read e) as (v & e1 & -> & Hc & Hv).
  pose proof (openInNewTab_shape (read "openInNewTab")
                (strictEqStr (read "target") "_blank")) as Ho.
  pose proof (icon_shape (read "icon")) as Hi.
  pose proof (cssClass_shape (read "cssClass") (read "className")) as Hcss.
  simpl in Ho, Hcss.
  assert (Ht : truthy (or (or (or (read "title") (read "label")) (read "name"))
                          (Str "Untitled")) = true)
    by (rewrite truthy_or; apply orb_true_r).
  assert (Hu : truthy (or (or (or (read "url") (read "href")) (read "link")) (Str "#"))
               = true)
    by (rewrite truthy_or; apply orb_true_r).
  destruct (level <? maxLayers) eqn:Hlt; simpl.
  - destruct (truthy (read "children") && isArray (read "children")).
    + destruct (Hkids e1 Hc) as (cs & e2 & -> & Hc2 & Hcs).
      eexists _, _. split; [reflexivity |]. split; [exact Hc2 |].
      simpl. rewrite Z.eqb_refl, Hv, Ht, Hu, Ho, Hi, Hcss, Hlt. exact Hcs.
    + eexists _, _. split; [reflexivity |]. split; [exact Hc |].
      simpl. rewrite Z.eqb_refl, Hv, Ht, Hu, Ho, Hi, Hcss, Hlt. reflexivity.
  - eexists _, _. split; [reflexivity |]. split; [exact Hc |].
    simpl. rewrite Z.eqb_refl, Hv, Ht, Hu, Ho, Hi, Hcss, Hlt. reflexivity.
Qed.

(** [normalizeFields] for children of which one cannot be read. *)
Lemma normalizeFields_throw read level kids e :
  level < maxLayers -> isArray (read "children") = true ->
  (forall e1, console e1 = console e -> exists err e2,
       kids e1 = (Throw err, e2) /\ console e2 = console e /\ readError err) ->
  exists err e',
    normalizeFields read level kids e = (Throw err, e') /\ console e' = console e /\
    readError err.
Proof.
  intros Hlt Harr Hkids. unfold DataRetrieval.normalizeFields, bind.
  destruct (theId_truthy read e) as (v & e1 & -> & Hc & _).
  replace (level <? maxLayers) with true by (symmetry; apply Z.ltb_lt; lia).
  assert (Ht : truthy (read "children") = true)
    by (destruct (read "children"); try discriminate; reflexivity).
  rewrite Ht, Harr. simpl.
  destruct (Hkids e1 Hc) as (err & e2 & -> & Hc2 & Herr).
  eexists _, _. split; [reflexivity |]. auto.
Qed.

(** *** [map] over the elements of an array *)

Lemma mapM_all {A B} (f : A -> M B) (good : A -> bool) (fine : B -> bool) l e :
  (forall x e1, x ∈ l -> console e1 = console e -> good x = true ->
      exists y e2, f x e1 = (Ok y, e2) /\ console e2 = console e /\ fine y = true) ->
  forallb good l = true ->
  exists ys e',
    mapM f l e = (Ok ys, e') /\ console e' = console e /\
    forallb fine ys = true /\ length ys = length l.
Proof.
  revert e. induction l as [|x l IH]; intros e Hf Hall; simpl.
  - exists [], e. repeat split; reflexivity.
  - simpl in Hall. apply andb_prop in Hall as [Hx Hl].
    destruct (Hf x e (list_elem_of_here _ _) eq_refl Hx) as (y & e1 & Hy & Hc1 & Hfy).
    destruct (IH e1) as (ys & e2 & Hys & Hc2 & Hfs & Hlen).
    { intros x' e' Hx' Hc' Hg.
      destruct (Hf x' e') as (y' & e3 & ? & ? & ?);
        [now apply list_elem_of_further | congruence | exact Hg |].
      exists y', e3. repeat split; auto; congruence. }
    { exact Hl. }
    exists (y :: ys), e2. unfold bind at 1. rewrite Hy. unfold bind at 1. rewrite Hys.
    unfold ret. repeat split.
    + congruence.
    + simpl. now rewrite Hfy, Hfs.
    + simpl. now rewrite Hlen.
Qed.

Lemma mapM_some {A B} (f : A -> M B) (good : A -> bool) (bad : error -> Prop) l e :
  (forall x e1, x ∈ l -> console e1 = console e -> good x = true ->
      exists y e2, f x e1 = (Ok y, e2) /\ console e2 = console e) ->
  (forall x e1, x ∈ l -> console e1 = console e -> good x = false ->
      exists err e2, f x e1 = (Throw err, e2) /\ console e2 = console e /\ bad err) ->
  forallb good l = false ->
  exists err e',
    mapM f l e = (Throw err, e') /\ console e' = console e /\ bad err.
Proof.
  revert e. induction l as [|x l IH]; intros e Hok Hbad Hall; simpl in Hall.
  - discriminate.
  - simpl. destruct (good x) eqn:Hx.
    + destruct (Hok x e (list_elem_of_here _ _) eq_refl Hx) as (y & e1 & Hy & Hc1).
      destruct (IH e1) as (err & e2 & Hthrow & Hc2 & Herr).
      { intros x' e' Hx' Hc' Hg.
        destruct (Hok x' e') as (y' & e3 & ? & ?);
          [now apply list_elem_of_further | congruence | exact Hg |].
        exists y', e3. split; auto; congruence. }
      { intros x' e' Hx' Hc' Hg.
        destruct (Hbad x' e') as (err' & e3 & ? & ? & ?);
          [now apply list_elem_of_further | congruence | exact Hg |].
        exists err', e3. repeat split; auto; congruence. }
      { exact Hall. }
      exists err, e2. unfold bind at 1. rewrite Hy. unfold bind at 1. rewrite Hthrow.
      repeat split; [congruence | exact Herr].
    + destruct (Hbad x e (list_elem_of_here _ _) eq_refl Hx) as (err & e1 & Hy & Hc1 & Herr).
      exists err, e1. unfold bind at 1. rewrite Hy. auto.
Qed.

(** *** Items *)

Lemma levelsBelow_zero level : levelsBelow maxLayers level = 0%nat -> maxLayers <= level.
Proof. unfold levelsBelow. lia. Qed.

Lemma levelsBelow_succ level n :
  levelsBelow maxLayers level = S n ->
  level < maxLayers /\ levelsBelow maxLayers (level + 1) = n.
Proof. unfold levelsBelow. lia. Qed.

(** [normalizeItem] on an item that can be read as far as the layer limit
    reaches, and on one that cannot. *)
Lemma normalizeItem_outcome n : forall item level e,
  levelsBelow maxLayers level = n ->
  if readableWithin n item
  then exists m e',
         normalizeItem item level e = (Ok m, e') /\ console e' = console e /\
         normalised maxLayers level m = true
  else exists err e',
         normalizeItem item level e = (Throw err, e') /\ console e' = console e /\
         readError err.
Proof.
  induction n as [|n IH]; intros item level e Hn.
  - apply levelsBelow_zero in Hn.
    assert (Hcut : forall read kids, exists m e',
               normalizeFields read level kids e = (Ok m, e') /\ console e' = console e /\
               normalised maxLayers level m = true).
    { intros read kids. unfold DataRetrieval.normalizeFields, bind.
      destruct (theId_truthy read e) as (v & e1 & -> & Hc & Hv).
      pose proof (openInNewTab_shape (read "openInNewTab")
                    (strictEqStr (read "target") "_blank")) as Ho.
      pose proof (icon_shape (read "icon")) as Hi.
      pose proof (cssClass_shape (read "cssClass") (read "className")) as Hcss.
      simpl in Ho, Hcss.
      replace (level <? maxLayers) with false by (symmetry; apply Z.ltb_ge; lia).
      simpl. eexists _, _. split; [reflexivity |]. split; [exact Hc |].
      simpl. rewrite Z.eqb_refl, Hv, Ho, Hi, Hcss, !truthy_or. simpl.
      rewrite !orb_true_r. simpl.
      replace (level <? maxLayers) with false by (symmetry; apply Z.ltb_ge; lia).
      reflexivity. }
    destruct item; simpl; try apply Hcut.
    + eexists _, _. split; [reflexivity |]. split; [reflexivity | now left].
    + eexists _, _. split; [reflexivity |]. split; [reflexivity | now right].
  - apply levelsBelow_succ in Hn as [Hlt Hn].
    assert (Hleaf : forall read, exists m e',
               normalizeFields read level (ret []) e = (Ok m, e') /\
               console e' = console e /\ normalised maxLayers level m = true).
    { intros read. apply normalizeFields_ok. intros e1 He1.
      exists [], e1. repeat split; auto. }
    destruct item as [| |b|k|s|l|fields|f]; simpl; try apply Hleaf.
    + eexists _, _. split; [reflexivity |]. split; [reflexivity | now left].
    + eexists _, _. split; [reflexivity |]. split; [reflexivity | now right].
    + destruct (fields "children") as [| |b|k|s|elems|g|f] eqn:Hch; simpl; try apply Hleaf.
      destruct (forallb (readableWithin n) elems) eqn:Hall.
      * apply normalizeFields_ok. intros e1 He1.
        destruct (mapM_all (fun child => normalizeItem child (level + 1))
                    (readableWithin n) (normalised maxLayers (level + 1)) elems e1)
          as (cs & e2 & Hcs & Hc2 & Hfine & _).
        { intros x e2 _ Hce Hx. specialize (IH x (level + 1) e2 Hn). rewrite Hx in IH.
          destruct IH as (m & e3 & Hm & Hc3 & Hnm). exists m, e3.
          repeat split; [exact Hm | | exact Hnm]. congruence. }
        { exact Hall. }
        exists cs, e2. repeat split; [exact Hcs | congruence | exact Hfine].
      * apply normalizeFields_throw; [exact Hlt | now rewrite Hch |].
        intros e1 He1.
        destruct (mapM_some (fun child => normalizeItem child (level + 1))
                    (readableWithin n) readError elems e1)
          as (err & e2 & Hthrow & Hc2 & Herr).
        { intros x e2 _ Hce Hx. specialize (IH x (level + 1) e2 Hn). rewrite Hx in IH.
          destruct IH as (m & e3 & Hm & Hc3 & _). exists m, e3. split; [exact Hm | congruence]. }
        { intros x e2 _ Hce Hx. specialize (IH x (level + 1) e2 Hn). rewrite Hx in IH.
          destruct IH as (err & e3 & Hm & Hc3 & Herr). exists err, e3.
          repeat split; [exact Hm | congruence | exact Herr]. }
        { exact Hall. }
        exists err, e2. repeat split; [exact Hthrow | congruence | exact Herr].
Qed.

(** [normalizeData] on an array, by what can be read of its elements. *)
Lemma normalizeData_outcome elems e :
  if forallb (readableWithin (levelsBelow maxLayers 1)) elems
  then exists out e',
         normalizeData (Arr elems) e = (Ok out, e') /\ console e' = console e /\
         forallb (normalised maxLayers 1) out = true /\ length out = length elems
  else exists err e',
         normalizeData (Arr elems) e = (Throw err, e') /\ console e' = console e /\
         readError err.
Proof.
  destruct (forallb (readableWithin (levelsBelow maxLayers 1)) elems) eqn:Hall; simpl.
  - apply (mapM_all _ (readableWithin (levelsBelow maxLayers 1))); [| exact Hall].
    intros x e1 _ Hc Hx.
    pose proof (normalizeItem_outcome _ x 1 e1 eq_refl) as H. rewrite Hx in H.
    destruct H as (m & e2 & Hm & Hc2 & Hn). exists m, e2.
    repeat split; [exact Hm | congruence | exact Hn].
  - apply (mapM_some _ (readableWithin (levelsBelow maxLayers 1))); [| | exact Hall].
    + intros x e1 _ Hc Hx.
      pose proof (normalizeItem_outcome _ x 1 e1 eq_refl) as H. rewrite Hx in H.
      destruct H as (m & e2 & Hm & Hc2 & _). exists m, e2. split; [exact Hm | congruence].
    + intros x e1 _ Hc Hx.
      pose proof (normalizeItem_outcome _ x 1 e1 eq_refl) as H. rewrite Hx in H.
      destruct H as (err & e2 & Hm & Hc2 & Herr). exists err, e2.
      repeat split; [exact Hm | congruence | exact Herr].
Qed.

(** X6. Whatever [normalizeData] returns is in normal form at every layer
    limit: an item at depth [d] (the roots at depth 1) carries [level = d];
    its [id], [title] and [url] are truthy; [openInNewTab] is truthy or
    [false], [icon] truthy or [null], [cssClass] truthy or empty; and no
    item at or beyond the layer limit has children. An array gives one
    root per element and leaves the console as it is. *)
Theorem normalized_items_shape data e out e' :
  normalizeData data e = (Ok out, e') ->
  forallb (normalised maxLayers 1) out = true /\
  (forall elems, data = Arr elems ->
                 length out = length elems /\ console e' = console e).
Proof.
  intros H. destruct data as [| |b|k|s|elems|fields|f];
    try (injection H as <- _; split; [reflexivity | discriminate]).
  pose proof (normalizeData_outcome elems e) as Hout.
  destruct (forallb _ elems).
  - destruct Hout as (out' & e1 & Hrun & Hc & Hn & Hlen).
    rewrite Hrun in H. injection H as <- <-.
    split; [exact Hn |]. intros elems' [= <-]. auto.
  - destruct Hout as (err & e1 & Hrun & _). rewrite Hrun in H. discriminate.
Qed.

(** X7. [normalizeData] returns for an array exactly when every record
    that it reads is an object or a primitive value: the elements of the
    array and, as far down as the layer limit lets it descend, the
    elements of their [children] arrays. When one of them is [null] or
    [undefined] it throws the TypeError of reading a property of that
    value, and nothing else is ever thrown. What lies below the layer
    limit is not read and cannot make it fail. *)
Theorem normalize_succeeds_iff elems e :
  ((exists out e', normalizeData (Arr elems) e = (Ok out, e')) <->
   forallb (readableWithin (levelsBelow maxLayers 1)) elems = true) /\
  (forall err e',
      normalizeData (Arr elems) e = (Throw err, e') ->
      (err = TypeError "Cannot read properties of undefined" \/
       err = TypeError "Cannot read properties of null") /\
      console e' = console e).
Proof.
  pose proof (normalizeData_outcome elems e) as Hout.
  destruct (forallb _ elems).
  - destruct Hout as (out & e1 & Hrun & _). split.
    + split; [reflexivity | intros _; eauto].
    + intros err e' H. rewrite Hrun in H. discriminate.
  - destruct Hout as (err & e1 & Hrun & Hc & Herr). split.
    + split; [| discriminate]. intros (out & e' & H). rewrite Hrun in H. discriminate.
    + intros err' e' H. rewrite Hrun in H. injection H as <- <-. split; assumption.
Qed.

(** *** Normalising what is normalised *)

Lemma mapM_fixed (f : value -> M MenuItem) (l : list MenuItem) e :
  Forall (fun c => forall e1, f (toValue c) e1 = (Ok c, e1)) l ->
  mapM f (map toValue l) e = (Ok l, e).
Proof.
  induction 1 as [|c l Hc _ IH]; simpl; [reflexivity |].
  unfold bind at 1. rewrite Hc. unfold bind at 1. now rewrite IH.
Qed.

Lemma fields_fixed t u o ic cs :
  truthy t = true -> truthy u = true ->
  truthy o || match o with Bool false => true | _ => false end = true ->
  truthy ic || match ic with Null => true | _ => false end = true ->
  truthy cs || match cs with Str "" => true | _ => false end = true ->
  or (or (or t Undefined) Undefined) (Str "Untitled") = t /\
  or (or (or u Undefined) Undefined) (Str "#") = u /\
  or (or o (Bool (strictEqStr Undefined "_blank"))) (Bool false) = o /\
  or ic Null = ic /\
  or (or cs Undefined) (Str "") = cs.
Proof.
  intros Ht Hu Ho Hic Hcs. repeat split.
  - repeat rewrite (or_truthy t) by exact Ht. reflexivity.
  - repeat rewrite (or_truthy u) by exact Hu. reflexivity.
  - destruct (truthy o) eqn:Hto.
    + repeat rewrite (or_truthy o) by exact Hto. reflexivity.
    + destruct o as [| |[|]| | | | |]; try discriminate. reflexivity.
  - destruct (truthy ic) eqn:Htic.
    + now rewrite (or_truthy ic) by exact Htic.
    + destruct ic; try discriminate. reflexivity.
  - destruct (truthy cs) eqn:Htcs.
    + repeat rewrite (or_truthy cs) by exact Htcs. reflexivity.
    + destruct cs as [| | | |[|]| | |]; try discriminate. reflexivity.
Qed.

Lemma normalizeItem_fixed n : forall m d e,
  levelsBelow maxLayers d = n ->
  normalised maxLayers d m = true ->
  normalizeItem (toValue m) d e = (Ok m, e).
Proof.
  induction n as [|n IH]; intros [i t u o ic cs lv ch] d e Hn Hm;
    simpl in Hm; repeat (apply andb_prop in Hm as [Hm ?]);
    apply Z.eqb_eq in Hm; subst lv;
    unfold toValue; fold toValue; unfold obj;
    unfold DataRetrieval.normalizeItem; fold DataRetrieval.normalizeItem;
    unfold DataRetrieval.normalizeFields, bind;
    cbn [own String.eqb Ascii.eqb Bool.eqb id title url openInNewTab icon cssClass level
         children].
  - apply levelsBelow_zero in Hn.
    replace (d <? maxLayers) with false in * by (symmetry; apply Z.ltb_ge; lia).
    destruct ch; [| discriminate].
    match goal with H : truthy i = true |- _ => rewrite H end. unfold ret. cbn [andb].
    destruct (fields_fixed t u o ic cs) as (-> & -> & -> & -> & ->); auto.
  - apply levelsBelow_succ in Hn as [Hlt Hn].
    replace (d <? maxLayers) with true in * by (symmetry; apply Z.ltb_lt; lia).
    match goal with H : truthy i = true |- _ => rewrite H end. unfold ret. cbn [andb truthy isArray].
    rewrite mapM_fixed.
    2: { rewrite Forall_forall. intros c Hc e1. apply IH; [exact Hn |].
         match goal with H : forallb _ ch = true |- _ => rewrite forallb_forall in H; apply H end.
         now apply list_elem_of_In. }
    destruct (fields_fixed t u o ic cs) as (-> & -> & -> & -> & ->); auto.
Qed.

(** X8. Normalisation is idempotent: the items that [normalizeData]
    returns, handed to it again as data (under the same layer limit), come
    back as they are, without an exception, without a generated id and
    without console output. *)
Theorem normalize_idempotent data e out e1 :
  normalizeData data e = (Ok out, e1) ->
  forall e2, normalizeData (Arr (map toValue out)) e2 = (Ok out, e2).
Proof.
  intros H e2.
  assert (Hn : forallb (normalised maxLayers 1) out = true).
  { destruct data as [| |b|k|s|elems|fields|f]; try (injection H as <- _; reflexivity).
    pose proof (normalizeData_outcome elems e) as Hout.
    destruct (forallb _ elems).
    - destruct Hout as (out' & e' & Hrun & _ & Hn & _). rewrite Hrun in H.
      now injection H as <- _.
    - destruct Hout as (err & e' & Hrun & _). rewrite Hrun in H. discriminate. }
  simpl. apply mapM_fixed. rewrite Forall_forall. intros c Hc e3.
  apply (normalizeItem_fixed (levelsBelow maxLayers 1)); [reflexivity |].
  rewrite forallb_forall in Hn. apply Hn. now apply list_elem_of_In.
Qed.

End NormalizeMore.

(** X6 on the sample collection, with two layers. *)
Lemma normalized_items_shape_witness :
  exists out e',
    DataRetrieval.normalizeData Sample.noRandom 2 (Js.Arr Sample.threeLevels) Sample.freshEnv
    = (Js.Ok out, e') /\
    forallb (Normal.normalised 2 1) out = true /\ length out = 2%nat.
Proof.
  eexists _, _. split; [vm_compute; reflexivity |].
  match goal with
  | |- forallb _ ?out = true /\ _ =>
      pose proof (normalized_items_shape Sample.noRandom 2 (Js.Arr Sample.threeLevels)
                    Sample.freshEnv out _ eq_refl) as [H1 H2]
  end.
  split; [exact H1 |]. now destruct (H2 _ eq_refl).
Defined.

(** X7 on the sample collection: with two layers the [null] at depth 3 is
    not read, with three layers it is. *)
Lemma normalize_succeeds_iff_witness :
  (exists out e',
      DataRetrieval.normalizeData Sample.noRandom 2 (Js.Arr Sample.threeLevels)
        Sample.freshEnv = (Js.Ok out, e')) /\
  ~ (exists out e',
      DataRetrieval.normalizeData Sample.noRandom 3 (Js.Arr Sample.threeLevels)
        Sample.freshEnv = (Js.Ok out, e')).
Proof.
  split.
  - apply (normalize_succeeds_iff Sample.noRandom 2 Sample.threeLevels Sample.freshEnv).
    vm_compute. reflexivity.
  - intros H.
    apply (normalize_succeeds_iff Sample.noRandom 3 Sample.threeLevels Sample.freshEnv) in H.
    vm_compute in H. discriminate.
Defined.

(** X8 on the sample collection, with two layers. *)
Lemma normalize_idempotent_witness :
  exists out e1,
    DataRetrieval.normalizeData Sample.noRandom 2 (Js.Arr Sample.threeLevels) Sample.freshEnv
    = (Js.Ok out, e1) /\
    DataRetrieval.normalizeData Sample.noRandom 2 (Js.Arr (map Normal.toValue out))
      Sample.freshEnv = (Js.Ok out, Sample.freshEnv).
Proof.
  eexists _, _. split; [vm_compute; reflexivity |].
  eapply (normalize_idempotent Sample.noRandom 2 (Js.Arr Sample.threeLevels) Sample.freshEnv).
  vm_compute. reflexivity.
Defined.

(** ** Reconstruction: records with repeated ids *)

Section RepeatedIds.

Import SharePointData Forest Repeated.

Local Open Scope list_scope.

Lemma firstIds_snoc items x :
  firstIds (items ++ [x])
  = if bool_decide (Id x ∈ firstIds items) then firstIds items else firstIds items ++ [Id x].
Proof.
  unfold firstIds. rewrite fmap_app, reverse_app. simpl.
  destruct (decide_rel elem_of (Id x) (reverse (Id <$> items))) as [Hin|Hnin].
  - rewrite bool_decide_eq_true_2; [reflexivity |].
    now rewrite elem_of_reverse, elem_of_remove_dups.
  - rewrite bool_decide_eq_false_2; [now rewrite reverse_cons |].
    now rewrite elem_of_reverse, elem_of_remove_dups.
Qed.

Lemma firstIds_elem items k : k ∈ firstIds items <-> k ∈ Id <$> items.
Proof. unfold firstIds. now rewrite elem_of_reverse, elem_of_remove_dups, elem_of_reverse. Qed.

Lemma firstIds_NoDup items : NoDup (firstIds items).
Proof. unfold firstIds. rewrite reverse_Permutation. apply NoDup_remove_dups. Qed.

(** The keys of [itemMap] after the first loop. *)
Lemma buildMap_keys items : keys (buildMap items) = firstIds items.
Proof.
  induction items as [|x items IH] using rev_ind; [reflexivity |].
  rewrite buildMap_snoc, firstIds_snoc. simpl. rewrite IH.
  destruct (has (buildMap items) (Id x)) eqn:Hh.
  - rewrite bool_decide_eq_true_2; [reflexivity |].
    rewrite <- IH. apply (ix_dom _ (indexed_buildMap items)), has_true, Hh.
  - rewrite bool_decide_eq_false_2; [reflexivity |].
    rewrite <- IH. intros Hin.
    apply (ix_dom _ (indexed_buildMap items)), has_true in Hin. congruence.
Qed.

Lemma lastWith_snoc items x k :
  lastWith (items ++ [x]) k = if bool_decide (Id x = k) then Some x else lastWith items k.
Proof.
  unfold lastWith. rewrite filter_app, filter_cons, filter_nil.
  destruct (decide (Id x = k)) as [Heq|Hne].
  - rewrite bool_decide_eq_true_2 by exact Heq. apply last_snoc.
  - rewrite bool_decide_eq_false_2 by exact Hne. now rewrite app_nil_r.
Qed.

(** The entries of [itemMap] after the first loop. *)
Lemma buildMap_objs items k : objs (buildMap items) !! k = newObj <$> lastWith items k.
Proof.
  induction items as [|x items IH] using rev_ind; [apply lookup_empty |].
  rewrite buildMap_snoc, lastWith_snoc. simpl.
  destruct (decide (Id x = k)) as [<-|Hne].
  - rewrite bool_decide_eq_true_2 by reflexivity. apply lookup_insert_eq.
  - rewrite bool_decide_eq_false_2 by exact Hne. now rewrite lookup_insert_ne.
Qed.

Lemma lastWith_Some items k x : lastWith items k = Some x -> x ∈ items /\ Id x = k.
Proof.
  unfold lastWith. intros (l & Hl)%last_Some.
  assert (Hx : x ∈ filter (fun y => Id y = k) items)
    by (rewrite Hl, elem_of_app, list_elem_of_singleton; now right).
  apply list_elem_of_filter in Hx. tauto.
Qed.

Lemma lastWith_None items k : lastWith items k = None <-> k ∉ Id <$> items.
Proof.
  unfold lastWith. rewrite last_None. split.
  - intros Hnil (x & -> & Hx)%list_elem_of_fmap.
    assert (Hin : x ∈ filter (fun y => Id y = Id x) items)
      by now apply list_elem_of_filter.
    rewrite Hnil in Hin. now apply elem_of_nil in Hin.
  - intros Hk. destruct (filter _ items) as [|x l] eqn:Hf; [reflexivity |].
    exfalso. apply Hk.
    assert (Hin : x ∈ filter (fun y => Id y = k) items) by (rewrite Hf; now left).
    apply list_elem_of_filter in Hin as [<- Hin]. now apply list_elem_of_fmap_2.
Qed.

(** The ids along a list of keys that all occur. *)
Lemma effective_ids items (ks : list Z) :
  (forall k, k ∈ ks -> k ∈ Id <$> items) ->
  Id <$> omap (lastWith items) ks = ks.
Proof.
  induction ks as [|k ks IH]; intros Hks; [reflexivity |]. simpl.
  destruct (lastWith items k) as [x|] eqn:Hl.
  - apply lastWith_Some in Hl as [_ <-]. simpl. f_equal.
    apply IH. intros k' Hk'. apply Hks. now right.
  - apply lastWith_None in Hl. exfalso. apply Hl, Hks. now left.
Qed.

Lemma effective_firstIds items : Id <$> effective items = firstIds items.
Proof. apply effective_ids. intros k. apply firstIds_elem. Qed.

Lemma effective_elem items x : x ∈ effective items <-> lastWith items (Id x) = Some x.
Proof.
  unfold effective. rewrite list_elem_of_omap. split.
  - intros (k & _ & Hk). destruct (lastWith_Some _ _ _ Hk) as [_ <-]. exact Hk.
  - intros Hx. exists (Id x). split; [| exact Hx].
    apply firstIds_elem. apply lastWith_Some in Hx as [Hx _]. now apply list_elem_of_fmap_2.
Qed.

Lemma buildMap_effective items : buildMap (effective items) = buildMap items.
Proof.
  assert (Hnd : NoDup (Id <$> effective items))
    by (rewrite effective_firstIds; apply firstIds_NoDup).
  destruct (buildMap_distinct (effective items) Hnd) as [Hk Ho].
  destruct (buildMap (effective items)) as [ks os] eqn:He.
  destruct (buildMap items) as [ks' os'] eqn:Hi.
  simpl in Hk, Ho. f_equal.
  - rewrite Hk, effective_firstIds, <- buildMap_keys. now rewrite Hi.
  - apply map_eq. intros k.
    change os' with (objs {| keys := ks'; objs := os' |}). rewrite <- Hi, buildMap_objs.
    destruct (lastWith items k) as [x|] eqn:Hl; simpl.
    + destruct (lastWith_Some _ _ _ Hl) as [_ <-]. apply Ho. now apply effective_elem.
    + destruct (os !! k) as [o|] eqn:Hos; [| reflexivity]. exfalso.
      apply lastWith_None in Hl. apply Hl. rewrite <- firstIds_elem, <- effective_firstIds, <- Hk.
      change ks with (keys {| keys := ks; objs := os |}). rewrite <- He.
      apply (ix_dom _ (indexed_buildMap (effective items))). rewrite He. simpl. eauto.
Qed.

Lemma omap_fixed (f : Z -> option SPItem) (l : list SPItem) :
  (forall x, x ∈ l -> f (Id x) = Some x) -> omap f (Id <$> l) = l.
Proof.
  induction l as [|x l IH]; intros Hf; [reflexivity |]. simpl.
  rewrite (Hf x) by now left. f_equal. apply IH. intros y Hy. apply Hf. now right.
Qed.

Lemma remove_dups_NoDup (l : list Z) : NoDup l -> remove_dups l = l.
Proof.
  induction 1 as [|x l Hx _ IH]; [reflexivity |]. simpl.
  destruct (decide_rel elem_of x l); [contradiction | now rewrite IH].
Qed.

(** X9. Records that repeat an id count once: the reconstruction of any
    list of records is that of the list which holds, for each id, only the
    last record with that id, at the place of the first record with that
    id. That list has every id of the input exactly once, and it is the
    input itself when no id is repeated. *)
Theorem repeated_ids_last_wins items :
  NoDup (Id <$> effective items) /\
  (forall k, k ∈ Id <$> effective items <-> k ∈ Id <$> items) /\
  (forall x, x ∈ effective items <->
             exists before after,
               items = before ++ x :: after /\ Id x ∉ Id <$> after) /\
  (forall fuel,
      transformSharePointData fuel items
      = transformSharePointData fuel (effective items)) /\
  (NoDup (Id <$> items) -> effective items = items).
Proof.
  split; [rewrite effective_firstIds; apply firstIds_NoDup |].
  split; [intros k; rewrite effective_firstIds; apply firstIds_elem |].
  split; [| split].
  - intros x. rewrite effective_elem. unfold lastWith. rewrite last_Some. split.
    + intros (l & Hl).
      assert (Hx : x ∈ filter (fun y => Id y = Id x) items)
        by (rewrite Hl, elem_of_app, list_elem_of_singleton; now right).
      apply list_elem_of_filter in Hx as [_ Hx].
      revert l Hl. induction items as [|y rest IH]; intros l Hl;
        [now apply elem_of_nil in Hx |].
      rewrite filter_cons in Hl. destruct (decide (Id y = Id x)) as [Hy|Hy].
      * destruct (filter (fun y0 => Id y0 = Id x) rest) as [|z zs] eqn:Hf.
        -- destruct l as [|? [|? ?]]; try discriminate. injection Hl as ->.
           exists [], rest. split; [reflexivity |].
           intros (z & Hz & Hin)%list_elem_of_fmap.
           assert (Hzin : z ∈ filter (fun y0 => Id y0 = Id x) rest)
             by (apply list_elem_of_filter; split; [congruence | exact Hin]).
           rewrite Hf in Hzin. now apply elem_of_nil in Hzin.
        -- destruct l as [|y' l']; [destruct zs; discriminate |].
           injection Hl as _ Hl.
           destruct IH with (l := l') as (b & a & Hba & Ha).
           ++ assert (Hxin : x ∈ z :: zs)
                by (rewrite Hl, elem_of_app, list_elem_of_singleton; now right).
              rewrite <- Hf in Hxin. now apply list_elem_of_filter in Hxin as [_ ?].
           ++ exact Hl.
           ++ exists (y :: b), a. now rewrite Hba.
      * apply elem_of_cons in Hx as [->|Hx]; [contradiction |].
        destruct (IH Hx l Hl) as (b & a & Hba & Ha).
        exists (y :: b), a. now rewrite Hba.
    + intros (b & a & -> & Ha). rewrite filter_app, filter_cons.
      rewrite decide_True by reflexivity.
      assert (Hnil : filter (fun y => Id y = Id x) a = []).
      { destruct (filter _ a) as [|z zs] eqn:Hf; [reflexivity |]. exfalso. apply Ha.
        assert (Hz : z ∈ filter (fun y => Id y = Id x) a) by (rewrite Hf; now left).
        apply list_elem_of_filter in Hz as [<- Hz]. now apply list_elem_of_fmap_2. }
      rewrite Hnil. eauto.
  - intros fuel. unfold transformSharePointData. now rewrite buildMap_effective.
  - intros Hnd. unfold effective, firstIds.
    rewrite remove_dups_NoDup by (rewrite reverse_Permutation; exact Hnd).
    rewrite reverse_involutive. apply omap_fixed. intros x Hx.
    unfold lastWith.
    assert (Hf : filter (fun y => Id y = Id x) items = [x]).
    { clear -Hnd Hx. induction items as [|y rest IH]; [now apply elem_of_nil in Hx |].
      simpl in Hnd. apply NoDup_cons in Hnd as [Hy Hrest]. rewrite filter_cons.
      apply elem_of_cons in Hx as [->|Hx].
      - rewrite decide_True by reflexivity. f_equal.
        destruct (filter _ rest) as [|z zs] eqn:Hf; [reflexivity |]. exfalso. apply Hy.
        assert (Hz : z ∈ filter (fun y0 => Id y0 = Id y) rest) by (rewrite Hf; now left).
        apply list_elem_of_filter in Hz as [<- Hz]. now apply list_elem_of_fmap_2.
      - rewrite decide_False; [now apply IH |].
        intros Heq. apply Hy. rewrite Heq. now apply list_elem_of_fmap_2. }
    now rewrite Hf.
Qed.

End RepeatedIds.

(** X9 on two records with the same id: the tree is that of the second
    record alone. *)
Lemma repeated_ids_last_wins_witness :
  Repeated.effective SampleList.sameId
  = [ {| SharePointData.Id := 1; SharePointData.Title := "second";
         SharePointData.Url := None; SharePointData.ParentId := None;
         SharePointData.Order := Some 2; SharePointData.OpenInNewTab := None |} ] /\
  SharePointData.transformSharePointData 3 SampleList.sameId
  = SharePointData.transformSharePointData 3 (Repeated.effective SampleList.sameId) /\
  Repeated.effective SampleList.threeRecords = SampleList.threeRecords.
Proof.
  split; [vm_compute; reflexivity |]. split.
  - apply (repeated_ids_last_wins SampleList.sameId).
  - apply (repeated_ids_last_wins SampleList.threeRecords).
    vm_compute. repeat constructor; rewrite ?elem_of_cons, ?elem_of_nil; intuition discriminate.
Defined.

(** ** The controller: data loads *)

Section EngineLoads.

Import Js MenuEngine Loads.

Variable random_suffix : nat -> string.

(** X10. With a configuration that has passed [validateConfig], the
    switch of [getData()] never reaches its default branch (unknown data
    source type). A static source is read without [fetch]; the three other
    sources either call [fetch] or fail, before any network call, with one
    of three messages: a missing URL of a JSON or API source, or an
    incomplete SharePoint configuration. *)
Theorem source_type_known c :
  MenuConfig.validateConfig c = Ok tt ->
  (forall msg, (startSource c).1 = Rejected msg ->
     msg = "JSON data source requires a URL" \/
     msg = "API data source requires a URL" \/
     msg = "SharePoint configuration is incomplete") /\
  ((startSource c).2 = true <-> (startSource c).1 = Network) /\
  (MenuConfig.type (MenuConfig.dataSource c) = "static" <->
   startSource c = (StaticData, false)).
Proof.
  intros Hv. apply validateConfig_ok in Hv as (_ & _ & Ht & _).
  unfold MenuConfig.validDataTypes in Ht. unfold startSource.
  rewrite !elem_of_cons, elem_of_nil in Ht.
  destruct Ht as [-> | [-> | [-> | [-> | []]]]]; simpl.
  - split; [discriminate |]. split; [split; discriminate | split; reflexivity].
  - destruct (String.eqb _ ""); simpl.
    + split; [intros msg [= <-]; now left |].
      split; split; discriminate.
    + split; [discriminate |]. split; [split; reflexivity | split; discriminate].
  - destruct (negb _ || _ || _); simpl.
    + split; [intros msg [= <-]; now (right; right) |].
      split; split; discriminate.
    + split; [discriminate |]. split; [split; reflexivity | split; discriminate].
  - destruct (String.eqb _ ""); simpl.
    + split; [intros msg [= <-]; right; now left |].
      split; split; discriminate.
    + split; [discriminate |]. split; [split; reflexivity | split; discriminate].
Qed.

(** What [finishGetData] leaves when it succeeds. *)
Lemma finishGetData_ok raw st data st1 :
  finishGetData random_suffix raw st = (Ok data, st1) ->
  exists e,
    DataRetrieval.normalizeData random_suffix (MenuConfig.layers (retrieval st)) raw (env st)
    = (Ok data, e) /\
    st1 = withLoads st
            (if MenuConfig.cacheData (retrieval st)
             then DataCache.set _ (clock st) (getCacheKey (retrieval st)) (Some data) None
                    (cache st)
             else cache st)
            (loads st) (fetches st) e.
Proof.
  unfold finishGetData.
  destruct (DataRetrieval.normalizeData _ _ raw (env st)) as [[d|err] e]; [| discriminate].
  intros [= <- <-]. eauto.
Qed.

(** X11. The cache of [getData()]. Once a load has delivered data under
    [cacheData], a later [getData()] made while the clock is not past the
    clock of that delivery plus the cache's duration resolves with the
    delivered data and does not call [fetch]; one made after that starts
    the source again; and [refresh()] starts the source at any time. The
    configuration that counts is the one that [this.dataRetrieval] holds,
    which [updateConfig()] does not replace. *)
Theorem getData_cache_policy raw st data st1 st2 who :
  MenuConfig.cacheData (retrieval st) = true ->
  finishGetData random_suffix raw st = (Ok data, st1) ->
  retrieval st2 = retrieval st -> cache st2 = cache st1 ->
  (clock st2 <= clock st + DataCache.duration _ (cache st) ->
     loads (getData who st2) = (loads st2 ++ [mkLoad who (Cached data)])%list /\
     fetches (getData who st2) = fetches st2) /\
  (clock st + DataCache.duration _ (cache st) < clock st2 ->
     loads (getData who st2)
     = (loads st2 ++ [mkLoad who (startSource (retrieval st)).1])%list) /\
  loads (refresh st2) = (loads st2 ++ [mkLoad ByRefresh (startSource (retrieval st)).1])%list.
Proof.
  intros Hcd Hfin Hcfg Hcache.
  apply finishGetData_ok in Hfin as (e & _ & ->). rewrite Hcd in Hcache. simpl in Hcache.
  assert (Hl : DataCache.cache _ (cache st2) !! getCacheKey (retrieval st)
               = Some (DataCache.mkEntry _ (Some data)
                         (clock st + DataCache.duration _ (cache st)))).
  { rewrite Hcache. apply (set_lookup (V := option (list DataRetrieval.MenuItem))). }
  split; [| split].
  - intros Hle. unfold getData. rewrite Hcfg, Hcd. unfold DataCache.get. rewrite Hl. simpl.
    destruct (Z.ltb_spec (clock st + DataCache.duration _ (cache st)) (clock st2)); [lia |].
    split; reflexivity.
  - intros Hlt. unfold getData. rewrite Hcfg, Hcd. unfold DataCache.get. rewrite Hl. simpl.
    destruct (Z.ltb_spec (clock st + DataCache.duration _ (cache st)) (clock st2)); [| lia].
    destruct (startSource (retrieval st)) as [src fetched]. reflexivity.
  - unfold refresh, getData. simpl. rewrite Hcfg.
    destruct (MenuConfig.cacheData (retrieval st)); simpl;
      destruct (startSource (retrieval st)) as [src fetched]; reflexivity.
Qed.

(** X12. A load whose source fails. The error is written to the console
    and the cache, the menu data, the listeners and the rendered menu
    number stay as they are, so that the next [getData()] starts the source
    again. When [init()] awaits the load, the container shows the error
    box with the message, the loading flag is cleared and the instance
    stays as initialised as it was; when [refresh()] awaits it, the
    container and the flags are left alone: the menu of before stays. *)
Theorem load_failure st i who src resp msg :
  loads st !! i = Some (mkLoad who src) ->
  failsWith src resp = Some msg ->
  let st' := settle random_suffix i resp st in
  cache st' = cache st /\ menuData st' = menuData st /\
  listeners st' = listeners st /\ renders st' = renders st /\
  isInitialized st' = isInitialized st /\
  loads st' = delete i (loads st) /\ fetches st' = fetches st /\
  DataRetrieval.console (env st')
  = (DataRetrieval.console (env st) ++ ["Data Retrieval Error: " +:+ msg])%list /\
  match who with
  | ByInit => content st' = ErrorBox msg /\ isLoading st' = false
  | ByRefresh => content st' = content st /\ isLoading st' = isLoading st
  end.
Proof.
  intros Hld Hfail st'. subst st'. unfold settle. rewrite Hld. simpl.
  destruct src as [d| | |m]; try discriminate; destruct resp as [raw|m']; try discriminate;
    injection Hfail as ->; destruct who; simpl; repeat split; reflexivity.
Qed.

End EngineLoads.

(** X10 at the default configuration with a JSON source without URL. *)
Lemma source_type_known_witness :
  let c := MenuConfig.mergeConfig MenuConfig.DEFAULT_CONFIG
             (SampleMenu.options "hover" "json" "") in
  MenuEngine.startSource c
  = (MenuEngine.Rejected "JSON data source requires a URL", false) /\
  ((MenuEngine.startSource c).2 = true <-> (MenuEngine.startSource c).1 = MenuEngine.Network).
Proof.
  intros c. split; [reflexivity |].
  apply (source_type_known c). vm_compute. reflexivity.
Defined.

(** X11 at a JSON source: the data of the first load is served to the
    next [getData()]. *)
Lemma getData_cache_policy_witness :
  let st := SampleStates.loading in
  let out := MenuEngine.finishGetData Sample.noRandom SampleMenu.data st in
  exists data,
    out.1 = Js.Ok data /\
    MenuEngine.loads (MenuEngine.getData MenuEngine.ByInit out.2)
    = MenuEngine.loads out.2 ++ [MenuEngine.mkLoad MenuEngine.ByInit (MenuEngine.Cached data)] /\
    MenuEngine.fetches (MenuEngine.getData MenuEngine.ByInit out.2) = MenuEngine.fetches out.2.
Proof.
  intros st out.
  assert (Hok : exists data, out = (Js.Ok data, out.2)).
  { eexists. vm_compute. reflexivity. }
  destruct Hok as [data Hok]. exists data. split; [now rewrite Hok |].
  apply (getData_cache_policy Sample.noRandom SampleMenu.data st data out.2 out.2
           MenuEngine.ByInit); try reflexivity.
  - exact Hok.
  - vm_compute. discriminate.
Defined.

(** X12 at a JSON source without URL: [init()] ends with the error box. *)
Lemma load_failure_witness :
  let st := MenuEngine.settle Sample.noRandom 0 (MenuEngine.Failure "")
              SampleStates.loadingNoUrl in
  MenuEngine.content st = MenuEngine.ErrorBox "JSON data source requires a URL" /\
  MenuEngine.isLoading st = false /\ MenuEngine.isInitialized st = false.
Proof.
  intros st.
  pose proof (load_failure Sample.noRandom SampleStates.loadingNoUrl 0 MenuEngine.ByInit
                (MenuEngine.Rejected "JSON data source requires a URL")
                (MenuEngine.Failure "") "JSON data source requires a URL"
                ltac:(vm_compute; reflexivity) eq_refl)
    as (_ & _ & _ & _ & Hi & _ & _ & _ & Hc & Hl).
  split; [exact Hc |]. split; [exact Hl |]. unfold st. rewrite Hi. vm_compute. reflexivity.
Defined.

(** ** The controller: global listeners *)

Section EngineListeners.

Import MenuEngine Listeners.

Variable random_suffix : nat -> string.

Abbreviation step := (step random_suffix).
Abbreviation run := (run random_suffix).

Lemma same_refl st : same st st.
Proof. repeat split. Qed.

Lemma same_trans st1 st2 st3 : same st1 st2 -> same st2 st3 -> same st1 st3.
Proof. intros (? & ? & ?) (? & ? & ?). repeat split; congruence. Qed.

Lemma same_foldl {A} (f : State -> A -> State) l : forall st,
  (forall s x, same s (f s x)) -> same st (foldl f st l).
Proof.
  induction l as [|x l IH]; intros st Hf; simpl; [apply same_refl |].
  eapply same_trans; [apply Hf | apply IH, Hf].
Qed.

Lemma same_closeAll st : same st (closeAllSubmenus st).
Proof. repeat split. Qed.

Lemma same_getData who st : same st (getData who st).
Proof.
  unfold getData.
  destruct (if MenuConfig.cacheData _ then _ else _) as [[data|] c]; [repeat split |].
  destruct (startSource _) as [src fetched]. repeat split.
Qed.

(** [attachEventListeners()] reads the configuration, the listeners and
    the count of arrow functions, and nothing else. *)
Lemma attach_same st st' :
  config st' = config st -> listeners st' = listeners st -> arrows st' = arrows st ->
  listeners (attachEventListeners st') = listeners (attachEventListeners st) /\
  arrows (attachEventListeners st') = arrows (attachEventListeners st).
Proof.
  intros Hc Hl Ha. unfold attachEventListeners. rewrite Hc, Hl, Ha.
  destruct (MenuConfig.closeOnEscape (config st)); split; reflexivity.
Qed.

Lemma attach_renders st : renders (attachEventListeners st) = renders st.
Proof.
  unfold attachEventListeners. now destruct (MenuConfig.closeOnEscape (config st)).
Qed.

(** The continuation of a load: the listeners stay, or they are those of
    [attachEventListeners()] after a [render()] that has returned. *)
Lemma continue_listeners who outcome st st2 :
  same st st2 -> config st2 = config st ->
  let st' := match who with
             | ByInit => initContinue outcome st2
             | ByRefresh => refreshContinue outcome st2
             end in
  same st st' \/ attachedIn st st'.
Proof.
  intros (Hl & Ha & Hr) Hc. destruct outcome as [data|err].
  - set (st1 := withInstance st2 (isInitialized st2) (isLoading st2) data (openMenus st2)).
    destruct (renderThrows st1) as [e|] eqn:Hthrows.
    + left. destruct who; simpl; fold st1; rewrite Hthrows; unfold render; rewrite Hthrows.
      * destruct e; repeat split; assumption.
      * repeat split; assumption.
    + right.
      assert (H : attachedIn st (attachEventListeners (render st1))).
      { unfold render. rewrite Hthrows.
        match goal with
        | |- attachedIn st (attachEventListeners ?s) =>
            destruct (attach_same st s) as [H1 H2]; try assumption;
              pose proof (attach_renders s) as H3
        end.
        repeat split; [exact H1 | exact H2 |]. rewrite H3. simpl. now rewrite Hr. }
      destruct who; simpl; fold st1; rewrite Hthrows; [| exact H].
      destruct H as (H1 & H2 & H3). repeat split; assumption.
  - left. destruct who; simpl; repeat split; assumption.
Qed.

(** What a step does to the listeners: nothing, what [destroy()] does, or
    what [attachEventListeners()] does after a [render()]. *)
Lemma step_listeners st ev :
  same st (step st ev) \/
  same (destroy st) (step st ev) \/
  attachedIn st (step st ev).
Proof.
  destruct ev as [| |i resp| |s|s|s|ms|outside| |w| |options|a]; simpl.
  - left. unfold init. destruct (isInitialized st); [repeat split |].
    eapply same_trans; [| apply same_getData]. repeat split.
  - left. unfold refresh. eapply same_trans; [| apply same_getData]. repeat split.
  - unfold settle. destruct (loads st !! i) as [[who src]|]; [| left; apply same_refl].
    simpl.
    set (st1 := withLoads st (cache st) (delete i (loads st)) (fetches st) (env st)).
    assert (Hfin : forall raw, same st (finishGetData random_suffix raw st1).2 /\
                               config (finishGetData random_suffix raw st1).2 = config st).
    { intros raw. unfold finishGetData.
      destruct (DataRetrieval.normalizeData _ _ raw (env st1)) as [[d|err] e];
        repeat split. }
    assert (Hout : forall (out : Js.result (list DataRetrieval.MenuItem) * State),
               same st out.2 -> config out.2 = config st ->
               let st' := (let '(outcome, st2) := out in
                           match who with
                           | ByInit => initContinue outcome st2
                           | ByRefresh => refreshContinue outcome st2
                           end) in
               same st st' \/ same (destroy st) st' \/ attachedIn st st').
    { intros [outcome st2] Hs Hc. simpl in Hs, Hc.
      destruct (continue_listeners who outcome st st2 Hs Hc) as [H|H]; auto. }
    destruct src as [d| | |m].
    + apply (Hout (Js.Ok d, st1)); repeat split.
    + apply Hout; apply Hfin.
    + destruct resp as [raw|m]; apply Hout; try apply Hfin; repeat split.
    + apply Hout; repeat split.
  - right; left. apply same_refl.
  - left. destruct (_ && _); repeat split.
  - left. destruct (_ && _); repeat split.
  - left. destruct (attached st s); [| apply same_refl]. unfold onClick.
    destruct (clickToggles st); [| apply same_refl].
    destruct (bool_decide _); repeat split.
  - left. unfold elapse.
    match goal with
    | |- same st (withWindow (foldl ?f ?s0 ?l) _ _) =>
        pose proof (same_foldl f l s0) as H
    end.
    destruct H as (Hl & Ha & Hr).
    { intros s t. destruct (action t); repeat split. }
    repeat split; simpl; assumption.
  - left. unfold documentClick. apply same_foldl. intros s l.
    destruct (target l), (handler l); try apply same_refl.
    destruct (_ && _); [apply same_closeAll | apply same_refl].
  - left. unfold escapeKey. apply same_foldl. intros s l.
    destruct (target l), (handler l); try apply same_refl.
    destruct (String.eqb _ _); [apply same_closeAll | apply same_refl].
  - left. repeat split.
  - left. apply same_closeAll.
  - left. destruct (updateConfig_fields options st) as (_ & H2 & _ & _ & H5 & H6).
    repeat split; assumption.
  - left. repeat split.
Qed.

(** *** Registered listeners *)

Lemma registered_same st st' : same st st' -> registered st -> registered st'.
Proof.
  intros (Hl & Ha & Hr) [H1 H2 H3]. split; rewrite ?Hl, ?Ha, ?Hr; assumption.
Qed.

Lemma addEventListener_NoDup l ls : NoDup ls -> NoDup (addEventListener l ls).
Proof.
  intros Hnd. unfold addEventListener. destruct (decide (l ∈ ls)) as [Hin|Hnin].
  - now rewrite bool_decide_eq_true_2.
  - rewrite bool_decide_eq_false_2 by exact Hnin.
    apply NoDup_app. split; [exact Hnd |]. split; [| apply NoDup_singleton].
    intros x Hx ->%list_elem_of_singleton. contradiction.
Qed.

Lemma addEventListener_elem l ls x : x ∈ addEventListener l ls <-> x ∈ ls \/ x = l.
Proof.
  unfold addEventListener. destruct (decide (l ∈ ls)) as [Hin|Hnin].
  - rewrite bool_decide_eq_true_2 by exact Hin. split; [auto | intros [?| ->]; auto].
  - rewrite bool_decide_eq_false_2 by exact Hnin.
    now rewrite elem_of_app, list_elem_of_singleton.
Qed.

(** The listeners after [attachEventListeners()]. *)
Lemma attach_listeners st x :
  x ∈ listeners (attachEventListeners st) <->
  x ∈ listeners st \/
  (x = documentClick /\ MenuConfig.closeOnOutsideClick (config st) = true) \/
  (x = containerKeydown /\ MenuConfig.enableKeyboardNavigation (config st) = true) \/
  x = windowResize \/
  (x = escape (arrows st) /\ MenuConfig.closeOnEscape (config st) = true).
Proof.
  unfold attachEventListeners.
  destruct (MenuConfig.closeOnOutsideClick (config st)),
    (MenuConfig.enableKeyboardNavigation (config st)),
    (MenuConfig.closeOnEscape (config st)); simpl;
    rewrite ?addEventListener_elem; unfold documentClick, containerKeydown, windowResize, escape;
    intuition congruence.
Qed.

Lemma attach_arrows st :
  arrows (attachEventListeners st)
  = (if MenuConfig.closeOnEscape (config st) then S (arrows st) else arrows st).
Proof.
  unfold attachEventListeners. now destruct (MenuConfig.closeOnEscape (config st)).
Qed.

Lemma registered_attached st st' : attachedIn st st' -> registered st -> registered st'.
Proof.
  intros (Hl & Ha & Hr) [Hnd Har Hre]. split.
  - rewrite Hl. unfold attachEventListeners.
    destruct (MenuConfig.closeOnOutsideClick (config st)),
      (MenuConfig.enableKeyboardNavigation (config st)),
      (MenuConfig.closeOnEscape (config st)); simpl;
      repeat apply addEventListener_NoDup; exact Hnd.
  - intros n Hn. rewrite Hl in Hn. rewrite Ha, attach_arrows.
    apply attach_listeners in Hn.
    destruct Hn as [Hn|[[Hn _]|[[Hn _]|[Hn|[Hn Hf]]]]]; try discriminate.
    + apply Har in Hn. destruct (MenuConfig.closeOnEscape (config st)); lia.
    + injection Hn as ->. rewrite Hf. lia.
  - rewrite Ha, Hr, attach_arrows. destruct (MenuConfig.closeOnEscape (config st)); lia.
Qed.

Lemma registered_destroy st : registered st -> registered (destroy st).
Proof.
  intros [Hnd Har Hre]. split.
  - unfold destroy, removeEventListener; simpl. repeat apply NoDup_filter. exact Hnd.
  - intros n Hn. apply Har. unfold destroy, removeEventListener in Hn; simpl in Hn.
    repeat apply list_elem_of_filter in Hn as [_ Hn]. exact Hn.
  - exact Hre.
Qed.

Lemma registered_step st ev : registered st -> registered (step st ev).
Proof.
  intros Hreg. destruct (step_listeners st ev) as [H|[H|H]].
  - exact (registered_same _ _ H Hreg).
  - exact (registered_same _ _ H (registered_destroy _ Hreg)).
  - exact (registered_attached _ _ H Hreg).
Qed.

Lemma registered_run evs : forall st, registered st -> registered (run st evs).
Proof.
  induction evs as [|ev evs IH]; intros st Hreg; [exact Hreg |].
  apply IH, registered_step, Hreg.
Qed.

Lemma new_fields found options now width st :
  MenuEngine.new found options now width = Js.Ok st ->
  listeners st = [] /\ arrows st = 0%nat /\ renders st = 0%nat.
Proof.
  unfold MenuEngine.new. destruct (negb found); [discriminate |].
  destruct (MenuConfig.new options); [| discriminate]. intros [= <-]. repeat split.
Qed.

Lemma registered_new found options now width st :
  MenuEngine.new found options now width = Js.Ok st -> registered st.
Proof.
  intros (Hl & Ha & Hr)%new_fields. split; rewrite ?Hl, ?Ha, ?Hr; [constructor | | lia].
  intros ? H. now apply elem_of_nil in H.
Qed.

(** *** The configuration along a run *)

Lemma run_snoc st evs ev : run st (evs ++ [ev]) = step (run st evs) ev.
Proof. unfold MenuEngine.run. now rewrite foldl_app. Qed.

Lemma config_run evs : forall st,
  Forall (fun ev => reconfigures ev = false) evs -> config (run st evs) = config st.
Proof.
  induction evs as [|ev evs IH]; intros st Hevs; [reflexivity |].
  apply Forall_cons in Hevs as [Hev Hevs]. simpl. rewrite IH by exact Hevs.
  now apply config_step.
Qed.

Lemma config_prefix evs st k :
  Forall (fun ev => reconfigures ev = false) evs -> config (run st (take k evs)) = config st.
Proof. intros Hevs. apply config_run, Forall_take, Hevs. Qed.

(** A registered listener is one that a configuration has enabled which
    the controller held at some time. *)
Lemma enabled_reachable st0 evs :
  listeners st0 = [] ->
  forall l, l ∈ listeners (run st0 evs) ->
    exists k, (k <= length evs)%nat /\ enabled (config (run st0 (take k evs))) l.
Proof.
  intros Hnone. induction evs as [|ev evs IH] using rev_ind; intros l Hl.
  - simpl in Hl. rewrite Hnone in Hl. now apply elem_of_nil in Hl.
  - rewrite run_snoc in Hl. set (st := run st0 evs) in *.
    assert (Hold : l ∈ listeners st ->
              exists k, (k <= length (evs ++ [ev]))%nat /\
                        enabled (config (run st0 (take k (evs ++ [ev])))) l).
    { intros Hin. destruct (IH l Hin) as (k & Hk & He). exists k.
      split; [rewrite length_app; lia |]. now rewrite take_app_le by lia. }
    destruct (step_listeners st ev) as [(H & _)|[(H & _)|(H & _)]]; rewrite H in Hl.
    + now apply Hold.
    + apply Hold. unfold destroy, removeEventListener in Hl; simpl in Hl.
      repeat apply list_elem_of_filter in Hl as [_ Hl]. exact Hl.
    + apply attach_listeners in Hl.
      destruct Hl as [Hl|Hl]; [now apply Hold |].
      exists (length evs). split; [rewrite length_app; lia |].
      rewrite take_app_le, firstn_all by lia. fold st. unfold enabled.
      destruct Hl as [Hl|[Hl|[Hl|[Hl Hf]]]]; auto.
      right; right; right. eauto.
Qed.

(** X13. Whatever happens to a controller after its construction, changes
    of its configuration included, no listener is registered twice, and
    every registered listener is one that a configuration enables which
    the controller has held at some time since: the click listener of the
    document only under [closeOnOutsideClick], the keydown listener of the
    container only under [enableKeyboardNavigation], a listener for Escape
    only under [closeOnEscape], besides the resize listener of the window.
    For a controller whose configuration has not been changed, that is
    the configuration of its construction. *)
Theorem listeners_registered_once found options now width st0 evs :
  MenuEngine.new found options now width = Js.Ok st0 ->
  NoDup (listeners (run st0 evs)) /\
  (forall l, l ∈ listeners (run st0 evs) ->
     exists k, (k <= length evs)%nat /\
       let cfg := config (run st0 (take k evs)) in
       (l = documentClick /\ MenuConfig.closeOnOutsideClick cfg = true) \/
       (l = containerKeydown /\ MenuConfig.enableKeyboardNavigation cfg = true) \/
       l = windowResize \/
       (exists n, l = escape n /\ MenuConfig.closeOnEscape cfg = true)) /\
  (Forall (fun ev => reconfigures ev = false) evs ->
   forall l, l ∈ listeners (run st0 evs) ->
     (l = documentClick /\ MenuConfig.closeOnOutsideClick (config st0) = true) \/
     (l = containerKeydown /\ MenuConfig.enableKeyboardNavigation (config st0) = true) \/
     l = windowResize \/
     (exists n, l = escape n /\ MenuConfig.closeOnEscape (config st0) = true)).
Proof.
  intros Hnew. pose proof (new_fields _ _ _ _ _ Hnew) as (Hnone & _).
  split; [| split].
  - apply registered_run, (registered_new _ _ _ _ _ Hnew).
  - intros l Hl. destruct (enabled_reachable st0 evs Hnone l Hl) as (k & Hk & He).
    exists k. split; [exact Hk | exact He].
  - intros Hevs l Hl. destruct (enabled_reachable st0 evs Hnone l Hl) as (k & Hk & He).
    rewrite (config_prefix evs st0 k Hevs) in He. exact He.
Qed.

(** *** The listeners for Escape *)

Lemma escapeListeners_same st st' :
  same st st' -> SampleMenu.escapeListeners st' = SampleMenu.escapeListeners st.
Proof. intros (Hl & _). unfold SampleMenu.escapeListeners. now rewrite Hl. Qed.

Lemma filter_implied (P Q : Listener -> Prop) `{!forall l, Decision (P l)}
    `{!forall l, Decision (Q l)} (ls : list Listener) :
  (forall l, P l -> Q l) -> filter P (filter Q ls) = filter P ls.
Proof.
  intros Himp. induction ls as [|l ls IH]; [reflexivity |].
  rewrite (filter_cons Q). destruct (decide (Q l)) as [Hq|Hq].
  - rewrite !filter_cons. destruct (decide (P l)); now rewrite IH.
  - rewrite IH, filter_cons. destruct (decide (P l)) as [Hp|Hp]; [| reflexivity].
    exfalso. apply Hq, Himp, Hp.
Qed.

Lemma escapeListeners_destroy st :
  SampleMenu.escapeListeners (destroy st) = SampleMenu.escapeListeners st.
Proof.
  unfold SampleMenu.escapeListeners, destroy, removeEventListener; simpl.
  rewrite !filter_implied; [reflexivity | | |]; intros l Hl ->; discriminate.
Qed.

Lemma filter_add (P : Listener -> Prop) `{!forall l, Decision (P l)} l ls :
  ~ P l -> filter P (addEventListener l ls) = filter P ls.
Proof.
  intros Hl. unfold addEventListener. destruct (bool_decide (l ∈ ls)); [reflexivity |].
  rewrite filter_app, filter_cons, decide_False by exact Hl. apply app_nil_r.
Qed.

Lemma escapeListeners_attach st :
  registered st ->
  SampleMenu.escapeListeners (attachEventListeners st)
  = SampleMenu.escapeListeners st ++
    (if MenuConfig.closeOnEscape (config st) then [escape (arrows st)] else []).
Proof.
  intros [_ Har _]. unfold SampleMenu.escapeListeners, attachEventListeners.
  assert (H1 : forall ls, filter (fun l => SampleMenu.isEscapeArrow (handler l) = true)
                 (if MenuConfig.closeOnOutsideClick (config st)
                  then addEventListener (mkListener Document "click" HandleDocumentClick) ls
                  else ls)
               = filter (fun l => SampleMenu.isEscapeArrow (handler l) = true) ls).
  { intros ls. destruct (MenuConfig.closeOnOutsideClick (config st)); [| reflexivity].
    now apply filter_add. }
  assert (H2 : forall ls, filter (fun l => SampleMenu.isEscapeArrow (handler l) = true)
                 (if MenuConfig.enableKeyboardNavigation (config st)
                  then addEventListener (mkListener Container "keydown" HandleKeyDown) ls
                  else ls)
               = filter (fun l => SampleMenu.isEscapeArrow (handler l) = true) ls).
  { intros ls. destruct (MenuConfig.enableKeyboardNavigation (config st)); [| reflexivity].
    now apply filter_add. }
  destruct (MenuConfig.closeOnEscape (config st)) eqn:Hesc; simpl.
  - rewrite filter_add by discriminate.
    unfold addEventListener at 1.
    rewrite bool_decide_eq_false_2.
    + rewrite filter_app, H2, H1, filter_cons, decide_True by reflexivity. reflexivity.
    + intros Hin.
      assert (Hin' : escape (arrows st) ∈ listeners st).
      { destruct (MenuConfig.closeOnOutsideClick (config st)),
          (MenuConfig.enableKeyboardNavigation (config st));
          rewrite ?addEventListener_elem in Hin; unfold escape;
          intuition discriminate. }
      apply Har in Hin'. lia.
  - rewrite filter_add by discriminate. rewrite H2, H1. now rewrite app_nil_r.
Qed.

(** The listeners for Escape are the arrow functions created so far, in
    the order of their creation. *)
Lemma escape_all st ev :
  registered st ->
  SampleMenu.escapeListeners st = escape <$> seq 0 (arrows st) ->
  SampleMenu.escapeListeners (step st ev) = escape <$> seq 0 (arrows (step st ev)) /\
  (arrows st <= arrows (step st ev))%nat.
Proof.
  intros Hreg He. destruct (step_listeners st ev) as [H|[H|H]].
  - rewrite (escapeListeners_same _ _ H). destruct H as (_ & -> & _). auto.
  - rewrite (escapeListeners_same _ _ H), escapeListeners_destroy.
    destruct H as (_ & -> & _). auto.
  - destruct H as (Hl & Ha & _).
    assert (Hesc : SampleMenu.escapeListeners (step st ev)
                   = SampleMenu.escapeListeners (attachEventListeners st)).
    { unfold SampleMenu.escapeListeners. now rewrite Hl. }
    rewrite Hesc, Ha, escapeListeners_attach, attach_arrows by exact Hreg.
    destruct (MenuConfig.closeOnEscape (config st)); simpl.
    + split; [| lia].
      change (escape 0 :: list_fmap nat Listener escape (seq 1 (arrows st)))
        with (escape <$> seq 0 (S (arrows st))).
      rewrite seq_S, fmap_app, He. reflexivity.
    + split; [now rewrite app_nil_r | lia].
Qed.

Lemma escape_run evs : forall st,
  registered st ->
  SampleMenu.escapeListeners st = escape <$> seq 0 (arrows st) ->
  SampleMenu.escapeListeners (run st evs) = escape <$> seq 0 (arrows (run st evs)) /\
  (arrows st <= arrows (run st evs))%nat.
Proof.
  induction evs as [|ev evs IH]; intros st Hreg He; [auto |].
  destruct (escape_all st ev Hreg He) as [He' Hle].
  destruct (IH (step st ev) (registered_step _ _ Hreg) He') as [He'' Hle'].
  split; [exact He'' |]. simpl in *. lia.
Qed.

(** The count of the arrow functions while the configuration stays. *)
Lemma escape_count evs : forall st,
  Forall (fun ev => reconfigures ev = false) evs ->
  arrows st = (if MenuConfig.closeOnEscape (config st) then renders st else 0%nat) ->
  arrows (run st evs)
  = (if MenuConfig.closeOnEscape (config st) then renders (run st evs) else 0%nat).
Proof.
  induction evs as [|ev evs IH]; intros st Hevs Ha; [exact Ha |].
  apply Forall_cons in Hevs as [Hev Hevs]. simpl.
  rewrite <- (config_step random_suffix st ev Hev). apply IH; [exact Hevs |].
  rewrite (config_step random_suffix st ev Hev).
  destruct (step_listeners st ev) as [H|[H|H]].
  - destruct H as (_ & -> & ->). exact Ha.
  - destruct H as (_ & -> & ->). exact Ha.
  - destruct H as (_ & -> & ->). rewrite attach_arrows, Ha.
    now destruct (MenuConfig.closeOnEscape (config st)).
Qed.

(** X14. The listeners for Escape on the document are, at any time, the
    arrow functions that the calls of [attachEventListeners()] under
    [closeOnEscape] have created since the construction, in their order:
    nothing, [destroy()] included, removes one, and there is at most one
    per menu that the container has got. For a controller whose
    configuration has not been changed there is, under [closeOnEscape],
    exactly one per menu that the container has got, every completed
    [init()] and [refresh()] adding one, and without [closeOnEscape]
    there is none. *)
Theorem escape_listeners_accumulate found options now width st0 evs :
  MenuEngine.new found options now width = Js.Ok st0 ->
  SampleMenu.escapeListeners (run st0 evs)
  = escape <$> seq 0 (length (SampleMenu.escapeListeners (run st0 evs))) /\
  (length (SampleMenu.escapeListeners (run st0 evs)) <= renders (run st0 evs))%nat /\
  (forall more,
     (length (SampleMenu.escapeListeners (run st0 evs))
      <= length (SampleMenu.escapeListeners (run st0 (evs ++ more))))%nat) /\
  (Forall (fun ev => reconfigures ev = false) evs ->
   length (SampleMenu.escapeListeners (run st0 evs))
   = (if MenuConfig.closeOnEscape (config st0) then renders (run st0 evs) else 0%nat)).
Proof.
  intros Hnew. pose proof (new_fields _ _ _ _ _ Hnew) as (Hnone & Hzero & Hr0).
  pose proof (registered_new _ _ _ _ _ Hnew) as Hreg.
  assert (He0 : SampleMenu.escapeListeners st0 = escape <$> seq 0 (arrows st0)).
  { unfold SampleMenu.escapeListeners. now rewrite Hnone, Hzero. }
  destruct (escape_run evs st0 Hreg He0) as [He _].
  assert (Hlen : length (SampleMenu.escapeListeners (run st0 evs)) = arrows (run st0 evs)).
  { now rewrite He, length_fmap, length_seq. }
  split; [now rewrite Hlen |]. split; [| split].
  - rewrite Hlen. apply (reg_renders _ (registered_run evs st0 Hreg)).
  - intros more. unfold MenuEngine.run at 2. rewrite foldl_app. fold (run st0 evs).
    fold (run (run st0 evs) more).
    destruct (escape_run more (run st0 evs) (registered_run evs st0 Hreg) He) as [He' Hle].
    rewrite Hlen, He', length_fmap, length_seq. exact Hle.
  - intros Hevs. rewrite Hlen. apply escape_count; [exact Hevs |].
    rewrite Hzero, Hr0. now destruct (MenuConfig.closeOnEscape _).
Qed.

End EngineListeners.

(** ** The controller: hover timers *)

Section EngineHover.

Import MenuEngine.

Variable random_suffix : nat -> string.

Abbreviation step := (step random_suffix).
Abbreviation run := (run random_suffix).

Lemma clearTimeout_nil h : clearTimeout h [] = [].
Proof. now destruct h. Qed.

(** The clock advances and no timer is due. *)
Lemma elapse_pending ms st :
  Forall (fun t => clock st + Z.max 0 ms < due t) (timers st) ->
  elapse ms st
  = withWindow (withTimers st (hoverTimeout st) (closeTimeout st) (timers st) (nextHandle st))
      (clock st + Z.max 0 ms) (innerWidth st).
Proof.
  intros Hall. unfold elapse.
  assert (Hready : filter (fun t => due t <= clock st + Z.max 0 ms) (timers st) = []).
  { induction Hall as [|t ts Ht _ IH]; [reflexivity |].
    rewrite filter_cons, decide_False by lia. exact IH. }
  assert (Hlater : filter (fun t => ~ due t <= clock st + Z.max 0 ms) (timers st) = timers st).
  { clear Hready. induction Hall as [|t ts Ht _ IH]; [reflexivity |].
    rewrite filter_cons, decide_True by lia. now rewrite IH. }
  now rewrite Hready, Hlater.
Qed.

(** The clock advances and the one pending timer runs. *)
Lemma elapse_one ms st t :
  timers st = [t] -> due t <= clock st + Z.max 0 ms ->
  elapse ms st
  = withWindow (runAction (action t)
                  (withTimers st (hoverTimeout st) (closeTimeout st) [] (nextHandle st)))
      (clock st + Z.max 0 ms) (innerWidth st).
Proof.
  intros Ht Hdue. unfold elapse. rewrite Ht.
  rewrite !filter_cons, !filter_nil.
  rewrite decide_False by (intros H; apply H; exact Hdue).
  rewrite decide_True by exact Hdue. reflexivity.
Qed.

Lemma step_MouseEnter st s :
  attached st s = true -> MenuConfig.triggerType (captured st) = "hover" ->
  step st (MouseEnter s) = onMouseEnter s st.
Proof. intros Ha Hh. simpl. now rewrite Ha, Hh. Qed.

Lemma step_MouseLeave st s :
  attached st s = true -> MenuConfig.triggerType (captured st) = "hover" ->
  step st (MouseLeave s) = onMouseLeave s st.
Proof. intros Ha Hh. simpl. now rewrite Ha, Hh. Qed.

Lemma step_Elapse st ms : step st (Elapse ms) = elapse ms st.
Proof. reflexivity. Qed.

(** The pointer listeners when no timer is pending. *)
Lemma onMouseEnter_idle st s :
  timers st = [] -> 0 <= MenuConfig.hoverDelay (captured st) ->
  onMouseEnter s st
  = withTimers st (Some (nextHandle st)) (closeTimeout st)
      [mkTimer (nextHandle st) (clock st + MenuConfig.hoverDelay (captured st)) (OpenSubmenu s)]
      (S (nextHandle st)).
Proof.
  intros Ht Hd. unfold onMouseEnter. rewrite Ht, clearTimeout_nil. simpl.
  now rewrite Z.max_r by lia.
Qed.

Lemma onMouseLeave_idle st s :
  timers st = [] -> 0 <= MenuConfig.closeDelay (captured st) ->
  onMouseLeave s st
  = withTimers st (hoverTimeout st) (Some (nextHandle st))
      [mkTimer (nextHandle st) (clock st + MenuConfig.closeDelay (captured st)) (CloseSubmenu s)]
      (S (nextHandle st)).
Proof.
  intros Ht Hd. unfold onMouseLeave. rewrite Ht, clearTimeout_nil. simpl.
  now rewrite Z.max_r by lia.
Qed.

(** X15. The hover delay. In a menu that was rendered in hover mode, with
    no timer pending, a [mouseenter] on an item with a submenu opens that
    submenu once the hover delay has passed, and not before: until then it
    only leaves the one timer pending. The trigger type and the delay are
    those that the configuration had when the menu was rendered. *)
Theorem hover_opens_after_delay st s ms :
  timers st = [] -> attached st s = true ->
  MenuConfig.triggerType (captured st) = "hover" ->
  0 <= MenuConfig.hoverDelay (captured st) -> 0 <= ms ->
  let st' := run st [MouseEnter s; Elapse ms] in
  (MenuConfig.hoverDelay (captured st) <= ms ->
     expanded st' = {[s]} ∪ expanded st /\ visible st' = {[s]} ∪ visible st /\
     openMenus st' = {[s]} ∪ openMenus st /\ timers st' = []) /\
  (ms < MenuConfig.hoverDelay (captured st) ->
     expanded st' = expanded st /\ visible st' = visible st /\
     openMenus st' = openMenus st /\
     timers st' = [mkTimer (nextHandle st)
                     (clock st + MenuConfig.hoverDelay (captured st)) (OpenSubmenu s)]).
Proof.
  intros Ht Hatt Hhover Hdelay Hms st'. subst st'.
  unfold MenuEngine.run. cbn [foldl].
  rewrite step_MouseEnter, step_Elapse, onMouseEnter_idle by assumption.
  split; intros Hcmp.
  - erewrite elapse_one; [| reflexivity | simpl; lia]. simpl. auto.
  - rewrite elapse_pending; [simpl; auto |].
    simpl. repeat constructor. simpl. lia.
Qed.

(** X16. The close delay, and what cancels it. In a menu that was
    rendered in hover mode, with no timer pending, a [mouseleave] on the
    item of an open submenu closes that submenu once the close delay has
    passed. A [mouseenter] on any item with a submenu, the same or
    another, that comes before the close delay has passed cancels the
    close: the submenu stays open however long the pointer then rests,
    with no timer left that would close it, and the submenu of the entered
    item opens after the hover delay as well. The trigger type and the
    delays are those that the configuration had when the menu was
    rendered. *)
Theorem hover_close_cancelled st a b d1 d2 :
  timers st = [] -> attached st a = true -> attached st b = true ->
  MenuConfig.triggerType (captured st) = "hover" ->
  0 <= MenuConfig.hoverDelay (captured st) ->
  0 <= d1 < MenuConfig.closeDelay (captured st) -> 0 <= d2 ->
  a ∈ expanded st ->
  (forall d, MenuConfig.closeDelay (captured st) <= d ->
     expanded (run st [MouseLeave a; Elapse d]) = expanded st ∖ {[a]} /\
     timers (run st [MouseLeave a; Elapse d]) = []) /\
  (let st' := run st [MouseLeave a; Elapse d1; MouseEnter b; Elapse d2] in
   a ∈ expanded st' /\
   Forall (fun t => action t = OpenSubmenu b) (timers st') /\
   (MenuConfig.hoverDelay (captured st) <= d2 ->
      expanded st' = {[b]} ∪ expanded st /\ timers st' = [])).
Proof.
  intros Ht Ha Hb Hhover Hdelay Hd1 Hd2 Hopen.
  unfold MenuEngine.run. cbn [foldl].
  rewrite !step_Elapse, step_MouseLeave, onMouseLeave_idle by (assumption || lia).
  split.
  - intros d Hd. rewrite ?step_Elapse.
    erewrite elapse_one; [| reflexivity | simpl; lia]. simpl. auto.
  - rewrite (elapse_pending d1) by (repeat constructor; cbn [due clock withTimers]; lia).
    rewrite step_MouseEnter by assumption.
    unfold onMouseEnter. cbn [closeTimeout timers withTimers withWindow clearTimeout].
    rewrite filter_cons, decide_False, filter_nil by (simpl; congruence).
    cbn [insertTimer nextHandle clock captured hoverTimeout withTimers withWindow].
    rewrite (Z.max_r 0 (MenuConfig.hoverDelay (captured st))) by lia.
    destruct (Z_le_gt_dec (MenuConfig.hoverDelay (captured st)) d2) as [Hle|Hgt].
    + erewrite elapse_one; [| reflexivity | simpl; lia]. simpl.
      split; [apply elem_of_union; now right |]. split; [constructor |]. auto.
    + rewrite elapse_pending by (simpl; repeat constructor; simpl; lia). simpl.
      split; [exact Hopen |]. split; [repeat constructor | lia].
Qed.

(** *** Clicks outside and the Escape key *)

Lemma closeAllSubmenus_idem st : closeAllSubmenus (closeAllSubmenus st) = closeAllSubmenus st.
Proof.
  unfold closeAllSubmenus, withOpen; simpl. f_equal.
  - apply set_eq. intros s. rewrite !elem_of_filter. tauto.
  - apply set_eq. intros s. rewrite !elem_of_filter. tauto.
Qed.

(** A run of listeners each of which calls [closeAllSubmenus()] or does
    nothing. *)
Lemma foldl_closeAll (hit : Listener -> bool) (ls : list Listener) st :
  foldl (fun s l => if hit l then closeAllSubmenus s else s) st ls
  = if existsb hit ls then closeAllSubmenus st else st.
Proof.
  revert st. induction ls as [|l ls IH]; intros st; [reflexivity |]. simpl.
  rewrite IH. destruct (hit l); simpl; [| reflexivity].
  destruct (existsb hit ls); [apply closeAllSubmenus_idem | reflexivity].
Qed.

Lemma documentClick_hit outside st :
  documentClick outside st
  = if existsb Listeners.onDocumentClick (listeners st) && outside
    then closeAllSubmenus st else st.
Proof.
  destruct outside.
  - rewrite andb_true_r, <- foldl_closeAll. unfold documentClick.
    generalize (listeners st). intros ls. revert st.
    induction ls as [|l ls IH]; intros st; [reflexivity |]. simpl. rewrite <- IH. f_equal.
    unfold Listeners.onDocumentClick. destruct (target l), (handler l); try reflexivity.
    now rewrite andb_true_r.
  - rewrite andb_false_r. unfold documentClick.
    generalize (listeners st). intros ls. revert st.
    induction ls as [|l ls IH]; intros st; [reflexivity |]. simpl. rewrite IH.
    destruct (target l), (handler l); try reflexivity. now rewrite andb_false_r.
Qed.

Lemma escapeKey_hit st :
  escapeKey st
  = if existsb Listeners.onEscape (listeners st) then closeAllSubmenus st else st.
Proof.
  rewrite <- foldl_closeAll. unfold escapeKey.
  generalize (listeners st). intros ls. revert st.
  induction ls as [|l ls IH]; intros st; [reflexivity |]. simpl. rewrite <- IH. f_equal.
  unfold Listeners.onEscape. now destruct (target l), (handler l).
Qed.

Lemma onDocumentClick_iff l :
  Listeners.onDocumentClick l = true <-> l = Listeners.documentClick.
Proof.
  unfold Listeners.onDocumentClick, Listeners.documentClick.
  destruct l as [[| |] e h]; destruct h; simpl; try (split; discriminate).
  rewrite String.eqb_eq. split; [now intros -> | now intros [= ->]].
Qed.

Lemma onEscape_iff l : Listeners.onEscape l = true <-> exists n, l = Listeners.escape n.
Proof.
  unfold Listeners.onEscape, Listeners.escape.
  destruct l as [[| |] e h]; destruct h; simpl;
    try (split; [discriminate | intros [k Hk]; discriminate]).
  rewrite String.eqb_eq. split; [intros ->; eauto | now intros [k [= -> _]]].
Qed.

(** X17. A click outside the container, when the click listener of the
    document is registered, and a press of the Escape key, when a listener
    for Escape is registered, close every submenu of the document and
    empty [openMenus]; the pending timers are left alone. A click inside
    the container changes nothing. As long as no configuration that the
    controller has held since its construction had [closeOnOutsideClick],
    no click in the document changes anything, and as long as none had
    [closeOnEscape], no press of Escape does. *)
Theorem outside_click_and_escape :
  (forall st,
      Listeners.documentClick ∈ listeners st ->
      documentClick true st = closeAllSubmenus st /\
      documentClick false st = st) /\
  (forall st n,
      Listeners.escape n ∈ listeners st -> escapeKey st = closeAllSubmenus st) /\
  (forall st s,
      openMenus (closeAllSubmenus st) = ∅ /\ timers (closeAllSubmenus st) = timers st /\
      (inContainer st s = true ->
       (s ∉ expanded (closeAllSubmenus st)) /\ (s ∉ visible (closeAllSubmenus st)))) /\
  (forall found options now width st0 evs outside,
      MenuEngine.new found options now width = Js.Ok st0 ->
      (forall k, (k <= length evs)%nat ->
         MenuConfig.closeOnOutsideClick (config (run st0 (take k evs))) = false) ->
      step (run st0 evs) (DocumentClick outside) = run st0 evs) /\
  (forall found options now width st0 evs,
      MenuEngine.new found options now width = Js.Ok st0 ->
      (forall k, (k <= length evs)%nat ->
         MenuConfig.closeOnEscape (config (run st0 (take k evs))) = false) ->
      step (run st0 evs) EscapeKey = run st0 evs).
Proof.
  split; [| split; [| split; [| split]]].
  - intros st Hin.
    assert (He : existsb Listeners.onDocumentClick (listeners st) = true).
    { apply existsb_exists. exists Listeners.documentClick.
      split; [now apply list_elem_of_In | reflexivity]. }
    rewrite !documentClick_hit, He. split; reflexivity.
  - intros st n Hin.
    assert (He : existsb Listeners.onEscape (listeners st) = true).
    { apply existsb_exists. exists (Listeners.escape n).
      split; [now apply list_elem_of_In | reflexivity]. }
    now rewrite escapeKey_hit, He.
  - intros st s. split; [reflexivity |]. split; [reflexivity |]. intros Hs. split.
    + intros [_ H]%(closeAllSubmenus_expanded random_suffix). congruence.
    + intros [_ H]%(closeAllSubmenus_visible random_suffix). congruence.
  - intros found options now width st0 evs outside Hnew Hoff. simpl.
    rewrite documentClick_hit.
    destruct (existsb _ _) eqn:He; [| reflexivity]. exfalso.
    apply existsb_exists in He as (l & Hl & Hhit).
    apply onDocumentClick_iff in Hhit. subst l. apply list_elem_of_In in Hl.
    destruct (new_fields _ _ _ _ _ Hnew) as (Hnone & _).
    destruct (enabled_reachable random_suffix st0 evs Hnone _ Hl) as (k & Hk & Hen).
    specialize (Hoff k Hk).
    destruct Hen as [[_ H]|[[H _]|[H|(n & H & _)]]]; try discriminate. congruence.
  - intros found options now width st0 evs Hnew Hoff. simpl.
    rewrite escapeKey_hit.
    destruct (existsb _ _) eqn:He; [| reflexivity]. exfalso.
    apply existsb_exists in He as (l & Hl & Hhit).
    apply onEscape_iff in Hhit as [j ->]. apply list_elem_of_In in Hl.
    destruct (new_fields _ _ _ _ _ Hnew) as (Hnone & _).
    destruct (enabled_reachable random_suffix st0 evs Hnone _ Hl) as (k & Hk & Hen).
    specialize (Hoff k Hk).
    destruct Hen as [[H _]|[[H _]|[H|(n & _ & H)]]]; try discriminate. congruence.
Qed.

End EngineHover.

(** ** The controller: the properties at sample menus *)

(** X13 at a menu that is initialised, told not to close on Escape, and
    refreshed: the listeners are pairwise distinct; and at the menu as
    initialised every listener is one that the configuration of the
    construction enables. *)
Lemma listeners_registered_once_witness :
  let st0 := SampleStates.after (SampleMenu.options "hover" "static" "") 1200 [] in
  NoDup (MenuEngine.listeners
           (MenuEngine.run Sample.noRandom st0
              (SampleMenu.initialised ++
               [MenuEngine.UpdateConfig (SampleMenu.escapeOnly false);
                MenuEngine.Refresh; MenuEngine.Settle 0 (MenuEngine.Failure "")]))) /\
  forall l, l ∈ MenuEngine.listeners (MenuEngine.run Sample.noRandom st0 SampleMenu.initialised) ->
    (l = Listeners.documentClick /\
     MenuConfig.closeOnOutsideClick (MenuEngine.config st0) = true) \/
    (l = Listeners.containerKeydown /\
     MenuConfig.enableKeyboardNavigation (MenuEngine.config st0) = true) \/
    l = Listeners.windowResize \/
    (exists n, l = Listeners.escape n /\
               MenuConfig.closeOnEscape (MenuEngine.config st0) = true).
Proof.
  intros st0. split.
  - apply (listeners_registered_once Sample.noRandom true
             (SampleMenu.options "hover" "static" "") 0 1200).
    vm_compute. reflexivity.
  - apply (listeners_registered_once Sample.noRandom true
             (SampleMenu.options "hover" "static" "") 0 1200).
    + vm_compute. reflexivity.
    + repeat constructor.
Defined.

(** X14 at a menu that is initialised, refreshed and destroyed: two
    listeners for Escape are left on the document, one per render. *)
Lemma escape_listeners_accumulate_witness :
  length (SampleMenu.escapeListeners
            (MenuEngine.run Sample.noRandom
               (SampleStates.after (SampleMenu.options "hover" "static" "") 1200 [])
               (SampleMenu.initialised ++
                [MenuEngine.Refresh; MenuEngine.Settle 0 (MenuEngine.Failure "");
                 MenuEngine.Destroy]))) = 2%nat.
Proof.
  destruct (escape_listeners_accumulate Sample.noRandom true
              (SampleMenu.options "hover" "static" "") 0 1200
              (SampleStates.after (SampleMenu.options "hover" "static" "") 1200 [])
              (SampleMenu.initialised ++
               [MenuEngine.Refresh; MenuEngine.Settle 0 (MenuEngine.Failure "");
                MenuEngine.Destroy])) as (_ & _ & _ & H).
  - vm_compute. reflexivity.
  - etransitivity; [apply H; repeat constructor | vm_compute; reflexivity].
Defined.

(** X15 at the first submenu of the sample menu, with the default hover
    delay of 150 ms. *)
Lemma hover_opens_after_delay_witness :
  let st := SampleStates.ready in
  MenuEngine.expanded
    (MenuEngine.run Sample.noRandom st
       [MenuEngine.MouseEnter SampleMenu.A; MenuEngine.Elapse 150])
  = {[SampleMenu.A]} ∪ MenuEngine.expanded st /\
  MenuEngine.expanded
    (MenuEngine.run Sample.noRandom st
       [MenuEngine.MouseEnter SampleMenu.A; MenuEngine.Elapse 149])
  = MenuEngine.expanded st.
Proof.
  intros st.
  pose proof (hover_opens_after_delay Sample.noRandom st SampleMenu.A 150
                ltac:(vm_compute; reflexivity) ltac:(vm_compute; reflexivity)
                ltac:(vm_compute; reflexivity)
                ltac:(vm_compute; discriminate) ltac:(vm_compute; discriminate)) as [H1 _].
  pose proof (hover_opens_after_delay Sample.noRandom st SampleMenu.A 149
                ltac:(vm_compute; reflexivity) ltac:(vm_compute; reflexivity)
                ltac:(vm_compute; reflexivity)
                ltac:(vm_compute; discriminate) ltac:(vm_compute; discriminate)) as [_ H2].
  split.
  - apply H1. vm_compute. discriminate.
  - apply H2. vm_compute. reflexivity.
Defined.

(** X16 at the sample menu: the submenu A is open, the pointer leaves its
    item and enters the item of B 100 ms later; A is still open a minute
    after that. *)
Lemma hover_close_cancelled_witness :
  SampleMenu.A ∈ MenuEngine.expanded
    (MenuEngine.run Sample.noRandom SampleStates.hovering
       [MenuEngine.MouseLeave SampleMenu.A; MenuEngine.Elapse 100;
        MenuEngine.MouseEnter SampleMenu.B; MenuEngine.Elapse 60000]).
Proof.
  apply (hover_close_cancelled Sample.noRandom SampleStates.hovering
           SampleMenu.A SampleMenu.B 100 60000);
    try (vm_compute; reflexivity); try (vm_compute; discriminate).
  vm_compute. split; [discriminate | reflexivity].
Defined.

(** X17 at the sample menu with the submenu A open: the click listener of
    the document is registered, and a click outside closes the submenus;
    and at a menu built without [closeOnOutsideClick], where a click
    outside leaves A open. *)
Lemma outside_click_and_escape_witness :
  let st := SampleStates.hovering in
  let quiet :=
    MenuEngine.run Sample.noRandom
      (SampleStates.after (SampleMenu.outsideOnly false) 1200 [])
      [MenuEngine.Init; MenuEngine.Settle 0 (MenuEngine.Body SampleMenu.data)] in
  MenuEngine.documentClick true st = MenuEngine.closeAllSubmenus st /\
  MenuEngine.escapeKey st = MenuEngine.closeAllSubmenus st /\
  MenuEngine.step Sample.noRandom quiet (MenuEngine.DocumentClick true) = quiet.
Proof.
  intros st quiet.
  destruct (outside_click_and_escape Sample.noRandom) as (H1 & H2 & _ & H4 & _).
  split; [| split].
  - apply H1. vm_compute. apply list_elem_of_In. simpl. tauto.
  - apply (H2 _ 0%nat). vm_compute. apply list_elem_of_In. simpl. tauto.
  - apply (H4 true (SampleMenu.outsideOnly false) 0 1200).
    + vm_compute. reflexivity.
    + intros [|[|[|k]]] Hk; [vm_compute; reflexivity .. |]. simpl in Hk. lia.
Defined.

(** ** The controller: runs with a [render()] that throws and with a
    changed configuration *)

(** [init()] with data that [render()] cannot show: the container holds
    the error box for the exception of [classList.add], no listener is
    registered, and the instance is not initialised, so that a second
    [init()] is not refused. *)
Example init_render_throws :
  let st := MenuEngine.run Sample.noRandom
              (SampleStates.after (SampleMenu.options "hover" "json" "/menu.json") 1200 [])
              [MenuEngine.Init; MenuEngine.Settle 0 (MenuEngine.Body SampleMenu.twoClasses)] in
  MenuEngine.content st = MenuEngine.ErrorBoxOf "InvalidCharacterError" /\
  MenuEngine.listeners st = [] /\ MenuEngine.renders st = 0%nat /\
  MenuEngine.isInitialized st = false /\ MenuEngine.isLoading st = false /\
  length (MenuEngine.menuData st) = 1%nat /\
  length (MenuEngine.loads (MenuEngine.init st)) = 1%nat.
Proof. vm_compute. repeat split; reflexivity. Qed.

(** [refresh()] with such data on a menu that is shown: the container is
    left empty, with the listeners of before. *)
Example refresh_render_throws :
  let st := MenuEngine.run Sample.noRandom
              (SampleStates.after (SampleMenu.options "hover" "json" "/menu.json") 1200 [])
              [MenuEngine.Init; MenuEngine.Settle 0 (MenuEngine.Body SampleMenu.data);
               MenuEngine.Refresh;
               MenuEngine.Settle 0 (MenuEngine.Body SampleMenu.twoClasses)] in
  MenuEngine.content st = MenuEngine.Blank /\ MenuEngine.renders st = 1%nat /\
  length (MenuEngine.listeners st) = 4%nat /\ MenuEngine.isInitialized st = true /\
  MenuEngine.attached st SampleMenu.A = false.
Proof. vm_compute. repeat split; reflexivity. Qed.

(** [updateConfig({triggerType: 'click'})] on a menu in hover mode: the
    listeners of the menu keep the trigger type with which it was
    rendered, and [getData()] keeps the configuration of the
    construction; the next [refresh()] renders in click mode. *)
Example updateConfig_after_render :
  let st := MenuEngine.run Sample.noRandom SampleStates.ready
              [MenuEngine.UpdateConfig (SampleMenu.triggerOnly "click")] in
  let st' := MenuEngine.run Sample.noRandom st
               [MenuEngine.Refresh; MenuEngine.Settle 0 (MenuEngine.Failure "")] in
  MenuConfig.triggerType (MenuEngine.config st) = "click" /\
  MenuConfig.triggerType (MenuEngine.captured st) = "hover" /\
  MenuConfig.triggerType (MenuEngine.retrieval st) = "hover" /\
  MenuEngine.shared st = false /\
  length (MenuEngine.timers (MenuEngine.step Sample.noRandom st
                               (MenuEngine.MouseEnter SampleMenu.A))) = 1%nat /\
  MenuConfig.triggerType (MenuEngine.captured st') = "click" /\
  MenuEngine.renders st' = 2%nat.
Proof. vm_compute. repeat split; reflexivity. Qed.

(** An [updateConfig()] that [validateConfig] refuses leaves the
    configuration as it was and a line on the console; a write to the
    configuration object is not validated, and reaches the configuration
    of [this.dataRetrieval] as long as the object is the same. *)
Example updateConfig_refused :
  let st := MenuEngine.run Sample.noRandom SampleStates.ready
              [MenuEngine.UpdateConfig (SampleMenu.triggerOnly "focus")] in
  let st' := MenuEngine.run Sample.noRandom SampleStates.ready
               [MenuEngine.Assign (MenuConfig.Layers 7)] in
  MenuEngine.config st = MenuEngine.config SampleStates.ready /\
  DataRetrieval.console (MenuEngine.env st)
  = ["Menu Configuration Errors: triggerType must be " +:+ MenuConfig.dq +:+ "hover" +:+
     MenuConfig.dq +:+ " or " +:+ MenuConfig.dq +:+ "click" +:+ MenuConfig.dq] /\
  MenuConfig.layers (MenuEngine.config st') = 7 /\
  MenuConfig.layers (MenuEngine.retrieval st') = 7.
Proof. vm_compute. repeat split; reflexivity. Qed.

(** ** Escaping the error message *)

Section HtmlFacts.

Import Stdlib.Strings.Ascii Html.

Lemma escapeChar_cases c :
  (c = "&"%char /\ escapeChar c = "&amp;") \/
  (c = "<"%char /\ escapeChar c = "&lt;") \/
  (c = ">"%char /\ escapeChar c = "&gt;") \/
  (c = nbsp /\ escapeChar c = "&nbsp;") \/
  (c <> "&"%char /\ c <> "<"%char /\ c <> ">"%char /\ c <> nbsp /\
   escapeChar c = String c "").
Proof.
  unfold escapeChar.
  destruct (Ascii.eqb_spec c "&"%char) as [->|H1]; [now left |].
  destruct (Ascii.eqb_spec c "<"%char) as [->|H2]; [right; now left |].
  destruct (Ascii.eqb_spec c ">"%char) as [->|H3]; [right; right; now left |].
  destruct (Ascii.eqb_spec c nbsp) as [->|H4]; [right; right; right; now left |].
  right; right; right; right. auto.
Qed.

Lemma occurrences_app c s1 s2 :
  occurrences c (s1 +:+ s2) = (occurrences c s1 + occurrences c s2)%nat.
Proof. induction s1 as [|c' s1 IH]; simpl; [reflexivity |]. rewrite IH. lia. Qed.

Lemma occurrences_escapeHtml c text :
  c = "<"%char \/ c = ">"%char -> occurrences c (escapeHtml text) = 0%nat.
Proof.
  intros Hc. induction text as [|c' text IH]; [reflexivity |].
  cbn [escapeHtml]. rewrite occurrences_app, IH, Nat.add_0_r.
  destruct (escapeChar_cases c') as [[-> ->]|[[-> ->]|[[-> ->]|[[-> ->]|(_ & H2 & H3 & _ & ->)]]]];
    try (destruct Hc as [-> | ->]; reflexivity).
  simpl. destruct (Ascii.eqb_spec c' c) as [->|_]; [| reflexivity].
  destruct Hc as [-> | ->]; contradiction.
Qed.

Lemma escapeHtml_injective a : forall b, escapeHtml a = escapeHtml b -> a = b.
Proof.
  induction a as [|c1 a IH]; intros [|c2 b] H; cbn [escapeHtml] in H.
  - reflexivity.
  - exfalso.
    destruct (escapeChar_cases c2) as [[_ E]|[[_ E]|[[_ E]|[[_ E]|(_ & _ & _ & _ & E)]]]];
      rewrite E in H; discriminate.
  - exfalso.
    destruct (escapeChar_cases c1) as [[_ E]|[[_ E]|[[_ E]|[[_ E]|(_ & _ & _ & _ & E)]]]];
      rewrite E in H; discriminate.
  - destruct (escapeChar_cases c1)
      as [[-> E1]|[[-> E1]|[[-> E1]|[[-> E1]|(N1 & N2 & N3 & N4 & E1)]]]];
      destruct (escapeChar_cases c2)
        as [[-> E2]|[[-> E2]|[[-> E2]|[[-> E2]|(M1 & M2 & M3 & M4 & E2)]]]];
      rewrite ?E1, ?E2 in H; simpl in H;
      try discriminate;
      try (injection H as H; f_equal; now apply IH);
      try (injection H as Hc H; congruence).
    injection H as Hc H. subst c2. f_equal. now apply IH.
Qed.

Lemma occurrences_cons_zero c c' s :
  occurrences c (String c' s) = 0%nat -> c' <> c /\ occurrences c s = 0%nat.
Proof.
  simpl. destruct (Ascii.eqb_spec c' c) as [->|Hne]; [discriminate |]. auto.
Qed.

Lemma escapeHtml_plain text :
  occurrences "&"%char text = 0%nat -> occurrences "<"%char text = 0%nat ->
  occurrences ">"%char text = 0%nat -> occurrences nbsp text = 0%nat ->
  escapeHtml text = text.
Proof.
  induction text as [|c text IH]; [reflexivity |].
  intros [N1 H1]%occurrences_cons_zero [N2 H2]%occurrences_cons_zero
         [N3 H3]%occurrences_cons_zero [N4 H4]%occurrences_cons_zero.
  cbn [escapeHtml]. rewrite IH by assumption.
  destruct (escapeChar_cases c) as [[E _]|[[E _]|[[E _]|[[E _]|(_ & _ & _ & _ & ->)]]]];
    try contradiction.
  reflexivity.
Qed.

(** X18. [escapeHtml] returns a string without the characters [<] and
    [>], whatever the text; it loses nothing (two texts with the same
    escaped form are equal) and leaves a text without [&], [<], [>] and
    no-break space as it is. So the markup that [renderError] writes has
    the same four tags for every message. *)
Theorem escapeHtml_safe :
  (forall text,
      occurrences "<"%char (escapeHtml text) = 0%nat /\
      occurrences ">"%char (escapeHtml text) = 0%nat) /\
  (forall a b, escapeHtml a = escapeHtml b <-> a = b) /\
  (forall text,
      occurrences "&"%char text = 0%nat -> occurrences "<"%char text = 0%nat ->
      occurrences ">"%char text = 0%nat -> occurrences nbsp text = 0%nat ->
      escapeHtml text = text) /\
  (forall message,
      occurrences "<"%char (Html.renderError message) = 4%nat /\
      occurrences ">"%char (Html.renderError message) = 4%nat).
Proof.
  split; [| split; [| split]].
  - intros text. split; apply occurrences_escapeHtml; auto.
  - intros a b. split; [apply escapeHtml_injective | now intros ->].
  - apply escapeHtml_plain.
  - intros message. unfold Html.renderError.
    rewrite !occurrences_app, !occurrences_escapeHtml by auto. split; reflexivity.
Qed.

End HtmlFacts.

(** ** The arrow keys *)

Section KeyboardFacts.

Import Keyboard.

Context {A : Type} `{EqDecision A}.

Implicit Types (items : list A) (current : A).

Lemma indexOf_lookup items i x :
  NoDup items -> items !! i = Some x -> indexOf items x = Z.of_nat i.
Proof.
  intros Hnd Hi. unfold indexOf.
  destruct (list_find (fun y => y = x) items) as [[j y]|] eqn:Hf.
  - apply list_find_Some in Hf as (Hj & -> & _).
    now rewrite (NoDup_lookup items i j x Hnd Hi Hj).
  - apply list_find_None in Hf. rewrite Forall_forall in Hf.
    exfalso. apply (Hf x); [| reflexivity]. eapply list_elem_of_lookup_2, Hi.
Qed.

Lemma item_mod items (k : nat) :
  (0 < length items)%nat ->
  item items (remainder (Z.of_nat k) (Z.of_nat (length items)))
  = items !! (k mod length items)%nat.
Proof.
  intros Hn. unfold remainder, item.
  destruct (Z.eqb_spec (Z.of_nat (length items)) 0) as [H0|_]; [lia |].
  rewrite Z.rem_mod_nonneg by lia. rewrite <- Nat2Z.inj_mod.
  destruct (Z.ltb_spec (Z.of_nat (k mod length items)) 0); [lia |].
  now rewrite Nat2Z.id.
Qed.

Lemma next_index items current i :
  NoDup items -> items !! i = Some current ->
  focusNextItem items current = items !! ((i + 1) mod length items)%nat.
Proof.
  intros Hnd Hi. unfold focusNextItem. rewrite (indexOf_lookup items i current Hnd Hi).
  replace (Z.of_nat i + 1) with (Z.of_nat (i + 1)) by lia.
  apply item_mod. apply lookup_lt_Some in Hi. lia.
Qed.

Lemma previous_index items current i :
  NoDup items -> items !! i = Some current ->
  focusPreviousItem items current = items !! ((i + length items - 1) mod length items)%nat.
Proof.
  intros Hnd Hi. unfold focusPreviousItem. rewrite (indexOf_lookup items i current Hnd Hi).
  pose proof (lookup_lt_Some _ _ _ Hi) as Hlt.
  replace (Z.of_nat i - 1 + Z.of_nat (length items))
    with (Z.of_nat (i + length items - 1)) by lia.
  apply item_mod. lia.
Qed.

(** X19. ArrowRight and ArrowLeft in a list of distinct focusable items,
    from an item of the list: they move the focus to the next and to the
    previous item, from the last item around to the first and from the
    first around to the last, and each undoes the other. *)
Theorem arrow_keys_cycle items current i :
  NoDup items -> items !! i = Some current ->
  focusNextItem items current = items !! ((i + 1) mod length items)%nat /\
  focusPreviousItem items current
  = items !! ((i + length items - 1) mod length items)%nat /\
  (exists next,
      focusNextItem items current = Some next /\
      focusPreviousItem items next = Some current) /\
  (exists previous,
      focusPreviousItem items current = Some previous /\
      focusNextItem items previous = Some current).
Proof.
  intros Hnd Hi. pose proof (lookup_lt_Some _ _ _ Hi) as Hlt.
  split; [now apply next_index |]. split; [now apply previous_index |]. split.
  - destruct (lookup_lt_is_Some_2 items ((i + 1) mod length items)) as [next Hnext].
    { apply Nat.mod_upper_bound. lia. }
    exists next. split; [now rewrite (next_index items current i) |].
    rewrite (previous_index items next _ Hnd Hnext), <- Hi. f_equal.
    destruct (decide (i + 1 = length items)%nat) as [Heq|Hne].
    + rewrite Heq, Nat.Div0.mod_same. simpl. rewrite Nat.mod_small by lia. lia.
    + rewrite (Nat.mod_small (i + 1)) by lia.
      replace (i + 1 + length items - 1)%nat with (i + 1 * length items)%nat by lia.
      rewrite Nat.Div0.mod_add. apply Nat.mod_small. lia.
  - destruct (lookup_lt_is_Some_2 items ((i + length items - 1) mod length items))
      as [previous Hprev].
    { apply Nat.mod_upper_bound. lia. }
    exists previous. split; [now rewrite (previous_index items current i) |].
    rewrite (next_index items previous _ Hnd Hprev), <- Hi. f_equal.
    destruct (decide (i = 0)%nat) as [->|Hne].
    + simpl. rewrite (Nat.mod_small (length items - 1)) by lia.
      replace (length items - 1 + 1)%nat with (length items) by lia.
      apply Nat.Div0.mod_same.
    + replace (i + length items - 1)%nat with (i - 1 + 1 * length items)%nat by lia.
      rewrite Nat.Div0.mod_add, (Nat.mod_small (i - 1)) by lia.
      replace (i - 1 + 1)%nat with i by lia. apply Nat.mod_small. lia.
Qed.

(** With no focusable item, as when the current element is not in a list,
    [focus()] is not called. *)
Lemma arrow_keys_no_items current :
  focusNextItem [] current = None /\ focusPreviousItem [] current = None.
Proof. split; reflexivity. Qed.

End KeyboardFacts.

(** X19 at three links, from the last. *)
Lemma arrow_keys_cycle_witness :
  Keyboard.focusNextItem ["home"; "news"; "contact"] "contact" = Some "home" /\
  Keyboard.focusPreviousItem ["home"; "news"; "contact"] "home" = Some "contact".
Proof.
  assert (Hnd : NoDup ["home"; "news"; "contact"]).
  { repeat constructor; rewrite ?elem_of_cons, ?elem_of_nil; intuition discriminate. }
  destruct (arrow_keys_cycle ["home"; "news"; "contact"] "contact" 2 Hnd eq_refl)
    as (H1 & _).
  destruct (arrow_keys_cycle ["home"; "news"; "contact"] "home" 0 Hnd eq_refl)
    as (_ & H2 & _).
  split; [rewrite H1 | rewrite H2]; reflexivity.
Defined.

(** ** What normalisation keeps *)

Section NormalizeCount.

Import Js DataRetrieval Shape Normal.

Variable random_suffix : nat -> string.
Variable maxLayers : Z.

Abbreviation normalizeFields := (normalizeFields random_suffix maxLayers).
Abbreviation normalizeItem := (normalizeItem random_suffix maxLayers).
Abbreviation normalizeData := (normalizeData random_suffix maxLayers).

(** The items and the random numbers of [map], from those of its
    callback. *)
Lemma mapM_count {A B} (f : A -> M B) (cnt dr : A -> nat) (sz : B -> nat) l :
  (forall x e y e', x ∈ l -> f x e = (Ok y, e') ->
                    sz y = cnt x /\ drawn e' = (drawn e + dr x)%nat) ->
  forall e out e', mapM f l e = (Ok out, e') ->
    sum_list (map sz out) = sum_list (map cnt l) /\
    drawn e' = (drawn e + sum_list (map dr l))%nat /\
    length out = length l.
Proof.
  induction l as [|x l IH]; intros Hf e out e' Hm; simpl in Hm.
  - injection Hm as <- <-. simpl. repeat split; lia.
  - unfold bind in Hm. destruct (f x e) as [[y|err] e1] eqn:Hx; [| discriminate].
    destruct (mapM f l e1) as [[ys|err] e2] eqn:Hl; [| discriminate].
    injection Hm as <- <-.
    destruct (Hf x e y e1 ltac:(left) Hx) as [Hs Hd].
    destruct (IH (fun x' e0 y' e0' Hin => Hf x' e0 y' e0' ltac:(now right)) e1 ys e2 Hl)
      as (Hs' & Hd' & Hlen).
    simpl. repeat split; lia.
Qed.

(** [normalizeFields], when it returns. *)
Lemma normalizeFields_count read level kids e m e' :
  normalizeFields read level kids e = (Ok m, e') ->
  exists e1,
    drawn e1 = (drawn e + if truthy (read "id") then 0 else 1)%nat /\
    if (level <? maxLayers) && truthy (read "children") && isArray (read "children")
    then kids e1 = (Ok (children m), e')
    else children m = [] /\ e' = e1.
Proof.
  unfold DataRetrieval.normalizeFields, bind.
  destruct (truthy (read "id")) eqn:Hid; cbn [ret generateId].
  - destruct ((level <? maxLayers) && truthy (read "children") && isArray (read "children")).
    + destruct (kids e) as [[cs|err] e2] eqn:Hk; [| discriminate].
      intros [= <- <-]. exists e. split; [lia | exact Hk].
    + intros [= <- <-]. exists e. split; [lia | auto].
  - destruct ((level <? maxLayers) && truthy (read "children") && isArray (read "children")).
    + destruct (kids _) as [[cs|err] e2] eqn:Hk; [| discriminate].
      intros [= <- <-]. eexists. split; [| exact Hk]. simpl. lia.
    + intros [= <- <-]. eexists. split; [| split; reflexivity]. simpl. lia.
Qed.

Lemma normalizeItem_count n : forall item level e m e',
  levelsBelow maxLayers level = n ->
  normalizeItem item level e = (Ok m, e') ->
  size m = recordsWithin n item /\ drawn e' = (drawn e + withoutId n item)%nat.
Proof.
  induction n as [|n IH]; intros item level e m e' Hn Hm.
  - apply (levelsBelow_zero maxLayers) in Hn.
    assert (Hcut : forall read kids,
               normalizeFields read level kids e = (Ok m, e') ->
               size m = 1%nat /\
               drawn e' = (drawn e + if truthy (read "id") then 0 else 1)%nat).
    { intros read kids H. apply normalizeFields_count in H as (e1 & Hd & H).
      replace (level <? maxLayers) with false in H by (symmetry; apply Z.ltb_ge; lia).
      simpl in H. destruct H as [Hc ->]. destruct m; simpl in *. subst. auto. }
    destruct item; simpl in Hm; try discriminate;
      try (apply Hcut in Hm; simpl in *; destruct Hm; split; [assumption | lia]).
  - apply (levelsBelow_succ maxLayers) in Hn as [Hlt Hn].
    assert (Hleaf : forall read kids,
               truthy (read "children") && isArray (read "children") = false ->
               normalizeFields read level kids e = (Ok m, e') ->
               size m = 1%nat /\
               drawn e' = (drawn e + if truthy (read "id") then 0 else 1)%nat).
    { intros read kids Hch H. apply normalizeFields_count in H as (e1 & Hd & H).
      rewrite <- andb_assoc, Hch, andb_false_r in H.
      destruct H as [Hc ->]. destruct m; simpl in *. subst. auto. }
    destruct item as [| |b|k|s|l|fields|f]; simpl in Hm; try discriminate;
      try (apply Hleaf in Hm; [| reflexivity]; simpl in *; destruct Hm; split;
           [assumption | lia]).
    destruct (fields "children") as [| |b|k|s|elems|g|f] eqn:Hch;
      try (apply Hleaf in Hm; [| rewrite Hch; apply andb_false_r]; simpl; rewrite Hch; simpl;
           destruct Hm; split; [assumption | lia]).
    apply normalizeFields_count in Hm as (e1 & Hd & H).
    replace (level <? maxLayers) with true in H by (symmetry; apply Z.ltb_lt; lia).
    rewrite Hch in H. simpl in H.
    destruct (mapM_count (fun child => normalizeItem child (level + 1))
                (recordsWithin n) (withoutId n) size elems
                ltac:(intros x e0 y e0' _ Hx; exact (IH x (level + 1) e0 y e0' Hn Hx))
                e1 (children m) e' H) as (Hs & Hdr & _).
    simpl. rewrite Hch. destruct m; simpl in *. split; lia.
Qed.

Lemma sum_list_le {A} (f g : A -> nat) l :
  (forall x, x ∈ l -> (f x <= g x)%nat) -> (sum_list (map f l) <= sum_list (map g l))%nat.
Proof.
  induction l as [|x l IH]; intros H; simpl; [lia |].
  pose proof (H x ltac:(left)). pose proof (IH (fun y Hy => H y ltac:(now right))). lia.
Qed.

Lemma records_unfold item : records item = S (sum_list (map records (childArray item))).
Proof.
  destruct item as [| |b|k|s|l|fields|f]; try reflexivity.
  simpl. destruct (fields "children"); reflexivity.
Qed.

Lemma recordsWithin_le n : forall item, (recordsWithin n item <= records item)%nat.
Proof.
  induction n as [|n IH]; intros item; rewrite records_unfold; simpl; [lia |].
  apply le_n_S, sum_list_le. auto.
Qed.

Lemma normalizeData_count elems e out e' :
  normalizeData (Arr elems) e = (Ok out, e') ->
  sum_list (map size out)
  = sum_list (map (recordsWithin (levelsBelow maxLayers 1)) elems) /\
  drawn e' = (drawn e + sum_list (map (withoutId (levelsBelow maxLayers 1)) elems))%nat /\
  length out = length elems.
Proof.
  intros H. unfold DataRetrieval.normalizeData in H.
  exact (mapM_count (fun item => normalizeItem item 1)
           (recordsWithin (levelsBelow maxLayers 1))
           (withoutId (levelsBelow maxLayers 1)) size elems
           ltac:(intros x e0 y e0' _ Hx;
                 exact (normalizeItem_count _ x 1 e0 y e0' eq_refl Hx))
           e out e' H).
Qed.

Lemma normalizeData_normalised elems e out e' :
  normalizeData (Arr elems) e = (Ok out, e') ->
  forallb (normalised maxLayers 1) out = true /\ console e' = console e.
Proof.
  intros H.
  pose proof (normalizeData_outcome random_suffix maxLayers elems e) as Hout.
  destruct (forallb _ elems).
  - destruct Hout as (out' & e2 & Ho & Hc & Hn & _).
    rewrite H in Ho. injection Ho as <- <-. auto.
  - destruct Hout as (err & e2 & Ho & _). rewrite H in Ho. discriminate.
Qed.

(** X20. When [normalizeData] returns for an array, it has kept every
    record down to the layer limit and dropped, without a message, every
    record below it: the items of the result, with all their descendants,
    are as many as the records of the first [layers] levels of the input,
    one top-level item for each element. It has drawn one random number
    for each kept record without a truthy [id], and none for the others. *)
Theorem normalize_keeps_records elems e out e' :
  normalizeData (Arr elems) e = (Ok out, e') ->
  length out = length elems /\
  sum_list (map size out)
  = sum_list (map (recordsWithin (levelsBelow maxLayers 1)) elems) /\
  (sum_list (map size out) <= sum_list (map records elems))%nat /\
  drawn e' = (drawn e + sum_list (map (withoutId (levelsBelow maxLayers 1)) elems))%nat /\
  console e' = console e.
Proof.
  intros H.
  destruct (normalizeData_count elems e out e' H) as (Hs & Hd & Hlen).
  destruct (normalizeData_normalised elems e out e' H) as [_ Hc].
  split; [exact Hlen |]. split; [exact Hs |]. split; [| auto].
  rewrite Hs. apply sum_list_le. intros x _. apply recordsWithin_le.
Qed.

End NormalizeCount.

(** X20 at the main menu of [main-menu-config.js]: with the three layers
    that it asks for, its 28 items are all kept and no id is generated;
    with two layers, the 13 items of the third level are dropped. *)
Lemma normalize_keeps_records_witness :
  (exists out e',
      DataRetrieval.normalizeData Sample.noRandom 3 (Js.Arr MainMenu.data) Sample.freshEnv
      = (Js.Ok out, e') /\
      length out = 5%nat /\ sum_list (map Normal.size out) = 28%nat /\
      DataRetrieval.drawn e' = 0%nat) /\
  (exists out e',
      DataRetrieval.normalizeData Sample.noRandom 2 (Js.Arr MainMenu.data) Sample.freshEnv
      = (Js.Ok out, e') /\
      sum_list (map Normal.size out) = 15%nat).
Proof.
  split.
  - eexists _, _. split; [vm_compute; reflexivity |].
    match goal with
    | |- length ?out = _ /\ _ /\ DataRetrieval.drawn ?e' = _ =>
        destruct (normalize_keeps_records Sample.noRandom 3 MainMenu.data Sample.freshEnv
                    out e' ltac:(vm_compute; reflexivity)) as (H1 & H2 & _ & H4 & _)
    end.
    rewrite H1, H2, H4. repeat split.
  - eexists _, _. split; [vm_compute; reflexivity |].
    match goal with
    | |- sum_list (map Normal.size ?out) = _ =>
        destruct (normalize_keeps_records Sample.noRandom 2 MainMenu.data Sample.freshEnv
                    out _ ltac:(vm_compute; reflexivity)) as (_ & H2 & _)
    end.
    rewrite H2. reflexivity.
Defined.

(** ** The tree that [render()] builds *)

Section DomFacts.

Import Js Dom.

Variable config : MenuConfig.Config.


(** *** The calls one by one *)

Lemma andThen_done {A B} (c : outcome A) (k : A -> outcome B) b :
  andThen c k = Done b <-> exists a, c = Done a /\ k a = Done b.
Proof.
  destruct c as [a|e]; simpl; split.
  - eauto.
  - now intros (a' & [= <-] & H).
  - discriminate.
  - now intros (a' & [=] & _).
Qed.

(** The list items that [forEach] appends to a list. *)
Lemma forEach_done {A} (g : A -> nat -> outcome Node) (l : list A) :
  forall index t attrs ls cs ul',
    forEach (fun item index ul => do* li := g item index in Done (appendChild li ul))
      l index (Element t attrs ls cs) = Done ul' ->
    exists lis,
      ul' = Element t attrs ls (cs ++ lis) /\
      imap (fun k item => g item (index + k)%nat) l = Done <$> lis.
Proof.
  induction l as [|x l IH]; intros index t attrs ls cs ul' H; simpl in H.
  - injection H as <-. exists []. now rewrite app_nil_r.
  - destruct (g x index) as [li|e] eqn:Hx; [| discriminate]. simpl in H.
    apply IH in H as (lis & -> & Hl).
    exists (li :: lis). split; [now rewrite <- app_assoc |].
    rewrite fmap_cons, <- Hl. cbn [imap]. rewrite Nat.add_0_r, Hx. f_equal.
    apply imap_ext. intros k y _. simpl. f_equal. lia.
Qed.

(** The link of an item, as [createLink] returns it. *)
Lemma createLink_done class tab item a :
  createLink class tab item = Done a ->
  exists h t,
    toString (DataRetrieval.url item) = Done h /\
    toText (DataRetrieval.title item) = Done t /\
    a = Element "a"
          ([("class", class); ("href", h); ("role", "menuitem"); ("tabindex", tab)] ++
           if truthy (DataRetrieval.openInNewTab item)
           then [("target", "_blank"); ("rel", "noopener noreferrer")] else [])
          [] (if String.eqb t "" then [] else [Text t]).
Proof.
  unfold createLink. intros H.
  apply andThen_done in H as (h & Hh & H). apply andThen_done in H as (t & Ht & H).
  exists h, t. split; [exact Hh |]. split; [exact Ht |].
  destruct (truthy (DataRetrieval.openInNewTab item)); injection H as <-; reflexivity.
Qed.

Lemma classListAdd_done token t c rest ls cs node :
  classListAdd token (Element t (("class", c) :: rest) ls cs) = Done node ->
  token <> "" /\ hasWhitespace token = false /\
  exists c', node = Element t (("class", c') :: rest) ls cs.
Proof.
  unfold classListAdd.
  destruct (String.eqb_spec token ""); [discriminate |].
  destruct (hasWhitespace token); [discriminate |].
  intros [= <-]. repeat split; [assumption |]. eexists. reflexivity.
Qed.

Lemma addCssClass_done item t c rest ls cs li :
  addCssClass item (Element t (("class", c) :: rest) ls cs) = Done li ->
  exists c', li = Element t (("class", c') :: rest) ls cs.
Proof.
  unfold addCssClass. destruct (truthy (DataRetrieval.cssClass item)).
  - intros H. apply andThen_done in H as (token & _ & H).
    now apply classListAdd_done in H as (_ & _ & H).
  - intros [= <-]. eauto.
Qed.

(** The list item of an item with a submenu. *)
Lemma withSubmenu_done class createNav attrs c rest cs li :
  withSubmenu config class createNav (Element "li" attrs [] [])
    (Element "a" (("class", c) :: rest) [] cs) = Done li ->
  exists c' submenu,
    createNav = Done submenu /\
    li = Element "li" attrs
           (if String.eqb (MenuConfig.triggerType config) "hover"
            then ["mouseenter"; "mouseleave"] else [])
           [Element "a"
              (("class", c') ::
               assign "aria-expanded" "false" (assign "aria-haspopup" "true" rest))
              ["click"] cs;
            submenu].
Proof.
  unfold withSubmenu. intros H.
  apply andThen_done in H as (link & Hl & H).
  apply classListAdd_done in Hl as (_ & _ & c' & ->).
  apply andThen_done in H as (submenu & Hs & H).
  exists c', submenu. split; [exact Hs |].
  unfold attachSubmenuHandlers in H.
  destruct (String.eqb (MenuConfig.triggerType config) "hover");
    injection H as <-; reflexivity.
Qed.

(** *** The three layers *)

Lemma createTertiaryItem_done item li :
  createTertiaryItem item = Done li ->
  exists a c,
    createLink "sp-menu__tertiary-link" "-1" item = Done a /\
    li = Element "li" [("class", c); ("role", "none")] [] [a].
Proof.
  unfold createTertiaryItem. intros H.
  apply andThen_done in H as (a & Ha & H).
  apply addCssClass_done in H as (c & ->). eauto.
Qed.

Lemma createTertiaryNav_done items parentId ul :
  createTertiaryNav items parentId = Done ul ->
  exists p lis,
    toString parentId = Done p /\
    ul = Element "ul"
           [("class", "sp-menu__tertiary"); ("id", "sp-menu-tertiary-" +:+ p);
            ("role", "menu"); ("aria-label", "Submenu")] [] lis /\
    imap (fun _ item => createTertiaryItem item) items = Done <$> lis.
Proof.
  unfold createTertiaryNav. intros H.
  apply andThen_done in H as (p & Hp & H).
  apply (forEach_done (fun item _ => createTertiaryItem item)) in H as (lis & -> & Hl).
  exists p, lis. auto.
Qed.

Lemma createSecondaryItem_done item li :
  createSecondaryItem config item = Done li ->
  exists a c,
    createLink "sp-menu__secondary-link" "-1" item = Done a /\
    if Dom.hasChildren item && (3 <=? MenuConfig.layers config)
    then exists c' submenu,
           createTertiaryNav (DataRetrieval.children item) (DataRetrieval.id item)
           = Done submenu /\
           li = Element "li" [("class", c); ("role", "none")]
                  (if String.eqb (MenuConfig.triggerType config) "hover"
                   then ["mouseenter"; "mouseleave"] else [])
                  [Element "a"
                     (("class", c') ::
                      assign "aria-expanded" "false"
                        (assign "aria-haspopup" "true" (tail (attributes a))))
                     ["click"] (childNodes a);
                   submenu]
    else li = Element "li" [("class", c); ("role", "none")] [] [a].
Proof.
  unfold createSecondaryItem. intros H.
  apply andThen_done in H as (a & Ha & H). apply andThen_done in H as (li0 & H0 & H).
  destruct (createLink_done _ _ _ _ Ha) as (h & t & _ & _ & Hshape).
  destruct (Dom.hasChildren item && (3 <=? MenuConfig.layers config)).
  - rewrite Hshape in H0. apply withSubmenu_done in H0 as (c' & submenu & Hs & ->).
    apply addCssClass_done in H as (c & ->).
    exists a, c. split; [exact Ha |]. exists c', submenu. split; [exact Hs |].
    rewrite Hshape. reflexivity.
  - injection H0 as <-. apply addCssClass_done in H as (c & ->). eauto.
Qed.

Lemma createSecondaryNav_done items parentId ul :
  createSecondaryNav config items parentId = Done ul ->
  exists p lis,
    toString parentId = Done p /\
    ul = Element "ul"
           [("class", "sp-menu__secondary"); ("id", "sp-menu-secondary-" +:+ p);
            ("role", "menu"); ("aria-label", "Submenu")] [] lis /\
    imap (fun _ item => createSecondaryItem config item) items = Done <$> lis.
Proof.
  unfold createSecondaryNav. intros H.
  apply andThen_done in H as (p & Hp & H).
  apply (forEach_done (fun item _ => createSecondaryItem config item)) in H
    as (lis & -> & Hl).
  exists p, lis. auto.
Qed.

Lemma createPrimaryItem_done item index li :
  createPrimaryItem config item index = Done li ->
  exists a c icons,
    createLink "sp-menu__primary-link" (if Nat.eqb index 0 then "0" else "-1") item
    = Done a /\
    (if truthy (DataRetrieval.icon item)
     then exists name,
            toString (DataRetrieval.icon item) = Done name /\
            icons = [Element "span" [("class", "sp-menu__icon " +:+ name)] [] []]
     else icons = []) /\
    if Dom.hasChildren item
    then exists c' submenu,
           createSecondaryNav config (DataRetrieval.children item) (DataRetrieval.id item)
           = Done submenu /\
           li = Element "li" [("class", c); ("role", "none")]
                  (if String.eqb (MenuConfig.triggerType config) "hover"
                   then ["mouseenter"; "mouseleave"] else [])
                  [Element "a"
                     (("class", c') ::
                      assign "aria-expanded" "false"
                        (assign "aria-haspopup" "true" (tail (attributes a))))
                     ["click"] (icons ++ childNodes a);
                   submenu]
    else li = Element "li" [("class", c); ("role", "none")] []
                [Element "a" (attributes a) [] (icons ++ childNodes a)].
Proof.
  unfold createPrimaryItem. intros H.
  apply andThen_done in H as (a & Ha & H). apply andThen_done in H as (a1 & H1 & H).
  apply andThen_done in H as (li0 & H0 & H).
  destruct (createLink_done _ _ _ _ Ha) as (h & t & _ & _ & Hshape).
  assert (Hicon : exists icons,
             a1 = Element "a" (attributes a) [] (icons ++ childNodes a) /\
             if truthy (DataRetrieval.icon item)
             then exists name,
                    toString (DataRetrieval.icon item) = Done name /\
                    icons = [Element "span" [("class", "sp-menu__icon " +:+ name)] [] []]
             else icons = []).
  { destruct (truthy (DataRetrieval.icon item)).
    - apply andThen_done in H1 as (name & Hn & H1). injection H1 as <-.
      eexists. split; [| eauto]. rewrite Hshape. reflexivity.
    - injection H1 as <-. exists []. split; [| reflexivity]. rewrite Hshape. reflexivity. }
  destruct Hicon as (icons & -> & Hicons).
  exists a, (default "" (getAttribute "class" li)), icons.
  split; [exact Ha |]. split; [exact Hicons |].
  destruct (Dom.hasChildren item).
  - rewrite Hshape in H0. apply withSubmenu_done in H0 as (c' & submenu & Hs & ->).
    apply addCssClass_done in H as (c & ->).
    exists c', submenu. split; [exact Hs |]. rewrite Hshape. reflexivity.
  - injection H0 as <-. apply addCssClass_done in H as (c & ->). reflexivity.
Qed.

Lemma createPrimaryNav_done menuData nav :
  createPrimaryNav config menuData = Done nav ->
  exists lis,
    nav = Element "nav"
            [("class", "sp-menu__primary"); ("role", "navigation");
             ("aria-label", "Main navigation")] []
            [Element "ul"
               [("class", "sp-menu__primary-list"); ("id", "sp-menu-primary");
                ("role", "menubar")] [] lis] /\
    imap (fun index item => createPrimaryItem config item index) menuData = Done <$> lis.
Proof.
  unfold createPrimaryNav. intros H.
  apply andThen_done in H as (ul & Hul & H). injection H as <-.
  apply (forEach_done (fun item index => createPrimaryItem config item index)) in Hul
    as (lis & -> & Hl).
  exists lis. auto.
Qed.

(** *** The links *)

Lemma links_element t attrs ls cs :
  links (Element t attrs ls cs)
  = (if decide (t = "a") then [Element t attrs ls cs] else []) ++ flat_map links cs.
Proof.
  unfold links. cbn [nodes]. rewrite filter_cons. cbn [tagName].
  assert (Hcs : filter (fun n => tagName n = "a") (flat_map nodes cs)
                = flat_map (fun c => filter (fun n => tagName n = "a") (nodes c)) cs).
  { induction cs as [|c cs IH]; [reflexivity |]. simpl. now rewrite filter_app, IH. }
  rewrite Hcs. now destruct (decide (t = "a")).
Qed.

(** What [map] has made of each element, when it has made lists of all. *)
Lemma imap_done {A} (g : nat -> A -> outcome Node) (l : list A) (lis : list Node) :
  imap g l = Done <$> lis ->
  length l = length lis /\
  forall k x li, l !! k = Some x -> lis !! k = Some li -> g k x = Done li.
Proof.
  intros H. split.
  - rewrite <- (length_imap g l), H. apply length_fmap.
  - intros k x li Hx Hli.
    assert (Hk : imap g l !! k = (Done <$> lis) !! k) by now rewrite H.
    rewrite list_lookup_imap, list_lookup_fmap, Hx, Hli in Hk. now injection Hk.
Qed.

Lemma Forall2_flat_map {A B} (R : A -> B -> Prop) {C D}
    (f : C -> list A) (g : D -> list B) (l : list C) (k : list D) :
  Forall2 (fun x y => Forall2 R (f x) (g y)) l k ->
  Forall2 R (flat_map f l) (flat_map g k).
Proof.
  induction 1 as [|x y l k Hxy _ IH]; simpl; [constructor |].
  now apply Forall2_app.
Qed.

Lemma Forall_flat_map {B} (P : B -> Prop) {D} (g : D -> list B) (k : list D) :
  Forall (fun y => Forall P (g y)) k -> Forall P (flat_map g k).
Proof.
  induction 1 as [|y k Hy _ IH]; simpl; [constructor |].
  apply Forall_app. auto.
Qed.

(** The link that [createLink] returns, with the changes that the
    [create...Item] functions make to it. *)
Lemma link_facts item class tab a c' ls icons :
  createLink class tab item = Done a ->
  (icons = [] \/ exists cls, icons = [Element "span" [("class", cls)] [] []]) ->
  forall a',
    a' = Element "a" (attributes a) ls (icons ++ childNodes a) \/
    a' = Element "a"
           (("class", c') ::
            assign "aria-expanded" "false"
              (assign "aria-haspopup" "true" (tail (attributes a))))
           ls (icons ++ childNodes a) ->
    links a' = [a'] /\ linkFor item a' /\ getAttribute "tabindex" a' = Some tab.
Proof.
  intros Ha Hicons a' Ha'.
  apply createLink_done in Ha as (h & t & Hh & Ht & ->).
  unfold linkFor. rewrite Hh, Ht.
  destruct (truthy (DataRetrieval.openInNewTab item));
    destruct (String.eqb_spec t "") as [->|Hne];
    destruct Hicons as [->|[cls ->]]; destruct Ha' as [->| ->];
    (split; [rewrite links_element; reflexivity |]);
    repeat split; try reflexivity; eauto.
Qed.

Lemma tertiary_links item li :
  createTertiaryItem item = Done li ->
  exists a, links li = [a] /\ linkFor item a /\ getAttribute "tabindex" a = Some "-1".
Proof.
  intros H. apply createTertiaryItem_done in H as (a & c & Ha & ->).
  destruct (link_facts item _ _ a "" [] [] Ha ltac:(now left) a) as (Hl & Hf & Ht).
  { left. apply createLink_done in Ha as (h & t & _ & _ & ->). reflexivity. }
  exists a. rewrite links_element. simpl. rewrite Hl. auto.
Qed.

Lemma flat_map_single {A} (l : list A) : flat_map (fun x => [x]) l = l.
Proof. induction l as [|x l IH]; simpl; congruence. Qed.

(** The links of the list items that [forEach] has appended. *)
Lemma list_links {A} (g : nat -> A -> outcome Node)
    (f : A -> list DataRetrieval.MenuItem) (P : Node -> Prop) l lis :
  imap g l = Done <$> lis ->
  (forall k x li, l !! k = Some x -> g k x = Done li ->
                  Forall2 linkFor (f x) (links li) /\ Forall P (links li)) ->
  Forall2 linkFor (flat_map f l) (flat_map links lis) /\ Forall P (flat_map links lis).
Proof.
  intros [Hlen Hlook]%imap_done Hg. split.
  - apply Forall2_flat_map, Forall2_same_length_lookup_2; [exact Hlen |].
    intros k x li Hx Hli. now apply (Hg k x li Hx (Hlook k x li Hx Hli)).
  - apply Forall_flat_map, Forall_lookup_2. intros k li Hli.
    destruct (lookup_lt_is_Some_2 l k) as [x Hx].
    { rewrite Hlen. now apply lookup_lt_Some in Hli. }
    now apply (Hg k x li Hx (Hlook k x li Hx Hli)).
Qed.

Lemma tertiary_nav_links items parentId ul :
  createTertiaryNav items parentId = Done ul ->
  Forall2 linkFor items (links ul) /\
  Forall (fun a => getAttribute "tabindex" a = Some "-1") (links ul).
Proof.
  intros H. apply createTertiaryNav_done in H as (p & lis & _ & -> & Hl).
  rewrite links_element. simpl. rewrite <- (flat_map_single items) at 1.
  apply (list_links _ _ _ _ _ Hl). intros k item li _ Hli.
  apply tertiary_links in Hli as (a & -> & Hf & Ht).
  split; (constructor; [assumption | constructor]).
Qed.

Lemma secondary_links item li :
  createSecondaryItem config item = Done li ->
  Forall2 linkFor
    (item :: if 3 <=? MenuConfig.layers config then DataRetrieval.children item else [])
    (links li) /\
  Forall (fun a => getAttribute "tabindex" a = Some "-1") (links li).
Proof.
  intros H. apply createSecondaryItem_done in H as (a & c & Ha & H).
  destruct (Dom.hasChildren item) eqn:Hch;
    destruct (3 <=? MenuConfig.layers config) eqn:Hlayers; simpl in H.
  1: { destruct H as (c' & submenu & Hs & ->).
       apply tertiary_nav_links in Hs as [Hs1 Hs2].
       edestruct (link_facts item _ _ a c' ["click"] [] Ha ltac:(now left))
         as (Hl & Hf & Ht); [right; reflexivity |].
       change ([] ++ childNodes a) with (childNodes a) in Hl, Hf, Ht.
       rewrite (links_element "li"). cbn [flat_map]. rewrite Hl, app_nil_r.
       destruct (decide ("li" = "a")); [discriminate |]. cbn [app].
       split; (constructor; assumption). }
  all: subst li;
    destruct (link_facts item _ _ a "" [] [] Ha ltac:(now left) a) as (Hl & Hf & Ht);
    [ left; apply createLink_done in Ha as (h & t & _ & _ & ->); reflexivity | ];
    rewrite links_element; simpl; rewrite Hl; simpl.
  - split; (constructor; [assumption | constructor]).
  - unfold Dom.hasChildren in Hch.
    destruct (DataRetrieval.children item); [| discriminate].
    split; (constructor; [assumption | constructor]).
  - split; (constructor; [assumption | constructor]).
Qed.

Lemma secondary_nav_links items parentId ul :
  createSecondaryNav config items parentId = Done ul ->
  Forall2 linkFor
    (flat_map (fun child =>
                 child :: if 3 <=? MenuConfig.layers config
                          then DataRetrieval.children child else []) items)
    (links ul) /\
  Forall (fun a => getAttribute "tabindex" a = Some "-1") (links ul).
Proof.
  intros H. apply createSecondaryNav_done in H as (p & lis & _ & -> & Hl).
  rewrite links_element. simpl.
  apply (list_links _ _ _ _ _ Hl). intros k item li _ Hli.
  now apply secondary_links.
Qed.

Lemma primary_links item index li :
  createPrimaryItem config item index = Done li ->
  exists a rest,
    links li = a :: rest /\ linkFor item a /\
    getAttribute "tabindex" a = Some (if Nat.eqb index 0 then "0" else "-1") /\
    Forall2 linkFor
      (flat_map (fun child =>
                   child :: if 3 <=? MenuConfig.layers config
                            then DataRetrieval.children child else [])
         (DataRetrieval.children item)) rest /\
    Forall (fun a => getAttribute "tabindex" a = Some "-1") rest.
Proof.
  intros H. apply createPrimaryItem_done in H as (a & c & icons & Ha & Hicons & H).
  assert (Hi : icons = [] \/ exists cls, icons = [Element "span" [("class", cls)] [] []]).
  { destruct (truthy (DataRetrieval.icon item)); [| now left].
    destruct Hicons as (name & _ & ->). right. eauto. }
  destruct (Dom.hasChildren item) eqn:Hch.
  - destruct H as (c' & submenu & Hs & ->).
    apply secondary_nav_links in Hs as [Hs1 Hs2].
    edestruct (link_facts item _ _ a c' ["click"] icons Ha Hi) as (Hl & Hf & Ht);
      [right; reflexivity |].
    eexists _, (links submenu).
    rewrite (links_element "li"). cbn [flat_map]. rewrite Hl, app_nil_r.
    destruct (decide ("li" = "a")); [discriminate |]. cbn [app]. auto.
  - subst li.
    edestruct (link_facts item _ _ a "" [] icons Ha Hi) as (Hl & Hf & Ht);
      [left; reflexivity |].
    eexists _, [].
    rewrite (links_element "li"). cbn [flat_map]. rewrite Hl.
    destruct (decide ("li" = "a")); [discriminate |]. cbn [app].
    unfold Dom.hasChildren in Hch.
    destruct (DataRetrieval.children item); [| discriminate].
    split; [reflexivity |]. split; [exact Hf |]. split; [exact Ht |].
    split; constructor.
Qed.

(** The links of the navigation, by the list items of the primary list. *)
Lemma nav_links menuData nav :
  createPrimaryNav config menuData = Done nav ->
  exists lis,
    links nav = flat_map links lis /\ length menuData = length lis /\
    forall k item li, menuData !! k = Some item -> lis !! k = Some li ->
                      createPrimaryItem config item k = Done li.
Proof.
  intros H. apply createPrimaryNav_done in H as (lis & -> & Hl).
  exists lis. split; [| now apply imap_done].
  rewrite (links_element "nav"). cbn [flat_map]. rewrite (links_element "ul").
  destruct (decide ("nav" = "a")); [discriminate |].
  destruct (decide ("ul" = "a")); [discriminate |].
  cbn [app]. now rewrite app_nil_r.
Qed.

Lemma primary_nav_links menuData nav :
  createPrimaryNav config menuData = Done nav ->
  Forall2 linkFor (shown (MenuConfig.layers config) menuData) (links nav).
Proof.
  intros H. apply nav_links in H as (lis & -> & Hlen & Hlook).
  unfold shown. apply Forall2_flat_map, Forall2_same_length_lookup_2; [exact Hlen |].
  intros k item li Hitem Hli.
  destruct (primary_links item k li (Hlook k item li Hitem Hli))
    as (a & rest & -> & Hf & _ & Hrest & _).
  now constructor.
Qed.

(** X21. In the navigation that [render()] builds, the links are those
    of the items of the first three levels, one for each and in the order
    of the document: every primary item, followed by its children, each of
    them followed, when the configuration has three layers or more, by its
    own children. The link of an item has the item's [url] as [href] and
    its [title] as text, and the role [menuitem]; it opens a new tab, with
    [rel] set to [noopener noreferrer], exactly when [openInNewTab] is
    truthy. The first link is the only one with the [tabindex] 0; all the
    others have -1. *)
Theorem rendered_links menuData nav :
  createPrimaryNav config menuData = Done nav ->
  Forall2 linkFor (shown (MenuConfig.layers config) menuData) (links nav) /\
  (forall k a, links nav !! k = Some a ->
               getAttribute "tabindex" a = Some (if Nat.eqb k 0 then "0" else "-1")).
Proof.
  intros H. split; [now apply primary_nav_links |].
  apply nav_links in H as (lis & -> & Hlen & Hlook).
  destruct lis as [|li lis];
    [intros k a Hk; simpl in Hk; now rewrite lookup_nil in Hk |].
  destruct menuData as [|item menuData]; [discriminate |].
  destruct (primary_links item 0 li (Hlook 0%nat item li eq_refl eq_refl))
    as (a0 & rest & Hli & _ & Ht0 & _ & Hrest).
  assert (Hothers : Forall (fun a => getAttribute "tabindex" a = Some "-1")
                      (flat_map links lis)).
  { apply Forall_flat_map, Forall_lookup_2. intros k li' Hli'.
    destruct (lookup_lt_is_Some_2 menuData k) as [item' Hitem'].
    { simpl in Hlen. apply lookup_lt_Some in Hli'. lia. }
    destruct (primary_links item' (S k) li' (Hlook (S k) item' li' Hitem' Hli'))
      as (a & rest' & -> & _ & Ht & _ & Hrest').
    now constructor. }
  simpl. rewrite Hli. intros [|k] a Hk; simpl in Hk.
  - now injection Hk as <-.
  - assert (Hall : Forall (fun a => getAttribute "tabindex" a = Some "-1")
                     (rest ++ flat_map links lis)) by now apply Forall_app.
    rewrite Forall_lookup in Hall. now apply (Hall k).
Qed.

(** *** Submenus and their listeners *)

Abbreviation hover := (String.eqb (MenuConfig.triggerType config) "hover").

Ltac the_link :=
  match goal with
  | |- triggerFor _ _ (Element _ _ _ (?l :: _)) =>
      split; [reflexivity |]; split; [try reflexivity |]; [.. | exists l]
  end.

Lemma tertiary_trigger item li :
  createTertiaryItem item = Done li -> triggerFor false hover li.
Proof.
  intros H. apply createTertiaryItem_done in H as (a & c & Ha & ->).
  apply createLink_done in Ha as (h & t & _ & _ & ->).
  the_link.
  destruct (truthy (DataRetrieval.openInNewTab item)); repeat split; reflexivity.
Qed.

Lemma secondary_trigger item li :
  createSecondaryItem config item = Done li ->
  let hasSubmenu := Dom.hasChildren item && (3 <=? MenuConfig.layers config) in
  triggerFor hasSubmenu hover li /\
  match childNodes li !! 1%nat with
  | Some submenu =>
      hasSubmenu = true /\
      imap (fun _ child => createTertiaryItem child) (DataRetrieval.children item)
      = Done <$> childNodes submenu
  | None => hasSubmenu = false
  end.
Proof.
  intros H hasSubmenu. apply createSecondaryItem_done in H as (a & c & Ha & H).
  apply createLink_done in Ha as (h & t & _ & _ & ->).
  fold hasSubmenu in H. destruct hasSubmenu.
  - destruct H as (c' & submenu & Hs & ->).
    apply createTertiaryNav_done in Hs as (p & lis & _ & -> & Hl).
    split; [| split; [reflexivity | exact Hl]].
    the_link.
    destruct (truthy (DataRetrieval.openInNewTab item));
      (split; [reflexivity |]); (split; [reflexivity |]);
      (split; [reflexivity |]); (split; [reflexivity |]);
      eexists; repeat split; try reflexivity; now right.
  - subst li. split; [| reflexivity].
    the_link.
    destruct (truthy (DataRetrieval.openInNewTab item)); repeat split; reflexivity.
Qed.

Lemma primary_trigger item index li :
  createPrimaryItem config item index = Done li ->
  triggerFor (Dom.hasChildren item) hover li /\
  match childNodes li !! 1%nat with
  | Some submenu =>
      Dom.hasChildren item = true /\
      imap (fun _ child => createSecondaryItem config child) (DataRetrieval.children item)
      = Done <$> childNodes submenu
  | None => Dom.hasChildren item = false
  end.
Proof.
  intros H. apply createPrimaryItem_done in H as (a & c & icons & Ha & _ & H).
  apply createLink_done in Ha as (h & t & _ & _ & ->).
  destruct (Dom.hasChildren item).
  - destruct H as (c' & submenu & Hs & ->).
    apply createSecondaryNav_done in Hs as (p & lis & _ & -> & Hl).
    split; [| split; [reflexivity | exact Hl]].
    the_link.
    destruct (truthy (DataRetrieval.openInNewTab item));
      (split; [reflexivity |]); (split; [reflexivity |]);
      (split; [reflexivity |]); (split; [reflexivity |]);
      eexists; repeat split; try reflexivity; now left.
  - subst li. split; [| reflexivity].
    the_link.
    destruct (truthy (DataRetrieval.openInNewTab item)); repeat split; reflexivity.
Qed.

(** The element that [forEach] has appended for an item. *)
Lemma imap_done_item {A} (g : nat -> A -> outcome Node) (l : list A) lis k li :
  imap g l = Done <$> lis -> lis !! k = Some li ->
  exists x, l !! k = Some x /\ g k x = Done li.
Proof.
  intros [Hlen Hlook]%imap_done Hli.
  destruct (lookup_lt_is_Some_2 l k) as [x Hx].
  { rewrite Hlen. now apply lookup_lt_Some in Hli. }
  exists x. split; [exact Hx |]. now apply Hlook.
Qed.

Lemma imap_done_element {A} (g : nat -> A -> outcome Node) (l : list A) lis k x :
  imap g l = Done <$> lis -> l !! k = Some x -> is_Some (lis !! k).
Proof.
  intros [Hlen _]%imap_done Hx. apply lookup_lt_is_Some_2.
  rewrite <- Hlen. now apply lookup_lt_Some in Hx.
Qed.

(** X22. In the navigation that [render()] builds, the list item of an
    item holds a submenu exactly when the controller has one for that
    place of the menu data: a primary item with children, or, with three
    layers or more, a child with children of its own. Such a list item
    holds the link and then the submenu, a list with the role [menu] that
    is not visible; its link has [aria-haspopup] and [aria-expanded], the
    latter [false], and a [click] listener, and in hover mode the list item
    has the two pointer listeners. Every other list item holds its link
    alone and has none of these. *)
Theorem rendered_submenus menuData nav :
  createPrimaryNav config menuData = Done nav ->
  forall path,
    (forall li,
        listItem nav path = Some li ->
        triggerFor (MenuEngine.submenuAt (MenuConfig.layers config) menuData path)
          (String.eqb (MenuConfig.triggerType config) "hover") li) /\
    (MenuEngine.submenuAt (MenuConfig.layers config) menuData path = true ->
     is_Some (listItem nav path)).
Proof.
  intros H path. apply createPrimaryNav_done in H as (lis & -> & Hl).
  destruct path as [|i [|j [|k [|k' path]]]]; cbn [listItem childNodes lookup].
  - split; [discriminate | discriminate].
  - simpl. split.
    + intros li Hli.
      destruct (imap_done_item _ _ _ _ _ Hl Hli) as (item & Hitem & Hcreate).
      rewrite Hitem. now apply primary_trigger in Hcreate as [Ht _].
    + destruct (menuData !! i) as [item|] eqn:Hitem; [| discriminate].
      intros _. apply (imap_done_element _ _ _ _ _ Hl Hitem).
  - simpl. split.
    + intros li2 H2.
      destruct (lis !! i) as [li|] eqn:Hli; [| discriminate]. simpl in H2.
      destruct (imap_done_item _ _ _ _ _ Hl Hli) as (item & Hitem & Hcreate).
      apply primary_trigger in Hcreate as [_ Hsub].
      destruct (childNodes li !! 1%nat) as [submenu|]; [| discriminate]. simpl in H2.
      destruct Hsub as [Hch Hl2].
      destruct (imap_done_item _ _ _ _ _ Hl2 H2) as (child & Hchild & Hcreate2).
      rewrite Hitem, Hch, Hchild. simpl.
      now apply secondary_trigger in Hcreate2 as [Ht _].
    + destruct (menuData !! i) as [item|] eqn:Hitem; [| discriminate].
      destruct (Dom.hasChildren item) eqn:Hch; [| discriminate]. simpl.
      destruct (DataRetrieval.children item !! j) as [child|] eqn:Hchild;
        [| discriminate].
      intros _.
      destruct (imap_done_element _ _ _ _ _ Hl Hitem) as [li Hli]. rewrite Hli. simpl.
      destruct (imap_done_item _ _ _ _ _ Hl Hli) as (item' & Hitem' & Hcreate).
      assert (item' = item) by congruence. subst item'.
      apply primary_trigger in Hcreate as [_ Hsub].
      destruct (childNodes li !! 1%nat) as [submenu|]; [| congruence]. simpl.
      destruct Hsub as [_ Hl2]. apply (imap_done_element _ _ _ _ _ Hl2 Hchild).
  - simpl. split; [| destruct (menuData !! i); discriminate].
    intros li3 H3.
    destruct (lis !! i) as [li|] eqn:Hli; [| discriminate]. simpl in H3.
    destruct (imap_done_item _ _ _ _ _ Hl Hli) as (item & Hitem & Hcreate).
    apply primary_trigger in Hcreate as [_ Hsub].
    destruct (childNodes li !! 1%nat) as [submenu|]; [| discriminate]. simpl in H3.
    destruct Hsub as [_ Hl2].
    destruct (childNodes submenu !! j) as [li2|] eqn:Hli2; [| discriminate].
    simpl in H3.
    destruct (imap_done_item _ _ _ _ _ Hl2 Hli2) as (child & Hchild & Hcreate2).
    apply secondary_trigger in Hcreate2 as [_ Hsub2].
    destruct (childNodes li2 !! 1%nat) as [submenu2|]; [| discriminate]. simpl in H3.
    destruct Hsub2 as [_ Hl3].
    destruct (imap_done_item _ _ _ _ _ Hl3 H3) as (leaf & _ & Hcreate3).
    now apply tertiary_trigger in Hcreate3.
  - split; [discriminate |]. unfold MenuEngine.submenuAt. discriminate.
Qed.

(** *** Class names that [classList.add] does not take *)

Lemma verdict_andThen {A B} (ok1 ok2 : bool) (c : outcome A) (k : A -> outcome B) :
  verdict ok1 c -> (forall a, c = Done a -> verdict ok2 (k a)) ->
  verdict (ok1 && ok2) (andThen c k).
Proof.
  destruct c as [a|e]; simpl.
  - intros -> H. exact (H a eq_refl).
  - intros [-> ->] _. auto.
Qed.

Lemma verdict_forEach {A} (g : A -> nat -> outcome Node) (ok : A -> bool) (l : list A) :
  (forall x index, x ∈ l -> verdict (ok x) (g x index)) ->
  forall index ul,
    verdict (forallb ok l)
      (forEach (fun item index ul => do* li := g item index in Done (appendChild li ul))
         l index ul).
Proof.
  induction l as [|x l IH]; intros Hg index ul; cbn [forEach forallb]; [reflexivity |].
  apply verdict_andThen.
  - pose proof (Hg x index ltac:(left)) as Hx.
    destruct (g x index); simpl in *; auto.
  - intros ul' _. apply IH. intros y k Hy. apply Hg. now right.
Qed.

Lemma createLink_plain class tab item :
  plain item = true -> exists a, createLink class tab item = Done a.
Proof.
  unfold plain, createLink.
  destruct (DataRetrieval.id item); try discriminate.
  destruct (DataRetrieval.title item); try discriminate.
  destruct (DataRetrieval.url item); try discriminate. intros _. simpl.
  destruct (truthy (DataRetrieval.openInNewTab item)); eauto.
Qed.

Lemma addCssClass_plain item li :
  plain item = true -> verdict (classAccepted item) (addCssClass item li).
Proof.
  unfold plain, classAccepted, addCssClass, classListAdd.
  destruct (DataRetrieval.id item); try discriminate.
  destruct (DataRetrieval.title item); try discriminate.
  destruct (DataRetrieval.url item); try discriminate.
  destruct (DataRetrieval.cssClass item) as [| | | |cls| | |]; try discriminate. intros _.
  simpl. destruct (String.eqb_spec cls "") as [->|Hne]; simpl; [reflexivity |].
  destruct (hasWhitespace cls); simpl; auto.
Qed.

Lemma withSubmenu_verdict class ok createNav li t c rest ls cs :
  class = "sp-menu__primary-link--has-children" \/
  class = "sp-menu__secondary-link--has-children" ->
  verdict ok createNav ->
  verdict ok (withSubmenu config class createNav li (Element t (("class", c) :: rest) ls cs)).
Proof.
  intros Hclass Hnav. unfold withSubmenu.
  assert (Hadd : exists link,
             classListAdd class (Element t (("class", c) :: rest) ls cs) = Done link)
    by (destruct Hclass as [-> | ->]; eexists; reflexivity).
  destruct Hadd as (link & ->). cbn [andThen].
  destruct createNav as [submenu|e]; [| exact Hnav]. cbn [andThen].
  now destruct (attachSubmenuHandlers config li _).
Qed.

Lemma createTertiaryItem_verdict item :
  plain item = true -> verdict (classAccepted item) (createTertiaryItem item).
Proof.
  intros Hp. unfold createTertiaryItem.
  destruct (createLink_plain "sp-menu__tertiary-link" "-1" item Hp) as (a & ->).
  cbn [andThen]. now apply addCssClass_plain.
Qed.

Lemma plain_id item : plain item = true -> exists s, DataRetrieval.id item = Str s.
Proof. unfold plain. destruct (DataRetrieval.id item); try discriminate. eauto. Qed.

Lemma createTertiaryNav_verdict items parentId s :
  parentId = Str s -> forallb plain items = true ->
  verdict (forallb classAccepted items) (createTertiaryNav items parentId).
Proof.
  intros -> Hp. unfold createTertiaryNav. cbn [toString andThen].
  apply (verdict_forEach (fun item _ => createTertiaryItem item)).
  intros item _ Hin. apply createTertiaryItem_verdict.
  rewrite forallb_forall in Hp. apply Hp. now apply list_elem_of_In.
Qed.

Lemma createSecondaryItem_verdict item :
  forallb plain
    (item :: if 3 <=? MenuConfig.layers config then DataRetrieval.children item else [])
  = true ->
  verdict
    (forallb classAccepted
       (item :: if 3 <=? MenuConfig.layers config then DataRetrieval.children item else []))
    (createSecondaryItem config item).
Proof.
  cbn [forallb]. intros [Hp Hkids]%andb_prop. unfold createSecondaryItem.
  destruct (createLink_plain "sp-menu__secondary-link" "-1" item Hp) as (a & Ha).
  rewrite Ha. cbn [andThen].
  apply createLink_done in Ha as (h & t & _ & _ & ->).
  destruct (plain_id item Hp) as (s & Hid).
  rewrite andb_comm. apply verdict_andThen; [| intros li _; now apply addCssClass_plain].
  destruct (3 <=? MenuConfig.layers config).
  - destruct (Dom.hasChildren item) eqn:Hch; cbn [andb].
    + apply withSubmenu_verdict; [now right |].
      now apply (createTertiaryNav_verdict _ _ s).
    + unfold Dom.hasChildren in Hch.
      destruct (DataRetrieval.children item); [reflexivity | discriminate].
  - rewrite andb_false_r. reflexivity.
Qed.

Lemma forallb_flat_map {A B} (p : B -> bool) (f : A -> list B) (l : list A) :
  forallb p (flat_map f l) = forallb (fun x => forallb p (f x)) l.
Proof.
  induction l as [|x l IH]; [reflexivity |]. simpl. now rewrite forallb_app, IH.
Qed.

Lemma createSecondaryNav_verdict items parentId s :
  parentId = Str s ->
  forallb plain
    (flat_map (fun child =>
                 child :: if 3 <=? MenuConfig.layers config
                          then DataRetrieval.children child else []) items) = true ->
  verdict
    (forallb classAccepted
       (flat_map (fun child =>
                    child :: if 3 <=? MenuConfig.layers config
                             then DataRetrieval.children child else []) items))
    (createSecondaryNav config items parentId).
Proof.
  intros -> Hp. unfold createSecondaryNav. cbn [toString andThen].
  rewrite forallb_flat_map in *.
  apply (verdict_forEach (fun item _ => createSecondaryItem config item)
           (fun item => forallb classAccepted
                          (item :: if 3 <=? MenuConfig.layers config
                                   then DataRetrieval.children item else []))).
  intros item _ Hin. apply createSecondaryItem_verdict.
  rewrite forallb_forall in Hp. apply Hp. now apply list_elem_of_In.
Qed.

Lemma createPrimaryItem_verdict item index :
  let below :=
    flat_map (fun child =>
                child :: if 3 <=? MenuConfig.layers config
                         then DataRetrieval.children child else [])
      (DataRetrieval.children item) in
  forallb plain (item :: below) = true ->
  verdict (forallb classAccepted (item :: below)) (createPrimaryItem config item index).
Proof.
  intros below. cbn [forallb]. intros [Hp Hkids]%andb_prop. unfold createPrimaryItem.
  destruct (createLink_plain "sp-menu__primary-link"
              (if Nat.eqb index 0 then "0" else "-1") item Hp) as (a & Ha).
  rewrite Ha. cbn [andThen].
  apply createLink_done in Ha as (h & t & _ & _ & ->).
  destruct (plain_id item Hp) as (s & Hid).
  assert (Hicon : exists cs,
             (if truthy (DataRetrieval.icon item)
              then
                do* name := toString (DataRetrieval.icon item) in
                Done (insertBeforeFirst
                        (className ("sp-menu__icon " +:+ name) (createElement "span"))
                        (Element "a"
                           ([("class", "sp-menu__primary-link"); ("href", h);
                             ("role", "menuitem");
                             ("tabindex", if Nat.eqb index 0 then "0" else "-1")] ++
                            if truthy (DataRetrieval.openInNewTab item)
                            then [("target", "_blank"); ("rel", "noopener noreferrer")]
                            else [])
                           [] (if String.eqb t "" then [] else [Text t])))
              else
                Done (Element "a"
                        ([("class", "sp-menu__primary-link"); ("href", h);
                          ("role", "menuitem");
                          ("tabindex", if Nat.eqb index 0 then "0" else "-1")] ++
                         if truthy (DataRetrieval.openInNewTab item)
                         then [("target", "_blank"); ("rel", "noopener noreferrer")]
                         else [])
                        [] (if String.eqb t "" then [] else [Text t])))
             = Done (Element "a"
                       (("class", "sp-menu__primary-link") ::
                        [("href", h); ("role", "menuitem");
                         ("tabindex", if Nat.eqb index 0 then "0" else "-1")] ++
                        if truthy (DataRetrieval.openInNewTab item)
                        then [("target", "_blank"); ("rel", "noopener noreferrer")]
                        else [])
                       [] cs)).
  { unfold plain in Hp.
    destruct (DataRetrieval.id item); try discriminate.
    destruct (DataRetrieval.title item); try discriminate.
    destruct (DataRetrieval.url item); try discriminate.
    destruct (DataRetrieval.cssClass item); try discriminate.
    destruct (DataRetrieval.icon item) as [| | | |name| | |]; try discriminate.
    - eexists. reflexivity.
    - simpl. destruct (negb (String.eqb name "")); eexists; reflexivity. }
  destruct Hicon as (cs & Hicon). rewrite Hicon. cbn [andThen].
  rewrite andb_comm. apply verdict_andThen; [| intros li _; now apply addCssClass_plain].
  destruct (Dom.hasChildren item) eqn:Hch.
  - apply withSubmenu_verdict; [now left |].
    now apply (createSecondaryNav_verdict _ _ s).
  - unfold Dom.hasChildren in Hch. subst below.
    destruct (DataRetrieval.children item); [reflexivity | discriminate].
Qed.

(** X23. For menu data whose ids, titles, urls, icons and classes are
    strings: [render()] returns exactly when no item that it shows has a
    [cssClass] with whitespace in it, and then the container holds the
    toggle button and the navigation. When one item has such a class, two
    class names for instance, [render()] throws the [DOMException] of
    [classList.add], and it leaves the container with the class [sp-menu]
    and without any child. *)
Theorem render_class_names menuData container :
  forallb plain (shown (MenuConfig.layers config) menuData) = true ->
  if forallb classAccepted (shown (MenuConfig.layers config) menuData)
  then exists nav,
         createPrimaryNav config menuData = Done nav /\
         render config menuData container
         = (appendChild nav
              (appendChild createMobileToggle
                 (className "sp-menu" (innerHTML "" container))), None)
  else render config menuData container
       = (className "sp-menu" (innerHTML "" container),
          Some (DOMException "InvalidCharacterError")).
Proof.
  intros Hp. unfold shown in *. rewrite forallb_flat_map in *.
  assert (Hv : verdict
                 (forallb
                    (fun item =>
                       forallb classAccepted
                         (item ::
                          flat_map (fun child =>
                                      child :: if 3 <=? MenuConfig.layers config
                                               then DataRetrieval.children child else [])
                            (DataRetrieval.children item))) menuData)
                 (createPrimaryNav config menuData)).
  { unfold createPrimaryNav.
    rewrite <- (andb_true_r (forallb _ menuData)).
    apply verdict_andThen; [| reflexivity].
    apply (verdict_forEach (fun item index => createPrimaryItem config item index)).
    intros item index Hin. apply createPrimaryItem_verdict.
    rewrite forallb_forall in Hp. apply Hp. now apply list_elem_of_In. }
  unfold render.
  destruct (createPrimaryNav config menuData) as [nav|e]; unfold verdict in Hv.
  - rewrite Hv. eauto.
  - destruct Hv as [-> ->]. reflexivity.
Qed.

(** *** Normalised items *)

Lemma normalised_children L d m :
  Normal.normalised L d m = true ->
  if d <? L then forallb (Normal.normalised L (d + 1)) (DataRetrieval.children m) = true
  else DataRetrieval.children m = [].
Proof.
  destruct m as [? ? ? ? ? ? ? kids]. simpl. intros [_ H]%andb_prop.
  destruct (d <? L); [exact H |]. now destruct kids.
Qed.

Lemma size_unfold m :
  Normal.size m = S (sum_list (map Normal.size (DataRetrieval.children m))).
Proof. now destruct m. Qed.

Lemma sum_sizes {A} (f g : A -> nat) (l : list A) :
  (forall x, x ∈ l -> f x = g x) -> sum_list (map f l) = sum_list (map g l).
Proof.
  induction l as [|x l IH]; intros H; simpl; [reflexivity |].
  rewrite (H x ltac:(left)), IH; [reflexivity |]. intros y Hy. apply H. now right.
Qed.

Lemma sum_ones {A} (l : list A) : sum_list (map (fun _ => 1%nat) l) = length l.
Proof. induction l; simpl; congruence. Qed.

Lemma length_flat_map {A B} (f : A -> list B) (l : list A) :
  length (flat_map f l) = sum_list (map (fun x => length (f x)) l).
Proof. induction l as [|x l IH]; simpl; [reflexivity |]. now rewrite length_app, IH. Qed.

Lemma normalised_forall L d l x :
  forallb (Normal.normalised L d) l = true -> x ∈ l -> Normal.normalised L d x = true.
Proof. rewrite forallb_forall. intros H Hx. apply H. now apply list_elem_of_In. Qed.

Lemma size_third L m :
  L <= 3 -> Normal.normalised L 3 m = true -> Normal.size m = 1%nat.
Proof.
  intros HL H%normalised_children. rewrite size_unfold.
  destruct (Z.ltb_spec 3 L); [lia |]. now rewrite H.
Qed.

Lemma size_second L m :
  L <= 3 -> Normal.normalised L 2 m = true ->
  Normal.size m = length (m :: if 3 <=? L then DataRetrieval.children m else []).
Proof.
  intros HL H%normalised_children. rewrite size_unfold. cbn [length]. f_equal.
  destruct (Z.ltb_spec 2 L).
  - destruct (Z.leb_spec 3 L); [| lia].
    rewrite <- sum_ones. apply sum_sizes. intros x Hx.
    apply (size_third L); [exact HL |]. now apply (normalised_forall L 3 _ x H).
  - rewrite H. now destruct (3 <=? L).
Qed.

Lemma size_first L m :
  L <= 3 -> Normal.normalised L 1 m = true ->
  Normal.size m
  = length (m :: flat_map (fun child =>
                             child :: if 3 <=? L then DataRetrieval.children child else [])
                   (DataRetrieval.children m)).
Proof.
  intros HL H%normalised_children. rewrite size_unfold. cbn [length]. f_equal.
  destruct (Z.ltb_spec 1 L).
  - rewrite length_flat_map. apply sum_sizes. intros x Hx.
    apply size_second; [exact HL |]. now apply (normalised_forall L 2 _ x H).
  - now rewrite H.
Qed.

(** X24. Every record that [normalizeData] keeps gets one link: when the
    configuration has at most three layers and [render()] returns for the
    items that [normalizeData] has made of an array, the links of the
    navigation are as many as the records of the first [layers] levels of
    the array. *)
Theorem records_to_links random_suffix elems e out e' nav :
  MenuConfig.layers config <= 3 ->
  DataRetrieval.normalizeData random_suffix (MenuConfig.layers config) (Arr elems) e
  = (Ok out, e') ->
  createPrimaryNav config out = Done nav ->
  length (links nav)
  = sum_list (map (Normal.recordsWithin
                     (Normal.levelsBelow (MenuConfig.layers config) 1)) elems).
Proof.
  intros HL Hdata H.
  destruct (normalizeData_count _ _ _ _ _ _ Hdata) as (<- & _).
  destruct (normalizeData_normalised _ _ _ _ _ _ Hdata) as [Hn _].
  apply primary_nav_links in H.
  rewrite <- (Forall2_length _ _ _ H). unfold shown.
  rewrite length_flat_map. symmetry. apply sum_sizes. intros x Hx.
  apply size_first; [exact HL |]. now apply (normalised_forall _ 1 _ x Hn).
Qed.

End DomFacts.

(** X21 at the main menu: its 28 items have a link each. *)
Lemma rendered_links_witness :
  exists nav,
    Dom.createPrimaryNav MainMenu.config MainMenu.menuData = Dom.Done nav /\
    Forall2 Dom.linkFor (Dom.shown 3 MainMenu.menuData) (Dom.links nav) /\
    length (Dom.shown 3 MainMenu.menuData) = 28%nat.
Proof.
  destruct (Dom.createPrimaryNav MainMenu.config MainMenu.menuData) as [nav|e] eqn:H.
  - exists nav. split; [reflexivity |]. split; [| vm_compute; reflexivity].
    apply (rendered_links MainMenu.config MainMenu.menuData nav H).
  - vm_compute in H. discriminate.
Defined.

(** X22 at the main menu: Human Resources, the first child of the second
    primary item, has a submenu. *)
Lemma rendered_submenus_witness :
  exists nav li,
    Dom.createPrimaryNav MainMenu.config MainMenu.menuData = Dom.Done nav /\
    Dom.listItem nav [1%nat; 0%nat] = Some li /\ Dom.triggerFor true true li.
Proof.
  destruct (Dom.createPrimaryNav MainMenu.config MainMenu.menuData) as [nav|e] eqn:H.
  - destruct (rendered_submenus MainMenu.config MainMenu.menuData nav H [1%nat; 0%nat])
      as [H1 H2].
    destruct (H2 ltac:(vm_compute; reflexivity)) as [li Hli].
    exists nav, li. split; [reflexivity |]. split; [exact Hli |]. exact (H1 li Hli).
  - vm_compute in H. discriminate.
Defined.

(** X23 at the main menu, which is rendered, and at a menu whose item has
    two class names, which is not. *)
Lemma render_class_names_witness :
  (exists nav, Dom.createPrimaryNav MainMenu.config MainMenu.menuData = Dom.Done nav) /\
  Dom.render MainMenu.config (MainMenu.itemsOf MainMenu.featured) MainMenu.container
  = (Dom.Element "div" [("id", "main-menu"); ("class", "sp-menu")] [] [],
     Some (Dom.DOMException "InvalidCharacterError")).
Proof.
  split.
  - pose proof (render_class_names MainMenu.config MainMenu.menuData MainMenu.container
                  ltac:(vm_compute; reflexivity)) as H.
    replace (forallb Dom.classAccepted _) with true in H by (vm_compute; reflexivity).
    destruct H as (nav & H & _). now exists nav.
  - pose proof (render_class_names MainMenu.config (MainMenu.itemsOf MainMenu.featured)
                  MainMenu.container ltac:(vm_compute; reflexivity)) as H.
    replace (forallb Dom.classAccepted _) with false in H by (vm_compute; reflexivity).
    rewrite H. reflexivity.
Defined.

(** X24 at the main menu: 28 records, 28 links. *)
Lemma records_to_links_witness :
  exists out e' nav,
    DataRetrieval.normalizeData Sample.noRandom 3 (Js.Arr MainMenu.data) Sample.freshEnv
    = (Js.Ok out, e') /\
    Dom.createPrimaryNav MainMenu.config out = Dom.Done nav /\
    length (Dom.links nav) = 28%nat.
Proof.
  destruct (DataRetrieval.normalizeData Sample.noRandom 3 (Js.Arr MainMenu.data)
              Sample.freshEnv) as [[out|err] e'] eqn:Hd.
  - destruct (Dom.createPrimaryNav MainMenu.config out) as [nav|e] eqn:Hn.
    + exists out, e', nav. split; [reflexivity |]. split; [exact Hn |].
      rewrite (records_to_links MainMenu.config Sample.noRandom MainMenu.data
                 Sample.freshEnv out e' nav ltac:(vm_compute; discriminate) Hd Hn).
      reflexivity.
    + vm_compute in Hd. injection Hd as <- <-. vm_compute in Hn. discriminate.
  - vm_compute in Hd. discriminate.
Defined.
